(** * ANTLR spiking-network simulator: a shallow embedding of [antlr.py]

    The development follows the Python source function by function.

    - [Py]: the fragment of Python the source relies on: exceptions, the
      error monad, local-variable frames, strings.
    - [Torch]: dense tensors over the rationals (the idealised scalars of
      the numeric library), with the shape discipline of the operations
      the source calls: broadcasting, in-place updates, views.
    - [Snn]: the class [ListSNNMulti]: construction, kernels, forward
      simulation, loss, gradient clipping and the NaN guard.

    Scalars are rationals ([Q]); rounding of machine floats is outside the
    model. *)

From Stdlib Require Import ZArith QArith Qminmax Qabs Qround Qpower List String Ascii Bool Arith Lia Lqa.
Import ListNotations.

Set Implicit Arguments.

Open Scope nat_scope.

(* ===================================================================== *)
(** * Python: exceptions, results, strings *)
(* ===================================================================== *)

Module Py.

(** The exception classes the source raises or triggers. *)
Inductive exn : Type :=
| ValueError (msg : string)
| TypeError (msg : string)
| UnboundLocalError (name : string)
| NameError (name : string)
| NotImplementedError (msg : string)
| RuntimeError (msg : string)
| AttributeError (name : string)
| AssertionError
| ZeroDivisionError
| IndexError.

Inductive result (A : Type) : Type :=
| Ok (a : A)
| Raise (e : exn).

Arguments Ok {A} a.
Arguments Raise {A} e.

Definition bind {A B : Type} (r : result A) (k : A -> result B) : result B :=
  match r with
  | Ok a => k a
  | Raise e => Raise e
  end.

Definition is_ok {A : Type} (r : result A) : bool :=
  match r with Ok _ => true | Raise _ => false end.

(** [for x in xs: acc = body(acc, x)], stopping at the first exception. *)
Fixpoint for_each {A S : Type} (xs : list A) (body : S -> A -> result S) (s : S)
  : result S :=
  match xs with
  | [] => Ok s
  | x :: xs' => bind (body s x) (for_each xs' body)
  end.

(** Reading a local variable of the running frame: a name that is assigned
    somewhere in a function body is local to it, and reading it before its
    first assignment raises [UnboundLocalError]. *)
Definition read_local {A : Type} (name : string) (slot : option A) : result A :=
  match slot with
  | Some v => Ok v
  | None => Raise (UnboundLocalError name)
  end.

(** [range(n)] for an integer [n]: empty when [n <= 0]. *)
Definition range (n : Z) : list nat := seq 0 (Z.to_nat n).

(** [math.floor(a / b)] on integers. *)
Definition floor_div (a b : Z) : result Z :=
  if (b =? 0)%Z then Raise ZeroDivisionError else Ok (a / b)%Z.

(** A value that is either one object or a Python list of them: the
    source stores a layer per entry for a single model and a list of
    layers per entry for a multi-model. *)
Inductive entry (A : Type) : Type :=
| One (a : A)
| Many (l : list A).

Arguments One {A} a.
Arguments Many {A} l.

(** The Python values that meet in the argument check of
    [apply_alpha_kernel]: a [torch.Size], an [int], a [bool]. *)
Inductive pyval : Type :=
| PyBool (b : bool)
| PyInt (z : Z)
| PySize (s : list nat).

(** [a == b]: a size (a tuple) is never equal to a number; [True == 1]. *)
Definition py_eq (a b : pyval) : bool :=
  match a, b with
  | PyBool x, PyBool y => Bool.eqb x y
  | PyInt x, PyInt y => (x =? y)%Z
  | PyBool x, PyInt y | PyInt y, PyBool x => ((if x then 1 else 0) =? y)%Z
  | PySize x, PySize y => if list_eq_dec Nat.eq_dec x y then true else false
  | _, _ => false
  end.

(** [a != b] *)
Definition py_ne (a b : pyval) : pyval := PyBool (negb (py_eq a b)).

(** [len(v)]: defined on sequences only. *)
Definition py_len (v : pyval) : result nat :=
  match v with
  | PySize s => Ok (List.length s)
  | PyBool _ => Raise (TypeError "object of type 'bool' has no len()")
  | PyInt _ => Raise (TypeError "object of type 'int' has no len()")
  end.

(** Reading an attribute that may not have been set. *)
Definition attr {A : Type} (name : string) (v : option A) : result A :=
  match v with
  | Some x => Ok x
  | None => Raise (AttributeError name)
  end.

End Py.


Export Py.

Declare Scope py_scope.
Delimit Scope py_scope with py.
Notation "x <- c ;; k" := (Py.bind c (fun x => k))
  (at level 100, c at next level, right associativity) : py_scope.
Notation "' pat <- c ;; k" := (Py.bind c (fun x => match x with pat => k end))
  (at level 100, pat pattern, c at next level, right associativity) : py_scope.
Notation "c ;; k" := (Py.bind c (fun _ => k))
  (at level 100, right associativity) : py_scope.

(** ** Strings: [in], [strip], [split], [int] *)

Module Str.

Open Scope string_scope.

(** [needle in hay] *)
Fixpoint contains (needle hay : string) : bool :=
  if String.prefix needle hay then true
  else match hay with
       | EmptyString => false
       | String _ rest => contains needle rest
       end.

Fixpoint mem_char (c : ascii) (chars : string) : bool :=
  match chars with
  | EmptyString => false
  | String d rest => if Ascii.eqb c d then true else mem_char c rest
  end.

Fixpoint lstrip (chars s : string) : string :=
  match s with
  | EmptyString => EmptyString
  | String c rest => if mem_char c chars then lstrip chars rest else s
  end.

Fixpoint rev_append (s acc : string) : string :=
  match s with
  | EmptyString => acc
  | String c rest => rev_append rest (String c acc)
  end.

Definition rev (s : string) : string := rev_append s EmptyString.

(** [s.strip(chars)]: drops from both ends every character that occurs in
    [chars] (a set of characters, not a prefix). *)
Definition strip (chars s : string) : string :=
  rev (lstrip chars (rev (lstrip chars s))).

(** [s.split(sep)] for a one-character separator. *)
Fixpoint split (sep : ascii) (s : string) : list string :=
  match s with
  | EmptyString => [EmptyString]
  | String c rest =>
      if Ascii.eqb c sep then EmptyString :: split sep rest
      else match split sep rest with
           | h :: t => String c h :: t
           | [] => [String c EmptyString]
           end
  end.

Definition whitespace : string :=
  String " " (String "009" (String "010" (String "011" (String "012"
    (String "013" EmptyString))))).

Definition digit_val (c : ascii) : option Z :=
  let n := nat_of_ascii c in
  if ((48 <=? n) && (n <=? 57))%nat then Some (Z.of_nat (n - 48)) else None.

(** Decimal digits, with single underscores allowed between digits. *)
Fixpoint parse_digits (s : string) (acc : Z) (after_digit : bool) : option Z :=
  match s with
  | EmptyString => if after_digit then Some acc else None
  | String c rest =>
      match digit_val c with
      | Some d => parse_digits rest (acc * 10 + d)%Z true
      | None =>
          if (Ascii.eqb c "_" && after_digit)%bool
          then parse_digits rest acc false
          else None
      end
  end.

(** [int(s)] for an ASCII string: surrounding whitespace, an optional
    sign, decimal digits. Python's [int] also takes the decimal digits
    and the white space of the other scripts of Unicode; a string with
    such a character is rejected here, so the function agrees with
    [int] on ASCII strings only. *)
Definition int (s : string) : result Z :=
  let body := strip whitespace s in
  let '(sign, digits) :=
    match body with
    | String "-" rest => ((-1)%Z, rest)
    | String "+" rest => (1%Z, rest)
    | _ => (1%Z, body)
    end in
  match parse_digits digits 0%Z false with
  | Some n => Ok (sign * n)%Z
  | None => Raise (ValueError "invalid literal for int() with base 10")
  end.

End Str.

(* ===================================================================== *)
(** * Tensors *)
(* ===================================================================== *)

(** Dense tensors in row-major order. The operations below model the
    numeric library's documented behaviour as far as the simulator uses
    it: result shapes, shape errors, broadcasting, and the rule that an
    in-place operation cannot change the shape of its target. *)

Module Torch.

Open Scope string_scope.
Open Scope nat_scope.

Record tensor : Type := mkT { shape : list nat; data : list Q }.

Definition numel_of (s : list nat) : nat := fold_right Nat.mul 1%nat s.
Definition numel (t : tensor) : nat := numel_of (shape t).
Definition rank (t : tensor) : nat := List.length (shape t).

(** All multi-indices of a shape, in storage order. *)
Fixpoint indices (s : list nat) : list (list nat) :=
  match s with
  | [] => [[]]
  | d :: s' => flat_map (fun i => map (cons i) (indices s')) (seq 0 d)
  end.

Fixpoint offset (s idx : list nat) : nat :=
  match s, idx with
  | _ :: s', i :: idx' => i * numel_of s' + offset s' idx'
  | _, _ => 0
  end.

Definition get (t : tensor) (idx : list nat) : Q :=
  nth (offset (shape t) idx) (data t) 0%Q.

Definition build (s : list nat) (f : list nat -> Q) : tensor :=
  mkT s (map f (indices s)).

Definition zeros (s : list nat) : tensor := build s (fun _ => 0%Q).

Definition qsum (l : list Q) : Q := fold_left Qplus l 0%Q.

Definition shape_eqb (a b : list nat) : bool :=
  if list_eq_dec Nat.eq_dec a b then true else false.

Fixpoint remove_at {A : Type} (d : nat) (l : list A) : list A :=
  match d, l with
  | _, [] => []
  | O, _ :: l' => l'
  | S d', x :: l' => x :: remove_at d' l'
  end.

Fixpoint insert_at {A : Type} (d : nat) (x : A) (l : list A) : list A :=
  match d, l with
  | O, _ => x :: l
  | S d', y :: l' => y :: insert_at d' x l'
  | S _, [] => [x]
  end.

Fixpoint replace_at {A : Type} (d : nat) (x : A) (l : list A) : list A :=
  match d, l with
  | _, [] => []
  | O, _ :: l' => x :: l'
  | S d', y :: l' => y :: replace_at d' x l'
  end.

(** ** Elementwise operations *)

Definition map_t (f : Q -> Q) (t : tensor) : tensor :=
  mkT (shape t) (map f (data t)).

(** [t * q] for a Python scalar [q] *)
Definition scale (q : Q) (t : tensor) : tensor := map_t (fun x => x * q)%Q t.

(** [1 - t] *)
Definition one_minus (t : tensor) : tensor := map_t (fun x => 1 - x)%Q t.

(** [torch.clamp(t, min=m)] *)
Definition clamp_min (m : Q) (t : tensor) : tensor := map_t (fun x => Qmax x m) t.

(** [torch.clamp(t, lo, hi)]: [min(max(x, lo), hi)] *)
Definition clamp (lo hi : Q) (t : tensor) : tensor :=
  map_t (fun x => Qmin (Qmax x lo) hi) t.

(** [(t >= q).float()] *)
Definition ge_float (q : Q) (t : tensor) : tensor :=
  map_t (fun x => if Qle_bool q x then 1 else 0)%Q t.

(** [(t > q).all()] *)
Definition all_gt (q : Q) (t : tensor) : bool :=
  forallb (fun x => negb (Qle_bool x q)) (data t).

(** Broadcasting of two shapes, aligned at the last dimension. *)
Fixpoint broadcast_rev (a b : list nat) : option (list nat) :=
  match a, b with
  | [], _ => Some b
  | _, [] => Some a
  | x :: a', y :: b' =>
      match broadcast_rev a' b' with
      | None => None
      | Some r =>
          if (x =? y)%nat then Some (x :: r)
          else if (x =? 1)%nat then Some (y :: r)
          else if (y =? 1)%nat then Some (x :: r)
          else None
      end
  end.

Definition broadcast_shapes (a b : list nat) : option (list nat) :=
  option_map (@List.rev nat) (broadcast_rev (List.rev a) (List.rev b)).

(** The index of the source element that lands at [idx] after a tensor of
    shape [s] has been broadcast. *)
Definition bindex (s idx : list nat) : list nat :=
  map (fun di => if (fst di =? 1)%nat then 0%nat else snd di)
      (combine s (skipn (List.length idx - List.length s) idx)).

Definition bget (t : tensor) (idx : list nat) : Q := get t (bindex (shape t) idx).

Definition shape_error : exn :=
  RuntimeError "The size of tensor a must match the size of tensor b".

Definition binop (f : Q -> Q -> Q) (a b : tensor) : result tensor :=
  match broadcast_shapes (shape a) (shape b) with
  | Some s => Ok (build s (fun idx => f (bget a idx) (bget b idx)))
  | None => Raise shape_error
  end.

Definition add : tensor -> tensor -> result tensor := binop Qplus.
Definition sub : tensor -> tensor -> result tensor := binop Qminus.
Definition mul : tensor -> tensor -> result tensor := binop Qmult.

Definition inplace_error : exn :=
  RuntimeError "output with shape doesn't match the broadcast shape".

(** [a op= b]: the result must have the shape of [a]; the value returned
    is the new content of the object [a]. *)
Definition inplace (f : Q -> Q -> Q) (a b : tensor) : result tensor :=
  (r <- binop f a b ;;
   if shape_eqb (shape r) (shape a) then Ok r else Raise inplace_error)%py.

Definition iadd : tensor -> tensor -> result tensor := inplace Qplus.
Definition imul : tensor -> tensor -> result tensor := inplace Qmult.

(** ** Shapes: reshape, views, indexing *)

(** A target shape with at most one [-1], resolved against [n] elements. *)
Definition resolve_shape (n : nat) (target : list Z) : option (list nat) :=
  let known := filter (fun z => negb (z =? -1)%Z) target in
  let p := numel_of (map Z.to_nat known) in
  if negb (forallb (fun z => (0 <=? z)%Z) known) then None
  else match (List.length target - List.length known)%nat with
       | 0%nat => if (p =? n)%nat then Some (map Z.to_nat target) else None
       | 1%nat =>
           if (negb (p =? 0) && (n mod p =? 0))%nat
           then Some (map (fun z => if (z =? -1)%Z then (n / p)%nat else Z.to_nat z) target)
           else None
       | _ => None
       end.

(** [t.reshape(target)] and [t.view(target)] of a contiguous tensor:
    same storage, new shape. *)
Definition reshape (target : list Z) (t : tensor) : result tensor :=
  match resolve_shape (numel t) target with
  | Some s => Ok (mkT s (data t))
  | None => Raise (RuntimeError "shape is invalid for input size")
  end.

Definition zshape (t : tensor) : list Z := map Z.of_nat (shape t).

(** [t[:, ..., i]] with the index at dimension [d]. *)
Definition select (d i : nat) (t : tensor) : result tensor :=
  if ((d <? rank t) && (i <? nth d (shape t) 0))%nat
  then Ok (build (remove_at d (shape t)) (fun idx => get t (insert_at d i idx)))
  else Raise IndexError.

(** [t[:, ..., :n]] with the slice at dimension [d] (slices clip). *)
Definition take_dim (d n : nat) (t : tensor) : result tensor :=
  if (d <? rank t)%nat
  then Ok (build (replace_at d (Nat.min n (nth d (shape t) 0)) (shape t)) (get t))
  else Raise IndexError.

(** [t[:, ..., -1]]: the last entry along dimension [d]. *)
Definition select_last (d : nat) (t : tensor) : result tensor :=
  match nth d (shape t) 0 with
  | O => Raise IndexError
  | S i => select d i t
  end.

Fixpoint index_of (j : nat) (dims : list nat) : nat :=
  match dims with
  | [] => 0
  | d :: rest => if (d =? j)%nat then 0 else S (index_of j rest)
  end.

Definition is_permutation (dims : list nat) (r : nat) : bool :=
  ((List.length dims =? r)%nat
   && forallb (fun j => existsb (Nat.eqb j) dims) (seq 0 r))%bool.

(** [t.permute(dims)] *)
Definition permute (dims : list nat) (t : tensor) : result tensor :=
  if is_permutation dims (rank t)
  then Ok (build (map (fun d => nth d (shape t) 0) dims)
             (fun idx => get t (map (fun j => nth (index_of j dims) idx 0) (seq 0 (rank t)))))
  else Raise (RuntimeError "permute: number of dims don't match")
.

(** [torch.stack(ts)] along a new first dimension. *)
Definition stack (ts : list tensor) : result tensor :=
  match ts with
  | [] => Raise (RuntimeError "stack expects a non-empty TensorList")
  | t0 :: _ =>
      if forallb (fun t => shape_eqb (shape t) (shape t0)) ts
      then Ok (mkT (List.length ts :: shape t0) (flat_map data ts))
      else Raise (RuntimeError "stack expects each tensor to be equal size")
  end.

(** [t.unsqueeze(d)] *)
Definition unsqueeze (d : nat) (t : tensor) : result tensor :=
  if (d <=? rank t)%nat then Ok (mkT (insert_at d 1%nat (shape t)) (data t))
  else Raise IndexError.

(** ** Linear algebra, convolution, pooling *)

(** [torch.bmm(a, b)] *)
Definition bmm (a b : tensor) : result tensor :=
  match shape a, shape b with
  | [ba; n; m], [bb; m'; p] =>
      if ((ba =? bb) && (m =? m'))%nat
      then Ok (build [ba; n; p] (fun idx =>
                 match idx with
                 | [i; j; k] => qsum (map (fun x => get a [i; j; x] * get b [i; x; k])%Q (seq 0 m))
                 | _ => 0%Q
                 end))
      else Raise shape_error
  | _, _ => Raise (RuntimeError "batch1 must be a 3D tensor")
  end.

(** [torch.mm(a, b)] *)
Definition mm (a b : tensor) : result tensor :=
  match shape a, shape b with
  | [n; m], [m'; p] =>
      if (m =? m')%nat
      then Ok (build [n; p] (fun idx =>
                 match idx with
                 | [j; k] => qsum (map (fun x => get a [j; x] * get b [x; k])%Q (seq 0 m))
                 | _ => 0%Q
                 end))
      else Raise shape_error
  | _, _ => Raise (RuntimeError "self must be a matrix")
  end.

(** [nn.Linear(..., bias=False)(x)]: [x @ w.T] over the last dimension. *)
Definition linear (w x : tensor) : result tensor :=
  match shape w, List.rev (shape x) with
  | [o; i], i' :: pre_rev =>
      if (i =? i')%nat
      then Ok (build (List.rev pre_rev ++ [o]) (fun idx =>
                 qsum (map (fun k => get x (removelast idx ++ [k]) * get w [last idx 0%nat; k])%Q
                         (seq 0 i))))
      else Raise shape_error
  | _, _ => Raise shape_error
  end.

(** The value of a 4-D input at a position of its zero-padded frame. *)
Definition padded_get (p : nat) (x : tensor) (b c y z : nat) : Q :=
  match shape x with
  | [_; _; h; w] =>
      if ((p <=? y) && (y <? h + p) && (p <=? z) && (z <? w + p))%nat
      then get x [b; c; y - p; z - p]%nat else 0%Q
  | _ => 0%Q
  end.

(** [nn.Conv2d(..., padding=p, bias=False)(x)] on a batched input. *)
Definition conv2d (w : tensor) (p : nat) (x : tensor) : result tensor :=
  match shape w, shape x with
  | [co; ci; kh; kw], [b; ci'; h; wd] =>
      if ((ci =? ci') && (kh <=? h + 2 * p) && (kw <=? wd + 2 * p))%nat
      then Ok (build [b; co; h + 2 * p - kh + 1; wd + 2 * p - kw + 1]%nat (fun idx =>
                 match idx with
                 | [n; o; i; j] =>
                     qsum (flat_map (fun c => flat_map (fun di => map (fun dj =>
                            padded_get p x n c (i + di) (j + dj) * get w [o; c; di; dj])%Q
                            (seq 0 kw)) (seq 0 kh)) (seq 0 ci))
                 | _ => 0%Q
                 end))
      else Raise shape_error
  | _, _ => Raise shape_error
  end.

(** The [k] x [k] window of a 4-D input below output position [(i, j)]. *)
Definition window (k : nat) (x : tensor) (n c i j : nat) : list (nat * Q) :=
  flat_map (fun di => map (fun dj =>
      (((i * k + di) * nth 3 (shape x) 0 + (j * k + dj))%nat,
       get x [n; c; i * k + di; j * k + dj]%nat)) (seq 0 k)) (seq 0 k).

(** [nn.AvgPool2d(k)(x)] on a batched input. *)
Definition avg_pool2d (k : nat) (x : tensor) : result tensor :=
  match shape x with
  | [b; c; h; w] =>
      if ((0 <? k) && (0 <? h / k) && (0 <? w / k))%nat
      then Ok (build [b; c; h / k; w / k]%nat (fun idx =>
                 match idx with
                 | [n; ch; i; j] =>
                     (qsum (map snd (window k x n ch i j)) / inject_Z (Z.of_nat (k * k)))%Q
                 | _ => 0%Q
                 end))
      else Raise (RuntimeError "Output size is too small")
  | _ => Raise shape_error
  end.

(** The first maximal entry of a non-empty window, with its position. *)
Definition arg_max (l : list (nat * Q)) : nat * Q :=
  match l with
  | [] => (0%nat, 0%Q)
  | x :: rest =>
      fold_left (fun best y => if Qle_bool (snd y) (snd best) then best else y) rest x
  end.

(** [nn.MaxPool2d(k, return_indices=True)(x)]: values and the flat
    position, within its plane, each value was taken from. *)
Definition max_pool2d (k : nat) (x : tensor) : result (tensor * tensor) :=
  match shape x with
  | [b; c; h; w] =>
      if ((0 <? k) && (0 <? h / k) && (0 <? w / k))%nat
      then
        let at_ (idx : list nat) :=
          match idx with
          | [n; ch; i; j] => arg_max (window k x n ch i j)
          | _ => (0%nat, 0%Q)
          end in
        Ok (build [b; c; h / k; w / k]%nat (fun idx => snd (at_ idx)),
            build [b; c; h / k; w / k]%nat (fun idx => inject_Z (Z.of_nat (fst (at_ idx)))))
      else Raise (RuntimeError "Output size is too small")
  | _ => Raise shape_error
  end.

(** [nn.Flatten()(x)]: all dimensions after the first are merged. *)
Definition flatten (x : tensor) : result tensor :=
  match shape x with
  | d :: (_ :: _) as rest => Ok (mkT [d; numel_of rest] (data x))
  | _ => Raise IndexError
  end.

(** ** Reductions *)

Definition sum_all (t : tensor) : Q := qsum (data t).

(** [t.sum(d)] *)
Definition sum_dim (d : nat) (t : tensor) : result tensor :=
  if (d <? rank t)%nat
  then Ok (build (remove_at d (shape t)) (fun idx =>
             qsum (map (fun i => get t (insert_at d i idx)) (seq 0 (nth d (shape t) 0)))))
  else Raise IndexError.

Definition qmax_list (l : list Q) : option Q :=
  match l with
  | [] => None
  | x :: rest => Some (fold_left Qmax rest x)
  end.

(** [t.max()] of all entries; an empty tensor has no maximum. *)
Definition max_all (t : tensor) : result Q :=
  match qmax_list (data t) with
  | Some m => Ok m
  | None => Raise (RuntimeError "max(): Expected reduction dim to be specified for input.numel() == 0")
  end.

(** [t.max(dim=d).values] *)
Definition max_dim (d : nat) (t : tensor) : result tensor :=
  if ((d <? rank t) && (0 <? nth d (shape t) 0))%nat
  then Ok (build (remove_at d (shape t)) (fun idx =>
             match qmax_list (map (fun i => get t (insert_at d i idx)) (seq 0 (nth d (shape t) 0))) with
             | Some m => m
             | None => 0%Q
             end))
  else Raise IndexError.

(** ** Tensor construction *)

(** [torch.pow(a, e)] for a scalar base and the integer exponents [exps]
    (as produced by [torch.arange]); [0 ^ 0 = 1]. *)
Definition pow_seq (a : Q) (exps : list nat) : tensor :=
  mkT [List.length exps] (map (fun k => Qpower a (Z.of_nat k)) exps).

(** [t[t > q]]: the selected entries, as a vector. *)
Definition mask_gt (q : Q) (t : tensor) : tensor :=
  let kept := filter (fun x => negb (Qle_bool x q)) (data t) in
  mkT [List.length kept] kept.

(** [torch.cat((a, b), d)] *)
Definition cat (d : nat) (a b : tensor) : result tensor :=
  if ((d <? rank a)%nat && (rank a =? rank b)%nat
      && shape_eqb (remove_at d (shape a)) (remove_at d (shape b)))%bool
  then
    let na := nth d (shape a) 0 in
    Ok (build (replace_at d (na + nth d (shape b) 0) (shape a)) (fun idx =>
          let i := nth d idx 0 in
          if (i <? na)%nat then get a idx else get b (replace_at d (i - na) idx)))
  else Raise shape_error.

(** [e[t] = v] on a vector. *)
Definition set_item (t : nat) (v : Q) (e : tensor) : result tensor :=
  match shape e with
  | [n] => if (t <? n)%nat then Ok (mkT [n] (replace_at t v (data e))) else Raise IndexError
  | _ => Raise IndexError
  end.

(** [t.flip(d)] *)
Definition flip (d : nat) (t : tensor) : result tensor :=
  if (d <? rank t)%nat
  then Ok (build (shape t) (fun idx =>
             get t (replace_at d (nth d (shape t) 0 - 1 - nth d idx 0) idx)))
  else Raise IndexError.

(** [F.conv1d(x, w, padding=p)]: cross-correlation of a zero-padded
    input [(n, c, len)] with a filter bank [(o, c, k)]. *)
Definition conv1d (x w : tensor) (p : Z) : result tensor :=
  match shape x, shape w with
  | [n; c; len], [o; c'; k] =>
      if ((0 <=? p)%Z && (c =? c') && (k <=? len + 2 * Z.to_nat p) && (0 <? k))%bool
      then
        let pad := Z.to_nat p in
        Ok (build [n; o; len + 2 * pad - k + 1] (fun idx =>
              match idx with
              | [b; f; i] =>
                  qsum (flat_map (fun ch => map (fun j =>
                          Qmult (if ((pad <=? i + j) && (i + j <? len + pad))%bool
                                 then get x [b; ch; i + j - pad] else 0%Q)
                                (get w [f; ch; j]))
                          (seq 0 k)) (seq 0 c))
              | _ => 0%Q
              end))
      else Raise shape_error
  | _, _ => Raise shape_error
  end.

Definition qmin_list (l : list Q) : option Q :=
  match l with
  | [] => None
  | x :: rest => Some (fold_left Qmin rest x)
  end.

(** [t.min(dim=d).values] *)
Definition min_dim (d : nat) (t : tensor) : result tensor :=
  if ((d <? rank t) && (0 <? nth d (shape t) 0))%nat
  then Ok (build (remove_at d (shape t)) (fun idx =>
             match qmin_list (map (fun i => get t (insert_at d i idx)) (seq 0 (nth d (shape t) 0))) with
             | Some m => m
             | None => 0%Q
             end))
  else Raise IndexError.

(** [t.min()] *)
Definition min_all (t : tensor) : result Q :=
  match qmin_list (data t) with
  | Some m => Ok m
  | None => Raise (RuntimeError "min(): Expected reduction dim to be specified for input.numel() == 0")
  end.

(** [t.mean(d)] *)
Definition mean_dim (d : nat) (t : tensor) : result tensor :=
  if (d <? rank t)%nat
  then Ok (build (remove_at d (shape t)) (fun idx =>
             Qdiv (qsum (map (fun i => get t (insert_at d i idx)) (seq 0 (nth d (shape t) 0))))
                  (inject_Z (Z.of_nat (nth d (shape t) 0)))))
  else Raise IndexError.

(** [t.mean()] *)
Definition mean_all (t : tensor) : Q :=
  Qdiv (qsum (data t)) (inject_Z (Z.of_nat (List.length (data t)))).

(** [t.int()]: truncation towards zero. *)
Definition to_int (t : tensor) : tensor :=
  map_t (fun x => inject_Z (Z.quot (Qnum x) (Zpos (Qden x)))) t.

(** [torch.arange(n, 0, -1)]: [n, n-1, .., 1]. *)
Definition arange_down (n : nat) : tensor :=
  mkT [n] (map (fun i => inject_Z (Z.of_nat (n - i))) (seq 0 n)).

(** [t.reshape(t.shape[0] * t.shape[1], *t.shape[2:])] *)
Definition merge_first_two (t : tensor) : result tensor :=
  match shape t with
  | a :: b :: rest => reshape (map Z.of_nat ((a * b)%nat :: rest)) t
  | _ => Raise IndexError
  end.

(** [t.reshape(m, int(t.shape[0] / m), *t.shape[1:])] *)
Definition split_first (m : Z) (t : tensor) : result tensor :=
  match shape t with
  | a :: rest =>
      if (m =? 0)%Z then Raise ZeroDivisionError
      else reshape (m :: Z.quot (Z.of_nat a) m :: map Z.of_nat rest) t
  | [] => Raise IndexError
  end.

End Torch.



(* ===================================================================== *)
(** * The network: [ListSNNMulti] *)
(* ===================================================================== *)

Module Snn.

Import Torch.

Open Scope string_scope.
Open Scope list_scope.
Open Scope nat_scope.

(** ** Objects *)

(** [nn.Parameter]: a tensor and its [grad] attribute. *)
Record param : Type := mkParam { value : tensor; grad : option tensor }.

(** The layer modules the builder creates. Convolutional and linear
    layers are created with [bias=False]; their bias is a separate
    parameter kept in [state_v_bs]. *)
Inductive layer : Type :=
| Conv2d (weight : param) (padding : Z)
| Linear (weight : param)
| AvgPool2d (kernel_size : Z)
| MaxPool2d (kernel_size : Z) (max_index_list : list tensor)
| Flatten.

(** What a slot of a voltage trace refers to: a tensor of its own, or the
    storage of the bias parameter of layer [l] seen under shape [vshape]
    (the parameter itself, or a [view] of it). Operations in place on the
    second kind write to the parameter. *)
Inductive tref : Type :=
| Own (t : tensor)
| BiasView (l : nat) (vshape : list nat).

(** The attributes copied from [model_config] onto the instance. *)
Record config : Type := mkConfig {
  multi_model : bool;  (* several independently weighted replicas *)
  num_models : Z;
  network_size : list string;  (* input shape, then one tag per layer *)
  target_type : string;  (* loss rule: count, train or latency *)
  time_length : nat;  (* time horizon T *)
  alpha_i : Q;  (* decay of the synaptic current *)
  alpha_v : Q;  (* decay of the membrane potential *)
  alpha_exp : Q;  (* decay of the alpha kernel *)
  beta_auto : bool;  (* derive the normalisation constants *)
  beta_i : Q;
  beta_v : Q;
  beta_bias : Q;
  grad_clip : entry Q  (* one clip value, or a list of them *)
}.

Definition set_alpha_exp (v : Q) (r : config) : config :=
  mkConfig (multi_model r) (num_models r) (network_size r) (target_type r) (time_length r) (alpha_i r) (alpha_v r) v (beta_auto r) (beta_i r) (beta_v r) (beta_bias r) (grad_clip r).
Definition set_beta_i (v : Q) (r : config) : config :=
  mkConfig (multi_model r) (num_models r) (network_size r) (target_type r) (time_length r) (alpha_i r) (alpha_v r) (alpha_exp r) (beta_auto r) v (beta_v r) (beta_bias r) (grad_clip r).
Definition set_beta_v (v : Q) (r : config) : config :=
  mkConfig (multi_model r) (num_models r) (network_size r) (target_type r) (time_length r) (alpha_i r) (alpha_v r) (alpha_exp r) (beta_auto r) (beta_i r) v (beta_bias r) (grad_clip r).
Definition set_beta_bias (v : Q) (r : config) : config :=
  mkConfig (multi_model r) (num_models r) (network_size r) (target_type r) (time_length r) (alpha_i r) (alpha_v r) (alpha_exp r) (beta_auto r) (beta_i r) (beta_v r) v (grad_clip r).

(** The attributes set by [_init_kernels]; [None] while an attribute is not set. *)
Record kernels : Type := mkKernels {
  alpha_extend : option nat;
  alpha_kernel : option tensor;
  alpha_kernel_prime : option tensor;
  epsilon : option tensor;
  epsilon_prime : option tensor
}.

Definition set_alpha_extend (v : option nat) (r : kernels) : kernels :=
  mkKernels v (alpha_kernel r) (alpha_kernel_prime r) (epsilon r) (epsilon_prime r).
Definition set_alpha_kernel (v : option tensor) (r : kernels) : kernels :=
  mkKernels (alpha_extend r) v (alpha_kernel_prime r) (epsilon r) (epsilon_prime r).
Definition set_alpha_kernel_prime (v : option tensor) (r : kernels) : kernels :=
  mkKernels (alpha_extend r) (alpha_kernel r) v (epsilon r) (epsilon_prime r).
Definition set_epsilon (v : option tensor) (r : kernels) : kernels :=
  mkKernels (alpha_extend r) (alpha_kernel r) (alpha_kernel_prime r) v (epsilon_prime r).
Definition set_epsilon_prime (v : option tensor) (r : kernels) : kernels :=
  mkKernels (alpha_extend r) (alpha_kernel r) (alpha_kernel_prime r) (epsilon r) v.

(** The attributes set by [_init_layers]. *)
Record arch : Type := mkArch {
  num_layer : Z;
  layers : list (entry layer);
  state_v_bs : list (entry (option param));  (* the bias of each layer *)
  fmap_shape_list : list (list Z);
  fmap_type_list : list string
}.

Definition set_layers (v : list (entry layer)) (r : arch) : arch :=
  mkArch (num_layer r) v (state_v_bs r) (fmap_shape_list r) (fmap_type_list r).
Definition set_state_v_bs (v : list (entry (option param))) (r : arch) : arch :=
  mkArch (num_layer r) (layers r) v (fmap_shape_list r) (fmap_type_list r).

(** The per-cycle attributes written by [forward]. *)
Record trace : Type := mkTrace {
  input : option tensor;
  output_s_cum : option tensor;  (* cumulative output spikes (latency mode) *)
  state_i : list (list tensor);  (* I: layer x time *)
  state_v : list (list tref);  (* V: layer x time *)
  state_v_prime : list (list tref);  (* V': layer x time *)
  state_s : list (list tensor);  (* S: layer x time *)
  weight_list : list (option tensor);  (* stacked weights of a multi-model *)
  bias_list : list (option tensor);  (* stacked biases of a multi-model *)
  term_length : option nat;  (* number of simulated steps *)
  output : option tensor;
  output_each_model : option tensor;
  num_spike_total : option tensor;
  num_spike_nec : option tensor;
  first_stime_min : option tensor;
  first_stime_mean : option tensor
}.

Definition set_input (v : option tensor) (r : trace) : trace :=
  mkTrace v (output_s_cum r) (state_i r) (state_v r) (state_v_prime r) (state_s r) (weight_list r) (bias_list r) (term_length r) (output r) (output_each_model r) (num_spike_total r) (num_spike_nec r) (first_stime_min r) (first_stime_mean r).
Definition set_output_s_cum (v : option tensor) (r : trace) : trace :=
  mkTrace (input r) v (state_i r) (state_v r) (state_v_prime r) (state_s r) (weight_list r) (bias_list r) (term_length r) (output r) (output_each_model r) (num_spike_total r) (num_spike_nec r) (first_stime_min r) (first_stime_mean r).
Definition set_state_i (v : list (list tensor)) (r : trace) : trace :=
  mkTrace (input r) (output_s_cum r) v (state_v r) (state_v_prime r) (state_s r) (weight_list r) (bias_list r) (term_length r) (output r) (output_each_model r) (num_spike_total r) (num_spike_nec r) (first_stime_min r) (first_stime_mean r).
Definition set_state_v (v : list (list tref)) (r : trace) : trace :=
  mkTrace (input r) (output_s_cum r) (state_i r) v (state_v_prime r) (state_s r) (weight_list r) (bias_list r) (term_length r) (output r) (output_each_model r) (num_spike_total r) (num_spike_nec r) (first_stime_min r) (first_stime_mean r).
Definition set_state_v_prime (v : list (list tref)) (r : trace) : trace :=
  mkTrace (input r) (output_s_cum r) (state_i r) (state_v r) v (state_s r) (weight_list r) (bias_list r) (term_length r) (output r) (output_each_model r) (num_spike_total r) (num_spike_nec r) (first_stime_min r) (first_stime_mean r).
Definition set_state_s (v : list (list tensor)) (r : trace) : trace :=
  mkTrace (input r) (output_s_cum r) (state_i r) (state_v r) (state_v_prime r) v (weight_list r) (bias_list r) (term_length r) (output r) (output_each_model r) (num_spike_total r) (num_spike_nec r) (first_stime_min r) (first_stime_mean r).
Definition set_weight_list (v : list (option tensor)) (r : trace) : trace :=
  mkTrace (input r) (output_s_cum r) (state_i r) (state_v r) (state_v_prime r) (state_s r) v (bias_list r) (term_length r) (output r) (output_each_model r) (num_spike_total r) (num_spike_nec r) (first_stime_min r) (first_stime_mean r).
Definition set_bias_list (v : list (option tensor)) (r : trace) : trace :=
  mkTrace (input r) (output_s_cum r) (state_i r) (state_v r) (state_v_prime r) (state_s r) (weight_list r) v (term_length r) (output r) (output_each_model r) (num_spike_total r) (num_spike_nec r) (first_stime_min r) (first_stime_mean r).
Definition set_term_length (v : option nat) (r : trace) : trace :=
  mkTrace (input r) (output_s_cum r) (state_i r) (state_v r) (state_v_prime r) (state_s r) (weight_list r) (bias_list r) v (output r) (output_each_model r) (num_spike_total r) (num_spike_nec r) (first_stime_min r) (first_stime_mean r).
Definition set_output (v : option tensor) (r : trace) : trace :=
  mkTrace (input r) (output_s_cum r) (state_i r) (state_v r) (state_v_prime r) (state_s r) (weight_list r) (bias_list r) (term_length r) v (output_each_model r) (num_spike_total r) (num_spike_nec r) (first_stime_min r) (first_stime_mean r).
Definition set_output_each_model (v : option tensor) (r : trace) : trace :=
  mkTrace (input r) (output_s_cum r) (state_i r) (state_v r) (state_v_prime r) (state_s r) (weight_list r) (bias_list r) (term_length r) (output r) v (num_spike_total r) (num_spike_nec r) (first_stime_min r) (first_stime_mean r).
Definition set_num_spike_total (v : option tensor) (r : trace) : trace :=
  mkTrace (input r) (output_s_cum r) (state_i r) (state_v r) (state_v_prime r) (state_s r) (weight_list r) (bias_list r) (term_length r) (output r) (output_each_model r) v (num_spike_nec r) (first_stime_min r) (first_stime_mean r).
Definition set_num_spike_nec (v : option tensor) (r : trace) : trace :=
  mkTrace (input r) (output_s_cum r) (state_i r) (state_v r) (state_v_prime r) (state_s r) (weight_list r) (bias_list r) (term_length r) (output r) (output_each_model r) (num_spike_total r) v (first_stime_min r) (first_stime_mean r).
Definition set_first_stime_min (v : option tensor) (r : trace) : trace :=
  mkTrace (input r) (output_s_cum r) (state_i r) (state_v r) (state_v_prime r) (state_s r) (weight_list r) (bias_list r) (term_length r) (output r) (output_each_model r) (num_spike_total r) (num_spike_nec r) v (first_stime_mean r).
Definition set_first_stime_mean (v : option tensor) (r : trace) : trace :=
  mkTrace (input r) (output_s_cum r) (state_i r) (state_v r) (state_v_prime r) (state_s r) (weight_list r) (bias_list r) (term_length r) (output r) (output_each_model r) (num_spike_total r) (num_spike_nec r) (first_stime_min r) v.

(** The attributes written by [calc_loss]. *)
Record loss_state : Type := mkLoss {
  batch_size : option nat;
  diff : option tensor;
  L : option tensor;
  loss : option tensor
}.

Definition set_batch_size (v : option nat) (r : loss_state) : loss_state :=
  mkLoss v (diff r) (L r) (loss r).
Definition set_diff (v : option tensor) (r : loss_state) : loss_state :=
  mkLoss (batch_size r) v (L r) (loss r).
Definition set_L (v : option tensor) (r : loss_state) : loss_state :=
  mkLoss (batch_size r) (diff r) v (loss r).
Definition set_loss (v : option tensor) (r : loss_state) : loss_state :=
  mkLoss (batch_size r) (diff r) (L r) v.

(** An instance of [ListSNNMulti]: its attributes, grouped by the method that owns them. *)
Record net : Type := mkNet {
  cfg : config;
  kern : kernels;
  net_arch : arch;
  tr : trace;
  ls : loss_state
}.

Definition set_cfg (v : config) (r : net) : net :=
  mkNet v (kern r) (net_arch r) (tr r) (ls r).
Definition set_kern (v : kernels) (r : net) : net :=
  mkNet (cfg r) v (net_arch r) (tr r) (ls r).
Definition set_net_arch (v : arch) (r : net) : net :=
  mkNet (cfg r) (kern r) v (tr r) (ls r).
Definition set_tr (v : trace) (r : net) : net :=
  mkNet (cfg r) (kern r) (net_arch r) v (ls r).
Definition set_ls (v : loss_state) (r : net) : net :=
  mkNet (cfg r) (kern r) (net_arch r) (tr r) v.

(** ** Utilities (lines 22-56 of the source) *)

(** [isinstance(layer, nn.Conv2d) or isinstance(layer, nn.Linear)]; the
    argument is whatever the caller passes: a module or a Python list. *)
Definition is_conv2d_or_linear (layer : entry layer) : bool :=
  match layer with
  | One (Conv2d _ _) | One (Linear _) => true
  | _ => false
  end.

Definition is_apool_or_flatten (layer : entry layer) : bool :=
  match layer with
  | One (AvgPool2d _) | One Flatten => true
  | _ => false
  end.

Definition is_max_pool (layer : entry layer) : bool :=
  match layer with
  | One (MaxPool2d _ _) => true
  | _ => false
  end.

(** [clamp_grad(obj, grad_clip)]: [obj.grad] is replaced by its clamp to
    [-|grad_clip|, +|grad_clip|]. *)
Definition clamp_grad (obj : param) (grad_clip : Q) : result param :=
  let abs_gc := Qabs grad_clip in
  match grad obj with
  | Some g => Ok (mkParam (value obj) (Some (clamp (- abs_gc) abs_gc g)))
  | None => Raise (TypeError "clamp(): argument 'input' must be Tensor, not NoneType")
  end.

(** [self.no_mm_support(layer_type)] *)
Definition no_mm_support (self : config) (layer_type : string) : result unit :=
  if multi_model self
  then Raise (NotImplementedError
                ("layer type '" ++ layer_type ++ "' currently unsupported for multi-models")%string)
  else Ok tt.

(** ** Python sequences *)

(** A list comprehension whose element expression may raise. *)
Fixpoint map_result {A B : Type} (f : A -> result B) (l : list A) : result (list B) :=
  match l with
  | [] => Ok []
  | x :: l' => (y <- f x ;; ys <- map_result f l' ;; Ok (y :: ys))%py
  end.

(** [a, b = seq] *)
Definition unpack2 {A : Type} (l : list A) : result (A * A) :=
  match l with
  | [a; b] => Ok (a, b)
  | _ => Raise (ValueError "wrong number of values to unpack (expected 2)")
  end.

(** [a, b, c = seq] *)
Definition unpack3 {A : Type} (l : list A) : result (A * A * A) :=
  match l with
  | [a; b; c] => Ok (a, b, c)
  | _ => Raise (ValueError "wrong number of values to unpack (expected 3)")
  end.

(** [l[i]] for [0 <= i] *)
Definition item {A : Type} (l : list A) (i : nat) : result A :=
  match nth_error l i with
  | Some x => Ok x
  | None => Raise IndexError
  end.

(** [l[i]] for any integer [i]: negative indices count from the end. *)
Definition item_z {A : Type} (l : list A) (i : Z) : result A :=
  if (0 <=? i)%Z then item l (Z.to_nat i)
  else if (Z.of_nat (List.length l) + i <? 0)%Z then Raise IndexError
  else item l (Z.to_nat (Z.of_nat (List.length l) + i)).

(** [l[-1]] *)
Definition last_item {A : Type} (l : list A) : result A := item_z l (-1).

(** [l[i] = x] for [0 <= i] *)
Definition set_item_at {A : Type} (l : list A) (i : nat) (x : A) : result (list A) :=
  if i <? List.length l then Ok (replace_at i x l) else Raise IndexError.

(** [l[-1] = x] *)
Definition set_last {A : Type} (l : list A) (x : A) : result (list A) :=
  match List.length l with
  | O => Raise IndexError
  | S n => Ok (replace_at n x l)
  end.

(** ** Kernels ([_init_kernels], lines 101-168) *)

Definition VALID_TARGETS : list string := ["count"; "train"; "latency"].

Definition in_list (x : string) (l : list string) : bool := existsb (String.eqb x) l.

(** The alpha kernel and its centred difference (lines 115-135). *)
Definition init_alpha_kernel (self : net) : result net :=
  let c := cfg self in
  if in_list (target_type c) ["train"; "count"] then
    let self :=
      if String.eqb (target_type c) "train"
      then set_kern (set_alpha_extend (Some 200) (kern self)) self
      else if String.eqb (target_type c) "count"
      then set_cfg (set_alpha_exp 1%Q c)
             (set_kern (set_alpha_extend (Some 0) (kern self)) self)
      else self in
    let kernel := pow_seq (alpha_exp (cfg self)) (seq 0 (Nat.min (time_length c) 1000)) in
    (kernel <- reshape [1; 1; -1]%Z (mask_gt (1 # 1000000) kernel) ;;
     kernel_shifted_front <- cat 2 kernel (zeros [1; 1; 2]) ;;
     kernel_shifted_back <- cat 2 (zeros [1; 1; 2]) kernel ;;
     d <- sub kernel_shifted_front kernel_shifted_back ;;
     let kernel_prime := map_t (fun x => x / 2)%Q d in
     Ok (set_kern (set_alpha_kernel_prime (Some kernel_prime)
                     (set_alpha_kernel (Some kernel) (kern self))) self))%py
  else Ok self.

(** One round of the loop of lines 142-151: [epsilon[t]] is the sum of
    the products of the current trace [alpha_i ^ 0 .. alpha_i ^ t] with
    the trace weights [alpha_v ^ t .. alpha_v ^ 0]. *)
Definition epsilon_step (a_i a_v : Q) (epsilon : tensor) (t : nat) : result tensor :=
  let current_trace := pow_seq a_i (seq 0 (t + 1)) in
  let trace_weight := pow_seq a_v (List.rev (seq 0 (t + 1))) in
  (prod <- mul current_trace trace_weight ;;
   set_item t (sum_all prod) epsilon)%py.

(** The double-exponential kernel before normalisation (lines 141-151). *)
Definition epsilon_raw (a_i a_v : Q) (T : nat) : result tensor :=
  for_each (seq 0 T) (epsilon_step a_i a_v) (zeros [T]).

Definition _init_kernels (self : net) : result net :=
  if negb (in_list (target_type (cfg self)) VALID_TARGETS)
  then Raise (ValueError ("invalid target type '" ++ target_type (cfg self) ++ "'")%string)
  else
    (self <- init_alpha_kernel self ;;
     epsilon <- epsilon_raw (alpha_i (cfg self)) (alpha_v (cfg self)) (time_length (cfg self)) ;;
     self <- (if beta_auto (cfg self)
              then (m <- max_all epsilon ;;
                    Ok (set_cfg (set_beta_bias (1 / m)%Q
                                   (set_beta_v (1 / m)%Q
                                      (set_beta_i 1%Q (cfg self)))) self))
              else Ok self) ;;
     let epsilon := scale (beta_i (cfg self) * beta_v (cfg self))%Q epsilon in
     epsilon_shifted_front <- cat 0 epsilon (zeros [2]) ;;
     epsilon_shifted_back <- cat 0 (zeros [2]) epsilon ;;
     d <- sub epsilon_shifted_front epsilon_shifted_back ;;
     let epsilon_prime := map_t (fun x => x / 2)%Q d in
     Ok (set_kern (set_epsilon_prime (Some epsilon_prime)
                     (set_epsilon (Some epsilon) (kern self))) self))%py.

(** ** Layers ([_init_layers], lines 170-327) *)

(** The local variables of [_init_single_layer] that a branch reads
    before it assigns them. Python makes every name that is assigned
    somewhere in a function body local to that function; the nested
    function declares none of them [nonlocal], so they are not the
    [in_channels], [height] and [width] of the enclosing [_init_layers],
    and each call starts with all four unbound. *)
Record frame : Type := mkFrame {
  in_channels : option Z;
  out_channels : option Z;
  height : option Z;
  width : option Z
}.

Definition new_frame : frame := mkFrame None None None None.

Definition shape_of (dims : list Z) : list nat := map Z.to_nat dims.

(** [_init_single_layer(layer_spec)] (lines 188-281). [fresh] stands for
    the contents the numeric library gives a newly created tensor. *)
Definition _init_single_layer (fresh : list nat -> tensor) (self : config)
    (layer_spec : string) : result (layer * option param * list Z * string) :=
  let fr := new_frame in
  if Str.contains "conv" layer_spec then
    (no_mm_support self "conv" ;;
     nums <- map_result Str.int (Str.split "c" (Str.strip "conv" layer_spec)) ;;
     ' (out_c, kernel_size) <- unpack2 nums ;;
     let fr := mkFrame (in_channels fr) (Some out_c) (height fr) (width fr) in
     padding <- floor_div kernel_size 2 ;;
     in_c <- read_local "in_channels" (in_channels fr) ;;
     out_c <- read_local "out_channels" (out_channels fr) ;;
     let layer := Conv2d (mkParam (fresh (shape_of [out_c; in_c; kernel_size; kernel_size])) None)
                         padding in
     out_c <- read_local "out_channels" (out_channels fr) ;;
     let bias := Some (mkParam (fresh (shape_of [out_c])) None) in
     out_c <- read_local "out_channels" (out_channels fr) ;;
     let fr := mkFrame (Some out_c) (out_channels fr) (height fr) (width fr) in
     in_c <- read_local "in_channels" (in_channels fr) ;;
     h <- read_local "height" (height fr) ;;
     w <- read_local "width" (width fr) ;;
     Ok (layer, bias, [in_c; h; w], "conv"))%py
  else if Str.contains "fc" layer_spec then
    (out_c <- Str.int (Str.strip "fc" layer_spec) ;;
     let fr := mkFrame (in_channels fr) (Some out_c) (height fr) (width fr) in
     in_c <- read_local "in_channels" (in_channels fr) ;;
     out_c <- read_local "out_channels" (out_channels fr) ;;
     let layer := Linear (mkParam (fresh (shape_of [out_c; in_c])) None) in
     out_c <- read_local "out_channels" (out_channels fr) ;;
     let bias := Some (mkParam (fresh (shape_of [out_c])) None) in
     out_c <- read_local "out_channels" (out_channels fr) ;;
     let fr := mkFrame (Some out_c) (out_channels fr) (height fr) (width fr) in
     in_c <- read_local "in_channels" (in_channels fr) ;;
     Ok (layer, bias, [in_c], "fc"))%py
  else if Str.contains "apool" layer_spec then
    (no_mm_support self "apool" ;;
     pool_size <- Str.int (Str.strip "apool" layer_spec) ;;
     let layer := AvgPool2d pool_size in
     let bias := None in
     h <- read_local "height" (height fr) ;;
     h <- floor_div h pool_size ;;
     let fr := mkFrame (in_channels fr) (out_channels fr) (Some h) (width fr) in
     w <- read_local "width" (width fr) ;;
     w <- floor_div w pool_size ;;
     let fr := mkFrame (in_channels fr) (out_channels fr) (height fr) (Some w) in
     out_c <- read_local "out_channels" (out_channels fr) ;;
     let fr := mkFrame (Some out_c) (out_channels fr) (height fr) (width fr) in
     in_c <- read_local "in_channels" (in_channels fr) ;;
     h <- read_local "height" (height fr) ;;
     w <- read_local "width" (width fr) ;;
     Ok (layer, bias, [in_c; h; w], "apool"))%py
  else if Str.contains "mpool" layer_spec then
    (no_mm_support self "mpool" ;;
     pool_size <- Str.int (Str.strip "mpool" layer_spec) ;;
     let layer := MaxPool2d pool_size [] in
     let bias := None in
     h <- read_local "height" (height fr) ;;
     h <- floor_div h pool_size ;;
     let fr := mkFrame (in_channels fr) (out_channels fr) (Some h) (width fr) in
     w <- read_local "width" (width fr) ;;
     w <- floor_div w pool_size ;;
     let fr := mkFrame (in_channels fr) (out_channels fr) (height fr) (Some w) in
     out_c <- read_local "out_channels" (out_channels fr) ;;
     let fr := mkFrame (Some out_c) (out_channels fr) (height fr) (width fr) in
     in_c <- read_local "in_channels" (in_channels fr) ;;
     h <- read_local "height" (height fr) ;;
     w <- read_local "width" (width fr) ;;
     Ok (layer, bias, [in_c; h; w], "mpool"))%py
  else if Str.contains "flatten" layer_spec then
    (let layer := Flatten in
     in_c <- read_local "in_channels" (in_channels fr) ;;
     h <- read_local "height" (height fr) ;;
     w <- read_local "width" (width fr) ;;
     let fr := mkFrame (Some (in_c * h * w)%Z) (out_channels fr) (height fr) (width fr) in
     let bias := None in
     let fr := mkFrame (in_channels fr) (out_channels fr) (Some 1%Z) (Some 1%Z) in
     in_c <- read_local "in_channels" (in_channels fr) ;;
     Ok (layer, bias, [in_c], "flatten"))%py
  else
    Raise (ValueError ("invalid layer type in the following specification: " ++ layer_spec)%string).

(** [e[i]] where [e] is one object or a list. *)
Definition subscript {A : Type} (e : entry A) (i : nat) : result A :=
  match e with
  | Many l => item l i
  | One _ => Raise (TypeError "object is not subscriptable")
  end.

(** [e.append(x)] where [e] is one object or a list. *)
Definition append_to {A : Type} (e : entry A) (x : A) : result (entry A) :=
  match e with
  | Many l => Ok (Many (l ++ [x]))
  | One _ => Raise (AttributeError "append")
  end.

(** The bookkeeping of one round of the single-model loop (lines 314-321). *)
Definition add_single (fresh : list nat -> tensor) (self : config) (a : arch)
    (layer_spec : string) : result arch :=
  (' (layer, bias, fmap_shape, fmap_type) <- _init_single_layer fresh self layer_spec ;;
   Ok (mkArch (num_layer a)
         (layers a ++ [One layer])
         (state_v_bs a ++ [One bias])
         (fmap_shape_list a ++ [fmap_shape])
         (fmap_type_list a ++ [fmap_type])))%py.

(** The bookkeeping of one round of the multi-model loop for model [m]
    and layer [l] (lines 287-300). *)
Definition add_multi (fresh : list nat -> tensor) (self : config) (m : nat) (a : arch)
    (l_spec : nat * string) : result arch :=
  let (l, layer_spec) := l_spec in
  (' (layer, bias, fmap_shape, fmap_type) <- _init_single_layer fresh self layer_spec ;;
   if m =? 0 then
     Ok (mkArch (num_layer a)
           (layers a ++ [Many [layer]])
           (state_v_bs a ++ [Many [bias]])
           (fmap_shape_list a ++ [fmap_shape])
           (fmap_type_list a ++ [fmap_type]))
   else
     (ls <- item (layers a) l ;;
      ls <- append_to ls layer ;;
      bs <- item (state_v_bs a) l ;;
      bs <- append_to bs bias ;;
      Ok (mkArch (num_layer a)
            (replace_at l ls (layers a))
            (replace_at l bs (state_v_bs a))
            (fmap_shape_list a)
            (fmap_type_list a))))%py.

(** [enumerate(l)] *)
Definition enumerate {A : Type} (l : list A) : list (nat * A) :=
  combine (seq 0 (List.length l)) l.

(** The arguments of a call, as the callee receives them. *)
Inductive arg : Type :=
| LayerArg (l : entry layer)
| ParamArg (p : option param).

(** A call of [is_conv2d_or_linear], which declares one parameter. *)
Definition call_is_conv2d_or_linear (args : list arg) : result bool :=
  match args with
  | [LayerArg l] => Ok (is_conv2d_or_linear l)
  | [ParamArg _] => Ok false
  | _ => Raise (TypeError "is_conv2d_or_linear() takes 1 positional argument but 2 were given")
  end.

(** [reset_parameters_single_layer(layer, state_v_bs)] (lines 382-398);
    the result is the bias after [init.constant_(state_v_bs, 0)]. The
    optional attributes [normal_weight_init] and [weight_bias] are not
    part of the modelled configuration, so both adjustments of the
    weight are skipped. *)
Definition reset_parameters_single_layer (layer : entry layer) (bias : option param)
  : result (option param) :=
  (b <- call_is_conv2d_or_linear [LayerArg layer; ParamArg bias] ;;
   if negb b then Ok bias
   else match bias with
        | Some p => Ok (Some (mkParam (map_t (fun _ => 0%Q) (value p)) (grad p)))
        | None => Raise (AttributeError "fill_")
        end)%py.

(** One round of the loop of [reset_parameters] (lines 401-410). *)
Definition reset_layer (self : config) (a : arch) (l_layer : nat * entry layer) : result arch :=
  let (l, layer) := l_layer in
  if multi_model self then
    for_each (range (num_models self))
      (fun a m =>
         (lm <- subscript layer m ;;
          bs <- item (state_v_bs a) l ;;
          b <- subscript bs m ;;
          b <- reset_parameters_single_layer (One lm) b ;;
          match bs with
          | Many bl => Ok (set_state_v_bs (replace_at l (Many (replace_at m b bl)) (state_v_bs a)) a)
          | One _ => Ok a
          end)%py) a
  else
    (bs <- item (state_v_bs a) l ;;
     match bs with
     | One b =>
         (b <- reset_parameters_single_layer layer b ;;
          Ok (set_state_v_bs (replace_at l (One b) (state_v_bs a)) a))
     | Many _ => Raise (TypeError "is_conv2d_or_linear() takes 1 positional argument but 2 were given")
     end)%py.

Definition reset_parameters (self : config) (a : arch) : result arch :=
  for_each (enumerate (layers a)) (reset_layer self) a.

(** [_init_layers] *)
Definition _init_layers (fresh : list nat -> tensor) (self : net) : result net :=
  let c := cfg self in
  let a := mkArch (Z.of_nat (List.length (network_size c)) - 1) [] [] [] [] in
  (first <- item (network_size c) 0 ;;
   (if Str.contains "x" first
    then (nums <- map_result Str.int (Str.split "x" first) ;;
          ' (in_c, h, w) <- unpack3 nums ;; Ok tt)
    else (in_c <- Str.int first ;; Ok tt)) ;;
   a <- (if multi_model c
         then for_each (range (num_models c))
                (fun a m => for_each (enumerate (tl (network_size c))) (add_multi fresh c m) a) a
         else for_each (tl (network_size c)) (add_single fresh c) a) ;;
   a <- reset_parameters c a ;;
   Ok (set_net_arch a self))%py.

(** ** Construction ([__init__], lines 329-342) *)

Definition empty_trace : trace :=
  mkTrace None None [] [] [] [] [] [] None None None None None None None.

(** The instance right after [self.__dict__.update(model_config)]. *)
Definition blank (model_config : config) : net :=
  mkNet model_config
        (mkKernels None None None None None)
        (mkArch 0 [] [] [] [])
        empty_trace
        (mkLoss None None None None).

Definition model_count_error : exn :=
  ValueError "must set multi-model flag as True when num_models > 1".

Definition __init__ (fresh : list nat -> tensor) (model_config : config) : result net :=
  let self := blank model_config in
  if (negb (multi_model (cfg self)) && negb (num_models (cfg self) =? 1)%Z)%bool
  then Raise model_count_error
  else (self <- _init_kernels self ;; _init_layers fresh self)%py.

(** ** Loss ([calc_loss], lines 621-727; [apply_alpha_kernel], 819-849) *)

(** [apply_alpha_kernel(input, padding, flip, prime)]. The guard of line
    832 is [len(input.shape != 3)]: the comparison is evaluated first and
    [len] is applied to its result. *)
Definition apply_alpha_kernel (self : net) (input : tensor) (padding flip_ prime : bool)
  : result tensor :=
  (n <- py_len (py_ne (PySize (shape input)) (PyInt 3)) ;;
   if negb (n =? 0) then Raise (ValueError "input shape must be rank 3")
   else
     ' (batch_size, num_time_step, num_features) <- unpack3 (shape input) ;;
     kernel <- (if prime then attr "alpha_kernel_prime" (alpha_kernel_prime (kern self))
                else attr "alpha_kernel" (alpha_kernel (kern self))) ;;
     kernel <- (if flip_ then flip 2 kernel else Ok kernel) ;;
     let padding_length := if padding then (Z.of_nat (numel kernel) - 1)%Z else 0%Z in
     input <- permute [0; 2; 1] input ;;
     input <- reshape [Z.of_nat (batch_size * num_features); 1; Z.of_nat num_time_step]%Z input ;;
     output <- conv1d input kernel padding_length ;;
     output <- reshape [Z.of_nat batch_size; Z.of_nat num_features; -1]%Z output ;;
     permute [0; 2; 1] output)%py.

(** A call of [torch.pow]: a tensor and an exponent are required. *)
Definition torch_pow (args : list (tensor + Z)) : result tensor :=
  match args with
  | [inl t; inr e] => Ok (map_t (fun x => Qpower x e) t)
  | _ => Raise (TypeError "pow() received an invalid combination of arguments")
  end.

(** The nested function [_mse(target_type)] (lines 624-656). *)
Definition _mse (self : net) (target : tensor) (target_type : string) : result net :=
  (out <- attr "output" (output (tr self)) ;;
   tmp1 <- sub out target ;;
   ext <- attr "alpha_extend" (alpha_extend (kern self)) ;;
   let tmp2 := time_length (cfg self) + ext in
   smoothed <- apply_alpha_kernel self tmp1 true true false ;;
   d <- take_dim 1 tmp2 smoothed ;;
   let self := set_ls (set_diff (Some d) (ls self)) self in
   l <- (if String.eqb target_type "train" then torch_pow [inl d; inr 2%Z]
         else if String.eqb target_type "count"
         then (last <- select_last 1 d ;; torch_pow [inl last])
         else Raise (ValueError "expected 'train' or 'count' for MSE calculation")) ;;
   bs <- attr "batch_size" (batch_size (ls self)) ;;
   let l := map_t (fun x => x / inject_Z (Z.of_nat (time_length (cfg self) * bs)))%Q l in
   let self := set_ls (set_L (Some l) (ls self)) self in
   total <- (if multi_model (cfg self)
             then (r <- reshape [num_models (cfg self); -1]%Z l ;;
                   s <- sum_dim 1 r ;;
                   Ok (scale (inject_Z (num_models (cfg self))) s))
             else Ok (mkT [] [sum_all l])) ;;
   Ok (set_ls (set_loss (Some total) (ls self)) self))%py.

Section Loss.

(** The latency branch of [calc_loss] (lines 673-727) is a cross-entropy
    evaluated and differentiated by the numeric library; it is a
    parameter here. *)
Variable latency_loss : net -> tensor -> result net.

Definition calc_loss (self : net) (target : tensor) : result net :=
  (bs <- item (shape target) 0 ;;
   let self := set_ls (set_batch_size (Some bs) (ls self)) self in
   if String.eqb (target_type (cfg self)) "train" then _mse self target "train"
   else if String.eqb (target_type (cfg self)) "count" then _mse self target "count"
   else if String.eqb (target_type (cfg self)) "latency" then latency_loss self target
   else Ok self)%py.

End Loss.

(** ** Gradient clipping (the last block of [backward_custom], lines 1101-1135) *)

Definition layer_weight (ly : layer) : result param :=
  match ly with
  | Conv2d w _ | Linear w => Ok w
  | _ => Raise (AttributeError "weight")
  end.

Definition with_weight (w : param) (ly : layer) : layer :=
  match ly with
  | Conv2d _ p => Conv2d w p
  | Linear _ => Linear w
  | other => other
  end.

(** [clamp_grad(obj, grad_clip)] with the value the local [grad_clip]
    holds at the call: [abs] is not defined on a list. *)
Definition clamp_grad_with (obj : param) (grad_clip : entry Q) : result param :=
  match grad_clip with
  | One q => clamp_grad obj q
  | Many _ => Raise (TypeError "bad operand type for abs(): 'list'")
  end.

(** [clamp_grad(self.state_v_bs[...], grad_clip)] on a bias slot. *)
Definition clamp_bias (b : option param) (grad_clip : entry Q) : result (option param) :=
  match b with
  | Some p => (p <- clamp_grad_with p grad_clip ;; Ok (Some p))%py
  | None => Raise (AttributeError "grad")
  end.

(** The state of the clipping loop: the local variable [grad_clip] and
    the parameters. *)
Definition clip_state : Type := (entry Q * arch)%type.

(** The body of [for m in range(self.num_models)] (lines 1115-1125). The
    assignment of line 1120 rebinds the local [grad_clip] itself. *)
Definition clip_model (self : config) (l : nat) (layer : entry layer)
    (st : clip_state) (m : nat) : result clip_state :=
  let (grad_clip, a) := st in
  (grad_clip <- (match grad_clip with
                 | Many gl =>
                     per <- floor_div (num_models self) (Z.of_nat (List.length gl)) ;;
                     idx <- floor_div (Z.of_nat m) per ;;
                     q <- item_z gl idx ;;
                     Ok (One q)
                 | One _ => Ok grad_clip
                 end) ;;
   if is_conv2d_or_linear layer then
     (lm <- subscript layer m ;;
      w <- layer_weight lm ;;
      w <- clamp_grad_with w grad_clip ;;
      cur <- item (layers a) l ;;
      let cur := match cur with
                 | Many lys => Many (replace_at m (with_weight w lm) lys)
                 | One ly => One ly
                 end in
      let a := set_layers (replace_at l cur (layers a)) a in
      bs <- item (state_v_bs a) l ;;
      b <- subscript bs m ;;
      b <- clamp_bias b grad_clip ;;
      let bs := match bs with
                | Many bl => Many (replace_at m b bl)
                | One x => One x
                end in
      Ok (grad_clip, set_state_v_bs (replace_at l bs (state_v_bs a)) a))
   else Ok (grad_clip, a))%py.

(** The body of [for l, layer in enumerate(self.layers)] (lines 1103-1135). *)
Definition clip_layer (self : config) (st : clip_state) (l_layer : nat * entry layer)
  : result clip_state :=
  let (l, layer) := l_layer in
  if multi_model self then
    ((match fst st with
      | Many gl =>
          if (Z.of_nat (List.length gl) =? 0)%Z then Raise ZeroDivisionError
          else if negb (num_models self mod Z.of_nat (List.length gl) =? 0)%Z
          then Raise (ValueError "len(grad_clip) must be a factor of self.num_models")
          else Ok tt
      | One _ => Ok tt
      end) ;;
     for_each (range (num_models self)) (clip_model self l layer) st)%py
  else
    let (grad_clip, a) := st in
    (grad_clip <- (match grad_clip with
                   | Many gl => (q <- item gl 0 ;; Ok (One q))
                   | One _ => Ok grad_clip
                   end) ;;
     if is_conv2d_or_linear layer then
       match layer with
       | One ly =>
           w <- layer_weight ly ;;
           w <- clamp_grad_with w grad_clip ;;
           let a := set_layers (replace_at l (One (with_weight w ly)) (layers a)) a in
           bs <- item (state_v_bs a) l ;;
           match bs with
           | One b =>
               b <- clamp_bias b grad_clip ;;
               Ok (grad_clip, set_state_v_bs (replace_at l (One b) (state_v_bs a)) a)
           | Many _ => Raise (AttributeError "grad")
           end
       | Many _ => Raise (AttributeError "weight")
       end
     else Ok (grad_clip, a))%py.

(** Lines 1101-1135: [grad_clip = self.grad_clip], then the loop. *)
Definition clip_gradients (self : net) : result net :=
  (st <- for_each (enumerate (layers (net_arch self))) (clip_layer (cfg self))
          (grad_clip (cfg self), net_arch self) ;;
   Ok (set_net_arch (snd st) self))%py.

(** ** The NaN guard of [prop_dLdI_to_dLdW] (lines 1530-1669) *)

(** The entries of an accumulated weight gradient: a number, or the
    not-a-number value of the float format. *)
Inductive fval : Type :=
| Num (q : Q)
| NaN.

Definition isnan (x : fval) : bool :=
  match x with NaN => true | Num _ => false end.

(** What the function does besides computing: a log record, or a stop
    in the debugger. *)
Inductive event : Type :=
| Warning (msg : string)
| Breakpoint.

(** [g[torch.isnan(g)] = 0] *)
Definition zero_nans (g : list fval) : list fval :=
  map (fun x => if isnan x then Num 0 else x) g.

(** Lines 1626-1628, in the branch of a fully connected layer. *)
Definition nan_guard_fc (g : list fval) (log : list event) : list fval * list event :=
  if existsb isnan g
  then (zero_nans g, log ++ [Warning "nan found and replaced with 0"])
  else (g, log).

(** Lines 1662-1665, in the branch of a convolutional layer:
    [pdb.set_trace()] comes first. What the debugger session does is
    not a matter of the program: the event [Breakpoint] records that the
    run stops there, and the two statements after it are those of a
    session that is continued. A session that is quit, or one that finds
    the standard input closed, raises [bdb.BdbQuit] at the breakpoint:
    the entry is then not replaced and nothing is logged. That outcome
    is not part of this function, so nothing stated with it says that
    the branch of a convolutional layer returns. *)
Definition nan_guard_conv (g : list fval) (log : list event) : list fval * list event :=
  if existsb isnan g
  then (zero_nans g, log ++ [Breakpoint; Warning "nan found and replaced with 0"])
  else (g, log).

Section WeightGradient.

(** The products that accumulate the gradient of layer [l] (lines
    1541-1624 for a fully connected layer, 1649-1661 for a convolutional
    one) are the numeric library's; they are parameters here, with the
    exceptions they may raise. *)
Variable fc_weight_grad : nat -> result (list fval).
Variable conv_weight_grad : nat -> result (list fval).

(** The state of the loop: [self.weight_grad] and the log. *)
Definition wstate : Type := (list (option (list fval)) * list event)%type.

(** The body of [for l in range(self.num_layer)], as far as
    [self.weight_grad] and the log go. The other statements of the body
    are left out: the choice of [v_dep_grad] by [style] with its
    [ValueError] (lines 1546-1551), [self.no_mm_support("conv")] (line
    1647) and the assignments of [self.bias_grad] (lines 1630-1642 and
    1667-1669). Each of them can raise, so a result [Ok] here describes
    the weight gradient and the log of a run in which they return, and
    is no statement that the method returns. *)
Definition prop_layer (fmap_types : list string) (st : wstate) (l : nat) : result wstate :=
  let (weight_grad, log) := st in
  (ty <- item fmap_types l ;;
   if negb (in_list ty ["fc"; "conv"]) then Ok st
   else if String.eqb ty "fc" then
     (g <- fc_weight_grad l ;;
      let (g, log) := nan_guard_fc g log in
      wg <- set_item_at weight_grad l (Some g) ;;
      Ok (wg, log))
   else if String.eqb ty "conv" then
     (g <- conv_weight_grad l ;;
      let (g, log) := nan_guard_conv g log in
      wg <- set_item_at weight_grad l (Some g) ;;
      Ok (wg, log))
   else Ok st)%py.

(** [prop_dLdI_to_dLdW], as far as [self.weight_grad] and the log go. *)
Definition prop_dLdI_to_dLdW (num_layer : Z) (fmap_types : list string) (st : wstate)
  : result wstate :=
  for_each (range num_layer) (prop_layer fmap_types) st.

End WeightGradient.

(** ** The forward pass ([forward], lines 412-615) *)

(** A method body: it reads and writes the attributes of [self], and an
    exception leaves the writes made before it in place. *)
Definition M (A : Type) : Type := net -> net * result A.

Definition ret {A : Type} (a : A) : M A := fun s => (s, Ok a).

Definition mbind {A B : Type} (m : M A) (k : A -> M B) : M B :=
  fun s => match m s with
           | (s', Ok a) => k a s'
           | (s', Raise e) => (s', Raise e)
           end.

(** A computation that does not touch [self]. *)
Definition lift {A : Type} (r : result A) : M A := fun s => (s, r).

(** An expression over the attributes of [self]. *)
Definition reading {A : Type} (f : net -> result A) : M A := fun s => (s, f s).

(** An update of the attributes of [self]; nothing is written when the
    update raises. *)
Definition updating (f : net -> result net) : M unit :=
  fun s => match f s with
           | Ok s' => (s', Ok tt)
           | Raise e => (s, Raise e)
           end.

Declare Scope m_scope.
Delimit Scope m_scope with m.
Notation "x <- c ;; k" := (mbind c (fun x => k))
  (at level 100, c at next level, right associativity) : m_scope.
Notation "' pat <- c ;; k" := (mbind c (fun x => match x with pat => k end))
  (at level 100, pat pattern, c at next level, right associativity) : m_scope.
Notation "c ;; k" := (mbind c (fun _ => k))
  (at level 100, right associativity) : m_scope.

(** [for x in xs: body(x)] *)
Fixpoint mfor {A : Type} (xs : list A) (body : A -> M unit) : M unit :=
  match xs with
  | [] => ret tt
  | x :: rest => (body x ;; mfor rest body)%m
  end.

(** *** Trace slots *)

(** [rows[l][i]] *)
Definition slot {A : Type} (rows : list (list A)) (l : Z) (i : Z) : result A :=
  (row <- item_z rows l ;; item_z row i)%py.

(** [rows[l].append(x)] *)
Definition append_at {A : Type} (rows : list (list A)) (l : nat) (x : A)
  : result (list (list A)) :=
  (row <- item rows l ;; Ok (replace_at l (row ++ [x]) rows))%py.

(** [rows[l][-1] = x] *)
Definition set_last_at {A : Type} (rows : list (list A)) (l : nat) (x : A)
  : result (list (list A)) :=
  (row <- item rows l ;; row <- set_last row x ;; Ok (replace_at l row rows))%py.

(** The bias parameter of layer [l] of a single model. *)
Definition bias_param (self : net) (l : nat) : result param :=
  (b <- item (state_v_bs (net_arch self)) l ;;
   match b with
   | One (Some p) => Ok p
   | One None => Raise (TypeError "unsupported operand type(s): 'NoneType' and 'float'")
   | Many _ => Raise (TypeError "can't multiply sequence by non-int of type 'float'")
   end)%py.

(** The tensor a trace slot refers to. *)
Definition deref (self : net) (r : tref) : result tensor :=
  match r with
  | Own t => Ok t
  | BiasView l vshape => (p <- bias_param self l ;; Ok (mkT vshape (data (value p))))%py
  end.

(** The effect of an operation in place on the object behind [r]: an
    own tensor is replaced, a view writes the new contents into the
    parameter it views. The result is the reference to store back. *)
Definition write_ref (r : tref) (new : tensor) : M tref :=
  match r with
  | Own _ => ret (Own new)
  | BiasView l vshape =>
      (updating (fun self =>
         (p <- bias_param self l ;;
          let p := mkParam (mkT (shape (value p)) (data new)) (grad p) in
          let a := net_arch self in
          Ok (set_net_arch
                (set_state_v_bs (replace_at l (One (Some p)) (state_v_bs a)) a) self))%py) ;;
       ret r)%m
  end.

Definition set_tr_with (f : trace -> result trace) : M unit :=
  updating (fun self => (t <- f (tr self) ;; Ok (set_tr t self))%py).

Definition append_i (l : nat) (x : tensor) : M unit :=
  set_tr_with (fun t => (r <- append_at (state_i t) l x ;; Ok (set_state_i r t))%py).
Definition append_v (l : nat) (x : tref) : M unit :=
  set_tr_with (fun t => (r <- append_at (state_v t) l x ;; Ok (set_state_v r t))%py).
Definition append_v_prime (l : nat) (x : tref) : M unit :=
  set_tr_with (fun t => (r <- append_at (state_v_prime t) l x ;; Ok (set_state_v_prime r t))%py).
Definition append_s (l : nat) (x : tensor) : M unit :=
  set_tr_with (fun t => (r <- append_at (state_s t) l x ;; Ok (set_state_s r t))%py).

Definition set_last_i (l : nat) (x : tensor) : M unit :=
  set_tr_with (fun t => (r <- set_last_at (state_i t) l x ;; Ok (set_state_i r t))%py).
Definition set_last_v (l : nat) (x : tref) : M unit :=
  set_tr_with (fun t => (r <- set_last_at (state_v t) l x ;; Ok (set_state_v r t))%py).
Definition set_last_v_prime (l : nat) (x : tref) : M unit :=
  set_tr_with (fun t => (r <- set_last_at (state_v_prime t) l x ;; Ok (set_state_v_prime r t))%py).

Definition read_i (l : nat) (i : Z) : M tensor :=
  reading (fun self => slot (state_i (tr self)) (Z.of_nat l) i).
Definition read_s (l : Z) (i : Z) : M tensor :=
  reading (fun self => slot (state_s (tr self)) l i).
Definition ref_v (l : nat) (i : Z) : M tref :=
  reading (fun self => slot (state_v (tr self)) (Z.of_nat l) i).
Definition read_v (l : nat) (i : Z) : M tensor :=
  reading (fun self => (r <- slot (state_v (tr self)) (Z.of_nat l) i ;; deref self r)%py).
Definition ref_v_prime (l : nat) (i : Z) : M tref :=
  reading (fun self => slot (state_v_prime (tr self)) (Z.of_nat l) i).

(** [self.weight_list[l]], used as a tensor. *)
Definition stacked_weight (self : net) (l : nat) : result tensor :=
  (w <- item (weight_list (tr self)) l ;; attr "permute" w)%py.

(** [self.bias_list[l] * self.beta_bias] *)
Definition stacked_bias (self : net) (l : nat) : result tensor :=
  (b <- item (bias_list (tr self)) l ;;
   match b with
   | Some b => Ok (scale (beta_bias (cfg self)) b)
   | None => Raise (TypeError "unsupported operand type(s) for *: 'NoneType' and 'float'")
   end)%py.

(** [layer(x)] for the modules with one result. *)
Definition apply_layer (ly : layer) (x : tensor) : result tensor :=
  match ly with
  | Linear w => linear (value w) x
  | Conv2d w p => conv2d (value w) (Z.to_nat p) x
  | AvgPool2d k => avg_pool2d (Z.to_nat k) x
  | Flatten => flatten x
  | MaxPool2d k _ => (r <- max_pool2d (Z.to_nat k) x ;; Ok (fst r))%py
  end.

(** *** One layer, one time step *)

(** [layers[0] if self.multi_model else layers] *)
Definition pick_layer (self : net) (layers : entry layer) : result (entry layer) :=
  if multi_model (cfg self)
  then (ly <- subscript layers 0 ;; Ok (One ly))%py
  else Ok layers.

(** Eq. (2), lines 482-522: the synaptic current of layer [l] at step [t]. *)
Definition step_current (input : tensor) (t l : nat) (layer : layer) : M unit :=
  (self <- reading (fun s => Ok s) ;;
   let c := cfg self in
   (if l =? 0 then
      if multi_model c then
        (x <- lift (select 2 t input) ;;
         w <- reading (fun s => stacked_weight s l) ;;
         wt <- lift (permute [0; 2; 1] w) ;;
         state_i <- lift (bmm x wt) ;;
         r <- lift (merge_first_two state_i) ;;
         append_i l (scale (beta_i c) r))
      else
        (x <- lift (select 1 t input) ;;
         y <- lift (apply_layer layer x) ;;
         append_i l (scale (beta_i c) y))
    else if multi_model c then
      (state_s <- read_s (Z.of_nat l - 1) (-1) ;;
       state_s_rs <- lift (split_first (num_models c) state_s) ;;
       w <- reading (fun s => stacked_weight s l) ;;
       wt <- lift (permute [0; 2; 1] w) ;;
       state_i <- lift (bmm state_s_rs wt) ;;
       r <- lift (merge_first_two (scale (beta_i c) state_i)) ;;
       append_i l r)
    else
      (x <- read_s (Z.of_nat l - 1) (-1) ;;
       y <- lift (apply_layer layer x) ;;
       append_i l (scale (beta_i c) y))) ;;
   if negb (t =? 0) then
     (prev <- read_i l (Z.of_nat t - 1) ;;
      let idelta := scale (alpha_i c) prev in
      s <- read_s (Z.of_nat l) (-1) ;;
      idelta <- lift (imul idelta (one_minus s)) ;;
      cur <- read_i l (-1) ;;
      cur <- lift (iadd cur idelta) ;;
      set_last_i l cur)
   else ret tt)%m.

(** Lines 542-552 of the single-model branch: [state_v] is bound to the
    bias parameter itself (rank 2) or to a view of it (rank 4). *)
Definition bias_alias (self : net) (l : nat) (rank_i : nat) : result tref :=
  (b <- item (state_v_bs (net_arch self)) l ;;
   if rank_i =? 2 then
     match b with
     | One (Some p) => Ok (BiasView l (shape (value p)))
     | One None => Raise (TypeError "unsupported operand type(s): 'NoneType' and 'float'")
     | Many _ => Raise (TypeError "can't multiply sequence by non-int of type 'float'")
     end
   else if rank_i =? 4 then
     match b with
     | One (Some p) => (v <- reshape [-1; 1; 1]%Z (value p) ;; Ok (BiasView l (shape v)))
     | _ => Raise (AttributeError "view")
     end
   else Raise (ValueError "expected multi-model or model with rank(I) in {2, 4}"))%py.

(** Eq. (1), lines 525-575: the membrane potential, its finite
    difference and the spike of layer [l] at step [t]. *)
Definition step_voltage (t l : nat) : M unit :=
  (self <- reading (fun s => Ok s) ;;
   let c := cfg self in
   (if multi_model c then
      (state_i <- read_i l (-1) ;;
       state_i_rs <- lift (split_first (num_models c) state_i) ;;
       let state_v := scale (beta_v c) state_i_rs in
       b <- reading (fun s => stacked_bias s l) ;;
       state_v <- lift (iadd state_v b) ;;
       r <- lift (merge_first_two state_v) ;;
       append_v l (Own r))
    else
      (cur_i <- read_i l (-1) ;;
       state_v <- reading (fun s => bias_alias s l (rank cur_i)) ;;
       v <- reading (fun s => deref s state_v) ;;
       state_v <- write_ref state_v (scale (beta_bias c) v) ;;
       v <- reading (fun s => deref s state_v) ;;
       cur_i <- read_i l (-1) ;;
       v <- lift (iadd v (scale (beta_v c) cur_i)) ;;
       state_v <- write_ref state_v v ;;
       append_v l state_v)) ;;
   (if negb (t =? 0) then
      (target <- ref_v l (-1) ;;
       prev <- read_v l (Z.of_nat t - 1) ;;
       s <- read_s (Z.of_nat l) (-1) ;;
       x <- lift (mul prev (one_minus s)) ;;
       cur <- reading (fun s => deref s target) ;;
       cur <- lift (iadd cur (scale (alpha_v c) x)) ;;
       target <- write_ref target cur ;;
       set_last_v l target ;;
       prev <- read_v l (-2) ;;
       let state_v_prime := scale (-1) prev in
       s <- read_s (Z.of_nat l) (-1) ;;
       state_v_prime <- lift (imul state_v_prime (one_minus s)) ;;
       cur <- read_v l (-1) ;;
       state_v_prime <- lift (iadd state_v_prime cur) ;;
       append_v_prime l (Own state_v_prime))
    else
      (r <- ref_v l (-1) ;;
       append_v_prime l r)) ;;
   r <- ref_v_prime l (-1) ;;
   v <- reading (fun s => deref s r) ;;
   set_last_v_prime l (Own (clamp_min (1 # 100) v)) ;;
   v <- read_v l (-1) ;;
   append_s l (ge_float 1 v))%m.

(** [layer.max_index_list.append(max_index)] on the module that [layer]
    names: entry [l] of [self.layers], or its first model. *)
Definition record_max_index (l : nat) (max_index : tensor) : M unit :=
  updating (fun self =>
    let a := net_arch self in
    (e <- item (layers a) l ;;
     e <- (match e with
           | One (MaxPool2d k idxs) => Ok (One (MaxPool2d k (idxs ++ [max_index])))
           | Many (MaxPool2d k idxs :: rest) => Ok (Many (MaxPool2d k (idxs ++ [max_index]) :: rest))
           | _ => Raise (AttributeError "max_index_list")
           end) ;;
     Ok (set_net_arch (set_layers (replace_at l e (layers a)) a) self))%py).

(** The body of [for l, layers in enumerate(self.layers)] (lines 476-592). *)
Definition layer_step (input : tensor) (t : nat) (l_layers : nat * entry layer) : M unit :=
  let (l, layers) := l_layers in
  (layer <- reading (fun s => pick_layer s layers) ;;
   if is_conv2d_or_linear layer then
     match layer with
     | One ly => (step_current input t l ly ;; step_voltage t l)
     | Many _ => ret tt
     end
   else if is_apool_or_flatten layer then
     match layer with
     | One ly =>
         (x <- (if l =? 0
                then reading (fun s => (inp <- attr "input" (Snn.input (tr s)) ;; select 1 t inp)%py)
                else read_s (Z.of_nat l - 1) (-1)) ;;
          y <- lift (apply_layer ly x) ;;
          append_s l y)
     | Many _ => ret tt
     end
   else if is_max_pool layer then
     match layer with
     | One (MaxPool2d k _) =>
         (x <- read_s (Z.of_nat l - 1) (-1) ;;
          ' (pool_result, max_index) <- lift (max_pool2d (Z.to_nat k) x) ;;
          record_max_index l max_index ;;
          append_s l pool_result)
     | _ => ret tt
     end
   else ret tt)%m.

(** Lines 594-598: the early stop of the latency rule. The result tells
    whether the loop over time is left. *)
Definition early_stop : M bool :=
  (self <- reading (fun s => Ok s) ;;
   if String.eqb (target_type (cfg self)) "latency" then
     (cum <- reading (fun s => attr "output_s_cum" (output_s_cum (tr s))) ;;
      row <- reading (fun s => last_item (state_s (tr s))) ;;
      s_out <- lift (last_item row) ;;
      cum <- lift (iadd cum s_out) ;;
      set_tr_with (fun t => Ok (set_output_s_cum (Some cum) t)) ;;
      ret (all_gt 0 cum))
   else ret false)%m.

(** [for t in range(self.time_length)] with its [break]; the result is
    the value the loop variable [t] holds afterwards, if it was bound. *)
Fixpoint time_loop (input : tensor) (ts : list nat) (last_t : option nat) : M (option nat) :=
  match ts with
  | [] => ret last_t
  | t :: rest =>
      (layers <- reading (fun s => Ok (layers (net_arch s))) ;;
       mfor (enumerate layers) (layer_step input t) ;;
       stop <- early_stop ;;
       if stop then ret (Some t) else time_loop input rest (Some t))%m
  end.

(** *** Statistics ([calc_first_stime], [calc_num_spike], lines 729-817) *)

Definition calc_first_stime : M tensor :=
  (self <- reading (fun s => Ok s) ;;
   term <- lift (attr "term_length" (term_length (tr self))) ;;
   out <- lift (attr "output" (output (tr self))) ;;
   weights <- lift (reshape [1; -1; 1]%Z (arange_down term)) ;;
   decreasing_output <- lift (mul weights out) ;;
   max_each_neuron <- lift (max_dim 1 decreasing_output) ;;
   max_whole_network <- lift (max_dim 1 max_each_neuron) ;;
   let first_stime := map_t (fun x => inject_Z (Z.of_nat term) - x)%Q max_whole_network in
   (if multi_model (cfg self) then
      (first_stime_model <- lift (reshape [num_models (cfg self); -1]%Z first_stime) ;;
       lo <- lift (min_dim 1 first_stime_model) ;;
       mean <- lift (mean_dim 1 first_stime_model) ;;
       set_tr_with (fun t => Ok (set_first_stime_mean (Some mean) (set_first_stime_min (Some lo) t))))
    else
      (lo <- lift (min_all first_stime) ;;
       set_tr_with (fun t => Ok (set_first_stime_mean (Some (mkT [] [mean_all first_stime]))
                                   (set_first_stime_min (Some (mkT [] [lo])) t))))) ;;
   ret (to_int first_stime))%m.

(** The layers the statistics count: those with [is_conv2d_or_linear]. *)
Definition counted_layers (self : net) : result (list nat) :=
  (flags <- map_result (fun e => (ly <- pick_layer self e ;; Ok (is_conv2d_or_linear ly))%py)
                       (layers (net_arch self)) ;;
   Ok (map fst (filter snd (enumerate flags))))%py.

(** The entries of a list of stacked per-layer results, as
    [torch.stack(..).t()]. *)
Definition stack_t (rows : list tensor) : result tensor :=
  (st <- stack rows ;; permute [1; 0] st)%py.

Definition calc_num_spike : M unit :=
  (self <- reading (fun s => Ok s) ;;
   idxs <- lift (counted_layers self) ;;
   out <- lift (attr "output" (output (tr self))) ;;
   term <- lift (attr "term_length" (term_length (tr self))) ;;
   let spikes_of (l : nat) : result tensor :=
     (row <- item (state_s (tr self)) l ;; stack row)%py in
   totals <- lift (map_result (fun l =>
       (st <- spikes_of l ;;
        if multi_model (cfg self) then
          (p <- permute [1; 0; 2] st ;;
           n0 <- item (shape out) 0 ;;
           per <- (if (num_models (cfg self) =? 0)%Z then Raise ZeroDivisionError
                   else Ok (Z.quot (Z.of_nat n0) (num_models (cfg self)))) ;;
           r <- reshape [num_models (cfg self); per; Z.of_nat term; -1]%Z p ;;
           r <- sum_dim 1 r ;; r <- sum_dim 1 r ;; r <- sum_dim 1 r ;;
           Ok (to_int r))
        else Ok (to_int (mkT [] [sum_all st])))%py) idxs) ;;
   total <- lift (if multi_model (cfg self) then stack_t totals
                  else Ok (mkT [List.length totals] (flat_map data totals))) ;;
   set_tr_with (fun t => Ok (set_num_spike_total (Some total) t)) ;;
   first_stime <- calc_first_stime ;;
   necs <- lift (map_result (fun l =>
       (st <- spikes_of l ;;
        n0 <- item (shape out) 0 ;;
        each <- map_result (fun b =>
                  (head <- take_dim 0 (Z.to_nat (Qnum (get first_stime [b]) + 1)) (to_int st) ;;
                   col <- select 1 b head ;;
                   Ok (sum_all col))%py) (seq 0 n0) ;;
        let num_spike_nec_each_batch := mkT [n0] each in
        if multi_model (cfg self) then
          (r <- reshape [num_models (cfg self); -1]%Z num_spike_nec_each_batch ;; sum_dim 1 r)
        else Ok (mkT [] [sum_all num_spike_nec_each_batch]))%py) idxs) ;;
   nec <- lift (if multi_model (cfg self) then stack_t necs
                else Ok (mkT [List.length necs] (flat_map data necs))) ;;
   set_tr_with (fun t => Ok (set_num_spike_nec (Some nec) t)))%m.

(** *** The method *)

(** Lines 419-434: [self.input] and, for the latency rule, the counter
    of output spikes. *)
Definition init_input (input : tensor) : M unit :=
  (self <- reading (fun s => Ok s) ;;
   let c := cfg self in
   (if multi_model c then
      (n0 <- lift (item (shape input) 0) ;;
       (if (num_models c =? Z.of_nat n0)%Z then ret tt else lift (Raise AssertionError)) ;;
       merged <- lift (merge_first_two input) ;;
       set_tr_with (fun t => Ok (set_input (Some merged) t)))
    else set_tr_with (fun t => Ok (set_input (Some input) t))) ;;
   if String.eqb (target_type c) "latency" then
     (dim1 <- lift (if multi_model c
                    then (n1 <- item (shape input) 1 ;; Ok (num_models c * Z.of_nat n1)%Z)%py
                    else (n0 <- item (shape input) 0 ;; Ok (Z.of_nat n0))%py) ;;
      last_shape <- lift (last_item (fmap_shape_list (net_arch self))) ;;
      dim2 <- lift (item last_shape 0) ;;
      (if ((dim1 <? 0) || (dim2 <? 0))%Z
       then lift (Raise (RuntimeError "Trying to create tensor with negative dimension"))
       else ret tt) ;;
      set_tr_with (fun t => Ok (set_output_s_cum (Some (zeros [Z.to_nat dim1; Z.to_nat dim2])) t)))
   else ret tt)%m.

(** Lines 436-449: empty traces, one row per layer; the index lists of
    the max-pool modules found in [self.layers] are emptied. *)
Definition init_traces : M unit :=
  updating (fun self =>
    let a := net_arch self in
    let rows {A : Type} : list (list A) := map (fun _ => []) (layers a) in
    let flushed := map (fun e => match e with
                                 | One (MaxPool2d k _) => One (MaxPool2d k [])
                                 | other => other
                                 end) (layers a) in
    Ok (set_net_arch (set_layers flushed a)
          (set_tr (set_state_s rows (set_state_v_prime rows
                     (set_state_v rows (set_state_i rows (tr self))))) self))).

(** Lines 452-473: the stacked weights and biases of a multi-model. *)
Definition merge_parameters : M unit :=
  updating (fun self =>
    if multi_model (cfg self) then
      (ws <- map_result (fun layer_list =>
                (first <- subscript layer_list 0 ;;
                 match first, layer_list with
                 | (Conv2d _ _ | Linear _), Many lys =>
                     (vs <- map_result (fun ly => (w <- layer_weight ly ;; Ok (value w))%py) lys ;;
                      w <- stack vs ;; Ok (Some w))
                 | _, _ => Ok None
                 end)%py) (layers (net_arch self)) ;;
       bs <- map_result (fun state_v_b_list =>
                (first <- subscript state_v_b_list 0 ;;
                 match first, state_v_b_list with
                 | Some _, Many bl =>
                     (vs <- map_result (fun b =>
                               match b with
                               | Some p => Ok (value p)
                               | None => Raise (TypeError "expected Tensor as element of argument")
                               end) bl ;;
                      b <- stack vs ;; b <- unsqueeze 1 b ;; Ok (Some b))
                 | _, _ => Ok None
                 end)%py) (state_v_bs (net_arch self)) ;;
       Ok (set_tr (set_bias_list bs (set_weight_list ws (tr self))) self))%py
    else Ok self).

(** Lines 600-613: what follows the loop over time. *)
Definition finish (last_t : option nat) : M tensor :=
  (t <- lift (read_local "t" last_t) ;;
   set_tr_with (fun tr_ => Ok (set_term_length (Some (t + 1)) tr_)) ;;
   row <- reading (fun s => last_item (state_s (tr s))) ;;
   st <- lift (stack row) ;;
   out <- lift (permute [1; 0; 2] st) ;;
   set_tr_with (fun tr_ => Ok (set_output (Some out) tr_)) ;;
   self <- reading (fun s => Ok s) ;;
   (if multi_model (cfg self) then
      (each <- lift (split_first (num_models (cfg self)) out) ;;
       set_tr_with (fun tr_ => Ok (set_output_each_model (Some each) tr_)))
    else ret tt) ;;
   calc_num_spike ;;
   ret out)%m.

Definition forward (input : tensor) : M tensor :=
  (init_input input ;;
   init_traces ;;
   merge_parameters ;;
   T <- reading (fun s => Ok (time_length (cfg s))) ;;
   last_t <- time_loop input (seq 0 T) None ;;
   finish last_t)%m.

(** ** The closed form of the specification for the epsilon kernel *)

(** [sum_upto f n] is the sum of [f 0 .. f n]. *)
Fixpoint sum_upto (f : nat -> Q) (n : nat) : Q :=
  match n with
  | O => f O
  | S m => (sum_upto f m + f (S m))%Q
  end.

(** The double-exponential response at step [t], as the specification
    writes it: the sum over [k = 0 .. t] of [a_i ^ k * a_v ^ (t - k)]. *)
Definition epsilon_formula (a_i a_v : Q) (t : nat) : Q :=
  sum_upto (fun k => Qpower a_i (Z.of_nat k) * Qpower a_v (Z.of_nat (t - k)))%Q t.

(** ** The recurrences of the specification *)

(** The terms the simulator's update rules are made of, written as the
    specification states them, on the tensors of one layer. They are
    compared below with the entries the forward pass leaves in the
    traces. *)

(** [I[t] = ff + alpha_i * I[t-1] * (1 - S[t-1])], with [ff] the
    feed-forward term [beta_i * W . X]. *)
Definition decayed_current (c : config) (ff prev_i prev_s : tensor) : result tensor :=
  (d <- mul (scale (alpha_i c) prev_i) (one_minus prev_s) ;; add ff d)%py.

(** [V[t] = v0 + alpha_v * V[t-1] * (1 - S[t-1])], with [v0] the term
    [beta_v * I[t] + beta_bias * bias]. *)
Definition decayed_voltage (c : config) (v0 prev_v prev_s : tensor) : result tensor :=
  (x <- mul prev_v (one_minus prev_s) ;; add v0 (scale (alpha_v c) x))%py.

(** [beta_v * I[t] + beta_bias * bias] for the replicas of a multi-model:
    the current is split by model, the stacked bias is broadcast over
    each model's batch. *)
Definition membrane_input (self : net) (l : nat) (i : tensor) : result tensor :=
  (i_rs <- split_first (num_models (cfg self)) i ;;
   b <- stacked_bias self l ;;
   v <- add (scale (beta_v (cfg self)) i_rs) b ;;
   merge_first_two v)%py.

(** [beta_i * W . x] for the replicas of a multi-model. *)
Definition weighted_input (self : net) (l : nat) (x : tensor) : result tensor :=
  (w <- stacked_weight self l ;;
   wt <- permute [0; 2; 1] w ;;
   y <- bmm x wt ;;
   r <- merge_first_two y ;;
   Ok (scale (beta_i (cfg self)) r))%py.

(** The finite difference before clamping, as the code forms it:
    [(-1) * V[t-1] * (1 - S[t-1]) + V[t]]. *)
Definition voltage_difference (prev_v prev_s v : tensor) : result tensor :=
  (d <- mul (scale (-1) prev_v) (one_minus prev_s) ;; add d v)%py.

(** The scalar form of the finite difference with the spike of the
    previous step: [V[t] - V[t-1] * (1 - S[t-1])]. *)
Definition difference_entry (v prev_v prev_s : Q) : Q :=
  (v - prev_v * (1 - prev_s))%Q.

(** The threshold function ([act], lines 1671-1673) on one entry. *)
Definition spike_entry (v : Q) : Q := if Qle_bool 1 v then 1%Q else 0%Q.

End Snn.

(* ===================================================================== *)
(** * Facts about the tensor operations *)
(* ===================================================================== *)

Module TorchFacts.

Import Torch.

Open Scope nat_scope.

(** A tensor whose storage has as many entries as its shape announces. *)
Definition well_formed (t : tensor) : Prop := List.length (data t) = numel t.

Lemma map_add_seq (b n : nat) :
  map (fun j => b + j) (seq 0 n) = seq b n.
Proof.
  revert b. induction n as [|n IH]; intro b; [reflexivity|].
  simpl. rewrite Nat.add_0_r. f_equal.
  rewrite <- seq_shift, map_map, <- (IH (S b)).
  apply map_ext. intro j. lia.
Qed.

Lemma flat_map_rows (n a d : nat) :
  flat_map (fun i => map (fun j => i * n + j) (seq 0 n)) (seq a d) = seq (a * n) (d * n).
Proof.
  revert a. induction d as [|d IH]; intro a; [reflexivity|].
  simpl. rewrite IH, map_add_seq.
  replace (S a * n) with (a * n + n) by lia.
  symmetry. apply seq_app.
Qed.

Lemma map_flat_map {A B C : Type} (g : B -> C) (f : A -> list B) (l : list A) :
  map g (flat_map f l) = flat_map (fun x => map g (f x)) l.
Proof.
  induction l as [|x l IH]; [reflexivity|].
  simpl. now rewrite map_app, IH.
Qed.

(** The multi-indices of a shape are listed in storage order. *)
Lemma offset_indices (s : list nat) :
  map (offset s) (indices s) = seq 0 (numel_of s).
Proof.
  induction s as [|d s IH]; [reflexivity|].
  change (numel_of (d :: s)) with (d * numel_of s).
  change (seq 0 (d * numel_of s)) with (seq (0 * numel_of s) (d * numel_of s)).
  rewrite <- flat_map_rows. simpl. rewrite map_flat_map.
  apply flat_map_ext. intro i.
  rewrite map_map. simpl.
  rewrite <- IH, map_map. reflexivity.
Qed.

Lemma length_indices (s : list nat) : List.length (indices s) = numel_of s.
Proof.
  rewrite <- (length_map (offset s)), offset_indices. apply length_seq.
Qed.

Lemma in_indices (s idx : list nat) :
  In idx (indices s) -> Forall2 lt idx s.
Proof.
  revert idx. induction s as [|d s IH]; intros idx H.
  - destruct H as [<-|[]]. constructor.
  - simpl in H. apply in_flat_map in H. destruct H as [i [Hi H]].
    apply in_map_iff in H. destruct H as [idx' [<- H]].
    apply in_seq in Hi. constructor; [lia|auto].
Qed.

Lemma bindex_valid (s idx : list nat) :
  Forall2 lt idx s -> bindex s idx = idx.
Proof.
  intro H. unfold bindex.
  rewrite (Forall2_length H), Nat.sub_diag. simpl.
  induction H as [|i d idx s Hid H IH]; [reflexivity|].
  simpl. rewrite IH. f_equal.
  destruct (Nat.eqb_spec d 1); [lia|reflexivity].
Qed.

Lemma offset_nth (s : list nat) (k : nat) (d : list nat) :
  k < numel_of s -> offset s (nth k (indices s) d) = k.
Proof.
  intro Hk.
  assert (H : nth k (map (offset s) (indices s)) (offset s d) = k).
  { rewrite offset_indices. rewrite (nth_indep _ _ 0) by (now rewrite length_seq).
    now rewrite seq_nth. }
  now rewrite map_nth in H.
Qed.

(** Reading back what [build] stored. *)
Lemma get_build (s : list nat) (f : list nat -> Q) (idx : list nat) :
  In idx (indices s) -> get (build s f) idx = f idx.
Proof.
  intro H. unfold get, build. simpl.
  destruct (In_nth _ _ [] H) as [k [Hk Hnth]].
  rewrite length_indices in Hk.
  rewrite <- Hnth at 1. rewrite (offset_nth _ _ Hk).
  rewrite (nth_indep _ 0%Q (f [])) by (now rewrite length_map, length_indices).
  now rewrite map_nth, Hnth.
Qed.

Lemma build_well_formed (s : list nat) (f : list nat -> Q) : well_formed (build s f).
Proof.
  unfold well_formed, build, numel. simpl. now rewrite length_map, length_indices.
Qed.

Lemma broadcast_rev_same (s : list nat) : broadcast_rev s s = Some s.
Proof.
  induction s as [|d s IH]; [reflexivity|].
  simpl. destruct s; simpl in *; rewrite ?IH, Nat.eqb_refl; reflexivity.
Qed.

Lemma broadcast_shapes_same (s : list nat) : broadcast_shapes s s = Some s.
Proof.
  unfold broadcast_shapes. rewrite broadcast_rev_same. simpl.
  now rewrite rev_involutive.
Qed.

Lemma shape_eqb_eq (a b : list nat) : shape_eqb a b = true <-> a = b.
Proof.
  unfold shape_eqb. destruct (list_eq_dec Nat.eq_dec a b); split; congruence.
Qed.

Lemma shape_eqb_refl (a : list nat) : shape_eqb a a = true.
Proof. now apply shape_eqb_eq. Qed.

(** An operation in place returns a tensor of the target's shape whose
    entries combine the target's entry with the broadcast operand. *)
Lemma inplace_spec (f : Q -> Q -> Q) (a b r : tensor) :
  inplace f a b = Ok r ->
  shape r = shape a /\ well_formed r /\
  binop f a b = Ok r /\
  forall idx, In idx (indices (shape a)) -> get r idx = f (get a idx) (bget b idx).
Proof.
  unfold inplace, binop.
  destruct (broadcast_shapes (shape a) (shape b)) as [s|]; simpl; [|discriminate].
  destruct (shape_eqb s (shape a)) eqn:E; [|discriminate].
  apply shape_eqb_eq in E. subst s. intro H. injection H as <-.
  repeat split; [apply build_well_formed|].
  intros idx Hidx. rewrite get_build by assumption.
  unfold bget at 1. now rewrite (bindex_valid (in_indices _ _ Hidx)).
Qed.

Lemma binop_shape (f : Q -> Q -> Q) (a b r : tensor) :
  binop f a b = Ok r -> well_formed r /\ broadcast_shapes (shape a) (shape b) = Some (shape r).
Proof.
  unfold binop. destruct (broadcast_shapes (shape a) (shape b)) as [s|]; [|discriminate].
  intro H. injection H as <-. split; [apply build_well_formed|reflexivity].
Qed.

(** On operands of one shape the operation is entrywise. *)
Lemma binop_same_shape (f : Q -> Q -> Q) (a b : tensor) :
  shape a = shape b ->
  exists r, binop f a b = Ok r /\ shape r = shape a /\
    forall k, k < numel a ->
      nth k (data r) 0%Q = f (nth k (data a) 0%Q) (nth k (data b) 0%Q).
Proof.
  intro Hs. unfold binop. rewrite <- Hs, broadcast_shapes_same.
  eexists. split; [reflexivity|]. split; [reflexivity|].
  intros k Hk. unfold build. simpl.
  set (g := fun idx => f (bget a idx) (bget b idx)).
  rewrite (nth_indep _ 0%Q (g [])) by (now rewrite length_map, length_indices).
  rewrite map_nth. subst g. simpl.
  assert (Hin : In (nth k (indices (shape a)) []) (indices (shape a))).
  { apply nth_In. now rewrite length_indices. }
  unfold bget. rewrite <- Hs.
  rewrite (bindex_valid (in_indices _ _ Hin)).
  unfold get. rewrite <- Hs. now rewrite (offset_nth _ _ Hk).
Qed.

Lemma binop_same_shape_data (f : Q -> Q -> Q) (a b : tensor) :
  shape a = shape b ->
  binop f a b =
  Ok (mkT (shape a)
        (map (fun k => f (nth k (data a) 0%Q) (nth k (data b) 0%Q)) (seq 0 (numel a)))).
Proof.
  intro Hs. unfold binop. rewrite <- Hs, broadcast_shapes_same.
  unfold build. do 2 f_equal.
  unfold numel. rewrite <- offset_indices, map_map.
  apply map_ext_in. intros idx Hin.
  unfold bget. rewrite <- Hs.
  rewrite (bindex_valid (in_indices _ _ Hin)).
  unfold get. now rewrite <- Hs.
Qed.

Lemma qsum_snoc (l : list Q) (x : Q) : qsum (l ++ [x]) = (qsum l + x)%Q.
Proof. unfold qsum. now rewrite fold_left_app. Qed.

Lemma nth_replace_at_same {A : Type} (l : list A) (i : nat) (x d : A) :
  i < List.length l -> nth i (replace_at i x l) d = x.
Proof.
  revert i. induction l as [|y l IH]; intros [|i] H; simpl in *; try lia; auto.
  apply IH. lia.
Qed.

Lemma nth_replace_at_other {A : Type} (l : list A) (i j : nat) (x d : A) :
  i <> j -> nth j (replace_at i x l) d = nth j l d.
Proof.
  revert i j. induction l as [|y l IH]; intros [|i] [|j] H; simpl; try reflexivity; try lia.
  apply IH. lia.
Qed.

Lemma length_replace_at {A : Type} (l : list A) (i : nat) (x : A) :
  List.length (replace_at i x l) = List.length l.
Proof.
  revert i. induction l as [|y l IH]; intros [|i]; simpl; auto.
Qed.

Lemma get_vector (t : tensor) (n i : nat) :
  shape t = [n] -> get t [i] = nth i (data t) 0%Q.
Proof.
  intro H. unfold get. rewrite H. simpl. f_equal. lia.
Qed.

(** ** The maximum of a list and of a vector *)

Lemma Qmax_cases (x y : Q) : Qmax x y = x \/ Qmax x y = y.
Proof.
  unfold Qmax, GenericMinMax.gmax. destruct (x ?= y)%Q; auto.
Qed.

Lemma fold_max_spec (l : list Q) (x : Q) :
  (x <= fold_left Qmax l x)%Q /\
  (forall y, In y l -> (y <= fold_left Qmax l x)%Q) /\
  (fold_left Qmax l x = x \/ In (fold_left Qmax l x) l).
Proof.
  revert x. induction l as [|z l IH]; intro x; simpl.
  - split; [apply Qle_refl|]. split; [intros y []|now left].
  - destruct (IH (Qmax x z)) as (H1 & H2 & H3).
    split; [eapply Qle_trans; [apply Q.le_max_l|exact H1]|].
    split.
    + intros y [<-|Hy]; [eapply Qle_trans; [apply Q.le_max_r|exact H1]|now apply H2].
    + destruct H3 as [H3|H3]; [|now right; right].
      rewrite H3. destruct (Qmax_cases x z) as [->| ->]; [now left|now right; left].
Qed.

(** [t.max()] of a non-empty vector bounds every entry and is one of
    them. *)
Lemma max_all_vector (t : tensor) (n : nat) :
  shape t = [n] -> List.length (data t) = n -> 0 < n ->
  exists m, max_all t = Ok m /\
            (forall i, i < n -> (get t [i] <= m)%Q) /\
            (exists i, i < n /\ m = get t [i]).
Proof.
  intros Hs Hl Hn. unfold max_all.
  destruct (data t) as [|x rest] eqn:E; [simpl in Hl; lia|].
  cbn [qmax_list]. eexists. split; [reflexivity|].
  destruct (fold_max_spec rest x) as (H1 & H2 & H3).
  simpl in Hl.
  split.
  - intros i Hi. rewrite (get_vector _ _ Hs), E.
    destruct i as [|i]; [exact H1|]. simpl. apply H2. apply nth_In. lia.
  - destruct H3 as [H3|H3].
    + exists 0. split; [lia|]. rewrite (get_vector _ _ Hs), E. simpl. now symmetry.
    + destruct (In_nth _ _ 0%Q H3) as (i & Hi & Hnth).
      exists (S i). split; [lia|]. rewrite (get_vector _ _ Hs), E. simpl. now symmetry.
Qed.

End TorchFacts.

(* ===================================================================== *)
(** * The kernel initializer *)
(* ===================================================================== *)

Module KernelFacts.

Import Torch Snn TorchFacts.

Open Scope nat_scope.

Lemma for_each_app {A S : Type} (l1 l2 : list A) (body : S -> A -> result S) (s : S) :
  for_each (l1 ++ l2) body s = Py.bind (for_each l1 body s) (for_each l2 body).
Proof.
  revert s. induction l1 as [|x l1 IH]; intro s; [reflexivity|].
  simpl. destruct (body s x); simpl; auto.
Qed.

Lemma qsum_seq_sum_upto (h : nat -> Q) (n : nat) :
  (qsum (map h (seq 0 (S n))) == sum_upto h n)%Q.
Proof.
  induction n as [|n IH].
  - unfold qsum. simpl. ring.
  - rewrite seq_S, map_app.
    change (map h [0 + S n]) with [h (S n)].
    rewrite qsum_snoc, IH. reflexivity.
Qed.

Lemma sum_upto_nonneg (h : nat -> Q) (n : nat) :
  (forall k, k <= n -> (0 <= h k)%Q) -> (0 <= sum_upto h n)%Q.
Proof.
  induction n as [|n IH]; intro H; simpl.
  - apply H. lia.
  - apply Qle_trans with (0 + 0)%Q; [apply Qle_refl|].
    apply Qplus_le_compat; [apply IH; intros; apply H; lia|apply H; lia].
Qed.

(** One round of the loop stores the closed form at position [t]. *)
Lemma epsilon_step_ok (a_i a_v : Q) (eps : tensor) (T t : nat) :
  shape eps = [T] -> t < T ->
  exists v, epsilon_step a_i a_v eps t = Ok (mkT [T] (replace_at t v (data eps)))
            /\ (v == epsilon_formula a_i a_v t)%Q.
Proof.
  intros Hs Ht. unfold epsilon_step, mul.
  rewrite binop_same_shape_data
    by (unfold pow_seq; simpl; now rewrite length_rev).
  simpl Py.bind. unfold set_item. rewrite Hs.
  apply Nat.ltb_lt in Ht. rewrite Ht.
  eexists. split; [reflexivity|].
  unfold sum_all, numel, pow_seq. simpl data. simpl shape.
  rewrite length_seq. simpl numel_of. rewrite Nat.mul_1_r, Nat.add_1_r.
  unfold epsilon_formula. rewrite <- qsum_seq_sum_upto.
  assert (E : forall k, In k (seq 0 (S t)) ->
     (nth k (map (fun k0 => a_i ^ Z.of_nat k0) (seq 0 (S t))) 0 *
      nth k (map (fun k0 => a_v ^ Z.of_nat k0) (List.rev (seq 0 (S t)))) 0)%Q
     = (a_i ^ Z.of_nat k * a_v ^ Z.of_nat (t - k))%Q).
  { intros k Hk. apply in_seq in Hk.
    rewrite (nth_indep _ 0%Q (a_i ^ Z.of_nat 0)%Q) by (rewrite length_map, length_seq; lia).
    rewrite (map_nth (fun k0 => a_i ^ Z.of_nat k0)%Q).
    rewrite (nth_indep _ 0%Q (a_v ^ Z.of_nat 0)%Q)
      by (rewrite length_map, length_rev, length_seq; lia).
    rewrite (map_nth (fun k0 => a_v ^ Z.of_nat k0)%Q).
    rewrite rev_nth by (rewrite length_seq; lia).
    rewrite length_seq, !seq_nth by lia.
    repeat f_equal; lia. }
  rewrite (map_ext_in _ _ _ E). reflexivity.
Qed.

(** The loop of lines 142-151, started on a vector of length [T], fills
    positions [0 .. n-1] and leaves the rest as it was. *)
Lemma epsilon_loop_prefix (a_i a_v : Q) (T n : nat) (eps0 : tensor) :
  shape eps0 = [T] -> List.length (data eps0) = T -> n <= T ->
  exists eps,
    for_each (seq 0 n) (epsilon_step a_i a_v) eps0 = Ok eps /\
    shape eps = [T] /\ List.length (data eps) = T /\
    (forall t, t < n -> (nth t (data eps) 0 == epsilon_formula a_i a_v t)%Q) /\
    (forall t, n <= t -> nth t (data eps) 0%Q = nth t (data eps0) 0%Q).
Proof.
  intros Hs Hl. induction n as [|n IH]; intro Hn.
  - exists eps0. simpl. repeat split; auto. intros t Ht. lia.
  - destruct IH as [eps [Hrun [Hs' [Hl' [Hlow Hhigh]]]]]; [lia|].
    rewrite seq_S, for_each_app, Hrun. simpl.
    destruct (epsilon_step_ok a_i a_v eps (T := T) (t := n) Hs') as [v [Hstep Hv]]; [lia|].
    rewrite Hstep. eexists. split; [reflexivity|]. simpl.
    split; [reflexivity|]. split; [now rewrite length_replace_at|]. split.
    + intros t Ht. destruct (Nat.eq_dec t n) as [->|Hne].
      * rewrite nth_replace_at_same by lia. exact Hv.
      * rewrite nth_replace_at_other by lia. apply Hlow. lia.
    + intros t Ht. rewrite nth_replace_at_other by lia. apply Hhigh. lia.
Qed.

Lemma reshape_row (kept : list Q) :
  reshape [1; 1; -1]%Z (mkT [List.length kept] kept)
  = Ok (mkT [1; 1; List.length kept] kept).
Proof.
  unfold reshape, resolve_shape, numel. cbn -[Nat.modulo Nat.div Nat.eqb].
  rewrite Nat.mod_1_r, Nat.div_1_r, !Nat.mul_1_r. reflexivity.
Qed.

(** The centred difference of a kernel: both shifted copies have the
    same shape, so their difference is defined. *)
Lemma shifted_difference_ok (d : nat) (k : tensor) (pre : list nat) (n : nat) :
  shape k = pre ++ [n] -> d = List.length pre ->
  exists front back diff,
    cat d k (zeros (pre ++ [2])) = Ok front /\
    cat d (zeros (pre ++ [2])) k = Ok back /\
    sub front back = Ok diff.
Proof.
  intros Hs ->. unfold cat, rank, zeros. simpl shape. rewrite Hs.
  assert (Hr : forall x y, remove_at (List.length pre) (pre ++ [x]) = pre
                      /\ nth (List.length pre) (pre ++ [x]) 0 = x
                      /\ replace_at (List.length pre) y (pre ++ [x]) = pre ++ [y]).
  { clear. intros x y. induction pre as [|p pre IH]; simpl; [auto|].
    destruct IH as [-> [-> ->]]. auto. }
  destruct (Hr n 0) as [R1 [N1 _]]. destruct (Hr 2 0) as [R2 [N2 _]].
  rewrite R1, R2, N1, N2, !length_app. simpl List.length.
  replace (List.length pre <? List.length pre + 1) with true
    by (symmetry; apply Nat.ltb_lt; lia).
  rewrite Nat.eqb_refl, shape_eqb_refl. simpl.
  destruct (Hr n (n + 2)) as [_ [_ E1]]. destruct (Hr 2 (S (S n))) as [_ [_ E2]].
  rewrite E1, E2.
  match goal with
  | |- exists f b d, Ok ?F = Ok f /\ Ok ?B = Ok b /\ _ =>
      destruct (@binop_same_shape Qminus F B) as [r [Hr' _]];
      [simpl; do 2 f_equal; lia | exists F, B, r; auto]
  end.
Qed.

(** The alpha kernel is always defined, and computing it leaves the
    constants of the epsilon kernel alone. *)
Lemma init_alpha_kernel_ok (self : net) :
  exists self',
    init_alpha_kernel self = Ok self' /\
    alpha_i (cfg self') = alpha_i (cfg self) /\
    alpha_v (cfg self') = alpha_v (cfg self) /\
    time_length (cfg self') = time_length (cfg self) /\
    beta_auto (cfg self') = beta_auto (cfg self) /\
    multi_model (cfg self') = multi_model (cfg self) /\
    num_models (cfg self') = num_models (cfg self).
Proof.
  unfold init_alpha_kernel.
  destruct (in_list (target_type (cfg self)) ["train"; "count"]%string);
    [|exists self; repeat split; reflexivity].
  match goal with
  | |- context [alpha_exp (cfg ?s)] => set (self1 := s)
  end.
  assert (Hc : alpha_i (cfg self1) = alpha_i (cfg self) /\
               alpha_v (cfg self1) = alpha_v (cfg self) /\
               time_length (cfg self1) = time_length (cfg self) /\
               beta_auto (cfg self1) = beta_auto (cfg self) /\
               multi_model (cfg self1) = multi_model (cfg self) /\
               num_models (cfg self1) = num_models (cfg self)).
  { subst self1.
    destruct (String.eqb (target_type (cfg self)) "train");
      [|destruct (String.eqb (target_type (cfg self)) "count")]; simpl;
      repeat split; reflexivity. }
  unfold mask_gt. cbv zeta. rewrite reshape_row. cbn [Py.bind].
  match goal with
  | |- context [cat 2 ?k (zeros [1; 1; 2])] =>
      destruct (@shifted_difference_ok 2 k [1; 1] _ eq_refl eq_refl)
        as [front [back [d [Hf [Hb Hd]]]]]
  end.
  cbn [app] in Hf, Hb. rewrite Hf, Hb.
  cbn [Py.bind]. rewrite Hd. cbn [Py.bind].
  eexists. split; [reflexivity|]. simpl. exact Hc.
Qed.

(** Computing the alpha kernel leaves the scaling constants alone. *)
Lemma init_alpha_kernel_betas (self self' : net) :
  init_alpha_kernel self = Ok self' ->
  beta_i (cfg self') = beta_i (cfg self) /\
  beta_v (cfg self') = beta_v (cfg self) /\
  beta_bias (cfg self') = beta_bias (cfg self).
Proof.
  unfold init_alpha_kernel.
  destruct (in_list (target_type (cfg self)) ["train"; "count"]%string);
    [|intro H; injection H as <-; auto].
  match goal with
  | |- context [alpha_exp (cfg ?s)] => set (self1 := s)
  end.
  assert (Hc : beta_i (cfg self1) = beta_i (cfg self) /\
               beta_v (cfg self1) = beta_v (cfg self) /\
               beta_bias (cfg self1) = beta_bias (cfg self)).
  { subst self1.
    destruct (String.eqb (target_type (cfg self)) "train");
      [|destruct (String.eqb (target_type (cfg self)) "count")]; simpl; auto. }
  cbv zeta. intro H.
  repeat match type of H with
         | Py.bind ?r _ = Ok _ => destruct r; cbn [Py.bind] in H; [|discriminate]
         end.
  injection H as <-. exact Hc.
Qed.

(** C6. The kernel initializer computes, for every step [t] below the
    time horizon, [epsilon[t]] as the sum over [k = 0 .. t] of
    [alpha_i ^ k * alpha_v ^ (t - k)]; before normalisation
    [epsilon[0]] is [1] and, for decay constants strictly between 0 and
    1, no entry is negative. With a valid target type (and, when
    auto-scaling is on, a positive horizon) [_init_kernels] returns:
    with auto-scaling on it has set [beta_i = 1] and
    [beta_v = beta_bias = 1 / m], where [m >= 1] is the largest entry of
    that kernel; with auto-scaling off it has left the three constants
    as they were; in both cases the kernel it stores as [epsilon] is the
    one above multiplied by [beta_i * beta_v], so that its entry [t] is
    the closed form times [beta_i * beta_v]. *)
Theorem kernel_initializer (self : net) :
  let c := cfg self in
  exists eps,
    epsilon_raw (alpha_i c) (alpha_v c) (time_length c) = Ok eps /\
    shape eps = [time_length c] /\
    (forall t, t < time_length c ->
       (get eps [t] == epsilon_formula (alpha_i c) (alpha_v c) t)%Q) /\
    (0 < time_length c -> (get eps [0%nat] == 1)%Q) /\
    ((0 < alpha_i c /\ alpha_i c < 1)%Q -> (0 < alpha_v c /\ alpha_v c < 1)%Q ->
       forall t, t < time_length c -> (0 <= get eps [t])%Q) /\
    (in_list (target_type c) VALID_TARGETS = true ->
     (beta_auto c = true -> 0 < time_length c) ->
       exists self' e,
         _init_kernels self = Ok self' /\
         (if beta_auto c
          then exists m,
                 max_all eps = Ok m /\ (1 <= m)%Q /\
                 (forall t, t < time_length c -> (get eps [t] <= m)%Q) /\
                 (exists t, t < time_length c /\ m = get eps [t]) /\
                 beta_i (cfg self') = 1%Q /\
                 beta_v (cfg self') = (1 / m)%Q /\
                 beta_bias (cfg self') = (1 / m)%Q
          else beta_i (cfg self') = beta_i c /\
               beta_v (cfg self') = beta_v c /\
               beta_bias (cfg self') = beta_bias c) /\
         alpha_i (cfg self') = alpha_i c /\
         alpha_v (cfg self') = alpha_v c /\
         time_length (cfg self') = time_length c /\
         epsilon (kern self') = Some e /\
         e = scale (beta_i (cfg self') * beta_v (cfg self')) eps /\
         shape e = [time_length c] /\
         (forall t, t < time_length c ->
            (get e [t] == epsilon_formula (alpha_i c) (alpha_v c) t
                          * (beta_i (cfg self') * beta_v (cfg self')))%Q)).
Proof.
  intro c.
  destruct (@epsilon_loop_prefix (alpha_i c) (alpha_v c) (time_length c) (time_length c)
              (zeros [time_length c]))
    as [eps [Hrun [Hs [Hl [Hlow _]]]]].
  { reflexivity. }
  { pose proof (build_well_formed [time_length c] (fun _ => 0%Q)) as H.
    unfold well_formed, numel in H. unfold zeros. rewrite H. simpl. lia. }
  { lia. }
  exists eps. split; [exact Hrun|]. split; [exact Hs|].
  assert (Hget : forall t, t < time_length c ->
            (get eps [t] == epsilon_formula (alpha_i c) (alpha_v c) t)%Q).
  { intros t Ht. rewrite (get_vector _ _ Hs). now apply Hlow. }
  split; [exact Hget|]. split; [|split].
  - intro HT. rewrite (Hget 0 HT). unfold epsilon_formula. simpl. ring.
  - intros [Hi _] [Hv _] t Ht. rewrite (Hget t Ht). unfold epsilon_formula.
    apply sum_upto_nonneg. intros k _.
    apply Qmult_le_0_compat; apply Qpower_0_le; now apply Qlt_le_weak.
  - intros Htt HT. unfold _init_kernels. fold c. rewrite Htt. cbn [negb].
    destruct (init_alpha_kernel_ok self) as [self1 [Hak [Ei [Ev [ET [Ea _]]]]]].
    pose proof (@init_alpha_kernel_betas _ _ Hak) as Hb3. fold c in Hb3.
    rewrite Hak.
    cbn [Py.bind]. rewrite Ei, Ev, ET. fold c. unfold epsilon_raw. rewrite Hrun. cbn [Py.bind].
    rewrite Ea. fold c.
    assert (Hscaled : forall q t, t < time_length c ->
              (get (scale q eps) [t] == epsilon_formula (alpha_i c) (alpha_v c) t * q)%Q).
    { intros q t Ht. unfold scale.
      rewrite (get_vector (map_t (fun x => (x * q)%Q) eps) t (n := time_length c)) by exact Hs.
      unfold map_t. cbn [data].
      rewrite (nth_indep _ 0%Q ((fun x => x * q)%Q 0%Q)) by (rewrite length_map; lia).
      rewrite (map_nth (fun x => (x * q)%Q)). now rewrite (Hlow t Ht). }
    destruct (beta_auto c) eqn:Hauto.
    + destruct (@max_all_vector eps (time_length c) Hs Hl (HT eq_refl))
        as (m & Hm & Hub & Hat).
      rewrite Hm. cbn [Py.bind].
      match goal with
      | |- context [cat 0 ?k (zeros [2])] =>
          destruct (@shifted_difference_ok 0 k [] (time_length c)) as [f [b [d [Hf [Hb Hd]]]]];
          [simpl; now rewrite Hs | reflexivity |]
      end.
      cbn [app] in Hf, Hb. rewrite Hf, Hb. cbn [Py.bind]. rewrite Hd. cbn [Py.bind].
      do 2 eexists. split; [reflexivity|].
      split.
      { exists m. split; [reflexivity|]. split.
        - apply Qle_trans with (get eps [0]); [|apply Hub, HT; reflexivity].
          rewrite (Hget 0 (HT eq_refl)). unfold epsilon_formula. simpl.
          apply Qle_lteq. right. ring.
        - simpl. auto. }
      simpl. rewrite Ei, Ev, ET. fold c.
      repeat (split; [reflexivity|]). split; [exact Hs|]. apply Hscaled.
    + cbn [Py.bind].
      match goal with
      | |- context [cat 0 ?k (zeros [2])] =>
          destruct (@shifted_difference_ok 0 k [] (time_length c)) as [f [b [d [Hf [Hb Hd]]]]];
          [simpl; now rewrite Hs | reflexivity |]
      end.
      cbn [app] in Hf, Hb. rewrite Hf, Hb. cbn [Py.bind]. rewrite Hd. cbn [Py.bind].
      do 2 eexists. split; [reflexivity|].
      split; [simpl; exact Hb3|].
      simpl. rewrite Ei, Ev, ET. fold c.
      repeat (split; [reflexivity|]). split; [exact Hs|]. apply Hscaled.
Qed.

Definition demo_config : config :=
  mkConfig false 1 ["4"]%string "count"%string 3 (9 # 10) (1 # 2) (9 # 10) true 1 1 1 (One 1%Q).

(** The theorem at three steps with decays 9/10 and 1/2: the kernel is
    [1, 7/5, 151/100], its largest entry is the last one, so
    [beta_v = 100/151] and the stored kernel is [100/151, 140/151, 1]. *)
Lemma kernel_initializer_witness :
  exists eps self' e,
    epsilon_raw (9 # 10) (1 # 2) 3 = Ok eps /\
    (get eps [0%nat] == 1)%Q /\ (get eps [2%nat] == 151 # 100)%Q /\ (0 <= get eps [1%nat])%Q /\
    _init_kernels (blank demo_config) = Ok self' /\
    beta_i (cfg self') = 1%Q /\ (beta_v (cfg self') == 100 # 151)%Q /\
    epsilon (kern self') = Some e /\
    (get e [1%nat] == 140 # 151)%Q.
Proof.
  destruct (kernel_initializer (blank demo_config))
    as [eps [Hrun [_ [Hform [H0 [Hpos Hret]]]]]].
  destruct Hret as [self' [e [Hk [Hbeta [_ [_ [_ [He [_ [_ Hentry]]]]]]]]]];
    [reflexivity|intros _; simpl; lia|].
  exists eps, self', e. split; [exact Hrun|].
  split; [apply H0; simpl; lia|].
  split; [rewrite (Hform 2) by (simpl; lia); vm_compute; reflexivity|].
  split; [apply Hpos; simpl; try lia; split; reflexivity|].
  split; [exact Hk|].
  cbn [demo_config blank cfg beta_auto] in Hbeta.
  destruct Hbeta as [m [Hm [_ [_ [_ [Hbi [Hbv _]]]]]]].
  assert (Em : (m == 151 # 100)%Q).
  { cbn [demo_config blank cfg alpha_i alpha_v time_length] in Hrun.
    vm_compute in Hrun. injection Hrun as <-. vm_compute in Hm. injection Hm as <-.
    reflexivity. }
  split; [exact Hbi|]. split; [rewrite Hbv, Em; reflexivity|]. split; [exact He|].
  rewrite (Hentry 1) by (simpl; lia). rewrite Hbi, Hbv, Em. vm_compute. reflexivity.
Defined.

End KernelFacts.

(* ===================================================================== *)
(** * Construction *)
(* ===================================================================== *)

Module BuilderFacts.

Import Torch Snn TorchFacts KernelFacts.

Open Scope string_scope.
Open Scope list_scope.
Open Scope nat_scope.

(** No branch of [_init_single_layer] gets past its first read of a
    local variable: whatever the tag, the call ends in an exception. *)
Lemma init_single_layer_raises (fresh : list nat -> tensor) (c : config) (spec : string) :
  exists e, _init_single_layer fresh c spec = Raise e.
Proof.
  unfold _init_single_layer.
  repeat match goal with
         | |- context [if Str.contains ?a ?b then _ else _] => destruct (Str.contains a b)
         end;
    repeat (cbn [Py.bind read_local in_channels out_channels height width new_frame];
            match goal with
            | |- exists e, Raise _ = Raise e => eauto
            | |- exists e, Py.bind ?r _ = Raise e => destruct r as [?|?]
            | |- exists e, match ?x with _ => _ end = Raise e => destruct x
            end).
Qed.

Definition fc_network : config :=
  mkConfig false 1 ["4"; "fc2"] "count" 5 0 0 1 false 1 1 1 (One 1%Q).

(** C5. Building the network [4 -> fc2] (one fully connected layer of
    width 2 on 4 inputs, a valid specification) does not produce the
    shape sequence [[2]]: [_init_single_layer] reads its local
    [in_channels] before any assignment and construction ends with
    [UnboundLocalError]. *)
Theorem builder_rejects_fc_network (fresh : list nat -> tensor) :
  __init__ fresh fc_network = Raise (UnboundLocalError "in_channels").
Proof. reflexivity. Qed.

(** ** The model-count check *)

(** A result that, if it is an exception, is not the model-count error. *)
Definition safe {A : Type} (r : result A) : Prop :=
  forall e, r = Raise e -> e <> model_count_error.

Lemma safe_ok {A : Type} (a : A) : safe (Ok a).
Proof. intros e H. discriminate. Qed.

Lemma safe_raise {A : Type} (e : exn) : e <> model_count_error -> safe (@Raise A e).
Proof. intros H e' H'. injection H' as <-. exact H. Qed.

Lemma safe_bind {A B : Type} (r : result A) (k : A -> result B) :
  safe r -> (forall a, safe (k a)) -> safe (Py.bind r k).
Proof.
  intros Hr Hk e. destruct r as [a|e0]; simpl.
  - apply Hk.
  - intro H. injection H as <-. now apply Hr.
Qed.

Lemma safe_for_each {A S : Type} (l : list A) (body : S -> A -> result S) (s : S) :
  (forall s x, safe (body s x)) -> safe (for_each l body s).
Proof.
  intro H. revert s. induction l as [|x l IH]; intro s; simpl.
  - apply safe_ok.
  - apply safe_bind; auto.
Qed.

Lemma safe_map_result {A B : Type} (f : A -> result B) (l : list A) :
  (forall x, safe (f x)) -> safe (map_result f l).
Proof.
  intro H. induction l as [|x l IH]; simpl.
  - apply safe_ok.
  - apply safe_bind; [apply H|]. intro y.
    apply safe_bind; [apply IH|]. intro ys. apply safe_ok.
Qed.

Ltac safe_prim :=
  intros;
  repeat match goal with
         | |- safe (if ?b then _ else _) => destruct b
         | |- safe (match ?x with _ => _ end) => destruct x
         | |- safe (Ok _) => apply safe_ok
         | |- safe (Raise _) => apply safe_raise; discriminate
         end.

Lemma safe_reshape target t : safe (reshape target t).
Proof. unfold reshape. safe_prim. Qed.

Lemma safe_binop f a b : safe (binop f a b).
Proof. unfold binop, shape_error. safe_prim. Qed.

Lemma safe_cat d a b : safe (cat d a b).
Proof. unfold cat, shape_error. safe_prim. Qed.

Lemma safe_set_item t v e : safe (set_item t v e).
Proof. unfold set_item. safe_prim. Qed.

Lemma safe_max_all t : safe (max_all t).
Proof. unfold max_all. safe_prim. Qed.

Lemma safe_item {A : Type} (l : list A) i : safe (item l i).
Proof. unfold item. safe_prim. Qed.

Lemma safe_int s : safe (Str.int s).
Proof.
  unfold Str.int.
  destruct (match Str.strip Str.whitespace s with
            | String "-" rest => ((-1)%Z, rest)
            | String "+" rest => (1%Z, rest)
            | _ => (1%Z, Str.strip Str.whitespace s)
            end) as [sign digits].
  safe_prim.
Qed.

Lemma safe_unpack2 {A : Type} (l : list A) : safe (unpack2 l).
Proof. unfold unpack2. safe_prim. Qed.

Lemma safe_unpack3 {A : Type} (l : list A) : safe (unpack3 l).
Proof. unfold unpack3. safe_prim. Qed.

Lemma safe_floor_div a b : safe (floor_div a b).
Proof. unfold floor_div. safe_prim. Qed.

Lemma safe_read_local {A : Type} name (v : option A) : safe (read_local name v).
Proof. unfold read_local. safe_prim. Qed.

Lemma safe_no_mm_support c ty : safe (no_mm_support c ty).
Proof. unfold no_mm_support. safe_prim. Qed.

Lemma safe_append_to {A : Type} (e : entry A) x : safe (append_to e x).
Proof. unfold append_to. safe_prim. Qed.

Lemma safe_subscript {A : Type} (e : entry A) i : safe (subscript e i).
Proof. unfold subscript, item. safe_prim. Qed.

Lemma safe_call_is_conv2d_or_linear args : safe (call_is_conv2d_or_linear args).
Proof. unfold call_is_conv2d_or_linear. safe_prim. Qed.

Create HintDb safe_db.

#[local] Hint Resolve safe_ok safe_reshape safe_binop safe_cat safe_set_item safe_max_all
  safe_item safe_int safe_unpack2 safe_unpack3 safe_floor_div safe_read_local
  safe_no_mm_support safe_append_to safe_subscript safe_call_is_conv2d_or_linear : safe_db.

(** Steps through a monadic body, discharging each primitive from the
    hint database. *)
Ltac safe_body :=
  repeat first
    [ solve [auto with safe_db]
    | apply safe_raise; discriminate
    | apply safe_bind; [|intros]
    | apply safe_for_each; intros
    | apply safe_map_result; intros
    | match goal with
      | |- safe (if ?b then _ else _) => destruct b
      | |- safe (match ?x with _ => _ end) => destruct x
      | |- safe (let (_, _) := ?x in _) => destruct x
      end ].

Lemma safe_init_kernels (self : net) : safe (_init_kernels self).
Proof.
  unfold _init_kernels, init_alpha_kernel, epsilon_raw, epsilon_step, sub, mul.
  safe_body.
Qed.

Lemma safe_init_single_layer fresh c spec : safe (_init_single_layer fresh c spec).
Proof. unfold _init_single_layer. safe_body. Qed.

Lemma safe_init_layers fresh (self : net) : safe (_init_layers fresh self).
Proof.
  pose proof safe_init_single_layer.
  unfold _init_layers, add_multi, add_single, reset_parameters, reset_layer,
    reset_parameters_single_layer.
  safe_body.
Qed.

Lemma init_kernels_keeps_model_count (self self' : net) :
  _init_kernels self = Ok self' ->
  multi_model (cfg self') = multi_model (cfg self) /\
  num_models (cfg self') = num_models (cfg self).
Proof.
  unfold _init_kernels.
  destruct (negb (in_list (target_type (cfg self)) VALID_TARGETS)); [discriminate|].
  destruct (init_alpha_kernel_ok self) as [self1 [-> [_ [_ [_ [_ [Em En]]]]]]].
  cbn [Py.bind].
  destruct (epsilon_raw _ _ _) as [eps|]; cbn [Py.bind]; [|discriminate].
  assert (H : forall self2,
            (if beta_auto (cfg self1)
             then (m <- max_all eps ;;
                   Ok (set_cfg (set_beta_bias (1 / m)%Q
                                  (set_beta_v (1 / m)%Q (set_beta_i 1%Q (cfg self1)))) self1))%py
             else Ok self1) = Ok self2 ->
            multi_model (cfg self2) = multi_model (cfg self) /\
            num_models (cfg self2) = num_models (cfg self)).
  { intros self2. destruct (beta_auto (cfg self1)).
    - destruct (max_all eps); cbn [Py.bind]; [|discriminate].
      intro H. injection H as <-. simpl. auto.
    - intro H. injection H as <-. auto. }
  match goal with
  | |- Py.bind ?r _ = _ -> _ => destruct r as [self2|]; [|discriminate]
  end.
  specialize (H self2 eq_refl). cbn [Py.bind].
  repeat match goal with
         | |- Py.bind ?r _ = _ -> _ => destruct r; cbn [Py.bind]; [|discriminate]
         end.
  intro E. injection E as <-. simpl. exact H.
Qed.

Lemma init_layers_keeps_cfg fresh (self self' : net) :
  _init_layers fresh self = Ok self' -> cfg self' = cfg self.
Proof.
  unfold _init_layers.
  repeat match goal with
         | |- Py.bind ?r _ = _ -> _ => destruct r; cbn [Py.bind]; [|discriminate]
         end.
  intro E. injection E as <-. reflexivity.
Qed.

(** The claim as the specification words it: construction fails with a
    configuration error exactly when the model count is not 1 and the
    multi-model flag is off. *)
Definition fails_exactly_on_model_count (fresh : list nat -> tensor) (c : config) : Prop :=
  (exists msg, __init__ fresh c = Raise (ValueError msg)) <->
  (multi_model c = false /\ num_models c <> 1%Z).

Definition unknown_target_config : config :=
  mkConfig false 1 ["4"] "rate" 3 (1 # 2) (1 # 2) 1 false 1 1 1 (One 1%Q).

(** C9, as stated, fails: a single model with model count 1 and an
    unknown loss rule is rejected with a configuration error, although
    flag and count agree. *)
Lemma unknown_target_is_rejected :
  ~ fails_exactly_on_model_count zeros unknown_target_config.
Proof.
  unfold fails_exactly_on_model_count. intros [H _].
  destruct H as [_ Hn].
  - eexists. reflexivity.
  - apply Hn. reflexivity.
Qed.

Lemma init_body_safe fresh (s : net) :
  Py.bind (_init_kernels s) (_init_layers fresh) <> Raise model_count_error.
Proof.
  intro H.
  exact (@safe_bind _ _ _ _ (safe_init_kernels s) (fun s' => safe_init_layers fresh s')
           _ H eq_refl).
Qed.

Lemma init_body_keeps_model_count fresh (s self : net) :
  Py.bind (_init_kernels s) (_init_layers fresh) = Ok self ->
  multi_model (cfg self) = multi_model (cfg s) /\
  num_models (cfg self) = num_models (cfg s).
Proof.
  destruct (_init_kernels s) as [s1|] eqn:Ek; cbn [Py.bind]; [|discriminate].
  intro H. apply init_layers_keeps_cfg in H. rewrite H.
  now apply init_kernels_keeps_model_count.
Qed.

(** C9, amended. [__init__] raises its model-count error exactly when
    the model count differs from 1 while the multi-model flag is off (a
    set flag with a count of 1 passes this check); other configuration
    errors are raised independently of it; and every network that
    [__init__] returns has a model count of 1 or the flag set. *)
Theorem model_count_check (fresh : list nat -> tensor) (c : config) :
  (__init__ fresh c = Raise model_count_error <->
   (multi_model c = false /\ num_models c <> 1%Z)) /\
  (forall self, __init__ fresh c = Ok self ->
     (num_models (cfg self) = 1%Z \/ multi_model (cfg self) = true) /\
     multi_model (cfg self) = multi_model c /\ num_models (cfg self) = num_models c).
Proof.
  unfold __init__. simpl cfg.
  destruct (multi_model c) eqn:Em; destruct (Z.eqb_spec (num_models c) 1) as [En|En];
    cbn [negb andb].
  - split.
    + split; [intro H; now apply init_body_safe in H | intros [H _]; discriminate].
    + intros self H. apply init_body_keeps_model_count in H. simpl in H.
      destruct H as [-> ->]. rewrite Em. auto.
  - split.
    + split; [intro H; now apply init_body_safe in H | intros [H _]; discriminate].
    + intros self H. apply init_body_keeps_model_count in H. simpl in H.
      destruct H as [-> ->]. rewrite Em. auto.
  - split.
    + split; [intro H; now apply init_body_safe in H | intros [_ H]; contradiction].
    + intros self H. apply init_body_keeps_model_count in H. simpl in H.
      destruct H as [-> ->]. rewrite Em. auto.
  - split.
    + split; [auto | reflexivity].
    + intros self H. discriminate.
Qed.

Definition empty_network : config :=
  mkConfig true 1 ["4"] "train" 3 (1 # 2) (1 # 2) (9 # 10) false 1 1 1 (One 1%Q).

(** The theorem at a network without layers: the flag is set, the count
    is 1, and construction succeeds. *)
Lemma model_count_check_witness :
  exists self, __init__ zeros empty_network = Ok self /\
               (num_models (cfg self) = 1%Z \/ multi_model (cfg self) = true).
Proof.
  destruct (__init__ zeros empty_network) as [self|] eqn:E; [|vm_compute in E; discriminate].
  exists self. split; [reflexivity|].
  exact (proj1 (proj2 (model_count_check zeros empty_network) self E)).
Defined.

End BuilderFacts.

(* ===================================================================== *)
(** * The loss *)
(* ===================================================================== *)

Module LossFacts.

Import Torch Snn.

Open Scope string_scope.
Open Scope list_scope.
Open Scope nat_scope.

Definition bool_has_no_len : exn := TypeError "object of type 'bool' has no len()".

(** The guard of [apply_alpha_kernel] compares a size with a number and
    takes [len] of the outcome: whatever the input, the call raises. *)
Lemma apply_alpha_kernel_raises (self : net) (x : tensor) (padding flip_ prime : bool) :
  apply_alpha_kernel self x padding flip_ prime = Raise bool_has_no_len.
Proof. reflexivity. Qed.

(** Under the spike-train and spike-count rules [calc_loss] never
    returns a loss. *)
Lemma mse_loss_never_returns (latency_loss : net -> tensor -> result net)
    (self : net) (target : tensor) :
  target_type (cfg self) = "train" \/ target_type (cfg self) = "count" ->
  is_ok (calc_loss latency_loss self target) = false.
Proof.
  intro H. unfold calc_loss, _mse.
  destruct (item (shape target) 0); cbn [Py.bind]; [|reflexivity].
  cbn [set_ls tr kern ls cfg].
  destruct H as [-> | ->]; cbn [String.eqb Ascii.eqb Bool.eqb set_ls tr kern ls cfg];
    repeat match goal with
           | |- is_ok (Py.bind ?r _) = false =>
               first [rewrite apply_alpha_kernel_raises; reflexivity
                     | destruct r; cbn [Py.bind]; [|reflexivity]]
           end.
Qed.

(** A network under the spike-train rule after a forward pass of two
    steps with one output neuron. *)
Definition train_net : net :=
  mkNet (mkConfig false 1 ["1"] "train" 2 (1 # 2) (1 # 2) (9 # 10) false 1 1 1 (One 1%Q))
        (mkKernels (Some 200) (Some (mkT [1; 1; 2] [1; 9 # 10]%Q))
                   (Some (mkT [1; 1; 4] [1 # 2; 9 # 20; - (1 # 2); - (9 # 20)]%Q)) None None)
        (mkArch 0 [] [] [] [])
        (set_output (Some (mkT [1; 2; 1] [1; 0]%Q)) empty_trace)
        (mkLoss None None None None).

(** C2. With an output and a target of the same shape [(1, 2, 1)] under
    the spike-train rule, [calc_loss] does not return the mean squared
    smoothed difference: it raises [TypeError] from the guard of
    [apply_alpha_kernel] before anything is convolved. *)
Theorem calc_loss_raises_on_matching_shapes (latency_loss : net -> tensor -> result net) :
  calc_loss latency_loss train_net (mkT [1; 2; 1] [0; 1]%Q) = Raise bool_has_no_len.
Proof. reflexivity. Qed.

(** The same under the spike-count rule. *)
Lemma calc_loss_raises_for_count (latency_loss : net -> tensor -> result net) :
  calc_loss latency_loss
    (set_cfg (mkConfig false 1 ["1"] "count" 2 (1 # 2) (1 # 2) 1 false 1 1 1 (One 1%Q))
       (set_kern (set_alpha_extend (Some 0) (kern train_net)) train_net))
    (mkT [1; 2; 1] [0; 1]%Q)
  = Raise bool_has_no_len.
Proof. reflexivity. Qed.

(** Past that guard, the spike-count branch calls [torch.pow] with one
    argument. *)
Lemma count_branch_pow_raises (last : tensor) :
  exists e, torch_pow [inl last] = Raise e.
Proof. eexists. reflexivity. Qed.

End LossFacts.

(* ===================================================================== *)
(** * Gradient clipping *)
(* ===================================================================== *)

Module ClipFacts.

Import Torch Snn.

Open Scope string_scope.
Open Scope list_scope.
Open Scope nat_scope.

(** Every entry of a clamped tensor lies between the bounds. *)
Lemma clamp_in_range (lo hi : Q) (t : tensor) :
  (lo <= hi)%Q ->
  Forall (fun x => lo <= x /\ x <= hi)%Q (data (clamp lo hi t)).
Proof.
  intro H. unfold clamp, map_t. simpl. apply Forall_forall.
  intros x Hx. apply in_map_iff in Hx. destruct Hx as [y [<- _]]. split.
  - apply Q.min_glb; [apply Q.le_max_r | exact H].
  - apply Q.le_min_r.
Qed.

(** [clamp_grad] leaves a gradient within plus or minus the clip value. *)
Lemma clamp_grad_in_range (p p' : param) (c : Q) (g : tensor) :
  clamp_grad p c = Ok p' -> grad p' = Some g ->
  Forall (fun x => - Qabs c <= x /\ x <= Qabs c)%Q (data g).
Proof.
  unfold clamp_grad. destruct (grad p) as [g0|]; [|discriminate].
  intro H. injection H as <-. simpl. intro H. injection H as <-.
  apply clamp_in_range.
  apply Qle_trans with 0%Q; [|apply Qabs_nonneg].
  rewrite <- (Qopp_involutive 0). apply Qopp_le_compat. apply Qabs_nonneg.
Qed.

Definition with_grad (w g : Q) : param :=
  mkParam (mkT [1; 1] [w]) (Some (mkT [1; 1] [g])).

(** Two replicated models with one fully connected layer, every
    gradient entry at 5 or -7, and the clip values [1, 2]. *)
Definition clip_net : net :=
  mkNet (mkConfig true 2 ["1"; "fc1"] "count" 2 (1 # 2) (1 # 2) 1 false 1 1 1
           (Many [1; 2]%Q))
        (mkKernels None None None None None)
        (mkArch 1
           [Many [Linear (with_grad 1 5); Linear (with_grad 1 5)]]
           [Many [Some (mkParam (mkT [1] [0%Q]) (Some (mkT [1] [5%Q])));
                  Some (mkParam (mkT [1] [0%Q]) (Some (mkT [1] [- (7)]%Q)))]]
           [[1%Z]] ["fc"])
        empty_trace
        (mkLoss None None None None).

(** C4. On a multi-model the clipping block changes nothing: the test
    [is_conv2d_or_linear(layer)] is applied to the list of replicas, so
    no gradient is clamped, and the entry 5 of every weight gradient
    stays outside both [-1, 1] and [-2, 2]. *)
Theorem multi_model_gradients_not_clipped :
  exists self',
    clip_gradients clip_net = Ok self' /\
    layers (net_arch self') = [Many [Linear (with_grad 1 5); Linear (with_grad 1 5)]] /\
    grad (with_grad 1 5) = Some (mkT [1; 1] [5%Q]) /\
    ~ (5 <= Qabs 1)%Q /\ ~ (5 <= Qabs 2)%Q.
Proof.
  exists clip_net. split; [reflexivity|]. split; [reflexivity|]. split; [reflexivity|].
  split; intro H; vm_compute in H; apply H; reflexivity.
Qed.

(** The local [grad_clip] is rebound to the entry selected for model 0;
    the loop over the models ends with the scalar 1, so model 1 would be
    given entry 0 of the list as well. *)
Lemma clip_value_rebound :
  for_each (range 2)
    (clip_model (cfg clip_net) 0 (Many [Linear (with_grad 1 5); Linear (with_grad 1 5)]))
    (Many [1; 2]%Q, net_arch clip_net)
  = Ok (One 1%Q, net_arch clip_net).
Proof. reflexivity. Qed.

(** A list of clip values whose length does not divide the model count
    is rejected when the first layer is visited. *)
Lemma clip_list_must_divide :
  exists msg,
    clip_gradients (set_cfg (mkConfig true 2 ["1"; "fc1"] "count" 2 (1 # 2) (1 # 2) 1
                               false 1 1 1 (Many [1; 2; 3]%Q)) clip_net)
    = Raise (ValueError msg).
Proof. eexists. reflexivity. Qed.

(** On a single model the block does clamp: the same layer, one
    replica, clip values [1, 2] (the first is used). *)
Lemma single_model_gradients_clipped :
  exists self,
    clip_gradients
      (mkNet (mkConfig false 1 ["1"; "fc1"] "count" 2 (1 # 2) (1 # 2) 1 false 1 1 1
                (Many [1; 2]%Q))
             (mkKernels None None None None None)
             (mkArch 1 [One (Linear (with_grad 1 5))]
                [One (Some (mkParam (mkT [1] [0%Q]) (Some (mkT [1] [- (7)]%Q))))]
                [[1%Z]] ["fc"])
             empty_trace (mkLoss None None None None)) = Ok self /\
    layers (net_arch self) = [One (Linear (mkParam (mkT [1; 1] [1%Q]) (Some (mkT [1; 1] [1%Q]))))] /\
    state_v_bs (net_arch self) = [One (Some (mkParam (mkT [1] [0%Q]) (Some (mkT [1] [- (1)]%Q))))].
Proof. eexists. split; [|split]; reflexivity. Qed.

End ClipFacts.

(* ===================================================================== *)
(** * The NaN guard of the weight gradients *)
(* ===================================================================== *)

Module GradFacts.

Import Torch Snn KernelFacts TorchFacts.

Open Scope string_scope.
Open Scope list_scope.
Open Scope nat_scope.

Definition nan_warning : event := Warning "nan found and replaced with 0".

Lemma zero_nans_clean (g : list fval) : existsb isnan (zero_nans g) = false.
Proof.
  induction g as [|x g IH]; [reflexivity|].
  simpl. destruct x; simpl; exact IH.
Qed.

Lemma zero_nans_keeps_numbers (g : list fval) (i : nat) (q : Q) :
  nth_error g i = Some (Num q) -> nth_error (zero_nans g) i = Some (Num q).
Proof.
  intro H. unfold zero_nans. rewrite nth_error_map, H. reflexivity.
Qed.

Lemma zero_nans_replaces (g : list fval) (i : nat) :
  nth_error g i = Some NaN -> nth_error (zero_nans g) i = Some (Num 0).
Proof.
  intro H. unfold zero_nans. rewrite nth_error_map, H. reflexivity.
Qed.

Lemma zero_nans_id (g : list fval) : existsb isnan g = false -> zero_nans g = g.
Proof.
  induction g as [|x g IH]; [reflexivity|].
  simpl. destruct x; simpl; [|discriminate].
  intro H. now rewrite IH.
Qed.

(** Both guards store [zero_nans g], extend the log only when a NaN was
    found, and then always with the warning last. *)
Lemma nan_guard_fc_spec (g : list fval) (log : list event) :
  fst (nan_guard_fc g log) = zero_nans g /\
  snd (nan_guard_fc g log) =
    if existsb isnan g then log ++ [nan_warning] else log.
Proof.
  unfold nan_guard_fc. destruct (existsb isnan g) eqn:E; simpl; split; auto.
  symmetry. now apply zero_nans_id.
Qed.

Lemma nan_guard_conv_spec (g : list fval) (log : list event) :
  fst (nan_guard_conv g log) = zero_nans g /\
  snd (nan_guard_conv g log) =
    if existsb isnan g then log ++ [Breakpoint; nan_warning] else log.
Proof.
  unfold nan_guard_conv. destruct (existsb isnan g) eqn:E; simpl; split; auto.
  symmetry. now apply zero_nans_id.
Qed.

Lemma nth_error_replace_at_same {A : Type} (l : list A) (i : nat) (x : A) :
  i < List.length l -> nth_error (replace_at i x l) i = Some x.
Proof.
  revert i. induction l as [|y l IH]; intros [|i] H; simpl in *; try lia; auto.
  apply IH. lia.
Qed.

Lemma nth_error_replace_at_other {A : Type} (l : list A) (i j : nat) (x : A) :
  i <> j -> nth_error (replace_at i x l) j = nth_error l j.
Proof.
  revert i j. induction l as [|y l IH]; intros [|i] [|j] H; simpl; try reflexivity; try lia.
  apply IH. lia.
Qed.

(** In the branch of a fully connected layer the guard zeroes the NaN
    entries and logs the warning, nothing else. *)
Lemma fc_guard_continues (g : list fval) (log : list event) :
  existsb isnan g = true ->
  nan_guard_fc g log = (zero_nans g, log ++ [nan_warning]).
Proof. unfold nan_guard_fc. now intros ->. Qed.

(** A network of one convolutional layer whose accumulated weight
    gradient is [1, NaN]. *)
Definition conv_gradient (l : nat) : result (list fval) := Ok [Num 1; NaN].

(** C8. For a convolutional layer whose accumulated weight gradient
    holds a NaN, [prop_dLdI_to_dLdW] does replace the entry by zero and
    log the warning, but only after [pdb.set_trace()]: the run stops in
    the interactive debugger first, where the fully connected branch
    goes on unattended. *)
Theorem conv_nan_guard_enters_debugger :
  prop_dLdI_to_dLdW conv_gradient conv_gradient 1 ["conv"] ([None], [])
  = Ok ([Some [Num 1; Num 0]], [Breakpoint; nan_warning]) /\
  prop_dLdI_to_dLdW conv_gradient conv_gradient 1 ["fc"] ([None], [])
  = Ok ([Some [Num 1; Num 0]], [nan_warning]).
Proof. split; reflexivity. Qed.

End GradFacts.

(* ===================================================================== *)
(** * The forward pass *)
(* ===================================================================== *)

Module ForwardFacts.

Import Torch Snn TorchFacts KernelFacts GradFacts.

Open Scope string_scope.
Open Scope list_scope.
Open Scope nat_scope.

(** ** Running a method body *)

Lemma mbind_ok {A B : Type} (m : M A) (k : A -> M B) (s s' : net) (b : B) :
  mbind m k s = (s', Ok b) ->
  exists s1 a, m s = (s1, Ok a) /\ k a s1 = (s', Ok b).
Proof.
  unfold mbind. destruct (m s) as [s1 [a|e]]; [eauto|discriminate].
Qed.

Lemma ret_ok {A : Type} (a b : A) (s s' : net) :
  ret a s = (s', Ok b) -> s' = s /\ b = a.
Proof. unfold ret. intro H. injection H as <- <-. auto. Qed.

Lemma lift_ok {A : Type} (r : result A) (a : A) (s s' : net) :
  lift r s = (s', Ok a) -> s' = s /\ r = Ok a.
Proof. unfold lift. intro H. injection H as <- ->. auto. Qed.

Lemma reading_ok {A : Type} (f : net -> result A) (a : A) (s s' : net) :
  reading f s = (s', Ok a) -> s' = s /\ f s = Ok a.
Proof. unfold reading. intro H. injection H as <- ->. auto. Qed.

Lemma updating_ok (f : net -> result net) (u : unit) (s s' : net) :
  updating f s = (s', Ok u) -> f s = Ok s'.
Proof.
  unfold updating. destruct (f s) as [s1|e]; intro H; [|discriminate].
  now injection H as ->.
Qed.

Lemma set_tr_with_ok (f : trace -> result trace) (u : unit) (s s' : net) :
  set_tr_with f s = (s', Ok u) -> exists t, f (tr s) = Ok t /\ s' = set_tr t s.
Proof.
  unfold set_tr_with. intro H. apply updating_ok in H.
  destruct (f (tr s)) as [t|e]; cbn [Py.bind] in H; [|discriminate].
  injection H as <-. eauto.
Qed.

Lemma bind_ok {A B : Type} (r : result A) (k : A -> result B) (b : B) :
  Py.bind r k = Ok b -> exists a, r = Ok a /\ k a = Ok b.
Proof. destruct r as [a|e]; simpl; [eauto|discriminate]. Qed.

(** ** Python lists *)

Lemma item_ok {A : Type} (l : list A) (i : nat) (x : A) :
  item l i = Ok x <-> nth_error l i = Some x.
Proof.
  unfold item. destruct (nth_error l i); split; intro H; try discriminate;
    now injection H as ->.
Qed.

Lemma item_z_nat {A : Type} (l : list A) (i : nat) :
  item_z l (Z.of_nat i) = item l i.
Proof.
  unfold item_z. destruct (Z.leb_spec 0 (Z.of_nat i)); [|lia].
  now rewrite Nat2Z.id.
Qed.

Lemma item_z_pred {A : Type} (l : list A) (i : nat) :
  0 < i -> item_z l (Z.of_nat i - 1) = item l (i - 1).
Proof.
  intro H. replace (Z.of_nat i - 1)%Z with (Z.of_nat (i - 1)) by lia.
  apply item_z_nat.
Qed.

Lemma item_z_from_end {A : Type} (l : list A) (k : nat) (x : A) :
  0 < k -> item_z l (- Z.of_nat k) = Ok x ->
  k <= List.length l /\ nth_error l (List.length l - k) = Some x.
Proof.
  intros Hk. unfold item_z.
  destruct (Z.leb_spec 0 (- Z.of_nat k)); [lia|].
  destruct (Z.ltb_spec (Z.of_nat (List.length l) + - Z.of_nat k) 0); [discriminate|].
  replace (Z.to_nat (Z.of_nat (List.length l) + - Z.of_nat k)) with (List.length l - k) by lia.
  intro Hi. apply item_ok in Hi. split; [lia|exact Hi].
Qed.

Lemma nth_error_snoc {A : Type} (l : list A) (x : A) :
  nth_error (l ++ [x]) (List.length l) = Some x.
Proof. rewrite nth_error_app2 by lia. now rewrite Nat.sub_diag. Qed.

(** [l[-1]] of a list is the element appended last. *)
Lemma last_item_snoc {A : Type} (l : list A) (x : A) : item_z (l ++ [x]) (-1) = Ok x.
Proof.
  unfold item_z. simpl. rewrite length_app. simpl.
  destruct (Z.ltb_spec (Z.of_nat (List.length l + 1) + -1) 0); [lia|].
  replace (Z.to_nat (Z.of_nat (List.length l + 1) + -1)) with (List.length l) by lia.
  apply item_ok, nth_error_snoc.
Qed.

Lemma last_item_ok {A : Type} (l : list A) (x : A) :
  item_z l (-1) = Ok x -> exists pre, l = pre ++ [x].
Proof.
  intro H. apply (@item_z_from_end _ l 1 x) in H; [|lia].
  destruct H as [Hl H].
  destruct (exists_last (l := l)) as [pre [y ->]].
  { intro E. subst l. simpl in Hl. lia. }
  exists pre. rewrite length_app in H. simpl in H.
  replace (List.length pre + 1 - 1) with (List.length pre) in H by lia.
  rewrite nth_error_snoc in H. now injection H as ->.
Qed.

Lemma replace_at_snoc {A : Type} (l : list A) (x y : A) :
  replace_at (List.length l) y (l ++ [x]) = l ++ [y].
Proof. induction l as [|z l IH]; simpl; [reflexivity|now rewrite IH]. Qed.

Lemma set_last_ok {A : Type} (l l' : list A) (x : A) :
  set_last l x = Ok l' -> exists pre y, l = pre ++ [y] /\ l' = pre ++ [x].
Proof.
  unfold set_last. destruct (List.length l) as [|n] eqn:E; [discriminate|].
  intro H. injection H as <-.
  destruct (exists_last (l := l)) as [pre [y ->]].
  { intro E'. subst l. discriminate. }
  exists pre, y. split; [reflexivity|].
  rewrite length_app in E. simpl in E.
  replace n with (List.length pre) by lia. apply replace_at_snoc.
Qed.

Lemma replace_at_same {A : Type} (l : list A) (i : nat) (x : A) :
  nth_error l i = Some x -> replace_at i x l = l.
Proof.
  revert i. induction l as [|y l IH]; intros [|i] H; simpl in *; try discriminate.
  - now injection H as ->.
  - now rewrite IH.
Qed.

Lemma replace_at_twice {A : Type} (l : list A) (i : nat) (x y : A) :
  replace_at i y (replace_at i x l) = replace_at i y l.
Proof.
  revert i. induction l as [|z l IH]; intros [|i]; simpl; try reflexivity.
  now rewrite IH.
Qed.

(** ** Trace slots *)

Lemma slot_ok {A : Type} (rows : list (list A)) (l : nat) (i : Z) (x : A) :
  slot rows (Z.of_nat l) i = Ok x ->
  exists row, nth_error rows l = Some row /\ item_z row i = Ok x.
Proof.
  unfold slot. rewrite item_z_nat. intro H. apply bind_ok in H.
  destruct H as [row [H1 H2]]. apply item_ok in H1. eauto.
Qed.

Lemma append_at_ok {A : Type} (rows rows' : list (list A)) (l : nat) (x : A) :
  append_at rows l x = Ok rows' ->
  exists row, nth_error rows l = Some row /\ rows' = replace_at l (row ++ [x]) rows.
Proof.
  unfold append_at. intro H. apply bind_ok in H. destruct H as [row [H1 H2]].
  apply item_ok in H1. injection H2 as <-. eauto.
Qed.

Lemma set_last_at_ok {A : Type} (rows rows' : list (list A)) (l : nat) (x : A) :
  set_last_at rows l x = Ok rows' ->
  exists pre y, nth_error rows l = Some (pre ++ [y]) /\
                rows' = replace_at l (pre ++ [x]) rows.
Proof.
  unfold set_last_at. intro H. apply bind_ok in H. destruct H as [row [H1 H2]].
  apply item_ok in H1. apply bind_ok in H2. destruct H2 as [row' [H2 H3]].
  injection H3 as <-. apply set_last_ok in H2. destruct H2 as [pre [y [-> ->]]].
  eauto.
Qed.

(** ** The primitive actions on the traces *)

Lemma append_i_ok (l : nat) (x : tensor) (u : unit) (s s' : net) :
  append_i l x s = (s', Ok u) ->
  exists row, nth_error (state_i (tr s)) l = Some row /\
    s' = set_tr (set_state_i (replace_at l (row ++ [x]) (state_i (tr s))) (tr s)) s.
Proof.
  intro H. apply set_tr_with_ok in H. destruct H as [t [H ->]].
  apply bind_ok in H. destruct H as [rows [H1 H2]]. injection H2 as <-.
  apply append_at_ok in H1. destruct H1 as [row [H1 ->]]. eauto.
Qed.

Lemma append_v_ok (l : nat) (x : tref) (u : unit) (s s' : net) :
  append_v l x s = (s', Ok u) ->
  exists row, nth_error (state_v (tr s)) l = Some row /\
    s' = set_tr (set_state_v (replace_at l (row ++ [x]) (state_v (tr s))) (tr s)) s.
Proof.
  intro H. apply set_tr_with_ok in H. destruct H as [t [H ->]].
  apply bind_ok in H. destruct H as [rows [H1 H2]]. injection H2 as <-.
  apply append_at_ok in H1. destruct H1 as [row [H1 ->]]. eauto.
Qed.

Lemma append_v_prime_ok (l : nat) (x : tref) (u : unit) (s s' : net) :
  append_v_prime l x s = (s', Ok u) ->
  exists row, nth_error (state_v_prime (tr s)) l = Some row /\
    s' = set_tr (set_state_v_prime (replace_at l (row ++ [x]) (state_v_prime (tr s))) (tr s)) s.
Proof.
  intro H. apply set_tr_with_ok in H. destruct H as [t [H ->]].
  apply bind_ok in H. destruct H as [rows [H1 H2]]. injection H2 as <-.
  apply append_at_ok in H1. destruct H1 as [row [H1 ->]]. eauto.
Qed.

Lemma append_s_ok (l : nat) (x : tensor) (u : unit) (s s' : net) :
  append_s l x s = (s', Ok u) ->
  exists row, nth_error (state_s (tr s)) l = Some row /\
    s' = set_tr (set_state_s (replace_at l (row ++ [x]) (state_s (tr s))) (tr s)) s.
Proof.
  intro H. apply set_tr_with_ok in H. destruct H as [t [H ->]].
  apply bind_ok in H. destruct H as [rows [H1 H2]]. injection H2 as <-.
  apply append_at_ok in H1. destruct H1 as [row [H1 ->]]. eauto.
Qed.

Lemma set_last_i_ok (l : nat) (x : tensor) (u : unit) (s s' : net) :
  set_last_i l x s = (s', Ok u) ->
  exists pre y, nth_error (state_i (tr s)) l = Some (pre ++ [y]) /\
    s' = set_tr (set_state_i (replace_at l (pre ++ [x]) (state_i (tr s))) (tr s)) s.
Proof.
  intro H. apply set_tr_with_ok in H. destruct H as [t [H ->]].
  apply bind_ok in H. destruct H as [rows [H1 H2]]. injection H2 as <-.
  apply set_last_at_ok in H1. destruct H1 as [pre [y [H1 ->]]]. eauto.
Qed.

Lemma set_last_v_ok (l : nat) (x : tref) (u : unit) (s s' : net) :
  set_last_v l x s = (s', Ok u) ->
  exists pre y, nth_error (state_v (tr s)) l = Some (pre ++ [y]) /\
    s' = set_tr (set_state_v (replace_at l (pre ++ [x]) (state_v (tr s))) (tr s)) s.
Proof.
  intro H. apply set_tr_with_ok in H. destruct H as [t [H ->]].
  apply bind_ok in H. destruct H as [rows [H1 H2]]. injection H2 as <-.
  apply set_last_at_ok in H1. destruct H1 as [pre [y [H1 ->]]]. eauto.
Qed.

Lemma set_last_v_prime_ok (l : nat) (x : tref) (u : unit) (s s' : net) :
  set_last_v_prime l x s = (s', Ok u) ->
  exists pre y, nth_error (state_v_prime (tr s)) l = Some (pre ++ [y]) /\
    s' = set_tr (set_state_v_prime (replace_at l (pre ++ [x]) (state_v_prime (tr s))) (tr s)) s.
Proof.
  intro H. apply set_tr_with_ok in H. destruct H as [t [H ->]].
  apply bind_ok in H. destruct H as [rows [H1 H2]]. injection H2 as <-.
  apply set_last_at_ok in H1. destruct H1 as [pre [y [H1 ->]]]. eauto.
Qed.

Lemma read_i_ok (l : nat) (i : Z) (x : tensor) (s s' : net) :
  read_i l i s = (s', Ok x) ->
  s' = s /\ exists row, nth_error (state_i (tr s)) l = Some row /\ item_z row i = Ok x.
Proof.
  intro H. apply reading_ok in H. destruct H as [-> H]. split; [reflexivity|].
  now apply slot_ok.
Qed.

Lemma read_s_ok (l : nat) (i : Z) (x : tensor) (s s' : net) :
  read_s (Z.of_nat l) i s = (s', Ok x) ->
  s' = s /\ exists row, nth_error (state_s (tr s)) l = Some row /\ item_z row i = Ok x.
Proof.
  intro H. apply reading_ok in H. destruct H as [-> H]. split; [reflexivity|].
  now apply slot_ok.
Qed.

Lemma ref_v_ok (l : nat) (i : Z) (x : tref) (s s' : net) :
  ref_v l i s = (s', Ok x) ->
  s' = s /\ exists row, nth_error (state_v (tr s)) l = Some row /\ item_z row i = Ok x.
Proof.
  intro H. apply reading_ok in H. destruct H as [-> H]. split; [reflexivity|].
  now apply slot_ok.
Qed.

Lemma read_v_ok (l : nat) (i : Z) (x : tensor) (s s' : net) :
  read_v l i s = (s', Ok x) ->
  s' = s /\ exists row r, nth_error (state_v (tr s)) l = Some row /\ item_z row i = Ok r /\
                          deref s r = Ok x.
Proof.
  intro H. apply reading_ok in H. destruct H as [-> H]. split; [reflexivity|].
  apply bind_ok in H. destruct H as [r [H1 H2]].
  apply slot_ok in H1. destruct H1 as [row [H1 H3]]. eauto.
Qed.

Lemma ref_v_prime_ok (l : nat) (i : Z) (x : tref) (s s' : net) :
  ref_v_prime l i s = (s', Ok x) ->
  s' = s /\ exists row, nth_error (state_v_prime (tr s)) l = Some row /\ item_z row i = Ok x.
Proof.
  intro H. apply reading_ok in H. destruct H as [-> H]. split; [reflexivity|].
  now apply slot_ok.
Qed.

Lemma write_ref_own (t new : tensor) (r : tref) (s s' : net) :
  write_ref (Own t) new s = (s', Ok r) -> s' = s /\ r = Own new.
Proof. unfold write_ref. intro H. apply ret_ok in H. tauto. Qed.

Ltac mprim H :=
  lazymatch type of H with
  | ret _ _ = (_, Ok _) =>
      apply ret_ok in H; destruct H as [-> ?]
  | lift _ _ = (_, Ok _) =>
      apply lift_ok in H; destruct H as [-> H]
  | reading _ _ = (_, Ok _) =>
      apply reading_ok in H; destruct H as [-> H]; cbv beta in H
  | append_i _ _ _ = (_, Ok _) =>
      apply append_i_ok in H; destruct H as (? & H & ->)
  | append_v _ _ _ = (_, Ok _) =>
      apply append_v_ok in H; destruct H as (? & H & ->)
  | append_v_prime _ _ _ = (_, Ok _) =>
      apply append_v_prime_ok in H; destruct H as (? & H & ->)
  | append_s _ _ _ = (_, Ok _) =>
      apply append_s_ok in H; destruct H as (? & H & ->)
  | set_last_i _ _ _ = (_, Ok _) =>
      apply set_last_i_ok in H; destruct H as (? & ? & H & ->)
  | set_last_v _ _ _ = (_, Ok _) =>
      apply set_last_v_ok in H; destruct H as (? & ? & H & ->)
  | set_last_v_prime _ _ _ = (_, Ok _) =>
      apply set_last_v_prime_ok in H; destruct H as (? & ? & H & ->)
  | read_i _ _ _ = (_, Ok _) =>
      apply read_i_ok in H; destruct H as (-> & ? & H & ?)
  | read_s (Z.of_nat _) _ _ = (_, Ok _) =>
      apply read_s_ok in H; destruct H as (-> & ? & H & ?)
  | ref_v _ _ _ = (_, Ok _) =>
      apply ref_v_ok in H; destruct H as (-> & ? & H & ?)
  | read_v _ _ _ = (_, Ok _) =>
      apply read_v_ok in H; destruct H as (-> & ? & ? & H & ? & ?)
  | ref_v_prime _ _ _ = (_, Ok _) =>
      apply ref_v_prime_ok in H; destruct H as (-> & ? & H & ?)
  | write_ref (Own _) _ _ = (_, Ok _) =>
      apply write_ref_own in H; destruct H as (-> & ->)
  | _ => idtac
  end.

Ltac minv H :=
  repeat lazymatch type of H with
  | mbind _ _ _ = (_, Ok _) =>
      let s1 := fresh "s" in
      let a := fresh "a" in
      let Ha := fresh "Ha" in
      apply mbind_ok in H; destruct H as (s1 & a & Ha & H);
      cbv beta in H; mprim Ha
  end;
  mprim H.

Ltac fields :=
  cbn [cfg kern net_arch tr ls set_cfg set_kern set_net_arch set_tr set_ls
       input output_s_cum state_i state_v state_v_prime state_s weight_list bias_list
       term_length output output_each_model num_spike_total num_spike_nec
       first_stime_min first_stime_mean
       set_input set_output_s_cum set_state_i set_state_v set_state_v_prime set_state_s
       set_weight_list set_bias_list set_term_length set_output set_output_each_model
       set_num_spike_total set_num_spike_nec set_first_stime_min set_first_stime_mean
       layers state_v_bs set_layers set_state_v_bs] in *.

Lemma nth_error_replace_at_hit {A : Type} (rows : list A) (l : nat) (r x : A) :
  nth_error rows l = Some r -> nth_error (replace_at l x rows) l = Some x.
Proof.
  intro H. apply nth_error_replace_at_same. apply nth_error_Some. now rewrite H.
Qed.

Lemma item_z_last_nth {A : Type} (row : list A) (t : nat) (a : A) :
  List.length row = t -> item_z row (-1) = Ok a -> 0 < t /\ nth_error row (t - 1) = Some a.
Proof.
  intros Hl H. apply (@item_z_from_end _ row 1 a) in H; [|lia].
  rewrite Hl in H. destruct H. split; [lia|assumption].
Qed.

Lemma item_z_prev_snoc {A : Type} (row : list A) (x a : A) (t : nat) :
  List.length row = t -> 0 < t ->
  item_z (row ++ [x]) (Z.of_nat t - 1) = Ok a -> nth_error row (t - 1) = Some a.
Proof.
  intros Hl Ht H. rewrite item_z_pred in H by assumption. apply item_ok in H.
  rewrite nth_error_app1 in H by lia. exact H.
Qed.

Lemma item_z_second_last_snoc {A : Type} (row : list A) (x a : A) (t : nat) :
  List.length row = t ->
  item_z (row ++ [x]) (-2) = Ok a -> 0 < t /\ nth_error row (t - 1) = Some a.
Proof.
  intros Hl H. apply (@item_z_from_end _ (row ++ [x]) 2 a) in H; [|lia].
  rewrite length_app in H. simpl in H. destruct H as [H1 H2]. split; [lia|].
  rewrite nth_error_app1 in H2 by lia.
  replace (t - 1) with (List.length row + 1 - 2) by lia. exact H2.
Qed.

(** The slot holds a tensor of its own, not a view of a parameter. *)
Definition owned (r : tref) : Prop := exists t, r = Own t.

(** Runs the steps of an error-monad block whose outcomes are known. *)
Ltac run_ok :=
  repeat (match goal with
          | H : ?r = Ok _ |- context [Py.bind ?r _] => rewrite H
          end; cbn [Py.bind]).

Lemma merge_first_two_scale (q : Q) (y r : tensor) :
  merge_first_two (scale q y) = Ok r ->
  exists r0, merge_first_two y = Ok r0 /\ r = scale q r0.
Proof.
  unfold merge_first_two, reshape, scale, map_t, numel. simpl.
  destruct (shape y) as [|a [|b rest]]; try discriminate.
  destruct (resolve_shape _ _) as [sh|]; [|discriminate].
  intro H. injection H as <-. eexists. split; reflexivity.
Qed.

Lemma owned_nth (rv : list tref) (i : nat) (r : tref) :
  Forall owned rv -> nth_error rv i = Some r -> exists v, r = Own v.
Proof.
  intros H Hn. apply nth_error_In in Hn.
  rewrite Forall_forall in H. exact (H _ Hn).
Qed.


(** What one step of a neuron layer adds to its four rows: the new
    entries [i], [v], [vp] and, through [v], the spike. *)
Definition step_entries (c : config) (t : nat)
    (ri : list tensor) (rv : list tref) (rs : list tensor)
    (ff v0 i v vp : tensor) : Prop :=
  (t = 0 -> i = ff /\ v = v0 /\ vp = clamp_min (1 # 100) v) /\
  (0 < t ->
   exists i' v' sp,
     nth_error ri (t - 1) = Some i' /\
     nth_error rv (t - 1) = Some (Own v') /\
     nth_error rs (t - 1) = Some sp /\
     decayed_current c ff i' sp = Ok i /\
     decayed_voltage c v0 v' sp = Ok v /\
     exists d, voltage_difference v' sp v = Ok d /\ vp = clamp_min (1 # 100) d).

Lemma neuron_step (input : tensor) (t l : nat) (ly : layer) (s s' : net)
    (ri : list tensor) (rv rvp : list tref) (rs : list tensor) :
  multi_model (cfg s) = true ->
  mbind (step_current input t l ly) (fun _ => step_voltage t l) s = (s', Ok tt) ->
  nth_error (state_i (tr s)) l = Some ri ->
  nth_error (state_v (tr s)) l = Some rv ->
  nth_error (state_v_prime (tr s)) l = Some rvp ->
  nth_error (state_s (tr s)) l = Some rs ->
  List.length ri = t -> List.length rv = t -> List.length rvp = t -> List.length rs = t ->
  Forall owned rv ->
  exists i v vp ff v0 x,
    s' = set_tr (set_state_s (replace_at l (rs ++ [ge_float 1 v]) (state_s (tr s)))
           (set_state_v_prime (replace_at l (rvp ++ [Own vp]) (state_v_prime (tr s)))
           (set_state_v (replace_at l (rv ++ [Own v]) (state_v (tr s)))
           (set_state_i (replace_at l (ri ++ [i]) (state_i (tr s))) (tr s))))) s /\
    (l = 0 /\ select 2 t input = Ok x \/
     0 < l /\ exists row sp, nth_error (state_s (tr s)) (l - 1) = Some row /\
                item_z row (-1) = Ok sp /\
                split_first (num_models (cfg s)) sp = Ok x) /\
    weighted_input s l x = Ok ff /\
    membrane_input s l i = Ok v0 /\
    step_entries (cfg s) t ri rv rs ff v0 i v vp.
Proof.
  intros Hm H Hi Hv Hvp Hs Li Lv Lvp Ls Hown.
  apply mbind_ok in H. destruct H as (s1 & u & Hc & H).
  unfold step_current in Hc.
  apply mbind_ok in Hc. destruct Hc as (s0 & self & Ha & Hc). mprim Ha.
  injection Ha as <-. cbv zeta in Hc. rewrite Hm in Hc.
  apply mbind_ok in Hc. destruct Hc as (s2 & u2 & Hff & Hc).
  assert (Hfeed : exists ff x,
            s2 = set_tr (set_state_i (replace_at l (ri ++ [ff]) (state_i (tr s))) (tr s)) s
            /\ (l = 0 /\ select 2 t input = Ok x \/
                0 < l /\ exists row sp, nth_error (state_s (tr s)) (l - 1) = Some row /\
                           item_z row (-1) = Ok sp /\
                           split_first (num_models (cfg s)) sp = Ok x)
            /\ weighted_input s l x = Ok ff).
  { unfold weighted_input. destruct (l =? 0) eqn:El.
    - apply Nat.eqb_eq in El. minv Hff. rewrite Hi in Hff. injection Hff as <-.
      do 2 eexists. split; [reflexivity|]. split; [left; eauto|].
      run_ok. reflexivity.
    - apply Nat.eqb_neq in El.
      replace (Z.of_nat l - 1)%Z with (Z.of_nat (l - 1)) in Hff by lia.
      minv Hff. rewrite Hi in Hff. injection Hff as <-.
      match goal with
      | H : merge_first_two (scale _ _) = Ok _ |- _ =>
          apply merge_first_two_scale in H; destruct H as (r0 & H & ->)
      end.
      do 2 eexists. split; [reflexivity|]. split; [right; split; [lia|eauto]|].
      run_ok. reflexivity. }
  destruct Hfeed as (ff & x & -> & Hx & Hw). clear Hff.
  assert (Hcur : exists i,
     s1 = set_tr (set_state_i (replace_at l (ri ++ [i]) (state_i (tr s))) (tr s)) s /\
     (t = 0 -> i = ff) /\
     (0 < t -> exists i' sp, nth_error ri (t - 1) = Some i' /\
                 nth_error rs (t - 1) = Some sp /\
                 decayed_current (cfg s) ff i' sp = Ok i)).
  { destruct (t =? 0) eqn:Et; cbn [negb] in Hc.
    - apply Nat.eqb_eq in Et. mprim Hc. exists ff. split; [reflexivity|].
      split; [reflexivity|lia].
    - apply Nat.eqb_neq in Et. minv Hc. fields.
      erewrite nth_error_replace_at_hit in Ha, Ha2, Hc by exact Hi.
      injection Ha as <-. injection Ha2 as <-. rewrite Hs in Ha0. injection Ha0 as <-.
      rewrite last_item_snoc in H2. injection H2 as <-.
      injection Hc as Hc. apply app_inj_tail in Hc. destruct Hc as [<- <-].
      eapply item_z_prev_snoc in H0; [|exact Li|lia].
      eapply item_z_last_nth in H1; [|exact Ls]. destruct H1 as [_ H1].
      exists a3. split.
      + rewrite ?replace_at_twice. clear. destruct s as [c0 k0 ar0 t0 l0]. destruct t0.
        reflexivity.
      + split; [lia|]. intros _. exists a, a0. split; [exact H0|]. split; [exact H1|].
        unfold decayed_current.
        apply inplace_spec in Ha1. destruct Ha1 as (_ & _ & Ha1 & _).
        apply inplace_spec in Ha3. destruct Ha3 as (_ & _ & Ha3 & _).
        unfold mul, add. rewrite Ha1. cbn [Py.bind]. exact Ha3. }
  destruct Hcur as (i & -> & Hi0 & Hit). clear Hc.
  unfold step_voltage in H.
  apply mbind_ok in H. destruct H as (s0 & self & Ha & H). mprim Ha.
  injection Ha as <-. cbv zeta in H. fields. rewrite Hm in H.
  apply mbind_ok in H. destruct H as (s2 & u3 & Hmem & H).
  minv Hmem. fields.
  erewrite nth_error_replace_at_hit in Ha by exact Hi. injection Ha as <-.
  rewrite last_item_snoc in H0. injection H0 as <-.
  rewrite Hv in Hmem. injection Hmem as <-.
  rename a3 into v0.
  assert (Hv0 : membrane_input s l i = Ok v0).
  { unfold membrane_input. unfold stacked_bias in *. fields.
    match goal with
    | H : iadd _ _ = Ok _ |- _ => apply inplace_spec in H; destruct H as (_ & _ & H & _)
    end.
    unfold add. run_ok. assumption. }
  apply mbind_ok in H. destruct H as (s3 & u4 & Hdec & H).
  assert (Hvolt : exists v vp,
     s3 = set_tr (set_state_v_prime (replace_at l (rvp ++ [Own vp]) (state_v_prime (tr s)))
            (set_state_v (replace_at l (rv ++ [Own v]) (state_v (tr s)))
            (set_state_i (replace_at l (ri ++ [i]) (state_i (tr s))) (tr s)))) s /\
     (t = 0 -> v = v0 /\ vp = v) /\
     (0 < t -> exists v' sp, nth_error rv (t - 1) = Some (Own v') /\
                 nth_error rs (t - 1) = Some sp /\
                 decayed_voltage (cfg s) v0 v' sp = Ok v /\
                 voltage_difference v' sp v = Ok vp)).
  { destruct (t =? 0) eqn:Et; cbn [negb] in Hdec.
    - apply Nat.eqb_eq in Et. minv Hdec. fields.
      erewrite nth_error_replace_at_hit in Ha by exact Hv. injection Ha as <-.
      rewrite last_item_snoc in H0. injection H0 as <-.
      rewrite Hvp in Hdec. injection Hdec as <-.
      exists v0, v0. split; [|split; [auto|lia]].
      clear. destruct s as [c0 k0 ar0 t0 l0]. destruct t0. reflexivity.
    - apply Nat.eqb_neq in Et.
      apply mbind_ok in Hdec. destruct Hdec as (s4 & target & Ht & Hdec). mprim Ht. fields.
      erewrite nth_error_replace_at_hit in Ht by exact Hv. injection Ht as <-.
      rewrite last_item_snoc in H0. injection H0 as <-.
      minv Hdec. fields.
      erewrite nth_error_replace_at_hit in Ha, Ha8 by exact Hv.
      injection Ha as <-. injection Ha8 as Ha8.
      apply app_inj_tail in Ha8. destruct Ha8 as [<- <-].
      rewrite replace_at_twice in Ha9, Ha12.
      erewrite nth_error_replace_at_hit in Ha9, Ha12 by exact Hv.
      injection Ha9 as <-. injection Ha12 as <-.
      eapply item_z_prev_snoc in H0; [|exact Lv|lia].
      destruct (@owned_nth _ _ _ Hown H0) as [v1 ->].
      cbn [deref] in H1, Ha6. injection H1 as <-. injection Ha6 as <-.
      rewrite Hs in Ha4, Ha10. injection Ha4 as <-. injection Ha10 as <-.
      eapply item_z_last_nth in H2; [|exact Ls]. destruct H2 as [_ H2].
      eapply item_z_last_nth in H5; [|exact Ls]. destruct H5 as [_ H5].
      rewrite H2 in H5. injection H5 as <-.
      eapply item_z_second_last_snoc in H3; [|exact Lv]. destruct H3 as [_ H3].
      rewrite H0 in H3. injection H3 as <-.
      cbn [deref] in H4. injection H4 as <-.
      rewrite last_item_snoc in H6. injection H6 as <-.
      cbn [deref] in H7. injection H7 as <-.
      rewrite Hvp in Hdec. injection Hdec as <-.
      exists a6, a12. split.
      + rewrite ?replace_at_twice. clear. destruct s as [c0 k0 ar0 t0 l0]. destruct t0.
        reflexivity.
      + split; [lia|]. intros _. exists v1, a3.
        split; [exact H0|]. split; [exact H2|].
        apply inplace_spec in Ha7. destruct Ha7 as (_ & _ & Ha7 & _).
        apply inplace_spec in Ha11. destruct Ha11 as (_ & _ & Ha11 & _).
        apply inplace_spec in Ha13. destruct Ha13 as (_ & _ & Ha13 & _).
        unfold decayed_voltage, voltage_difference, mul, add in *.
        split; run_ok; assumption. }
  destruct Hvolt as (v & vp & -> & Hv0' & Hvt). clear Hdec.
  minv H. fields.
  erewrite nth_error_replace_at_hit in Ha, Ha5 by exact Hvp. injection Ha as <-.
  rewrite last_item_snoc in H0. injection H0 as <-.
  cbn [deref] in Ha4. injection Ha4 as <-.
  injection Ha5 as Ha5. apply app_inj_tail in Ha5. destruct Ha5 as [<- <-].
  erewrite nth_error_replace_at_hit in Ha6 by exact Hv. injection Ha6 as <-.
  rewrite last_item_snoc in H1. injection H1 as <-.
  cbn [deref] in H2. injection H2 as <-.
  rewrite Hs in H. injection H as <-.
  exists i, v, (clamp_min (1 # 100) vp), ff, v0, x.
  split.
  { rewrite ?replace_at_twice. clear. destruct s as [c0 k0 ar0 t0 l0]. destruct t0.
    reflexivity. }
  split; [exact Hx|]. split; [exact Hw|]. split; [exact Hv0|].
  split.
  - intros E. destruct (Hv0' E) as [-> ->]. auto.
  - intros Ht. destruct (Hit Ht) as (i' & sp & Hi' & Hsp & Hdc).
    destruct (Hvt Ht) as (v' & sp' & Hv' & Hsp' & Hdv & Hvd).
    rewrite Hsp in Hsp'. injection Hsp' as <-.
    exists i', v', sp. repeat split; try assumption. eauto.
Qed.

(** ** Frame rules *)

(** [m] relates the state it starts from to the state it leaves,
    whatever its outcome. *)
Definition preserves {A : Type} (R : net -> net -> Prop) (m : M A) : Prop :=
  forall s s' r, m s = (s', r) -> R s s'.

Section Frame.

Variable R : net -> net -> Prop.
Hypothesis R_refl : forall s, R s s.
Hypothesis R_trans : forall s1 s2 s3, R s1 s2 -> R s2 s3 -> R s1 s3.

Lemma preserves_ret {A : Type} (a : A) : preserves R (ret a).
Proof. intros s s' r H. injection H as <- _. apply R_refl. Qed.

Lemma preserves_lift {A : Type} (x : result A) : preserves R (lift x).
Proof. intros s s' r H. injection H as <- _. apply R_refl. Qed.

Lemma preserves_reading {A : Type} (f : net -> result A) : preserves R (reading f).
Proof. intros s s' r H. injection H as <- _. apply R_refl. Qed.

Lemma preserves_mbind {A B : Type} (m : M A) (k : A -> M B) :
  preserves R m -> (forall a, preserves R (k a)) -> preserves R (mbind m k).
Proof.
  intros Hm Hk s s' r H. unfold mbind in H.
  destruct (m s) as [s1 [a|e]] eqn:E.
  - eapply R_trans; [eapply Hm; exact E | eapply Hk; exact H].
  - injection H as <- _. eapply Hm; exact E.
Qed.

Lemma preserves_updating (f : net -> result net) :
  (forall s s', f s = Ok s' -> R s s') -> preserves R (updating f).
Proof.
  intros Hf s s' r H. unfold updating in H.
  destruct (f s) as [s1|e] eqn:E; injection H as <- _; [now apply Hf|apply R_refl].
Qed.

Lemma preserves_set_tr_with (f : trace -> result trace) :
  (forall s t, f (tr s) = Ok t -> R s (set_tr t s)) -> preserves R (set_tr_with f).
Proof.
  intro Hf. apply preserves_updating. intros s s' H.
  apply bind_ok in H. destruct H as (t & Ht & H). injection H as <-. now apply Hf.
Qed.

Lemma preserves_mfor {A : Type} (xs : list A) (body : A -> M unit) :
  (forall x, preserves R (body x)) -> preserves R (mfor xs body).
Proof.
  intro H. induction xs as [|x xs IH]; simpl.
  - apply preserves_ret.
  - apply preserves_mbind; auto.
Qed.

End Frame.

(** A layer entry with the index lists of its max-pool module emptied:
    what a forward pass never changes in [self.layers]. *)
Definition forget_indices (e : entry layer) : entry layer :=
  match e with
  | One (MaxPool2d k _) => One (MaxPool2d k [])
  | Many (MaxPool2d k _ :: rest) => Many (MaxPool2d k [] :: rest)
  | other => other
  end.

(** What every action of the loop body leaves alone, except the append
    to a spike row and the update of the spike counter. *)
Definition keeps_spikes (s s' : net) : Prop :=
  cfg s' = cfg s /\
  map forget_indices (layers (net_arch s')) = map forget_indices (layers (net_arch s)) /\
  output_s_cum (tr s') = output_s_cum (tr s) /\
  state_s (tr s') = state_s (tr s).

Lemma keeps_spikes_refl (s : net) : keeps_spikes s s.
Proof. repeat split. Qed.

Lemma keeps_spikes_trans (s1 s2 s3 : net) :
  keeps_spikes s1 s2 -> keeps_spikes s2 s3 -> keeps_spikes s1 s3.
Proof.
  intros (A1 & A2 & A3 & A4) (B1 & B2 & B3 & B4).
  repeat split; congruence.
Qed.

Lemma keeps_spikes_set_tr (s : net) (t : trace) :
  output_s_cum t = output_s_cum (tr s) -> state_s t = state_s (tr s) ->
  keeps_spikes s (set_tr t s).
Proof. intros H1 H2. repeat split; assumption. Qed.

Lemma write_ref_keeps_spikes (r : tref) (new : tensor) :
  preserves keeps_spikes (write_ref r new).
Proof.
  destruct r as [t|l vshape]; simpl.
  - apply preserves_ret. apply keeps_spikes_refl.
  - apply preserves_mbind; [apply keeps_spikes_trans | |].
    + apply preserves_updating; [apply keeps_spikes_refl|].
      intros s s' H. apply bind_ok in H. destruct H as (p & _ & H).
      injection H as <-. repeat split.
    + intros _. apply preserves_ret. apply keeps_spikes_refl.
Qed.

Ltac keeps_trace :=
  apply preserves_set_tr_with; [apply keeps_spikes_refl|];
  intros s t H; apply bind_ok in H; destruct H as (rows & _ & H);
  injection H as <-; apply keeps_spikes_set_tr; reflexivity.

Lemma append_i_keeps_spikes l x : preserves keeps_spikes (append_i l x).
Proof. keeps_trace. Qed.
Lemma append_v_keeps_spikes l x : preserves keeps_spikes (append_v l x).
Proof. keeps_trace. Qed.
Lemma append_v_prime_keeps_spikes l x : preserves keeps_spikes (append_v_prime l x).
Proof. keeps_trace. Qed.
Lemma set_last_i_keeps_spikes l x : preserves keeps_spikes (set_last_i l x).
Proof. keeps_trace. Qed.
Lemma set_last_v_keeps_spikes l x : preserves keeps_spikes (set_last_v l x).
Proof. keeps_trace. Qed.
Lemma set_last_v_prime_keeps_spikes l x : preserves keeps_spikes (set_last_v_prime l x).
Proof. keeps_trace. Qed.

(** Discharges [preserves keeps_spikes m] for a body built from the
    actions above. *)
Ltac keeps_spikes_body :=
  repeat first
    [ apply write_ref_keeps_spikes
    | apply append_i_keeps_spikes
    | apply append_v_keeps_spikes
    | apply append_v_prime_keeps_spikes
    | apply set_last_i_keeps_spikes
    | apply set_last_v_keeps_spikes
    | apply set_last_v_prime_keeps_spikes
    | apply preserves_ret; apply keeps_spikes_refl
    | apply preserves_lift; apply keeps_spikes_refl
    | apply preserves_reading; apply keeps_spikes_refl
    | apply preserves_mbind; [apply keeps_spikes_trans | | intros]
    | match goal with
      | |- preserves _ (if ?c then _ else _) => destruct c
      | |- preserves _ (match ?x with _ => _ end) => destruct x
      end ].

Lemma step_current_keeps_spikes input t l ly :
  preserves keeps_spikes (step_current input t l ly).
Proof. unfold step_current, read_i, read_s. keeps_spikes_body. Qed.

(** ** What one layer update does to the spike traces *)

Lemma map_replace_at {A B : Type} (f : A -> B) (l : list A) (i : nat) (x : A) :
  map f (replace_at i x l) = replace_at i (f x) (map f l).
Proof.
  revert i. induction l as [|y l IH]; intros [|i]; simpl; try reflexivity.
  now rewrite IH.
Qed.

Lemma record_max_index_keeps_spikes (l : nat) (max_index : tensor) :
  preserves keeps_spikes (record_max_index l max_index).
Proof.
  apply preserves_updating; [apply keeps_spikes_refl|].
  intros s s' H. apply bind_ok in H. destruct H as (e & He & H).
  apply bind_ok in H. destruct H as (e' & He' & H). injection H as <-.
  apply item_ok in He.
  repeat split. fields.
  rewrite map_replace_at.
  apply replace_at_same. rewrite nth_error_map, He. simpl. f_equal.
  destruct e as [[]|[|[] rest]]; try discriminate; injection He' as <-; reflexivity.
Qed.

(** The state [s'] is [s] with one entry appended to row [l] of
    [state_s]; the configuration, the spike counter and the modules of
    the layers are those of [s]. *)
Definition spike_appended (l : nat) (s s' : net) : Prop :=
  cfg s' = cfg s /\
  map forget_indices (layers (net_arch s')) = map forget_indices (layers (net_arch s)) /\
  output_s_cum (tr s') = output_s_cum (tr s) /\
  exists row x, nth_error (state_s (tr s)) l = Some row /\
    state_s (tr s') = replace_at l (row ++ [x]) (state_s (tr s)).

Lemma append_s_after (l : nat) (x : tensor) (s s1 s' : net) :
  keeps_spikes s s1 -> append_s l x s1 = (s', Ok tt) -> spike_appended l s s'.
Proof.
  intros (K1 & K2 & K3 & K4) H. mprim H. fields.
  repeat split; try assumption.
  exists x0, x. rewrite <- K4. auto.
Qed.

(** Splits a run of [m ;; k] that returns, when [m] leaves the spike
    traces alone. *)
Ltac peel H K :=
  repeat lazymatch type of H with
  | mbind ?m _ _ = (_, Ok _) =>
      let s1 := fresh "s" in
      let a := fresh "a" in
      let Ha := fresh "Ha" in
      let K1 := fresh "K" in
      let K2 := fresh "K" in
      apply mbind_ok in H; destruct H as (s1 & a & Ha & H); cbv beta in H;
      assert (K1 : preserves keeps_spikes m)
        by (unfold read_i, read_s, read_v, ref_v, ref_v_prime;
            first [apply step_current_keeps_spikes
                  | apply record_max_index_keeps_spikes
                  | keeps_spikes_body]);
      apply K1 in Ha; pose proof (keeps_spikes_trans K Ha) as K2;
      clear K K1 Ha; rename K2 into K
  end.

(** Whether the loop body updates the layer entry [e]: a single model
    skips an entry that is a list of modules. *)
Definition active (c : config) (e : entry layer) : bool :=
  multi_model c || match e with One _ => true | Many _ => false end.

Lemma active_forget (c : config) (e : entry layer) :
  active c (forget_indices e) = active c e.
Proof. destruct e as [[]|[|[] rest]]; reflexivity. Qed.

Lemma layer_step_spikes (input : tensor) (t l : nat) (e : entry layer) (s s' : net) :
  layer_step input t (l, e) s = (s', Ok tt) ->
  if active (cfg s) e then spike_appended l s s' else s' = s.
Proof.
  intro H. unfold layer_step in H.
  apply mbind_ok in H. destruct H as (s1 & layer & Hp & H). mprim Hp.
  pose proof (keeps_spikes_refl s) as K.
  assert (Ha : active (cfg s) e = match layer with One _ => true | Many _ => false end).
  { unfold pick_layer, active in *. destruct (multi_model (cfg s)).
    - apply bind_ok in Hp. destruct Hp as (? & _ & Hp). now injection Hp as <-.
    - now injection Hp as ->. }
  rewrite Ha. clear Ha Hp.
  destruct layer as [ly|lys].
  - destruct ly; cbn [is_conv2d_or_linear is_apool_or_flatten is_max_pool] in H.
    + peel H K. unfold step_voltage in H. peel H K. eapply append_s_after; eassumption.
    + peel H K. unfold step_voltage in H. peel H K. eapply append_s_after; eassumption.
    + peel H K. eapply append_s_after; eassumption.
    + peel H K. destruct a0 as [pool_result max_index]. peel H K.
      eapply append_s_after; eassumption.
    + peel H K. eapply append_s_after; eassumption.
  - cbn in H. now mprim H.
Qed.

(** ** Loops *)

Lemma mfor_enumerate_from {A : Type} (body : nat * A -> M unit) (P : nat -> net -> Prop)
    (xs : list A) (k0 : nat) (s s' : net) :
  P k0 s ->
  (forall k x s1 s2, nth_error xs k = Some x -> P (k0 + k) s1 ->
     body (k0 + k, x) s1 = (s2, Ok tt) -> P (S (k0 + k)) s2) ->
  mfor (combine (seq k0 (List.length xs)) xs) body s = (s', Ok tt) ->
  P (k0 + List.length xs) s'.
Proof.
  revert k0 s. induction xs as [|x xs IH]; intros k0 s H0 Hstep H.
  - simpl in H. apply ret_ok in H. destruct H as [-> _]. now rewrite Nat.add_0_r.
  - simpl in H. apply mbind_ok in H. destruct H as (s1 & [] & Hx & H).
    simpl. rewrite <- Nat.add_succ_comm. apply (IH (S k0) s1).
    + specialize (Hstep 0 x s s1). rewrite Nat.add_0_r in Hstep. now apply Hstep.
    + intros k y s2 s3 Hy HP Hb. rewrite Nat.add_succ_comm in *.
      apply (Hstep (S k) y s2 s3); assumption.
    + exact H.
Qed.

Lemma mfor_enumerate_ok {A : Type} (body : nat * A -> M unit) (P : nat -> net -> Prop)
    (xs : list A) (s s' : net) :
  P 0 s ->
  (forall k x s1 s2, nth_error xs k = Some x -> P k s1 ->
     body (k, x) s1 = (s2, Ok tt) -> P (S k) s2) ->
  mfor (enumerate xs) body s = (s', Ok tt) ->
  P (List.length xs) s'.
Proof.
  intros H0 Hstep H.
  apply (@mfor_enumerate_from _ body P xs 0 s s'); assumption.
Qed.

(** One round of the loop over time: the layer updates, then the test
    of the early stop. *)
Definition time_step (input : tensor) (t : nat) : M bool :=
  (layers <- reading (fun s => Ok (layers (net_arch s))) ;;
   mfor (enumerate layers) (layer_step input t) ;;
   early_stop)%m.

Lemma time_loop_cons (input : tensor) (t : nat) (rest : list nat) (last : option nat) (s : net) :
  time_loop input (t :: rest) last s =
  mbind (time_step input t)
        (fun stop => if stop then ret (Some t) else time_loop input rest (Some t)) s.
Proof.
  simpl. unfold time_step, mbind, reading.
  destruct (mfor _ _ s) as [s1 [[]|e]]; reflexivity.
Qed.

Lemma time_loop_inv (input : tensor) (Q : nat -> net -> Prop) (R : nat -> bool -> net -> Prop) :
  (forall t s s1 b, Q t s -> time_step input t s = (s1, Ok b) -> R t b s1) ->
  (forall t s, R t false s -> Q (S t) s) ->
  forall n t0 last s s' r,
    Q t0 s -> time_loop input (seq t0 n) last s = (s', Ok r) ->
    (n = 0 /\ r = last /\ s' = s) \/
    (exists t b, r = Some t /\ t0 <= t < t0 + n /\ R t b s' /\ (b = false -> S t = t0 + n)).
Proof.
  intros Hstep Hnext. induction n as [|n IH]; intros t0 last s s' r HQ H.
  - left. simpl in H. apply ret_ok in H. tauto.
  - right. change (seq t0 (S n)) with (t0 :: seq (S t0) n) in H.
    rewrite time_loop_cons in H.
    apply mbind_ok in H. destruct H as (s1 & b & Hb & H).
    pose proof (Hstep _ _ _ _ HQ Hb) as HR.
    destruct b.
    + apply ret_ok in H. destruct H as [-> ->].
      exists t0, true. split; [reflexivity|]. split; [lia|]. split; [assumption|discriminate].
    + destruct (IH (S t0) (Some t0) s1 s' r (Hnext _ _ HR) H)
        as [(-> & -> & ->)|(t & b & -> & Ht & HR' & Hlast)].
      * exists t0, false. split; [reflexivity|]. split; [lia|]. split; [assumption|lia].
      * exists t, b. split; [reflexivity|]. split; [lia|]. split; [assumption|].
        intro E. specialize (Hlast E). lia.
Qed.

(** ** The spike traces after the layer updates of one step *)

Definition rows_stepped (k : nat) (s s' : net) : Prop :=
  cfg s' = cfg s /\
  map forget_indices (layers (net_arch s')) = map forget_indices (layers (net_arch s)) /\
  output_s_cum (tr s') = output_s_cum (tr s) /\
  List.length (state_s (tr s')) = List.length (state_s (tr s)) /\
  forall l e row,
    nth_error (layers (net_arch s)) l = Some e ->
    nth_error (state_s (tr s)) l = Some row ->
    if (l <? k) && active (cfg s) e
    then exists x, nth_error (state_s (tr s')) l = Some (row ++ [x])
    else nth_error (state_s (tr s')) l = Some row.

Lemma layer_loop_spikes (input : tensor) (t : nat) (s s' : net) :
  mfor (enumerate (layers (net_arch s))) (layer_step input t) s = (s', Ok tt) ->
  rows_stepped (List.length (layers (net_arch s))) s s'.
Proof.
  apply (@mfor_enumerate_ok _ (layer_step input t) (fun k s1 => rows_stepped k s s1)).
  - repeat split. intros l e row _ H. exact H.
  - intros k e s1 s2 He (C & Ly & Cum & Len & Rows) Hstep.
    apply layer_step_spikes in Hstep. rewrite C in Hstep.
    destruct (active (cfg s) e) eqn:Act.
    + destruct Hstep as (C' & Ly' & Cum' & rowk & x & Hk & Hs).
      split; [congruence|]. split; [congruence|]. split; [congruence|].
      split; [rewrite Hs, length_replace_at; exact Len|].
      intros l e' row He' Hrow. specialize (Rows l e' row He' Hrow).
      destruct (Nat.eq_dec l k) as [->|Hne].
      * rewrite Nat.ltb_irrefl in Rows. simpl in Rows.
        assert (e' = e) by congruence. subst e'.
        assert (rowk = row) by congruence. subst rowk.
        replace (k <? S k) with true by (symmetry; apply Nat.ltb_lt; lia).
        rewrite Act. simpl. exists x. rewrite Hs.
        eapply nth_error_replace_at_hit; eassumption.
      * replace (l <? S k) with (l <? k)
          by (destruct (Nat.ltb_spec l k), (Nat.ltb_spec l (S k)); try reflexivity; lia).
        rewrite Hs. rewrite nth_error_replace_at_other by congruence. exact Rows.
    + subst s2. repeat split; try assumption.
      intros l e' row He' Hrow. specialize (Rows l e' row He' Hrow).
      destruct (Nat.eq_dec l k) as [->|Hne].
      * assert (e' = e) by congruence. subst e'. rewrite Act in *.
        rewrite Bool.andb_false_r in *. exact Rows.
      * replace (l <? S k) with (l <? k)
          by (destruct (Nat.ltb_spec l k), (Nat.ltb_spec l (S k)); try reflexivity; lia).
        exact Rows.
Qed.

(** ** The early stop *)

Lemma early_stop_ok (s s' : net) (b : bool) :
  target_type (cfg s) = "latency" ->
  early_stop s = (s', Ok b) ->
  exists cum row s_out cum',
    output_s_cum (tr s) = Some cum /\
    last_item (state_s (tr s)) = Ok row /\
    last_item row = Ok s_out /\
    iadd cum s_out = Ok cum' /\
    s' = set_tr (set_output_s_cum (Some cum') (tr s)) s /\
    b = all_gt 0 cum'.
Proof.
  intros Hl H. unfold early_stop in H.
  apply mbind_ok in H. destruct H as (s1 & self & Hs & H). mprim Hs.
  injection Hs as <-. rewrite Hl in H. simpl in H.
  minv H. subst b.
  apply set_tr_with_ok in Ha3. destruct Ha3 as (t' & Ht & ->). injection Ht as <-.
  destruct (output_s_cum (tr s)) as [cum|] eqn:Ec; [|discriminate].
  injection Ha as <-.
  exists cum, a0, a1, a2. repeat split; assumption.
Qed.

Lemma early_stop_other (s s' : net) (b : bool) :
  target_type (cfg s) <> "latency" ->
  early_stop s = (s', Ok b) -> s' = s /\ b = false.
Proof.
  intros Hl H. unfold early_stop in H.
  apply mbind_ok in H. destruct H as (s1 & self & Hs & H). mprim Hs.
  injection Hs as <-.
  destruct (String.eqb_spec (target_type (cfg s)) "latency") as [E|_]; [contradiction|].
  now apply ret_ok in H.
Qed.

(** ** The counter of output spikes *)

(** The counter after [cum += x] for each entry [x] of [xs] in turn. *)
Fixpoint accumulate (cum : tensor) (xs : list tensor) : result tensor :=
  match xs with
  | [] => Ok cum
  | x :: rest => (c <- iadd cum x ;; accumulate c rest)%py
  end.

Lemma accumulate_snoc (cum : tensor) (xs : list tensor) (x : tensor) :
  accumulate cum (xs ++ [x]) = (c <- accumulate cum xs ;; iadd c x)%py.
Proof.
  revert cum. induction xs as [|y xs IH]; intro cum; simpl.
  - destruct (iadd cum x); reflexivity.
  - destruct (iadd cum y) as [c|e]; simpl; [apply IH|reflexivity].
Qed.

Lemma offset_in_range (s idx : list nat) :
  In idx (indices s) -> offset s idx < numel_of s.
Proof.
  intro H. apply (in_map (offset s)) in H. rewrite offset_indices in H.
  apply in_seq in H. lia.
Qed.

Lemma all_gt_false (q : Q) (t : tensor) (idx : list nat) :
  well_formed t -> In idx (indices (shape t)) -> (get t idx <= q)%Q -> all_gt q t = false.
Proof.
  intros Hwf Hin Hle. unfold all_gt.
  destruct (forallb _ (data t)) eqn:E; [|reflexivity].
  rewrite forallb_forall in E.
  assert (Hx : In (get t idx) (data t)).
  { unfold get. apply nth_In. rewrite Hwf. now apply offset_in_range. }
  specialize (E _ Hx). apply negb_true_iff in E.
  apply Qle_bool_iff in Hle. congruence.
Qed.

Lemma accumulate_get (xs : list tensor) (c0 c : tensor) :
  accumulate c0 xs = Ok c ->
  shape c = shape c0 /\
  (xs <> [] -> well_formed c) /\
  forall idx, In idx (indices (shape c0)) ->
    (forall x, In x xs -> (bget x idx == 0)%Q) -> (get c idx == get c0 idx)%Q.
Proof.
  revert c0. induction xs as [|x xs IH]; intros c0 H; simpl in H.
  - injection H as <-. split; [reflexivity|]. split; [congruence|reflexivity].
  - apply bind_ok in H. destruct H as (c1 & H1 & H).
    apply inplace_spec in H1. destruct H1 as (Hs & Hwf & _ & Hget).
    destruct (IH _ H) as (Hs' & Hwf' & Hget').
    split; [congruence|]. split.
    + intros _. destruct xs as [|y xs']; [|apply Hwf'; discriminate].
      simpl in H. now injection H as <-.
    + intros idx Hin Hz. rewrite Hget' by (try rewrite Hs; auto with datatypes).
      rewrite (Hget idx Hin). rewrite (Hz x) by auto with datatypes. ring.
Qed.

(** A position of the counter at which no entry of [xs] holds a spike
    keeps the counter from being positive everywhere. *)
Lemma silent_position (batch width : nat) (xs : list tensor) (cum : tensor) (idx : list nat) :
  xs <> [] ->
  accumulate (zeros [batch; width]) xs = Ok cum ->
  In idx (indices [batch; width]) ->
  (forall x, In x xs -> (bget x idx == 0)%Q) ->
  all_gt 0 cum = false.
Proof.
  intros Hne H Hin Hz. apply accumulate_get in H. destruct H as (Hs & Hwf & Hget).
  apply (@all_gt_false 0 cum idx); [auto| now rewrite Hs |].
  rewrite (Hget idx Hin Hz). unfold zeros. rewrite get_build by exact Hin. apply Qle_refl.
Qed.

(** ** The loop over time under the latency rule *)

Definition last_index (s : net) : nat := List.length (layers (net_arch s)) - 1.

Lemma last_item_nth {A : Type} (l : list A) (x : A) :
  last_item l = Ok x <-> l <> [] /\ nth_error l (List.length l - 1) = Some x.
Proof.
  split.
  - intro H. apply (@item_z_from_end _ l 1 x) in H; [|lia]. destruct H as [Hl H].
    split; [|exact H]. intros ->. simpl in Hl. lia.
  - intros [Hne H]. unfold last_item, item_z.
    destruct l as [|y l]; [contradiction|]. clear Hne.
    destruct (Z.leb_spec 0 (-1)); [lia|].
    destruct (Z.ltb_spec (Z.of_nat (List.length (y :: l)) + -1) 0).
    { simpl List.length in *. lia. }
    replace (Z.to_nat (Z.of_nat (List.length (y :: l)) + -1))
      with (List.length (y :: l) - 1) by (simpl List.length; lia).
    now apply item_ok.
Qed.

(** The prefixes of the output spike train after which the counter was
    tested before step [n] all left some position without a spike. *)
Definition no_stop_before (cum0 : tensor) (n : nat) (row : list tensor) : Prop :=
  forall k c, 0 < k < n -> accumulate cum0 (firstn k row) = Ok c -> all_gt 0 c = false.

(** The state at the start of step [t]. *)
Definition before_step (cum0 : tensor) (t : nat) (s : net) : Prop :=
  target_type (cfg s) = "latency" /\
  List.length (state_s (tr s)) = List.length (layers (net_arch s)) /\
  (0 < t -> exists e, nth_error (layers (net_arch s)) (last_index s) = Some e /\
                      active (cfg s) e = true) /\
  forall row, nth_error (state_s (tr s)) (last_index s) = Some row ->
    List.length row = t /\
    exists cum, output_s_cum (tr s) = Some cum /\ accumulate cum0 row = Ok cum /\
                (0 < t -> all_gt 0 cum = false) /\ no_stop_before cum0 t row.

(** The state after step [t], [b] being the outcome of the test. *)
Definition after_step (cum0 : tensor) (t : nat) (b : bool) (s : net) : Prop :=
  target_type (cfg s) = "latency" /\
  List.length (state_s (tr s)) = List.length (layers (net_arch s)) /\
  exists e row cum,
    nth_error (layers (net_arch s)) (last_index s) = Some e /\ active (cfg s) e = true /\
    last_item (state_s (tr s)) = Ok row /\
    List.length row = S t /\
    output_s_cum (tr s) = Some cum /\ accumulate cum0 row = Ok cum /\
    all_gt 0 cum = b /\ no_stop_before cum0 (S t) row.

Lemma after_before (cum0 : tensor) (t : nat) (s : net) :
  after_step cum0 t false s -> before_step cum0 (S t) s.
Proof.
  intros (Hl & Hlen & e & row & cum & He & Ha & Hrow & Hn & Hc & Hacc & Hb & Hno).
  split; [assumption|]. split; [assumption|]. split; [eauto|].
  intros row' Hrow'. apply last_item_nth in Hrow. destruct Hrow as [_ Hrow].
  unfold last_index in Hrow'. rewrite Hlen in Hrow.
  assert (row' = row) by congruence. subst row'.
  split; [assumption|]. exists cum. auto.
Qed.

Lemma nth_error_map_forget (ls ls' : list (entry layer)) (l : nat) (e : entry layer) :
  map forget_indices ls' = map forget_indices ls ->
  nth_error ls l = Some e ->
  exists e', nth_error ls' l = Some e' /\ forget_indices e' = forget_indices e.
Proof.
  intros Hm He.
  assert (H : nth_error (map forget_indices ls') l = Some (forget_indices e)).
  { rewrite Hm, nth_error_map, He. reflexivity. }
  rewrite nth_error_map in H.
  destruct (nth_error ls' l) as [e'|]; [|discriminate].
  injection H as H. eauto.
Qed.

Lemma time_step_counts (input cum0 : tensor) (t : nat) (s s1 : net) (b : bool) :
  before_step cum0 t s -> time_step input t s = (s1, Ok b) -> after_step cum0 t b s1.
Proof.
  intros (Hl & Hlen & Hact & Hrows) H. unfold time_step in H.
  apply mbind_ok in H. destruct H as (s0 & ls & Hls & H). mprim Hls. injection Hls as <-.
  apply mbind_ok in H. destruct H as (sm & [] & Hloop & H).
  apply layer_loop_spikes in Hloop.
  destruct Hloop as (C & Ly & Cum & Len & Rows).
  apply early_stop_ok in H; [|congruence].
  destruct H as (cum & row' & s_out & cum' & Hcum & Hrow' & Hout & Hadd & -> & ->).
  apply last_item_nth in Hrow'. destruct Hrow' as [Hne Hrow'].
  assert (HL : 0 < List.length (layers (net_arch s))).
  { rewrite <- Hlen, <- Len. destruct (state_s (tr sm)); [contradiction|simpl; lia]. }
  rewrite Len, Hlen in Hrow'. fold (last_index s) in Hrow'.
  destruct (nth_error (layers (net_arch s)) (last_index s)) as [e|] eqn:He.
  2:{ apply nth_error_None in He. unfold last_index in He. lia. }
  destruct (nth_error (state_s (tr s)) (last_index s)) as [row|] eqn:Hrow.
  2:{ apply nth_error_None in Hrow. unfold last_index in Hrow. lia. }
  destruct (Hrows row eq_refl) as (Hn & cum_ & Hc & Hacc & Hnot & Hno).
  rewrite Cum in Hcum. assert (cum_ = cum) by congruence. subst cum_.
  specialize (Rows _ _ _ He Hrow).
  replace (last_index s <? List.length (layers (net_arch s))) with true in Rows
    by (symmetry; apply Nat.ltb_lt; unfold last_index; lia).
  simpl in Rows.
  assert (Act : active (cfg s) e = true).
  { destruct (active (cfg s) e) eqn:Act; [reflexivity|].
    rewrite Hrow' in Rows. injection Rows as ->.
    destruct t as [|t].
    - destruct row; [discriminate|discriminate].
    - destruct Hact as (e' & He' & Ha'); [lia|]. congruence. }
  rewrite Act in Rows. destruct Rows as [x Hx].
  assert (row' = row ++ [x]) by congruence. subst row'.
  unfold last_item in Hout. rewrite last_item_snoc in Hout. injection Hout as <-.
  destruct (@nth_error_map_forget _ _ _ _ Ly He) as (e' & He' & Hf).
  assert (LyLen : List.length (layers (net_arch sm)) = List.length (layers (net_arch s))).
  { rewrite <- (length_map forget_indices), Ly. apply length_map. }
  unfold after_step, last_index. fields.
  split; [congruence|]. split; [congruence|].
  exists e', (row ++ [x]), cum'.
  split. { rewrite LyLen. exact He'. }
  split. { rewrite C, <- active_forget, Hf, active_forget. exact Act. }
  split. { apply last_item_nth. split; [assumption|].
           rewrite Len, Hlen. exact Hx. }
  split. { rewrite length_app. simpl. lia. }
  split; [reflexivity|].
  split. { rewrite accumulate_snoc, Hacc. exact Hadd. }
  split; [reflexivity|].
  intros k c Hk Hk'.
  rewrite firstn_app in Hk'. replace (k - List.length row) with 0 in Hk' by lia.
  simpl in Hk'. rewrite app_nil_r in Hk'.
  destruct (Nat.eq_dec k t) as [->|Hne'].
  - rewrite <- Hn, firstn_all in Hk'. assert (c = cum) by congruence. subst c.
    apply Hnot. lia.
  - apply (Hno k c); [lia|assumption].
Qed.

(** ** Before and after the loop over time *)

(** What the statistics and the output attributes leave alone. *)
Definition keeps_traces (s s' : net) : Prop :=
  cfg s' = cfg s /\ net_arch s' = net_arch s /\
  state_i (tr s') = state_i (tr s) /\ state_v (tr s') = state_v (tr s) /\
  state_v_prime (tr s') = state_v_prime (tr s) /\ state_s (tr s') = state_s (tr s) /\
  output_s_cum (tr s') = output_s_cum (tr s) /\ term_length (tr s') = term_length (tr s).

Lemma keeps_traces_refl (s : net) : keeps_traces s s.
Proof. repeat split. Qed.

Lemma keeps_traces_trans (s1 s2 s3 : net) :
  keeps_traces s1 s2 -> keeps_traces s2 s3 -> keeps_traces s1 s3.
Proof.
  unfold keeps_traces. intros A B.
  decompose [and] A. decompose [and] B. repeat split; congruence.
Qed.

Ltac keeps_traces_body :=
  repeat first
    [ apply preserves_ret; apply keeps_traces_refl
    | apply preserves_lift; apply keeps_traces_refl
    | apply preserves_reading; apply keeps_traces_refl
    | apply preserves_mbind; [apply keeps_traces_trans | | intros]
    | apply preserves_set_tr_with;
      [ apply keeps_traces_refl
      | let H := fresh in intros ? ? H; injection H as <-; repeat split ]
    | progress cbv beta zeta
    | match goal with
      | |- preserves _ (if ?c then _ else _) => destruct c
      end ].

Lemma calc_num_spike_keeps_traces : preserves keeps_traces calc_num_spike.
Proof. unfold calc_num_spike, calc_first_stime. keeps_traces_body. Qed.

Lemma finish_ok (last_t : option nat) (s s' : net) (out : tensor) :
  finish last_t s = (s', Ok out) ->
  exists t, last_t = Some t /\
    keeps_traces (set_tr (set_term_length (Some (t + 1)) (tr s)) s) s'.
Proof.
  intro H. unfold finish in H.
  apply mbind_ok in H. destruct H as (s0 & t & Ht & H). mprim Ht.
  destruct last_t as [t0|]; [|discriminate]. injection Ht as <-.
  exists t0. split; [reflexivity|].
  apply mbind_ok in H. destruct H as (s1 & [] & Hs & H).
  apply set_tr_with_ok in Hs. destruct Hs as (t' & Ht' & ->). injection Ht' as <-.
  revert H. generalize (set_tr (set_term_length (Some (t0 + 1)) (tr s)) s). intros s1 H.
  match type of H with
  | ?m _ = _ =>
      assert (K : preserves keeps_traces m)
        by (repeat first [ apply calc_num_spike_keeps_traces | progress keeps_traces_body ])
  end.
  exact (K _ _ _ H).
Qed.

Lemma merge_parameters_keeps_traces : preserves keeps_traces merge_parameters.
Proof.
  apply preserves_updating; [apply keeps_traces_refl|].
  intros s s' H. destruct (multi_model (cfg s)).
  - apply bind_ok in H. destruct H as (ws & _ & H).
    apply bind_ok in H. destruct H as (bs & _ & H).
    injection H as <-. repeat split.
  - injection H as <-. apply keeps_traces_refl.
Qed.

Lemma init_traces_ok (s s' : net) :
  init_traces s = (s', Ok tt) ->
  cfg s' = cfg s /\
  List.length (layers (net_arch s')) = List.length (layers (net_arch s)) /\
  map forget_indices (layers (net_arch s')) = map forget_indices (layers (net_arch s)) /\
  state_v_bs (net_arch s') = state_v_bs (net_arch s) /\
  output_s_cum (tr s') = output_s_cum (tr s) /\
  state_i (tr s') = map (fun _ => []) (layers (net_arch s)) /\
  state_v (tr s') = map (fun _ => []) (layers (net_arch s)) /\
  state_v_prime (tr s') = map (fun _ => []) (layers (net_arch s)) /\
  state_s (tr s') = map (fun _ => []) (layers (net_arch s)).
Proof.
  intro H. unfold init_traces in H. apply updating_ok in H. injection H as <-. fields.
  repeat split.
  - apply length_map.
  - rewrite map_map. apply map_ext. intros [[]|[|[] rest]]; reflexivity.
Qed.

(** What [init_input] leaves alone. *)
Definition keeps_model (s s' : net) : Prop :=
  cfg s' = cfg s /\ net_arch s' = net_arch s.

Lemma keeps_model_refl (s : net) : keeps_model s s.
Proof. split; reflexivity. Qed.

Lemma keeps_model_trans (s1 s2 s3 : net) :
  keeps_model s1 s2 -> keeps_model s2 s3 -> keeps_model s1 s3.
Proof. intros [A B] [C D]. split; congruence. Qed.

Ltac keeps_model_body :=
  repeat first
    [ apply preserves_ret; apply keeps_model_refl
    | apply preserves_lift; apply keeps_model_refl
    | apply preserves_reading; apply keeps_model_refl
    | apply preserves_mbind; [apply keeps_model_trans | | intros]
    | apply preserves_set_tr_with;
      [ apply keeps_model_refl
      | let H := fresh in intros ? ? H; injection H as <-; repeat split ]
    | progress cbv beta zeta
    | match goal with
      | |- preserves _ (if ?c then _ else _) => destruct c
      end ].

Lemma init_input_keeps_model (input : tensor) : preserves keeps_model (init_input input).
Proof. unfold init_input. keeps_model_body. Qed.

Lemma init_input_latency (input : tensor) (s s' : net) :
  target_type (cfg s) = "latency" ->
  init_input input s = (s', Ok tt) ->
  exists batch width, output_s_cum (tr s') = Some (zeros [batch; width]).
Proof.
  intros Hl H. unfold init_input in H.
  apply mbind_ok in H. destruct H as (s0 & self & Hs & H). mprim Hs. injection Hs as <-.
  apply mbind_ok in H. destruct H as (s1 & [] & _ & H).
  rewrite Hl in H. simpl in H. minv H.
  apply set_tr_with_ok in H. destruct H as (t' & Ht & ->). injection Ht as <-.
  fields. eauto.
Qed.

(** ** The step counter, whatever the outcome *)

Lemma mbind_any {A B : Type} (m : M A) (k : A -> M B) (s s' : net) (r : result B) :
  mbind m k s = (s', r) ->
  (exists s1 a, m s = (s1, Ok a) /\ k a s1 = (s', r)) \/
  (exists e, m s = (s', Raise e) /\ r = Raise e).
Proof.
  unfold mbind. destruct (m s) as [s1 [a|e]]; intro H.
  - left. eauto.
  - right. injection H as <- <-. eauto.
Qed.

(** What every action before the end of the loop over time leaves
    alone. *)
Definition keeps_term (s s' : net) : Prop :=
  cfg s' = cfg s /\ term_length (tr s') = term_length (tr s).

Lemma keeps_term_refl (s : net) : keeps_term s s.
Proof. split; reflexivity. Qed.

Lemma keeps_term_trans (s1 s2 s3 : net) :
  keeps_term s1 s2 -> keeps_term s2 s3 -> keeps_term s1 s3.
Proof. intros [A B] [C D]. split; congruence. Qed.

Lemma write_ref_keeps_term (r : tref) (new : tensor) :
  preserves keeps_term (write_ref r new).
Proof.
  destruct r as [t|l vshape]; simpl.
  - apply preserves_ret. apply keeps_term_refl.
  - apply preserves_mbind; [apply keeps_term_trans | |].
    + apply preserves_updating; [apply keeps_term_refl|].
      intros s s' H. apply bind_ok in H. destruct H as (p & _ & H).
      injection H as <-. split; reflexivity.
    + intros _. apply preserves_ret. apply keeps_term_refl.
Qed.

Lemma record_max_index_keeps_term (l : nat) (max_index : tensor) :
  preserves keeps_term (record_max_index l max_index).
Proof.
  apply preserves_updating; [apply keeps_term_refl|].
  intros s s' H. apply bind_ok in H. destruct H as (e & _ & H).
  apply bind_ok in H. destruct H as (e' & _ & H). injection H as <-.
  split; reflexivity.
Qed.

Ltac keeps_term_body :=
  repeat first
    [ apply write_ref_keeps_term
    | apply record_max_index_keeps_term
    | apply preserves_ret; apply keeps_term_refl
    | apply preserves_lift; apply keeps_term_refl
    | apply preserves_reading; apply keeps_term_refl
    | apply preserves_mbind; [apply keeps_term_trans | | intros]
    | apply preserves_mfor; [apply keeps_term_refl | apply keeps_term_trans | intros]
    | apply preserves_set_tr_with;
      [ apply keeps_term_refl
      | let H := fresh in
        intros ? ? H;
        first [ injection H as <-
              | apply bind_ok in H; destruct H as (? & _ & H); injection H as <- ];
        split; reflexivity ]
    | progress cbv beta zeta
    | match goal with
      | |- preserves _ (if ?c then _ else _) => destruct c
      | |- preserves _ (let (_, _) := ?p in _) => destruct p
      | |- preserves _ (match ?x with _ => _ end) => destruct x
      end ].

Lemma layer_step_keeps_term (input : tensor) (t : nat) (le : nat * entry layer) :
  preserves keeps_term (layer_step input t le).
Proof.
  unfold layer_step, step_current, step_voltage, append_s, append_i, append_v,
    append_v_prime, set_last_i, set_last_v, set_last_v_prime,
    read_i, read_s, read_v, ref_v, ref_v_prime.
  keeps_term_body.
Qed.

Lemma early_stop_keeps_term : preserves keeps_term early_stop.
Proof. unfold early_stop. keeps_term_body. Qed.

Lemma time_loop_keeps_term (input : tensor) (ts : list nat) (last_t : option nat) :
  preserves keeps_term (time_loop input ts last_t).
Proof.
  revert last_t. induction ts as [|t ts IH]; intro last_t; simpl.
  - apply preserves_ret. apply keeps_term_refl.
  - apply preserves_mbind; [apply keeps_term_trans | |].
    { apply preserves_reading. apply keeps_term_refl. }
    intro ls. apply preserves_mbind; [apply keeps_term_trans | |].
    { apply preserves_mfor; [apply keeps_term_refl | apply keeps_term_trans |].
      intro x. apply layer_step_keeps_term. }
    intros _. apply preserves_mbind; [apply keeps_term_trans | |].
    { apply early_stop_keeps_term. }
    intros [|]; [apply preserves_ret; apply keeps_term_refl | apply IH].
Qed.

Lemma init_input_keeps_term (input : tensor) : preserves keeps_term (init_input input).
Proof. unfold init_input. keeps_term_body. Qed.

Lemma init_traces_keeps_term : preserves keeps_term init_traces.
Proof.
  apply preserves_updating; [apply keeps_term_refl|].
  intros s s' H. injection H as <-. split; reflexivity.
Qed.

Lemma merge_parameters_keeps_term : preserves keeps_term merge_parameters.
Proof.
  intros s s' r H. apply merge_parameters_keeps_traces in H.
  destruct H as (C & _ & _ & _ & _ & _ & _ & T). split; assumption.
Qed.

(** [finish] stores [t + 1] in [term_length] when the loop variable is
    bound, and nothing when it is not; what follows leaves that entry
    alone, whatever its outcome. *)
Lemma finish_term (last_t : option nat) (s s' : net) (r : result tensor) :
  finish last_t s = (s', r) ->
  cfg s' = cfg s /\
  match last_t with
  | Some t => term_length (tr s') = Some (t + 1)
  | None => term_length (tr s') = term_length (tr s)
  end.
Proof.
  intro H. unfold finish in H.
  apply mbind_any in H. destruct H as [(s0 & t & Ht & H)|(e & Ht & ->)].
  2:{ destruct last_t; [discriminate|]. injection Ht as <- _. split; reflexivity. }
  mprim Ht. destruct last_t as [t0|]; [|discriminate]. injection Ht as <-.
  apply mbind_any in H. destruct H as [(s1 & [] & Hs & H)|(e & Hs & ->)].
  2:{ unfold set_tr_with, updating in Hs. cbn [Py.bind] in Hs. discriminate. }
  apply set_tr_with_ok in Hs. destruct Hs as (t' & Ht' & ->). injection Ht' as <-.
  revert H. generalize (eq_refl (set_tr (set_term_length (Some (t0 + 1)) (tr s)) s)).
  generalize (set_tr (set_term_length (Some (t0 + 1)) (tr s)) s) at 2 3. intros s1 E H.
  match type of H with
  | ?m _ = _ =>
      assert (K : preserves keeps_traces m)
        by (repeat first [ apply calc_num_spike_keeps_traces | progress keeps_traces_body ])
  end.
  destruct (K _ _ _ H) as (C & _ & _ & _ & _ & _ & _ & T).
  rewrite C, T, <- E. split; reflexivity.
Qed.

(** Whatever the outcome of a forward pass, [term_length] is left as it
    was or holds a number of steps between 1 and the time horizon. *)
Lemma forward_term (input : tensor) (s s' : net) (r : result tensor) :
  forward input s = (s', r) ->
  term_length (tr s') = term_length (tr s) \/
  exists n, term_length (tr s') = Some n /\ 0 < n <= time_length (cfg s).
Proof.
  intro H. unfold forward in H.
  apply mbind_any in H. destruct H as [(s1 & [] & H1 & H)|(e & H1 & ->)].
  2:{ left. apply init_input_keeps_term in H1. exact (proj2 H1). }
  apply init_input_keeps_term in H1.
  apply mbind_any in H. destruct H as [(s2 & [] & H2 & H)|(e & H2 & ->)].
  2:{ left. apply init_traces_keeps_term in H2.
      exact (proj2 (keeps_term_trans H1 H2)). }
  apply init_traces_keeps_term in H2. pose proof (keeps_term_trans H1 H2) as K2.
  apply mbind_any in H. destruct H as [(s3 & [] & H3 & H)|(e & H3 & ->)].
  2:{ left. apply merge_parameters_keeps_term in H3.
      exact (proj2 (keeps_term_trans K2 H3)). }
  apply merge_parameters_keeps_term in H3. pose proof (keeps_term_trans K2 H3) as K3.
  apply mbind_any in H. destruct H as [(s3' & T & HT & H)|(e & HT & ->)].
  2:{ discriminate. }
  mprim HT. injection HT as <-.
  apply mbind_any in H. destruct H as [(s4 & last_t & Hloop & H)|(e & Hloop & ->)].
  2:{ left. apply time_loop_keeps_term in Hloop.
      exact (proj2 (keeps_term_trans K3 Hloop)). }
  pose proof (@time_loop_keeps_term _ _ _ _ _ _ Hloop) as K4.
  pose proof (keeps_term_trans K3 K4) as [C4 T4].
  apply finish_term in H. destruct H as [C5 H].
  destruct (@time_loop_inv input (fun _ _ => True) (fun _ _ _ => True)
              (fun _ _ _ _ _ _ => I) (fun _ _ _ => I) _ _ _ _ _ _ I Hloop)
    as [(_ & -> & _)|(t & b & -> & Ht & _)].
  - left. congruence.
  - right. exists (t + 1). split; [exact H|].
    destruct K3 as [C3 _]. rewrite C3 in Ht. lia.
Qed.

(** ** The counter, entry by entry *)

Lemma accumulate_prefix (c0 c : tensor) (l1 l2 : list tensor) :
  accumulate c0 (l1 ++ l2) = Ok c -> exists c1, accumulate c0 l1 = Ok c1.
Proof.
  revert c0. induction l1 as [|x l1 IH]; intros c0 H; simpl in *; [eauto|].
  apply bind_ok in H. destruct H as (c1 & H1 & H). rewrite H1. simpl. eauto.
Qed.

(** Each entry of the counter is what it held at the start plus the
    spikes added to it. *)
Lemma accumulate_sum (xs : list tensor) (c0 c : tensor) (idx : list nat) :
  accumulate c0 xs = Ok c -> In idx (indices (shape c0)) ->
  (get c idx == get c0 idx + qsum (map (fun x => bget x idx) xs))%Q.
Proof.
  revert c. induction xs as [|x xs IH] using rev_ind; intros c H Hin.
  - simpl in H. injection H as <-. unfold qsum. simpl. ring.
  - rewrite accumulate_snoc in H. apply bind_ok in H. destruct H as (c1 & H1 & H).
    pose proof (@accumulate_get _ _ _ H1) as (Hs & _ & _).
    apply inplace_spec in H. destruct H as (_ & _ & _ & Hget).
    rewrite Hget by now rewrite Hs.
    rewrite (IH _ H1 Hin), map_app. simpl map. rewrite qsum_snoc. ring.
Qed.

Lemma qsum_positive {A : Type} (f : A -> Q) (l : list A) :
  (0 < qsum (map f l))%Q -> exists x, In x l /\ (0 < f x)%Q.
Proof.
  induction l as [|x l IH] using rev_ind; intro H.
  - unfold qsum in H. simpl in H. exfalso. revert H. apply Qlt_irrefl.
  - rewrite map_app in H. simpl map in H. rewrite qsum_snoc in H.
    destruct (Qlt_le_dec 0 (f x)) as [Hx|Hx].
    + exists x. split; [apply in_or_app; right; now left|exact Hx].
    + destruct IH as (y & Hy & Hpos).
      * destruct (Qlt_le_dec 0 (qsum (map f l))) as [Hl|Hl]; [exact Hl|].
        exfalso. apply (Qlt_not_le _ _ H).
        apply Qle_trans with (0 + 0)%Q; [now apply Qplus_le_compat|apply Qle_refl].
      * exists y. split; [apply in_or_app; now left|exact Hpos].
Qed.

Lemma all_gt_true (q : Q) (t : tensor) (idx : list nat) :
  well_formed t -> In idx (indices (shape t)) -> all_gt q t = true -> (q < get t idx)%Q.
Proof.
  intros Hwf Hin H. unfold all_gt in H. rewrite forallb_forall in H.
  assert (Hx : In (get t idx) (data t)).
  { unfold get. apply nth_In. rewrite Hwf. now apply offset_in_range. }
  specialize (H _ Hx). apply negb_true_iff in H.
  apply Qnot_le_lt. intro Hle. apply Qle_bool_iff in Hle. congruence.
Qed.

Lemma offset_reached (s : list nat) (k : nat) :
  k < numel_of s -> exists idx, In idx (indices s) /\ offset s idx = k.
Proof.
  intro Hk.
  assert (H : In k (map (offset s) (indices s))).
  { rewrite offset_indices. apply in_seq. lia. }
  apply in_map_iff in H. destruct H as (idx & E & Hin). eauto.
Qed.

Lemma all_gt_false_at (q : Q) (t : tensor) :
  well_formed t -> all_gt q t = false ->
  exists idx, In idx (indices (shape t)) /\ (get t idx <= q)%Q.
Proof.
  intros Hwf H. unfold all_gt in H.
  assert (Hex : exists x, In x (data t) /\ negb (Qle_bool x q) = false).
  { clear Hwf. induction (data t) as [|x l IH]; [discriminate|].
    simpl in H. destruct (negb (Qle_bool x q)) eqn:E.
    - destruct (IH H) as (y & Hy & Hq). exists y. split; [now right|exact Hq].
    - exists x. split; [now left|exact E]. }
  destruct Hex as (x & Hx & Hq).
  destruct (In_nth _ _ 0%Q Hx) as (k & Hk & Hnth).
  destruct (@offset_reached (shape t) k) as (idx & Hin & Hoff).
  { unfold well_formed, numel in Hwf. now rewrite <- Hwf. }
  exists idx. split; [exact Hin|].
  unfold get. rewrite Hoff, Hnth.
  apply negb_false_iff in Hq. now apply Qle_bool_iff.
Qed.

(** ** The counter at the start of the pass *)

(** Lines 427-433: the counter has one row per sample (of every model)
    and one column per entry along the first dimension of the last
    feature map. *)
Lemma init_input_counter (input : tensor) (s s' : net) :
  target_type (cfg s) = "latency" ->
  init_input input s = (s', Ok tt) ->
  exists batch width,
    (if multi_model (cfg s)
     then exists m per rest, shape input = m :: per :: rest /\
            num_models (cfg s) = Z.of_nat m /\ batch = m * per
     else exists rest, shape input = batch :: rest) /\
    (exists w rest, last_item (fmap_shape_list (net_arch s)) = Ok (w :: rest) /\
                    (0 <= w)%Z /\ width = Z.to_nat w) /\
    output_s_cum (tr s') = Some (zeros [batch; width]).
Proof.
  intros Hl H. unfold init_input in H.
  apply mbind_ok in H. destruct H as (s0 & self & Hs & H). mprim Hs. injection Hs as <-.
  apply mbind_ok in H. destruct H as (s1 & [] & H1 & H).
  rewrite Hl in H. simpl in H.
  apply mbind_ok in H. destruct H as (s2 & dim1 & Hd1 & H). mprim Hd1.
  apply mbind_ok in H. destruct H as (s2 & last_shape & Hls & H). mprim Hls.
  apply mbind_ok in H. destruct H as (s2 & dim2 & Hd2 & H). mprim Hd2.
  apply mbind_ok in H. destruct H as (s2 & [] & Hneg & H).
  destruct ((dim1 <? 0)%Z || (dim2 <? 0)%Z) eqn:Eneg; [discriminate|].
  mprim Hneg.
  apply set_tr_with_ok in H. destruct H as (t' & Ht & ->). injection Ht as <-.
  apply Bool.orb_false_iff in Eneg. destruct Eneg as [N1 N2].
  apply Z.ltb_ge in N1, N2.
  exists (Z.to_nat dim1), (Z.to_nat dim2). split; [|split].
  - destruct (multi_model (cfg s)) eqn:Em.
    + apply mbind_ok in H1. destruct H1 as (s3 & n0 & Hn0 & H1). mprim Hn0.
      apply mbind_ok in H1. destruct H1 as (s3 & [] & Has & _).
      destruct (Z.eqb_spec (num_models (cfg s)) (Z.of_nat n0)) as [En|_]; [|discriminate].
      apply bind_ok in Hd1. destruct Hd1 as (n1 & Hn1 & Hd1). injection Hd1 as <-.
      apply item_ok in Hn0, Hn1.
      destruct (shape input) as [|a [|b rest]]; try discriminate.
      simpl in Hn0, Hn1. injection Hn0 as ->. injection Hn1 as ->.
      exists n0, n1, rest. split; [reflexivity|]. split; [exact En|]. rewrite En. lia.
    + apply bind_ok in Hd1. destruct Hd1 as (n0 & Hn0 & Hd1). injection Hd1 as <-.
      apply item_ok in Hn0. destruct (shape input) as [|a rest]; [discriminate|].
      simpl in Hn0. injection Hn0 as ->. exists rest. now rewrite Nat2Z.id.
  - apply item_ok in Hd2. destruct last_shape as [|w rest]; [discriminate|].
    simpl in Hd2. injection Hd2 as ->. exists dim2, rest. auto.
  - reflexivity.
Qed.

(** ** The output attribute *)

(** What the statistics leave alone. *)
Definition keeps_output (s s' : net) : Prop := output (tr s') = output (tr s).

Lemma keeps_output_refl (s : net) : keeps_output s s.
Proof. reflexivity. Qed.

Lemma keeps_output_trans (s1 s2 s3 : net) :
  keeps_output s1 s2 -> keeps_output s2 s3 -> keeps_output s1 s3.
Proof. unfold keeps_output. congruence. Qed.

Ltac keeps_output_body :=
  repeat first
    [ apply preserves_ret; apply keeps_output_refl
    | apply preserves_lift; apply keeps_output_refl
    | apply preserves_reading; apply keeps_output_refl
    | apply preserves_mbind; [apply keeps_output_trans | | intros]
    | apply preserves_set_tr_with;
      [ apply keeps_output_refl
      | let H := fresh in intros ? ? H; injection H as <-; reflexivity ]
    | progress cbv beta zeta
    | match goal with
      | |- preserves _ (if ?c then _ else _) => destruct c
      end ].

Lemma calc_num_spike_keeps_output : preserves keeps_output calc_num_spike.
Proof. unfold calc_num_spike, calc_first_stime. keeps_output_body. Qed.

(** The tensor [forward] returns is the one it has stored in
    [self.output]. *)
Lemma finish_stores_output (last_t : option nat) (s s' : net) (out : tensor) :
  finish last_t s = (s', Ok out) -> output (tr s') = Some out.
Proof.
  intro H. unfold finish in H.
  apply mbind_ok in H. destruct H as (s0 & t & Ht & H). mprim Ht.
  apply mbind_ok in H. destruct H as (s1 & [] & _ & H).
  apply mbind_ok in H. destruct H as (s2 & row & Hrow & H). mprim Hrow.
  apply mbind_ok in H. destruct H as (s2 & st & Hst & H). mprim Hst.
  apply mbind_ok in H. destruct H as (s2 & o & Ho & H). mprim Ho.
  apply mbind_ok in H. destruct H as (s2 & [] & Hs & H).
  apply set_tr_with_ok in Hs. destruct Hs as (t' & Ht' & ->). injection Ht' as <-.
  apply mbind_ok in H. destruct H as (s3 & self & Hself & H). mprim Hself.
  apply mbind_ok in H. destruct H as (s4 & [] & H4 & H).
  apply mbind_ok in H. destruct H as (s5 & [] & H5 & H).
  apply ret_ok in H. destruct H as [-> ->].
  assert (K4 : keeps_output (set_tr (set_output (Some o) (tr s1)) s1) s4).
  { revert H4. match goal with
    | |- ?m _ = _ -> _ => assert (K : preserves keeps_output m) by keeps_output_body
    end. apply K. }
  assert (K5 : keeps_output s4 s5).
  { exact (calc_num_spike_keeps_output _ H5). }
  unfold keeps_output in *. rewrite K5, K4. reflexivity.
Qed.

(** The tensor [forward] returns is the spike train of the last layer,
    stacked over the steps and permuted. *)
Lemma finish_output (last_t : option nat) (s s' : net) (out : tensor) :
  finish last_t s = (s', Ok out) ->
  exists row st, last_item (state_s (tr s)) = Ok row /\ stack row = Ok st /\
                 permute [1; 0; 2] st = Ok out.
Proof.
  intro H. unfold finish in H.
  apply mbind_ok in H. destruct H as (s0 & t & Ht & H). mprim Ht.
  apply mbind_ok in H. destruct H as (s1 & [] & Hs & H).
  apply set_tr_with_ok in Hs. destruct Hs as (t' & Ht' & ->). injection Ht' as <-.
  apply mbind_ok in H. destruct H as (s2 & row & Hrow & H). mprim Hrow.
  apply mbind_ok in H. destruct H as (s2 & st & Hst & H). mprim Hst.
  apply mbind_ok in H. destruct H as (s2 & o & Ho & H). mprim Ho.
  apply mbind_ok in H. destruct H as (s2 & [] & _ & H).
  apply mbind_ok in H. destruct H as (s3 & self & _ & H).
  apply mbind_ok in H. destruct H as (s4 & [] & _ & H).
  apply mbind_ok in H. destruct H as (s5 & [] & _ & H).
  apply ret_ok in H. destruct H as [_ E]. subst.
  exists row, st. auto.
Qed.

(** ** The early exit of the latency rule *)

(** C7. Whatever the outcome of a forward pass under the latency rule,
    [term_length] afterwards is the value it had before the pass or a
    number of steps between 1 and [time_length]. When the pass returns
    [out], it has run [n = term_length] steps, at least one and at most
    [time_length]; the counter [output_s_cum] has one row per sample of
    the input (of every replica, for a multi-model) and one column per
    entry of the first dimension of [fmap_shape_list[-1]]; [out] is the
    spike train of the last layer, stacked over the [n] steps and
    permuted to put the samples first, and it is what [self.output]
    holds; each entry of the counter is the sum over the [n] steps of
    the spike (broadcast to the shape of the counter) at that position.
    After none of the steps before the last was the counter positive
    everywhere: some position had no spike yet. When the pass stops
    before [time_length] the counter is positive everywhere, so every
    position holds a spike at some step; and when some position holds
    no spike at any step, [term_length] is [time_length]. *)
Theorem early_exit (input : tensor) (s s' : net) (r : result tensor) :
  target_type (cfg s) = "latency" ->
  forward input s = (s', r) ->
  (term_length (tr s') = term_length (tr s) \/
   exists n, term_length (tr s') = Some n /\ 0 < n <= time_length (cfg s)) /\
  forall out, r = Ok out ->
    exists n row st batch width cum,
      term_length (tr s') = Some n /\
      0 < n <= time_length (cfg s) /\
      (if multi_model (cfg s)
       then exists m per rest, shape input = m :: per :: rest /\
              num_models (cfg s) = Z.of_nat m /\ batch = m * per
       else exists rest, shape input = batch :: rest) /\
      (exists w rest, last_item (fmap_shape_list (net_arch s)) = Ok (w :: rest) /\
                      (0 <= w)%Z /\ width = Z.to_nat w) /\
      last_item (state_s (tr s')) = Ok row /\
      List.length row = n /\
      stack row = Ok st /\ permute [1; 0; 2] st = Ok out /\
      output (tr s') = Some out /\
      output_s_cum (tr s') = Some cum /\
      shape cum = [batch; width] /\
      accumulate (zeros [batch; width]) row = Ok cum /\
      (forall idx, In idx (indices [batch; width]) ->
         (get cum idx == qsum (map (fun x => bget x idx) row))%Q) /\
      no_stop_before (zeros [batch; width]) n row /\
      (forall k, 0 < k < n ->
         exists idx, In idx (indices [batch; width]) /\
           (qsum (map (fun x => bget x idx) (firstn k row)) <= 0)%Q) /\
      (n < time_length (cfg s) ->
         all_gt 0 cum = true /\
         forall idx, In idx (indices [batch; width]) ->
           (0 < get cum idx)%Q /\ exists x, In x row /\ (0 < bget x idx)%Q) /\
      (forall idx, In idx (indices [batch; width]) ->
         (forall x, In x row -> (bget x idx == 0)%Q) -> n = time_length (cfg s)).
Proof.
  intros Hl H. split; [exact (@forward_term _ _ _ _ H)|].
  intros out ->. unfold forward in H.
  apply mbind_ok in H. destruct H as (s1 & [] & H1 & H).
  apply mbind_ok in H. destruct H as (s2 & [] & H2 & H).
  apply mbind_ok in H. destruct H as (s3 & [] & H3 & H).
  apply mbind_ok in H. destruct H as (s3' & T & HT & H). mprim HT. injection HT as <-.
  apply mbind_ok in H. destruct H as (s4 & last_t & Hloop & H).
  destruct (@init_input_counter _ _ _ Hl H1) as (batch & width & Hbatch & Hwidth & Hcum).
  apply init_input_keeps_model in H1. destruct H1 as [C1 A1].
  apply init_traces_ok in H2.
  destruct H2 as (C2 & Len2 & _ & _ & Cum2 & _ & _ & _ & S2).
  apply merge_parameters_keeps_traces in H3.
  destruct H3 as (C3 & A3 & _ & _ & _ & S3 & Cum3 & _).
  assert (HC : cfg s3 = cfg s) by congruence.
  assert (HQ : before_step (zeros [batch; width]) 0 s3).
  { split; [congruence|]. split.
    { rewrite S3, S2, A3, Len2. apply length_map. }
    split; [lia|].
    intros row Hrow. rewrite S3, S2 in Hrow.
    rewrite nth_error_map in Hrow.
    destruct (nth_error (layers (net_arch s1)) (last_index s3)); [|discriminate].
    injection Hrow as <-. split; [reflexivity|].
    exists (zeros [batch; width]). split; [congruence|]. split; [reflexivity|].
    split; [lia|]. intros k c Hk. lia. }
  pose proof (@finish_output _ _ _ _ H) as (row0 & st & Hrow0 & Hst & Hout).
  pose proof (@finish_stores_output _ _ _ _ H) as Hstored.
  apply finish_ok in H. destruct H as (t & -> & K).
  destruct K as (C5 & _ & _ & _ & _ & S5 & Cum5 & T5). fields.
  destruct (@time_loop_inv input (before_step (zeros [batch; width]))
              (after_step (zeros [batch; width]))
              (@time_step_counts input (zeros [batch; width]))
              (@after_before (zeros [batch; width]))
              _ _ _ _ _ _ HQ Hloop)
    as [(_ & E & _)|(t' & b & E & Ht & HR & Hb)]; [discriminate|].
  injection E as <-.
  destruct HR as (_ & _ & e & row & cum & _ & _ & Hrow & Hn & Hc & Hacc & Hall & Hno).
  assert (row0 = row) by congruence. subst row0.
  rewrite HC in *.
  assert (Hne : row <> []) by (intros ->; discriminate).
  pose proof (@accumulate_get _ _ _ Hacc) as (Hshape & Hwf & _).
  specialize (Hwf Hne). cbn [zeros build shape] in Hshape.
  assert (Hsum : forall idx, In idx (indices [batch; width]) ->
            (get cum idx == qsum (map (fun x => bget x idx) row))%Q).
  { intros idx Hin. rewrite (@accumulate_sum _ _ _ idx Hacc Hin).
    unfold zeros. rewrite get_build by exact Hin. ring. }
  exists (S t), row, st, batch, width, cum.
  split. { rewrite T5. f_equal. lia. }
  split; [lia|].
  split; [exact Hbatch|].
  split; [exact Hwidth|].
  split; [congruence|].
  split; [assumption|].
  split; [assumption|].
  split; [assumption|].
  split; [assumption|].
  split; [congruence|].
  split; [assumption|].
  split; [assumption|].
  split; [assumption|].
  split; [assumption|].
  split.
  { intros k Hk.
    destruct (@accumulate_prefix (zeros [batch; width]) cum (firstn k row) (skipn k row))
      as (c & Hc'); [now rewrite firstn_skipn|].
    pose proof (Hno k c Hk Hc') as Hf.
    pose proof (@accumulate_get _ _ _ Hc') as (Hs' & Hwf' & _).
    cbn [zeros build shape] in Hs'.
    destruct (@all_gt_false_at 0 c) as (idx & Hin & Hle); [|exact Hf|].
    { apply Hwf'. intro E. apply (f_equal (@List.length tensor)) in E.
      rewrite firstn_length_le in E by lia. simpl in E. lia. }
    rewrite Hs' in Hin. exists idx. split; [exact Hin|].
    rewrite (@accumulate_sum _ _ _ idx Hc' Hin) in Hle.
    unfold zeros in Hle. rewrite get_build in Hle by exact Hin.
    now rewrite Qplus_0_l in Hle. }
  split.
  - intro Hlt.
    assert (Ht' : all_gt 0 cum = true).
    { destruct b; [assumption|]. specialize (Hb eq_refl). lia. }
    split; [exact Ht'|].
    intros idx Hin.
    assert (Hpos : (0 < get cum idx)%Q).
    { apply all_gt_true; [exact Hwf|now rewrite Hshape|exact Ht']. }
    split; [exact Hpos|].
    apply qsum_positive. now rewrite <- (Hsum idx Hin).
  - intros idx Hin Hz.
    assert (Hf : all_gt 0 cum = false).
    { apply (@silent_position batch width row cum idx); assumption. }
    rewrite Hf in Hall. subst b. specialize (Hb eq_refl). lia.
Qed.

(** ** The layer updates of a multi-model *)

(** What the update of a pooling or flattening layer leaves alone. *)
Definition keeps_neurons (s s' : net) : Prop :=
  cfg s' = cfg s /\ state_v_bs (net_arch s') = state_v_bs (net_arch s) /\
  state_i (tr s') = state_i (tr s) /\ state_v (tr s') = state_v (tr s) /\
  state_v_prime (tr s') = state_v_prime (tr s) /\
  weight_list (tr s') = weight_list (tr s) /\ bias_list (tr s') = bias_list (tr s).

Lemma keeps_neurons_refl (s : net) : keeps_neurons s s.
Proof. repeat split. Qed.

Lemma keeps_neurons_trans (s1 s2 s3 : net) :
  keeps_neurons s1 s2 -> keeps_neurons s2 s3 -> keeps_neurons s1 s3.
Proof.
  unfold keeps_neurons. intros A B.
  decompose [and] A. decompose [and] B. repeat split; congruence.
Qed.

Lemma append_s_keeps_neurons (l : nat) (x : tensor) : preserves keeps_neurons (append_s l x).
Proof.
  apply preserves_set_tr_with; [apply keeps_neurons_refl|].
  intros s t H. apply bind_ok in H. destruct H as (rows & _ & H).
  injection H as <-. repeat split.
Qed.

Lemma record_max_index_keeps_neurons (l : nat) (max_index : tensor) :
  preserves keeps_neurons (record_max_index l max_index).
Proof.
  apply preserves_updating; [apply keeps_neurons_refl|].
  intros s s' H. apply bind_ok in H. destruct H as (e & _ & H).
  apply bind_ok in H. destruct H as (e' & _ & H). injection H as <-.
  repeat split.
Qed.

Ltac keeps_neurons_body :=
  repeat first
    [ apply append_s_keeps_neurons
    | apply record_max_index_keeps_neurons
    | apply preserves_ret; apply keeps_neurons_refl
    | apply preserves_lift; apply keeps_neurons_refl
    | apply preserves_reading; apply keeps_neurons_refl
    | apply preserves_mbind; [apply keeps_neurons_trans | | intros]
    | progress cbv beta zeta
    | match goal with
      | |- preserves _ (if ?c then _ else _) => destruct c
      | |- preserves _ (let (_, _) := ?p in _) => destruct p
      end ].

(** Whether the entry of [self.layers] holds the conv or fc modules of
    the replicas. *)
Definition neuron_entry (e : entry layer) : bool :=
  match e with
  | Many (ly :: _) => is_conv2d_or_linear (One ly)
  | _ => false
  end.

Lemma neuron_entry_forget (e : entry layer) :
  neuron_entry (forget_indices e) = neuron_entry e.
Proof. destruct e as [[]|[|[] rest]]; reflexivity. Qed.

Lemma layer_step_multi (input : tensor) (t l : nat) (e : entry layer) (s s' : net) :
  multi_model (cfg s) = true ->
  layer_step input t (l, e) s = (s', Ok tt) ->
  if neuron_entry e
  then exists ly, mbind (step_current input t l ly) (fun _ => step_voltage t l) s = (s', Ok tt)
  else keeps_neurons s s'.
Proof.
  intros Hm H. unfold layer_step in H.
  apply mbind_ok in H. destruct H as (s1 & layer & Hp & H). mprim Hp.
  unfold pick_layer in Hp. rewrite Hm in Hp.
  apply bind_ok in Hp. destruct Hp as (ly & Hly & Hp). injection Hp as <-.
  destruct e as [x|[|ly' rest]]; try discriminate.
  injection Hly as ->. unfold neuron_entry.
  destruct (is_conv2d_or_linear (One ly)) eqn:E.
  - exists ly. exact H.
  - destruct ly; try discriminate E;
      cbn [is_apool_or_flatten is_max_pool] in H;
      match type of H with
      | ?m _ = _ =>
          assert (K : preserves keeps_neurons m)
            by (unfold read_s; keeps_neurons_body)
      end;
      exact (K _ _ _ H).
Qed.

(** ** The finite difference stored by a multi-model *)

(** Entry [t] of the rows of one layer: the spike is the threshold of
    the potential, and the stored finite difference is the clamp of
    [V[t]] at step 0 and of [V[t] - V[t-1] * (1 - S[t-1])] afterwards. *)
Definition surrogate_rule (rv rvp : list tref) (rs : list tensor) (t : nat) : Prop :=
  exists v vp,
    nth_error rv t = Some (Own v) /\ nth_error rvp t = Some (Own vp) /\
    nth_error rs t = Some (ge_float 1 v) /\
    (t = 0 -> vp = clamp_min (1 # 100) v) /\
    (0 < t -> exists v' sp d,
       nth_error rv (t - 1) = Some (Own v') /\ nth_error rs (t - 1) = Some sp /\
       voltage_difference v' sp v = Ok d /\ vp = clamp_min (1 # 100) d).

Lemma surrogate_rule_app (rv rvp : list tref) (rs : list tensor)
    (a b : tref) (c : tensor) (t : nat) :
  t < List.length rv -> t < List.length rvp -> t < List.length rs ->
  surrogate_rule rv rvp rs t ->
  surrogate_rule (rv ++ [a]) (rvp ++ [b]) (rs ++ [c]) t.
Proof.
  intros H1 H2 H3 (v & vp & Hv & Hvp & Hs & H0 & Ht).
  exists v, vp. rewrite !nth_error_app1 by assumption.
  repeat split; try assumption.
  intro Hpos. destruct (Ht Hpos) as (v' & sp & d & Hv' & Hsp & Hd & E).
  exists v', sp, d. rewrite !nth_error_app1 by lia. auto.
Qed.

(** The rows of layer [l] hold [len] entries that obey the rule. *)
Definition neuron_rows (len : nat) (s : net) (l : nat) : Prop :=
  exists ri rv rvp rs,
    nth_error (state_i (tr s)) l = Some ri /\ nth_error (state_v (tr s)) l = Some rv /\
    nth_error (state_v_prime (tr s)) l = Some rvp /\ nth_error (state_s (tr s)) l = Some rs /\
    List.length ri = len /\ List.length rv = len /\
    List.length rvp = len /\ List.length rs = len /\
    Forall owned rv /\ forall t, t < len -> surrogate_rule rv rvp rs t.

(** The state in step [t] of a forward pass started in [s0], once the
    layers below [k] are updated. *)
Definition multi_inv (t k : nat) (s0 s : net) : Prop :=
  cfg s = cfg s0 /\
  map forget_indices (layers (net_arch s)) = map forget_indices (layers (net_arch s0)) /\
  state_v_bs (net_arch s) = state_v_bs (net_arch s0) /\
  forall l e, nth_error (layers (net_arch s0)) l = Some e -> neuron_entry e = true ->
    neuron_rows (if l <? k then S t else t) s l.

Lemma ltb_succ_other (l k : nat) : l <> k -> (l <? S k) = (l <? k).
Proof.
  intro H. destruct (Nat.ltb_spec l k), (Nat.ltb_spec l (S k)); try reflexivity; lia.
Qed.

Lemma layer_step_rows (input : tensor) (t k : nat) (e : entry layer) (s0 s s' : net) :
  multi_model (cfg s0) = true ->
  (exists e0, nth_error (layers (net_arch s0)) k = Some e0 /\
              forget_indices e0 = forget_indices e) ->
  multi_inv t k s0 s ->
  layer_step input t (k, e) s = (s', Ok tt) ->
  multi_inv t (S k) s0 s'.
Proof.
  intros Hm (e0 & He0 & Hf) (C & Ly & B & Rows) H.
  assert (Hm' : multi_model (cfg s) = true) by congruence.
  pose proof (@layer_step_multi _ _ _ _ _ _ Hm' H) as Hn.
  pose proof (@layer_step_spikes _ _ _ _ _ _ H) as Hs.
  unfold active in Hs. rewrite Hm' in Hs. simpl in Hs.
  destruct Hs as (C' & Ly' & _ & rowk & x & Hrowk & Hss).
  assert (Hk : neuron_entry e0 = neuron_entry e).
  { rewrite <- neuron_entry_forget, Hf. apply neuron_entry_forget. }
  destruct (neuron_entry e) eqn:Ne.
  - destruct Hn as (ly & Hn).
    destruct (Rows k e0 He0 Hk) as (ri & rv & rvp & rs & Hi & Hv & Hvp & Hrs &
                                      Li & Lv & Lvp & Ls & Own_ & Rule).
    rewrite Nat.ltb_irrefl in *.
    destruct (@neuron_step input t k ly s s' ri rv rvp rs Hm' Hn Hi Hv Hvp Hrs Li Lv Lvp Ls Own_)
      as (i & v & vp & ff & v0 & xin & -> & _ & _ & _ & Hnew).
    fields.
    split; [assumption|]. split; [assumption|]. split; [assumption|].
    intros l e' He' Hne'. specialize (Rows l e' He' Hne').
    destruct (Nat.eq_dec l k) as [->|Hlk].
    + replace (k <? S k) with true by (symmetry; apply Nat.ltb_lt; lia).
      exists (ri ++ [i]), (rv ++ [Own v]), (rvp ++ [Own vp]), (rs ++ [ge_float 1 v]).
      fields.
      split; [eapply nth_error_replace_at_hit; eassumption|].
      split; [eapply nth_error_replace_at_hit; eassumption|].
      split; [eapply nth_error_replace_at_hit; eassumption|].
      split; [eapply nth_error_replace_at_hit; eassumption|].
      rewrite !length_app. simpl.
      split; [lia|]. split; [lia|]. split; [lia|]. split; [lia|].
      split. { apply Forall_app. split; [assumption|]. constructor; [|constructor]. eexists; reflexivity. }
      intros t' Ht'.
      destruct (Nat.eq_dec t' t) as [->|Hne].
      * exists v, vp.
        rewrite <- Lv at 1. rewrite <- Lvp at 1. rewrite <- Ls at 1.
        rewrite !nth_error_snoc.
        split; [reflexivity|]. split; [reflexivity|]. split; [reflexivity|].
        destruct Hnew as [H0 Hpos]. split.
        -- intro Ht0. destruct (H0 Ht0) as (_ & _ & Hx). exact Hx.
        -- intro Htp. destruct (Hpos Htp) as (i' & v' & sp & Hi' & Hv' & Hsp & _ & _ & d & Hd & Hx).
           exists v', sp, d. rewrite !nth_error_app1 by lia. auto.
      * apply surrogate_rule_app; try lia. apply Rule. lia.
    + rewrite (@ltb_succ_other _ _ Hlk).
      destruct Rows as (ri' & rv' & rvp' & rs' & Hi' & Hv'' & Hvp' & Hrs' & Rest).
      exists ri', rv', rvp', rs'. fields.
      rewrite !nth_error_replace_at_other by congruence. auto.
  - destruct Hn as (Cn & Bn & Sin & Svn & Svpn & _ & _).
    split; [congruence|]. split; [congruence|]. split; [congruence|].
    intros l e' He' Hne'. specialize (Rows l e' He' Hne').
    assert (Hlk : l <> k). { intros ->. congruence. }
    rewrite (@ltb_succ_other _ _ Hlk).
    destruct Rows as (ri' & rv' & rvp' & rs' & Hi' & Hv'' & Hvp' & Hrs' & Rest).
    exists ri', rv', rvp', rs'.
    rewrite Sin, Svn, Svpn, Hss.
    rewrite !nth_error_replace_at_other by congruence. auto.
Qed.

Lemma multi_inv_keeps_traces (t k : nat) (s0 s s' : net) :
  keeps_traces s s' -> multi_inv t k s0 s -> multi_inv t k s0 s'.
Proof.
  intros (C & A & Si & Sv & Svp & Ss & _ & _) (C0 & Ly & B & Rows).
  split; [congruence|]. split; [congruence|]. split; [congruence|].
  intros l e He Hne. destruct (Rows l e He Hne) as (ri & rv & rvp & rs & H).
  exists ri, rv, rvp, rs. rewrite Si, Sv, Svp, Ss. exact H.
Qed.

Lemma layer_loop_rows (input : tensor) (t : nat) (s0 s s' : net) :
  multi_model (cfg s0) = true ->
  multi_inv t 0 s0 s ->
  mfor (enumerate (layers (net_arch s))) (layer_step input t) s = (s', Ok tt) ->
  multi_inv (S t) 0 s0 s'.
Proof.
  intros Hm Hinv H.
  assert (Hend : multi_inv t (List.length (layers (net_arch s))) s0 s').
  { revert H.
    apply (@mfor_enumerate_ok _ (layer_step input t) (fun k s1 => multi_inv t k s0 s1));
      [exact Hinv|].
    intros k x s1 s2 Hx HP Hstep.
    apply (@layer_step_rows input t k x s0 s1 s2); try assumption.
    destruct Hinv as (_ & Ly & _).
    destruct (@nth_error_map_forget _ _ _ _ (eq_sym Ly) Hx) as (e0 & He0 & Hf). eauto. }
  destruct Hinv as (_ & Ly0 & _).
  destruct Hend as (C & Ly & B & Rows).
  split; [assumption|]. split; [assumption|]. split; [assumption|].
  intros l e He Hne. specialize (Rows l e He Hne).
  assert (Hl : l < List.length (layers (net_arch s))).
  { rewrite <- (length_map forget_indices), Ly0, length_map.
    apply nth_error_Some. congruence. }
  apply Nat.ltb_lt in Hl. rewrite Hl in Rows. exact Rows.
Qed.

Lemma early_stop_keeps_rows (t k : nat) (s0 s s' : net) (b : bool) :
  early_stop s = (s', Ok b) -> multi_inv t k s0 s -> multi_inv t k s0 s'.
Proof.
  intros H (C0 & Ly & B & Rows).
  destruct (String.eqb_spec (target_type (cfg s)) "latency") as [E|E].
  - apply early_stop_ok in H; [|exact E].
    destruct H as (cum & row & s_out & cum' & _ & _ & _ & _ & -> & _).
    split; [assumption|]. split; [assumption|]. split; [assumption|]. exact Rows.
  - apply early_stop_other in H; [|exact E]. destruct H as [-> _].
    split; [assumption|]. split; [assumption|]. split; [assumption|]. exact Rows.
Qed.

Lemma time_step_rows (input : tensor) (t : nat) (s0 s s1 : net) (b : bool) :
  multi_model (cfg s0) = true ->
  multi_inv t 0 s0 s -> time_step input t s = (s1, Ok b) -> multi_inv (S t) 0 s0 s1.
Proof.
  intros Hm Hinv H. unfold time_step in H.
  apply mbind_ok in H. destruct H as (s2 & ls & Hls & H). mprim Hls. injection Hls as <-.
  apply mbind_ok in H. destruct H as (sm & [] & Hloop & H).
  eapply early_stop_keeps_rows; [exact H|].
  eapply layer_loop_rows; eassumption.
Qed.

(** A forward pass of a multi-model that returns has run [S t] steps for
    some [t] below [time_length]; its rows obey [multi_inv]. *)
Lemma forward_multi (input : tensor) (s s' : net) (out : tensor) :
  multi_model (cfg s) = true ->
  forward input s = (s', Ok out) ->
  exists t, t < time_length (cfg s) /\ term_length (tr s') = Some (S t) /\
            multi_inv (S t) 0 s s'.
Proof.
  intros Hm H. unfold forward in H.
  apply mbind_ok in H. destruct H as (s1 & [] & H1 & H).
  apply mbind_ok in H. destruct H as (s2 & [] & H2 & H).
  apply mbind_ok in H. destruct H as (s3 & [] & H3 & H).
  apply mbind_ok in H. destruct H as (s3' & T & HT & H). mprim HT. injection HT as <-.
  apply mbind_ok in H. destruct H as (s4 & last_t & Hloop & H).
  apply init_input_keeps_model in H1. destruct H1 as [C1 A1].
  apply init_traces_ok in H2.
  destruct H2 as (C2 & Len2 & Ly2 & B2 & _ & Si2 & Sv2 & Svp2 & Ss2).
  apply merge_parameters_keeps_traces in H3.
  destruct H3 as (C3 & A3 & Si3 & Sv3 & Svp3 & Ss3 & _ & _).
  assert (HC : cfg s3 = cfg s) by congruence.
  assert (HQ : multi_inv 0 0 s s3).
  { split; [assumption|]. split; [congruence|]. split; [congruence|].
    intros l e He _. simpl.
    exists [], [], [], [].
    rewrite Si3, Sv3, Svp3, Ss3, Si2, Sv2, Svp2, Ss2, A1.
    rewrite !nth_error_map, He. simpl.
    repeat split; try reflexivity; [constructor|]. intros t Ht. lia. }
  apply finish_ok in H. destruct H as (t & -> & K).
  destruct (@time_loop_inv input (fun t s1 => multi_inv t 0 s s1)
              (fun t (_ : bool) s1 => multi_inv (S t) 0 s s1)
              (fun t s1 s2 b => @time_step_rows input t s s1 s2 b Hm)
              (fun t s1 H => H)
              _ _ _ _ _ _ HQ Hloop)
    as [(_ & E & _)|(t' & b & E & Ht & HR & _)]; [discriminate|].
  injection E as <-. rewrite HC in Ht.
  exists t. split; [lia|]. split.
  - destruct K as (_ & _ & _ & _ & _ & _ & _ & T5). rewrite T5. simpl. f_equal. lia.
  - eapply multi_inv_keeps_traces; [exact K|].
    destruct HR as (C & Ly & B & Rows).
    split; [assumption|]. split; [assumption|]. split; [assumption|]. exact Rows.
Qed.

(** ** The update of the potential in a single model *)

Lemma broadcast_rev_length (a b r : list nat) :
  broadcast_rev a b = Some r -> List.length r = Nat.max (List.length a) (List.length b).
Proof.
  revert b r. induction a as [|x a IH]; intros b r H.
  - simpl in H. injection H as <-. reflexivity.
  - destruct b as [|y b]; simpl in H.
    + injection H as <-. reflexivity.
    + destruct (broadcast_rev a b) as [r'|] eqn:E; [|discriminate].
      specialize (IH _ _ E).
      destruct (x =? y); [|destruct (x =? 1); [|destruct (y =? 1); [|discriminate]]];
        injection H as <-; simpl; now rewrite IH.
Qed.

Lemma broadcast_shapes_length (a b r : list nat) :
  broadcast_shapes a b = Some r -> List.length r = Nat.max (List.length a) (List.length b).
Proof.
  unfold broadcast_shapes. destruct (broadcast_rev _ _) as [r'|] eqn:E; [|discriminate].
  intro H. injection H as <-. apply broadcast_rev_length in E.
  now rewrite !length_rev in *.
Qed.

(** An operation in place needs a target of at least the rank of its
    operand. *)
Lemma inplace_rank (f : Q -> Q -> Q) (a b r : tensor) :
  inplace f a b = Ok r -> rank b <= rank a.
Proof.
  intro H. apply inplace_spec in H. destruct H as (Hs & _ & H & _).
  apply binop_shape in H. destruct H as [_ H].
  apply broadcast_shapes_length in H. unfold rank. rewrite Hs in H. lia.
Qed.

Lemma write_ref_view (l : nat) (vshape : list nat) (new : tensor) (r : tref) (s s' : net) :
  write_ref (BiasView l vshape) new s = (s', Ok r) ->
  r = BiasView l vshape /\ cfg s' = cfg s /\ tr s' = tr s.
Proof.
  intro H. unfold write_ref in H.
  apply mbind_ok in H. destruct H as (s1 & [] & Hu & H).
  apply ret_ok in H. destruct H as [-> ->].
  apply updating_ok in Hu. apply bind_ok in Hu. destruct Hu as (p & _ & Hu).
  injection Hu as <-. auto.
Qed.

Lemma resolve_shape_length (n : nat) (target : list Z) (s : list nat) :
  resolve_shape n target = Some s -> List.length s = List.length target.
Proof.
  unfold resolve_shape.
  destruct (negb (forallb _ _)); [discriminate|].
  destruct (List.length target - _) as [|[|k]]; [| |discriminate].
  - destruct (_ =? n); [|discriminate]. intro H. injection H as <-. apply length_map.
  - destruct (_ && _)%bool; [|discriminate]. intro H. injection H as <-. apply length_map.
Qed.

(** In a single model the update of the potential of a conv or fc layer
    whose bias parameter is a vector does not return: [state_v] is bound
    to the parameter, of rank 1 (to its view of rank 3 for a conv layer),
    and [state_v += state_i * beta_v] needs a target of the rank of the
    current. *)
Lemma single_model_potential_never_returns (t l : nat) (s s' : net) :
  multi_model (cfg s) = false ->
  (forall p, nth_error (state_v_bs (net_arch s)) l = Some (One (Some p)) ->
             rank (value p) <= 1) ->
  step_voltage t l s <> (s', Ok tt).
Proof.
  intros Hm Hb H. unfold step_voltage in H.
  apply mbind_ok in H. destruct H as (s0 & self & Hs & H). mprim Hs. injection Hs as <-.
  rewrite Hm in H.
  apply mbind_ok in H. destruct H as (s1 & [] & HA & _).
  apply mbind_ok in HA. destruct HA as (s2 & cur_i & Hi & HA).
  apply read_i_ok in Hi. destruct Hi as (-> & row & Hrow & Hit).
  apply mbind_ok in HA. destruct HA as (s2 & ref & Href & HA). mprim Href.
  apply mbind_ok in HA. destruct HA as (s2 & v & Hv & HA). mprim Hv.
  assert (Hview : exists vshape, ref = BiasView l vshape /\
            (rank cur_i = 2 /\ List.length vshape <= 1 \/
             rank cur_i = 4 /\ List.length vshape = 3)).
  { unfold bias_alias in Href.
    apply bind_ok in Href. destruct Href as (b & Hitem & Href). apply item_ok in Hitem.
    destruct (Nat.eqb_spec (rank cur_i) 2) as [E2|_].
    - destruct b as [[p|]|]; try discriminate. injection Href as <-.
      eexists. split; [reflexivity|]. left. split; [assumption|]. apply (Hb p Hitem).
    - destruct (Nat.eqb_spec (rank cur_i) 4) as [E4|_]; [|discriminate].
      destruct b as [[p|]|]; try discriminate.
      apply bind_ok in Href. destruct Href as (vw & Hvw & Href). injection Href as <-.
      eexists. split; [reflexivity|]. right. split; [assumption|].
      unfold reshape in Hvw. destruct (resolve_shape _ _) as [sh|] eqn:E; [|discriminate].
      injection Hvw as <-. simpl. apply resolve_shape_length in E. exact E. }
  destruct Hview as (vshape & -> & Hrank).
  apply mbind_ok in HA. destruct HA as (s2 & ref & Hw & HA).
  apply write_ref_view in Hw. destruct Hw as (-> & C2 & T2).
  apply mbind_ok in HA. destruct HA as (s3 & v2 & Hv2 & HA). mprim Hv2.
  apply mbind_ok in HA. destruct HA as (s3 & cur_i' & Hi' & HA).
  apply read_i_ok in Hi'. destruct Hi' as (-> & row' & Hrow' & Hit'). rewrite T2 in Hrow'.
  apply mbind_ok in HA. destruct HA as (s3 & v3 & Hadd & _). mprim Hadd.
  apply inplace_rank in Hadd.
  unfold deref in Hv2. apply bind_ok in Hv2. destruct Hv2 as (p2 & _ & Hv2).
  injection Hv2 as <-.
  assert (cur_i' = cur_i) by congruence.
  subst cur_i'. unfold rank, scale, map_t in Hadd. simpl in Hadd.
  unfold rank in Hrank. lia.
Qed.

Lemma slot_intro {A : Type} (rows : list (list A)) (l : nat) (i : Z) (row : list A) (x : A) :
  nth_error rows l = Some row -> item_z row i = Ok x -> slot rows (Z.of_nat l) i = Ok x.
Proof.
  intros Hrow Hit. unfold slot. rewrite item_z_nat.
  apply item_ok in Hrow. rewrite Hrow. exact Hit.
Qed.

Lemma mbind_run {A B : Type} (m : M A) (k : A -> M B) (s s1 : net) (a : A) :
  m s = (s1, Ok a) -> mbind m k s = k a s1.
Proof. intro H. unfold mbind. now rewrite H. Qed.

Lemma mbind_raise {A B : Type} (m : M A) (k : A -> M B) (s s1 : net) (e : exn) :
  m s = (s1, Raise e) -> mbind m k s = (s1, Raise e).
Proof. intro H. unfold mbind. now rewrite H. Qed.

Lemma write_ref_view_run (l : nat) (vshape : list nat) (new : tensor) (s : net) (p : param) :
  bias_param s l = Ok p ->
  write_ref (BiasView l vshape) new s =
  (set_net_arch
     (set_state_v_bs
        (replace_at l (One (Some (mkParam (mkT (shape (value p)) (data new)) (grad p))))
           (state_v_bs (net_arch s)))
        (net_arch s)) s,
   Ok (BiasView l vshape)).
Proof.
  intro H. unfold write_ref, mbind, updating, ret. rewrite H. reflexivity.
Qed.

(** When that update is reached for a fc layer, the bias parameter has
    been scaled by [beta_bias] in place by the time the pass raises. *)
Lemma single_model_potential_rescales_bias (t l : nat) (s : net)
    (row : list tensor) (cur_i : tensor) (p : param) :
  multi_model (cfg s) = false ->
  nth_error (state_i (tr s)) l = Some row -> item_z row (-1) = Ok cur_i ->
  rank cur_i = 2 ->
  nth_error (state_v_bs (net_arch s)) l = Some (One (Some p)) ->
  rank (value p) <= 1 ->
  exists e,
    step_voltage t l s =
    (set_net_arch
       (set_state_v_bs
          (replace_at l
             (One (Some (mkParam (mkT (shape (value p))
                                      (data (scale (beta_bias (cfg s)) (value p))))
                                 (grad p))))
             (state_v_bs (net_arch s)))
          (net_arch s)) s,
     Raise e).
Proof.
  intros Hm Hrow Hit Hr Hp Hrank.
  pose proof (slot_intro _ _ _ Hrow Hit) as Hslot.
  assert (Hitem : item (state_v_bs (net_arch s)) l = Ok (One (Some p))) by now apply item_ok.
  assert (Hbp : bias_param s l = Ok p) by (unfold bias_param; now rewrite Hitem).
  set (p' := mkParam (mkT (shape (value p)) (data (scale (beta_bias (cfg s)) (value p)))) (grad p)).
  set (s1 := set_net_arch (set_state_v_bs (replace_at l (One (Some p')) (state_v_bs (net_arch s)))
                             (net_arch s)) s).
  assert (Hbp1 : bias_param s1 l = Ok p').
  { unfold bias_param.
    replace (item (state_v_bs (net_arch s1)) l) with (Ok (One (Some p'))); [reflexivity|].
    symmetry. apply item_ok. subst s1. fields. eapply nth_error_replace_at_hit. exact Hp. }
  assert (Hadd : exists e, iadd (mkT (shape (value p)) (data (value p')))
                             (scale (beta_v (cfg s)) cur_i) = Raise e).
  { destruct (iadd _ _) as [r|e] eqn:E; [|eauto].
    apply inplace_rank in E. unfold rank, scale, map_t in *. simpl in *. lia. }
  destruct Hadd as [e Hadd]. exists e.
  unfold step_voltage.
  rewrite (@mbind_run _ _ _ _ s s s) by reflexivity. rewrite Hm.
  apply mbind_raise.
  rewrite (@mbind_run _ _ _ _ s s cur_i) by (unfold read_i, reading; now rewrite Hslot).
  rewrite (@mbind_run _ _ _ _ s s (BiasView l (shape (value p))))
    by (unfold reading, bias_alias; rewrite Hitem; cbn [Py.bind]; now rewrite Hr).
  rewrite (@mbind_run _ _ _ _ s s (mkT (shape (value p)) (data (value p))))
    by (unfold reading, deref; now rewrite Hbp).
  rewrite (@mbind_run _ _ _ _ s s1 (BiasView l (shape (value p))))
    by (apply (@write_ref_view_run l (shape (value p)) _ s p Hbp)).
  rewrite (@mbind_run _ _ _ _ s1 s1 (mkT (shape (value p)) (data (value p'))))
    by (unfold reading, deref; now rewrite Hbp1).
  rewrite (@mbind_run _ _ _ _ s1 s1 cur_i) by (unfold read_i, reading; now rewrite <- Hslot).
  apply mbind_raise. unfold lift. now rewrite Hadd.
Qed.

(** ** The entries of the stored tensors *)

Lemma get_map_t (f : Q -> Q) (t : tensor) (idx : list nat) :
  well_formed t -> In idx (indices (shape t)) -> get (map_t f t) idx = f (get t idx).
Proof.
  intros Hwf Hin. unfold get, map_t. simpl.
  assert (Hlt : offset (shape t) idx < List.length (data t)).
  { rewrite Hwf. now apply offset_in_range. }
  rewrite (nth_indep _ _ (f 0%Q)) by now rewrite length_map.
  apply map_nth.
Qed.

(** The spike is the threshold of the potential, entry by entry. *)
Lemma spike_entry_get (v : tensor) (idx : list nat) :
  well_formed v -> In idx (indices (shape v)) ->
  get (ge_float 1 v) idx = spike_entry (get v idx).
Proof. intros Hwf Hin. unfold ge_float. now rewrite get_map_t. Qed.

(** On tensors of one shape the finite difference is
    [V[t] - V[t-1] * (1 - S[t-1])], entry by entry. *)
Lemma voltage_difference_entry (prev_v prev_s v d : tensor) (idx : list nat) :
  shape prev_s = shape prev_v -> shape v = shape prev_v ->
  well_formed prev_v -> well_formed prev_s ->
  voltage_difference prev_v prev_s v = Ok d ->
  In idx (indices (shape prev_v)) ->
  (get d idx == difference_entry (get v idx) (get prev_v idx) (get prev_s idx))%Q.
Proof.
  intros Hs Hv Wv Ws H Hin. unfold voltage_difference, mul, add, binop in H.
  change (shape (scale (-1) prev_v)) with (shape prev_v) in H.
  change (shape (one_minus prev_s)) with (shape prev_s) in H.
  rewrite Hs, broadcast_shapes_same in H. cbn [Py.bind] in H.
  change (shape (build (shape prev_v) _)) with (shape prev_v) in H.
  rewrite Hv, broadcast_shapes_same in H. injection H as <-.
  pose proof (@in_indices _ _ Hin) as Hvalid.
  rewrite get_build by exact Hin.
  unfold bget. simpl shape. rewrite Hv.
  rewrite !(@bindex_valid _ _ Hvalid).
  rewrite get_build by exact Hin.
  unfold bget. simpl shape.
  change (shape (scale (-1) prev_v)) with (shape prev_v).
  change (shape (one_minus prev_s)) with (shape prev_s). rewrite Hs.
  rewrite !(@bindex_valid _ _ Hvalid).
  unfold scale, one_minus. rewrite !get_map_t; try assumption; [|now rewrite Hs].
  unfold difference_entry. ring.
Qed.

(** ** Example networks *)

Definition prm (shp : list nat) (d : list Q) : param := mkParam (mkT shp d) None.

(** Two replicas of one fully connected layer with one input and one
    output neuron; weights 1 and 2, biases 1/4 and 0, decays 1/2. *)
Definition two_models (target : string) : net :=
  mkNet (mkConfig true 2 ["1"; "fc1"] target 3 (1 # 2) (1 # 2) 1 false 1 1 (1 # 2) (One 1%Q))
        (mkKernels None None None None None)
        (mkArch 1
           [Many [Linear (prm [1; 1] [1%Q]); Linear (prm [1; 1] [2%Q])]]
           [Many [Some (prm [1] [1 # 4]); Some (prm [1] [0%Q])]]
           [[1%Z]] ["fc"])
        empty_trace
        (mkLoss None None None None).

(** The first replica alone, as a single model. *)
Definition one_model : net :=
  mkNet (mkConfig false 1 ["1"; "fc1"] "count" 3 (1 # 2) (1 # 2) 1 false 1 1 (1 # 2) (One 1%Q))
        (mkKernels None None None None None)
        (mkArch 1
           [One (Linear (prm [1; 1] [1%Q]))]
           [One (Some (prm [1] [1 # 4]))]
           [[1%Z]] ["fc"])
        empty_trace
        (mkLoss None None None None).

(** Model x batch x time x neuron: the spike trains 1 0 1 and 1 1 0. *)
Definition two_trains : tensor := mkT [2; 1; 3; 1] [1; 0; 1; 1; 1; 0]%Q.

(** The trains 0 0 0 and 1 1 0: the first replica receives no spike. *)
Definition silent_train : tensor := mkT [2; 1; 3; 1] [0; 0; 0; 1; 1; 0]%Q.

(** Batch x time x neuron: the spike train 1 0 1. *)
Definition one_train : tensor := mkT [1; 3; 1] [1; 0; 1]%Q.

Definition count_run : net * result tensor :=
  Eval vm_compute in forward two_trains (two_models "count").

Definition latency_run : net * result tensor :=
  Eval vm_compute in forward silent_train (two_models "latency").

Definition out_of (r : net * result tensor) : tensor :=
  match snd r with
  | Ok t => t
  | Raise _ => zeros []
  end.

(** ** The forward pass of a multi-model *)

(** The modules and the bias parameters are those the pass started
    with, up to the index lists of the max-pool modules. *)
Lemma multi_model_forward_keeps_parameters (input : tensor) (s s' : net) (out : tensor) :
  multi_model (cfg s) = true ->
  forward input s = (s', Ok out) ->
  map forget_indices (layers (net_arch s')) = map forget_indices (layers (net_arch s)) /\
  state_v_bs (net_arch s') = state_v_bs (net_arch s).
Proof.
  intros Hm H. destruct (@forward_multi _ _ _ _ Hm H) as (t & _ & _ & _ & Ly & B & _).
  auto.
Qed.

(** C3. In a forward pass of a multi-model that returns, the rows of
    every conv or fc layer hold [term_length] entries, and at every step
    [t] the stored finite difference is the clamp at 0.01 of
    [V[l,t] - V[l,t-1] * (1 - S[l,t-1])] (of [V[l,0]] at step 0): the
    spike factor is that of the previous step, as in the update of the
    potential. *)
Theorem finite_difference (input : tensor) (s s' : net) (out : tensor)
    (l : nat) (e : entry layer) :
  multi_model (cfg s) = true ->
  forward input s = (s', Ok out) ->
  nth_error (layers (net_arch s)) l = Some e ->
  neuron_entry e = true ->
  exists n rv rvp rs,
    term_length (tr s') = Some n /\
    nth_error (state_v (tr s')) l = Some rv /\
    nth_error (state_v_prime (tr s')) l = Some rvp /\
    nth_error (state_s (tr s')) l = Some rs /\
    List.length rv = n /\ List.length rvp = n /\ List.length rs = n /\
    forall t, t < n -> surrogate_rule rv rvp rs t.
Proof.
  intros Hm H He Hne.
  destruct (@forward_multi _ _ _ _ Hm H) as (t & _ & Ht & _ & _ & _ & Rows).
  destruct (Rows l e He Hne) as (ri & rv & rvp & rs & _ & Hv & Hvp & Hs & _ & Lv & Lvp & Ls & _ & Rule).
  simpl in *. exists (S t), rv, rvp, rs. auto 10.
Qed.

(** The theorem on the two replicas and the trains 1 0 1 and 1 1 0. *)
Lemma finite_difference_witness :
  exists n rv rvp rs,
    term_length (tr (fst count_run)) = Some n /\
    nth_error (state_v (tr (fst count_run))) 0 = Some rv /\
    nth_error (state_v_prime (tr (fst count_run))) 0 = Some rvp /\
    nth_error (state_s (tr (fst count_run))) 0 = Some rs /\
    List.length rv = n /\ List.length rvp = n /\ List.length rs = n /\
    forall t, t < n -> surrogate_rule rv rvp rs t.
Proof.
  apply (@finite_difference two_trains (two_models "count") (fst count_run) (out_of count_run)
           0 (Many [Linear (prm [1; 1] [1%Q]); Linear (prm [1; 1] [2%Q])])).
  - reflexivity.
  - vm_compute. reflexivity.
  - reflexivity.
  - reflexivity.
Defined.

(** On the same run the stored difference of the first replica at step 2
    is 17/16, the clamp of [V[2] - V[1] * (1 - S[1])] with
    [V = 9/8, 1/8, 19/16] and [S = 1, 0, 1]; with the spike of step 2 in
    place of that of step 1 the value would be 19/16. *)
Lemma finite_difference_counterexample :
  exists s' out rv rvp rs v1 v2 s2 vp2 d,
    forward two_trains (two_models "count") = (s', Ok out) /\
    nth_error (state_v (tr s')) 0 = Some rv /\
    nth_error (state_v_prime (tr s')) 0 = Some rvp /\
    nth_error (state_s (tr s')) 0 = Some rs /\
    nth_error rv 1 = Some (Own v1) /\ nth_error rv 2 = Some (Own v2) /\
    nth_error rs 2 = Some s2 /\ nth_error rvp 2 = Some (Own vp2) /\
    voltage_difference v1 s2 v2 = Ok d /\
    (get vp2 [0; 0]%nat == 17 # 16)%Q /\
    (get (clamp_min (1 # 100) d) [0; 0]%nat == 19 # 16)%Q /\
    ~ (get vp2 [0; 0]%nat == get (clamp_min (1 # 100) d) [0; 0]%nat)%Q.
Proof.
  exists (fst count_run), (out_of count_run).
  do 8 eexists.
  split; [vm_compute; reflexivity|].
  split; [reflexivity|]. split; [reflexivity|]. split; [reflexivity|].
  split; [reflexivity|]. split; [reflexivity|]. split; [reflexivity|].
  split; [reflexivity|]. split; [reflexivity|].
  split; [vm_compute; reflexivity|].
  split; [vm_compute; reflexivity|].
  intro H. vm_compute in H. discriminate H.
Qed.

(** The theorem on the two replicas under the latency rule, the first
    of which receives no spike: the counter has one row per replica and
    one column, and the pass runs all three steps. *)
Lemma early_exit_witness :
  exists row st cum,
    term_length (tr (fst latency_run)) = Some 3 /\
    last_item (state_s (tr (fst latency_run))) = Ok row /\
    stack row = Ok st /\ permute [1; 0; 2] st = Ok (out_of latency_run) /\
    output_s_cum (tr (fst latency_run)) = Some cum /\
    shape cum = [2; 1] /\
    (get cum [0%nat; 0%nat] == qsum (map (fun x => bget x [0%nat; 0%nat]) row))%Q /\
    (get cum [1%nat; 0%nat] == qsum (map (fun x => bget x [1%nat; 0%nat]) row))%Q.
Proof.
  destruct (@early_exit silent_train (two_models "latency") (fst latency_run) (snd latency_run))
    as [_ H]; [reflexivity | vm_compute; reflexivity |].
  destruct (H (out_of latency_run) eq_refl)
    as (n & row & st & batch & width & cum & Hn & _ & Hb & Hw & Hrow & _ & Hst & Hout & _
        & Hcum & Hshape & _ & Hsum & _).
  cbn [two_models cfg multi_model] in Hb.
  destruct Hb as (m & per & rest & Hin & _ & ->).
  injection Hin as <- <- _.
  destruct Hw as (w & rest' & Hlast & _ & ->).
  vm_compute in Hlast. injection Hlast as <- _.
  change (2 * 1) with 2 in *. change (Z.to_nat 1) with 1 in *.
  vm_compute in Hn. injection Hn as <-.
  exists row, st, cum.
  split; [reflexivity|]. split; [exact Hrow|]. split; [exact Hst|]. split; [exact Hout|].
  split; [exact Hcum|]. split; [exact Hshape|].
  split; apply Hsum; simpl; auto.
Defined.

(** With the trains 1 0 1 and 1 1 0 both output neurons spike at step
    0 and the pass stops after one step. *)
Lemma early_exit_example :
  exists s' out, forward two_trains (two_models "latency") = (s', Ok out) /\
                 term_length (tr s') = Some 1.
Proof. do 2 eexists. split; vm_compute; reflexivity. Qed.
(** ** The forward pass of a single model *)

(** C1. On a single model with one fully connected layer the forward
    pass computes the current of step 0 and raises [RuntimeError] at the
    update of the potential: [state_v] is the bias parameter itself, of
    shape [(1)], and [state_v += state_i * beta_v] cannot hold the
    broadcast shape [(1, 1)]. No potential and no spike is stored. *)
Theorem single_model_potential_raises :
  exists s',
    forward one_train one_model = (s', Raise inplace_error) /\
    state_i (tr s') = [[mkT [1; 1] [1%Q]]] /\
    state_v (tr s') = [[]] /\ state_v_prime (tr s') = [[]] /\ state_s (tr s') = [[]].
Proof. eexists. split; [vm_compute; reflexivity|]. repeat split. Qed.

(** C10. The same pass leaves the bias parameter of the layer at 1/8:
    [state_v *= self.beta_bias] has scaled the parameter, which was 1/4,
    in place. *)
Theorem single_model_forward_rescales_bias :
  state_v_bs (net_arch one_model) = [One (Some (prm [1] [1 # 4]))] /\
  state_v_bs (net_arch (fst (forward one_train one_model))) = [One (Some (prm [1] [1 # 8]))].
Proof. split; [reflexivity|]. vm_compute. reflexivity. Qed.

End ForwardFacts.

(* ===================================================================== *)
(** * Construction: what the builder does with a layer *)
(* ===================================================================== *)

Module BuilderProps.

Import Torch Snn TorchFacts KernelFacts BuilderFacts.

Open Scope string_scope.
Open Scope list_scope.
Open Scope nat_scope.

Lemma init_kernels_keeps_network (self self' : net) :
  _init_kernels self = Ok self' ->
  network_size (cfg self') = network_size (cfg self).
Proof.
  unfold _init_kernels.
  destruct (negb (in_list (target_type (cfg self)) VALID_TARGETS)); [discriminate|].
  assert (Ha : forall self1, init_alpha_kernel self = Ok self1 ->
                 network_size (cfg self1) = network_size (cfg self)).
  { unfold init_alpha_kernel. intros self1.
    destruct (in_list _ _); [|intro H; now injection H as <-].
    repeat match goal with
           | |- Py.bind ?r _ = _ -> _ => destruct r; cbn [Py.bind]; [|discriminate]
           end.
    intro H. injection H as <-.
    destruct (String.eqb (target_type (cfg self)) "train");
      [|destruct (String.eqb (target_type (cfg self)) "count")]; reflexivity. }
  destruct (init_alpha_kernel self) as [self1|]; cbn [Py.bind]; [|discriminate].
  specialize (Ha self1 eq_refl).
  destruct (epsilon_raw _ _ _) as [eps|]; cbn [Py.bind]; [|discriminate].
  assert (H : forall self2,
            (if beta_auto (cfg self1)
             then (m <- max_all eps ;;
                   Ok (set_cfg (set_beta_bias (1 / m)%Q
                                  (set_beta_v (1 / m)%Q (set_beta_i 1%Q (cfg self1)))) self1))%py
             else Ok self1) = Ok self2 ->
            network_size (cfg self2) = network_size (cfg self)).
  { intros self2. destruct (beta_auto (cfg self1)).
    - destruct (max_all eps); cbn [Py.bind]; [|discriminate].
      intro H. injection H as <-. simpl. exact Ha.
    - intro H. injection H as <-. exact Ha. }
  match goal with
  | |- Py.bind ?r _ = _ -> _ => destruct r as [self2|]; [|discriminate]
  end.
  specialize (H self2 eq_refl). cbn [Py.bind].
  repeat match goal with
         | |- Py.bind ?r _ = _ -> _ => destruct r; cbn [Py.bind]; [|discriminate]
         end.
  intro E. injection E as <-. simpl. exact H.
Qed.

(** The loops of [_init_layers] stop at the first layer specification. *)
Lemma init_layers_raises (fresh : list nat -> tensor) (self : net)
    (input_spec spec : string) (rest : list string) :
  network_size (cfg self) = input_spec :: spec :: rest ->
  multi_model (cfg self) = false \/ (0 < num_models (cfg self))%Z ->
  exists e, _init_layers fresh self = Raise e.
Proof.
  intros Hn Hmode. unfold _init_layers. rewrite Hn. cbn [item nth_error Py.bind tl].
  match goal with
  | |- exists e, Py.bind ?r _ = Raise e =>
      destruct r as [[]|e0]; cbn [Py.bind]; [|eexists; reflexivity]
  end.
  destruct (init_single_layer_raises fresh (cfg self) spec) as [e He].
  destruct (multi_model (cfg self)) eqn:Em.
  - destruct Hmode as [Hm|Hpos]; [discriminate|].
    unfold range. destruct (Z.to_nat (num_models (cfg self))) as [|k] eqn:Ek; [lia|].
    cbn [seq for_each enumerate List.length combine add_multi Py.bind].
    destruct (_init_single_layer fresh (cfg self) spec) as [x|e1]; [discriminate|].
    cbn [Py.bind]. eexists; reflexivity.
  - cbn [for_each]. unfold add_single.
    destruct (_init_single_layer fresh (cfg self) spec) as [x|e1]; [discriminate|].
    cbn [Py.bind]. eexists; reflexivity.
Qed.

(** X1. Construction never returns a network with a layer: whenever the
    specification lists at least one layer (after the input shape) and
    the model is single or has a positive number of replicas,
    [__init__] ends in an exception. *)
Theorem construction_raises_with_a_layer (fresh : list nat -> tensor) (c : config)
    (input_spec spec : string) (rest : list string) :
  network_size c = input_spec :: spec :: rest ->
  multi_model c = false \/ (0 < num_models c)%Z ->
  exists e, __init__ fresh c = Raise e.
Proof.
  intros Hn Hmode. unfold __init__. simpl cfg.
  destruct (negb (multi_model c) && negb (num_models c =? 1)%Z)%bool;
    [eexists; reflexivity|].
  destruct (_init_kernels (blank c)) as [self1|e] eqn:Ek; cbn [Py.bind];
    [|eexists; reflexivity].
  pose proof (init_kernels_keeps_network _ Ek) as Hn1.
  pose proof (init_kernels_keeps_model_count _ Ek) as [Hm1 Hc1].
  simpl in Hn1, Hm1, Hc1.
  apply (@init_layers_raises fresh self1 input_spec spec rest).
  - congruence.
  - rewrite Hm1, Hc1. exact Hmode.
Qed.

Definition conv_network : config :=
  mkConfig true 2 ["3x8x8"; "conv4c3"; "flatten"; "fc10"] "latency" 4
           (1 # 2) (1 # 2) 1 false 1 1 1 (One 1%Q).

(** The theorem on two replicas of a network [conv -> flatten -> fc]. *)
Lemma construction_raises_with_a_layer_witness :
  exists e, __init__ zeros conv_network = Raise e.
Proof.
  apply (@construction_raises_with_a_layer zeros conv_network "3x8x8" "conv4c3" ["flatten"; "fc10"]).
  - reflexivity.
  - right. reflexivity.
Defined.

(** X2. A multi-model supports fully connected and flattening layers
    only: a specification that names a convolution, or an average or max
    pooling (and no fully connected layer), is rejected with
    [NotImplementedError]. *)
Theorem multi_model_rejects_conv_and_pool (fresh : list nat -> tensor) (c : config)
    (spec : string) :
  multi_model c = true ->
  Str.contains "conv" spec = true \/
  (Str.contains "fc" spec = false /\
   (Str.contains "apool" spec = true \/ Str.contains "mpool" spec = true)) ->
  exists msg, _init_single_layer fresh c spec = Raise (NotImplementedError msg).
Proof.
  intros Hm H. unfold _init_single_layer, no_mm_support. rewrite Hm.
  destruct (Str.contains "conv" spec); [cbn [Py.bind]; eexists; reflexivity|].
  destruct H as [H|[Hfc H]]; [discriminate|]. rewrite Hfc.
  destruct (Str.contains "apool" spec); [cbn [Py.bind]; eexists; reflexivity|].
  destruct H as [H|H]; [discriminate|]. rewrite H. cbn [Py.bind]. eexists; reflexivity.
Qed.

Lemma multi_model_rejects_conv_and_pool_witness :
  exists msg, _init_single_layer zeros conv_network "mpool2" = Raise (NotImplementedError msg).
Proof.
  apply multi_model_rejects_conv_and_pool.
  - reflexivity.
  - right. split; [reflexivity|]. right. reflexivity.
Defined.

(** X3. [reset_parameters] never returns on a network with a layer
    (single model, or a positive number of replicas): the first call of
    [reset_parameters_single_layer] passes two arguments to
    [is_conv2d_or_linear], which takes one. *)
Theorem reset_parameters_raises (c : config) (a : arch) :
  layers a <> [] ->
  multi_model c = false \/ (0 < num_models c)%Z ->
  exists e, reset_parameters c a = Raise e.
Proof.
  intros Hl Hmode. unfold reset_parameters.
  destruct (layers a) as [|ly rest] eqn:El; [contradiction|].
  cbn [enumerate List.length seq combine for_each reset_layer].
  destruct (multi_model c) eqn:Em.
  - destruct Hmode as [Hm|Hpos]; [discriminate|].
    unfold range. destruct (Z.to_nat (num_models c)) as [|k] eqn:Ek; [lia|].
    cbn [seq for_each].
    destruct (subscript ly 0) as [lm|e]; cbn [Py.bind]; [|eexists; reflexivity].
    destruct (item (state_v_bs a) 0) as [bs|e]; cbn [Py.bind]; [|eexists; reflexivity].
    destruct (subscript bs 0) as [b|e]; cbn [Py.bind]; [|eexists; reflexivity].
    eexists; reflexivity.
  - destruct (item (state_v_bs a) 0) as [[b|bl]|e]; cbn [Py.bind]; eexists; reflexivity.
Qed.

Lemma reset_parameters_raises_witness :
  exists e,
    reset_parameters conv_network
      (mkArch 1 [Many [Flatten; Flatten]] [Many [None; None]] [[192%Z]] ["flatten"]) = Raise e.
Proof.
  apply reset_parameters_raises.
  - discriminate.
  - right. reflexivity.
Defined.

End BuilderProps.

(* ===================================================================== *)
(** * Kernels: when the initializer returns, and what it stores *)
(* ===================================================================== *)

Module KernelProps.

Import Torch Snn TorchFacts KernelFacts.

Open Scope string_scope.
Open Scope list_scope.
Open Scope nat_scope.

Lemma epsilon_raw_ok (a_i a_v : Q) (T : nat) :
  exists eps, epsilon_raw a_i a_v T = Ok eps /\ shape eps = [T] /\ List.length (data eps) = T.
Proof.
  destruct (@epsilon_loop_prefix a_i a_v T T (zeros [T])) as [eps [Hrun [Hs [Hl _]]]].
  - reflexivity.
  - pose proof (build_well_formed [T] (fun _ => 0%Q)) as H.
    unfold well_formed, numel in H. unfold zeros. rewrite H. simpl. lia.
  - lia.
  - exists eps. auto.
Qed.

Lemma max_all_ok (t : tensor) :
  is_ok (max_all t) = negb (List.length (data t) =? 0).
Proof. unfold max_all. destruct (data t); reflexivity. Qed.

(** The last block of [_init_kernels] (lines 161-168) on a kernel of
    shape [(T)]. *)
Lemma epsilon_prime_ok (T : nat) (eps : tensor) (self : net) :
  shape eps = [T] ->
  exists self',
    (let epsilon := scale (beta_i (cfg self) * beta_v (cfg self))%Q eps in
     epsilon_shifted_front <- cat 0 epsilon (zeros [2]) ;;
     epsilon_shifted_back <- cat 0 (zeros [2]) epsilon ;;
     d <- sub epsilon_shifted_front epsilon_shifted_back ;;
     let epsilon_prime := map_t (fun x => x / 2)%Q d in
     Ok (set_kern (set_epsilon_prime (Some epsilon_prime)
                     (set_epsilon (Some epsilon) (kern self))) self))%py = Ok self'.
Proof.
  intro Hs. cbv zeta.
  match goal with
  | |- context [cat 0 ?k (zeros [2])] =>
      destruct (@shifted_difference_ok 0 k [] T) as [f [b [d [Hf [Hb Hd]]]]];
      [simpl; now rewrite Hs | reflexivity |]
  end.
  cbn [app] in Hf, Hb. rewrite Hf, Hb. cbn [Py.bind]. rewrite Hd. cbn [Py.bind].
  eexists. reflexivity.
Qed.

(** X4. [_init_kernels] returns exactly when the target type is one of
    count, train and latency and, with auto-scaling on, the time horizon
    is positive (the maximum of an empty kernel is not defined). *)
Theorem init_kernels_returns_iff (self : net) :
  is_ok (_init_kernels self) =
  (in_list (target_type (cfg self)) VALID_TARGETS
   && (negb (beta_auto (cfg self)) || negb (time_length (cfg self) =? 0)))%bool.
Proof.
  unfold _init_kernels.
  destruct (in_list (target_type (cfg self)) VALID_TARGETS); cbn [negb andb]; [|reflexivity].
  destruct (init_alpha_kernel_ok self) as [self1 [-> [Ei [Ev [ET [Ea _]]]]]].
  cbn [Py.bind]. rewrite Ei, Ev, ET, Ea.
  destruct (epsilon_raw_ok (alpha_i (cfg self)) (alpha_v (cfg self)) (time_length (cfg self)))
    as [eps [-> [Hs Hl]]].
  cbn [Py.bind].
  destruct (beta_auto (cfg self)); cbn [negb orb].
  - pose proof (max_all_ok eps) as Hm. rewrite Hl in Hm.
    destruct (max_all eps) as [m|e]; cbn [Py.bind].
    + rewrite <- Hm.
      match goal with
      | |- context [scale _ eps] =>
          match goal with
          | |- is_ok (Py.bind (cat 0 (scale (beta_i (cfg ?s2) * _) _) _) _) = _ =>
              destruct (@epsilon_prime_ok (time_length (cfg self)) eps s2 Hs) as [self' H]
          end
      end.
      cbv zeta in H. cbv zeta. rewrite H. reflexivity.
    + rewrite <- Hm. reflexivity.
  - destruct (@epsilon_prime_ok (time_length (cfg self)) eps self1 Hs) as [self' H].
    cbn [Py.bind]. cbv zeta in H. cbv zeta. rewrite H. reflexivity.
Qed.

(** What a returning call of [_init_kernels] has computed. *)
Lemma init_kernels_inv (self self' : net) :
  _init_kernels self = Ok self' ->
  exists self1 eps front back d,
    init_alpha_kernel self = Ok self1 /\
    epsilon_raw (alpha_i (cfg self)) (alpha_v (cfg self)) (time_length (cfg self)) = Ok eps /\
    shape eps = [time_length (cfg self)] /\
    alpha_exp (cfg self') = alpha_exp (cfg self1) /\
    cat 0 (scale (beta_i (cfg self') * beta_v (cfg self'))%Q eps) (zeros [2]) = Ok front /\
    cat 0 (zeros [2]) (scale (beta_i (cfg self') * beta_v (cfg self'))%Q eps) = Ok back /\
    sub front back = Ok d /\
    kern self' =
      set_epsilon_prime (Some (map_t (fun x => x / 2)%Q d))
        (set_epsilon (Some (scale (beta_i (cfg self') * beta_v (cfg self'))%Q eps))
           (kern self1)).
Proof.
  unfold _init_kernels.
  destruct (negb (in_list (target_type (cfg self)) VALID_TARGETS)); [discriminate|].
  destruct (init_alpha_kernel_ok self) as [self1 [Ha [Ei [Ev [ET [Eb _]]]]]].
  rewrite Ha. cbn [Py.bind]. rewrite Ei, Ev, ET.
  destruct (epsilon_raw_ok (alpha_i (cfg self)) (alpha_v (cfg self)) (time_length (cfg self)))
    as [eps [He [Hs Hl]]].
  rewrite He. cbn [Py.bind].
  match goal with
  | |- Py.bind ?r _ = _ -> _ => destruct r as [self2|] eqn:E2; [|discriminate]
  end.
  assert (Hx : alpha_exp (cfg self2) = alpha_exp (cfg self1) /\ kern self2 = kern self1).
  { destruct (beta_auto (cfg self1)).
    - destruct (max_all eps); cbn [Py.bind] in E2; [|discriminate].
      injection E2 as <-. split; reflexivity.
    - injection E2 as <-. split; reflexivity. }
  destruct Hx as [Hx Hk].
  cbn [Py.bind]. cbv zeta.
  destruct (cat 0 (scale _ eps) (zeros [2])) as [front|] eqn:Ef; cbn [Py.bind]; [|discriminate].
  destruct (cat 0 (zeros [2]) (scale _ eps)) as [back|] eqn:Eb'; cbn [Py.bind]; [|discriminate].
  destruct (sub front back) as [d|] eqn:Ed; cbn [Py.bind]; [|discriminate].
  intro H. injection H as <-.
  exists self1, eps, front, back, d. cbn [cfg kern set_kern].
  rewrite Hk. repeat split; auto.
Qed.

Lemma Qpower_one_nat (k : nat) : (Qpower 1 (Z.of_nat k) == 1)%Q.
Proof. apply Qpower_1. Qed.

(** X5. Under the count rule the initializer overrides [alpha_exp] with
    1 and stores, as alpha kernel, [min(time_length, 1000)] entries that
    all equal 1, with [alpha_extend = 0]: smoothing with this kernel is
    plain counting. *)
Theorem count_rule_kernel_is_constant (self self' : net) :
  target_type (cfg self) = "count" ->
  _init_kernels self = Ok self' ->
  alpha_exp (cfg self') = 1%Q /\
  alpha_extend (kern self') = Some 0 /\
  exists k, alpha_kernel (kern self') = Some k /\
            shape k = [1; 1; Nat.min (time_length (cfg self)) 1000] /\
            Forall (fun x => x == 1)%Q (data k).
Proof.
  intros Ht H. apply init_kernels_inv in H.
  destruct H as (self1 & eps & front & back & d & Ha & _ & _ & Hx & _ & _ & _ & Hk).
  rewrite Hx, Hk. clear Hx Hk.
  unfold init_alpha_kernel in Ha. rewrite Ht in Ha.
  cbn [in_list existsb String.eqb Ascii.eqb Bool.eqb orb] in Ha.
  cbn [cfg set_cfg set_kern alpha_exp set_alpha_exp time_length] in Ha.
  set (n := Nat.min (time_length (cfg self)) 1000) in *.
  assert (Hone : Forall (fun x => x == 1)%Q (data (pow_seq 1 (seq 0 n)))).
  { unfold pow_seq. simpl. apply Forall_forall. intros x Hin.
    apply in_map_iff in Hin. destruct Hin as [k [<- _]]. apply Qpower_one_nat. }
  assert (Hkeep : mask_gt (1 # 1000000) (pow_seq 1 (seq 0 n))
                  = mkT [List.length (data (pow_seq 1 (seq 0 n)))] (data (pow_seq 1 (seq 0 n)))).
  { unfold mask_gt.
    replace (filter _ (data (pow_seq 1 (seq 0 n)))) with (data (pow_seq 1 (seq 0 n)));
      [reflexivity|].
    symmetry. apply forallb_filter_id. apply forallb_forall. intros x Hin.
    rewrite Forall_forall in Hone. specialize (Hone x Hin).
    apply negb_true_iff. destruct (Qle_bool x (1 # 1000000)) eqn:E; [|reflexivity].
    apply Qle_bool_iff in E. rewrite Hone in E. vm_compute in E. now contradiction E. }
  cbv zeta in Ha. rewrite Hkeep, reshape_row in Ha. cbn [Py.bind] in Ha.
  repeat match type of Ha with
         | Py.bind ?r _ = _ => destruct r; cbn [Py.bind] in Ha; [|discriminate]
         end.
  injection Ha as <-. cbn.
  split; [reflexivity|]. split; [reflexivity|].
  eexists. split; [reflexivity|]. split.
  - cbn. now rewrite length_map, length_seq.
  - exact Hone.
Qed.

Definition count_net : net :=
  blank (mkConfig false 1 ["4"] "count" 3 (1 # 2) (1 # 3) (9 # 10) false 1 1 1 (One 1%Q)).

(** The theorem at a horizon of three steps and [alpha_exp = 9/10]. *)
Lemma count_rule_kernel_is_constant_witness :
  exists self',
    _init_kernels count_net = Ok self' /\
    alpha_exp (cfg self') = 1%Q /\
    alpha_kernel (kern self') = Some (mkT [1; 1; 3] [1; 1; 1]%Q).
Proof.
  destruct (_init_kernels count_net) as [self'|] eqn:E; [|vm_compute in E; discriminate].
  exists self'. split; [reflexivity|].
  destruct (@count_rule_kernel_is_constant count_net self' eq_refl E) as (Hx & _ & _).
  split; [exact Hx|].
  vm_compute in E. injection E as <-. reflexivity.
Defined.

Lemma in_indices_vector (n k : nat) : k < n -> In [k] (indices [n]).
Proof.
  intro H. simpl. apply in_flat_map. exists k. split.
  - apply in_seq. lia.
  - simpl. auto.
Qed.

Lemma get_zeros (s idx : list nat) : In idx (indices s) -> get (zeros s) idx = 0%Q.
Proof. intro H. unfold zeros. now rewrite get_build. Qed.

Lemma cat_vectors (a b : tensor) (n m : nat) :
  shape a = [n] -> shape b = [m] ->
  cat 0 a b = Ok (build [n + m] (fun idx =>
                    if nth 0 idx 0 <? n then get a idx
                    else get b (replace_at 0 (nth 0 idx 0 - n) idx))).
Proof. intros Ha Hb. unfold cat, rank. rewrite Ha, Hb. reflexivity. Qed.

(** X6. [epsilon_prime] is the centred difference of the normalised
    kernel [epsilon], padded with two zeros on each side: it has
    [time_length + 2] entries and entry [k] is
    [(epsilon[k] - epsilon[k - 2]) / 2], an entry of [epsilon] outside
    [0 .. time_length - 1] counting as 0. *)
Theorem epsilon_prime_is_centred_difference (self self' : net) :
  _init_kernels self = Ok self' ->
  exists e ep,
    epsilon (kern self') = Some e /\ epsilon_prime (kern self') = Some ep /\
    shape e = [time_length (cfg self)] /\
    shape ep = [S (S (time_length (cfg self)))] /\
    forall k, k < S (S (time_length (cfg self))) ->
      (get ep [k] ==
       ((if (k <? time_length (cfg self))%nat then get e [k] else 0)
        - (if (k <? 2)%nat then 0 else get e [(k - 2)%nat])) / 2)%Q.
Proof.
  intro H. apply init_kernels_inv in H.
  destruct H as (self1 & eps & front & back & d & _ & _ & Hs & _ & Hf & Hb & Hd & Hk).
  set (T := time_length (cfg self)) in *.
  set (e := scale (beta_i (cfg self') * beta_v (cfg self'))%Q eps) in *.
  assert (Hse : shape e = [T]) by exact Hs.
  exists e, (map_t (fun x => x / 2)%Q d).
  rewrite Hk. cbn [epsilon epsilon_prime set_epsilon set_epsilon_prime].
  split; [reflexivity|]. split; [reflexivity|]. split; [exact Hse|].
  rewrite (@cat_vectors e (zeros [2]) T 2 Hse eq_refl) in Hf.
  rewrite (@cat_vectors (zeros [2]) e 2 T eq_refl Hse) in Hb.
  injection Hf as <-. injection Hb as <-.
  replace (T + 2) with (S (S T)) in Hd by lia.
  change (2 + T) with (S (S T)) in Hd.
  unfold sub, binop in Hd. cbn [shape build] in Hd.
  rewrite broadcast_shapes_same in Hd. injection Hd as <-.
  split; [reflexivity|].
  intros k Hk'.
  pose proof (in_indices_vector Hk') as Hin.
  rewrite ForwardFacts.get_map_t; [|apply build_well_formed|exact Hin].
  rewrite get_build by exact Hin.
  unfold bget. cbn [shape build].
  rewrite (@bindex_valid [S (S T)] [k]) by (constructor; [lia|constructor]).
  rewrite !get_build by exact Hin.
  cbn [nth replace_at].
  destruct (Nat.ltb_spec k T) as [Hlt|Hge].
  - destruct (Nat.ltb_spec k 2) as [H2|H2].
    + rewrite get_zeros by (apply in_indices_vector; lia). reflexivity.
    + reflexivity.
  - rewrite get_zeros by (apply in_indices_vector; lia).
    destruct (Nat.ltb_spec k 2) as [H2|H2].
    + rewrite get_zeros by (apply in_indices_vector; lia). reflexivity.
    + reflexivity.
Qed.

Definition decay_net : net :=
  blank (mkConfig false 1 ["4"] "latency" 2 (1 # 2) (1 # 2) 1 false 1 1 1 (One 1%Q)).

(** The theorem at two steps with decays 1/2: [epsilon = 1, 1] and
    [epsilon_prime = 1/2, 1/2, -1/2, -1/2]. *)
Lemma epsilon_prime_is_centred_difference_witness :
  exists self' e ep,
    _init_kernels decay_net = Ok self' /\
    epsilon (kern self') = Some e /\ epsilon_prime (kern self') = Some ep /\
    (get ep [0%nat] == get e [0%nat] / 2)%Q /\ (get ep [3%nat] == - get e [1%nat] / 2)%Q.
Proof.
  destruct (_init_kernels decay_net) as [self'|] eqn:E; [|vm_compute in E; discriminate].
  destruct (@epsilon_prime_is_centred_difference decay_net self' E)
    as (e & ep & He & Hep & _ & _ & Hget).
  exists self', e, ep. split; [reflexivity|]. split; [exact He|]. split; [exact Hep|].
  split.
  - rewrite (Hget 0) by (simpl; lia). simpl. field.
  - rewrite (Hget 3) by (simpl; lia). simpl. field.
Defined.

End KernelProps.

(* ===================================================================== *)
(** * Loops over Python lists *)
(* ===================================================================== *)

Module LoopFacts.

Import Snn.

Open Scope list_scope.
Open Scope nat_scope.

Lemma for_each_combine_inv {A St : Type} (body : St -> nat * A -> result St)
    (P : nat -> St -> Prop) (xs : list A) (k0 : nat) (s s' : St) :
  P k0 s ->
  (forall k x s1 s2, nth_error xs k = Some x -> P (k0 + k) s1 ->
     body s1 (k0 + k, x) = Ok s2 -> P (S (k0 + k)) s2) ->
  for_each (combine (seq k0 (List.length xs)) xs) body s = Ok s' ->
  P (k0 + List.length xs) s'.
Proof.
  revert k0 s. induction xs as [|x xs IH]; intros k0 s H0 Hstep H.
  - simpl in H. injection H as <-. now rewrite Nat.add_0_r.
  - simpl in H. destruct (body s (k0, x)) as [s1|e] eqn:E; [|discriminate].
    simpl in H. simpl List.length. rewrite <- Nat.add_succ_comm.
    apply (IH (S k0) s1).
    + specialize (Hstep 0 x s s1). rewrite Nat.add_0_r in Hstep. now apply Hstep.
    + intros k y s2 s3 Hy HP Hb. rewrite Nat.add_succ_comm in *.
      apply (Hstep (S k) y s2 s3); assumption.
    + exact H.
Qed.

(** An invariant of [for i, x in enumerate(xs)]. *)
Lemma for_each_enumerate_inv {A St : Type} (body : St -> nat * A -> result St)
    (P : nat -> St -> Prop) (xs : list A) (s s' : St) :
  P 0 s ->
  (forall k x s1 s2, nth_error xs k = Some x -> P k s1 ->
     body s1 (k, x) = Ok s2 -> P (S k) s2) ->
  for_each (enumerate xs) body s = Ok s' ->
  P (List.length xs) s'.
Proof.
  intros H0 Hstep H.
  apply (@for_each_combine_inv _ _ body P xs 0 s s'); assumption.
Qed.

(** An invariant of [for x in xs]. *)
Lemma for_each_inv {A St : Type} (body : St -> A -> result St) (P : St -> Prop)
    (xs : list A) (s s' : St) :
  P s -> (forall x s1 s2, In x xs -> P s1 -> body s1 x = Ok s2 -> P s2) ->
  for_each xs body s = Ok s' -> P s'.
Proof.
  revert s. induction xs as [|x xs IH]; intros s H0 Hstep H.
  - simpl in H. now injection H as <-.
  - simpl in H. destruct (body s x) as [s1|e] eqn:E; [|discriminate].
    simpl in H. apply (IH s1); auto.
    + eapply Hstep; eauto. now left.
    + intros y s2 s3 Hy. apply Hstep. now right.
Qed.

Lemma py_bind_ok {A B : Type} (r : result A) (k : A -> result B) (b : B) :
  Py.bind r k = Ok b -> exists a, r = Ok a /\ k a = Ok b.
Proof. destruct r as [a|e]; simpl; [eauto|discriminate]. Qed.

End LoopFacts.

(* ===================================================================== *)
(** * Gradient clipping: what [clamp_grad] and the clipping block guarantee *)
(* ===================================================================== *)

Module ClipProps.

Import Torch Snn TorchFacts KernelFacts ClipFacts.

Open Scope string_scope.
Open Scope list_scope.
Open Scope nat_scope.

(** The entries of [g] lie within plus or minus [|c|]. *)
Definition within (c : Q) (g : tensor) : Prop :=
  Forall (fun x => - Qabs c <= x /\ x <= Qabs c)%Q (data g).

Lemma clip_bounds_ordered (c : Q) : (- Qabs c <= Qabs c)%Q.
Proof.
  apply Qle_trans with 0%Q; [|apply Qabs_nonneg].
  rewrite <- (Qopp_involutive 0). apply Qopp_le_compat. apply Qabs_nonneg.
Qed.

Lemma clamp_fixes_inner (lo hi x : Q) :
  (lo <= x)%Q -> (x <= hi)%Q -> (Qmin (Qmax x lo) hi == x)%Q.
Proof.
  intros H1 H2. rewrite (Q.max_l x lo) by exact H1. apply Q.min_l. exact H2.
Qed.

(** X7. [clamp_grad] needs a gradient: without one it raises
    [TypeError]; with one it returns the parameter with the same value
    and a gradient of the same shape whose entries all lie within plus
    or minus [|grad_clip|], an entry that already did being kept. *)
Theorem clamp_grad_bounds (p : param) (c : Q) :
  match grad p with
  | None => exists msg, clamp_grad p c = Raise (TypeError msg)
  | Some g =>
      exists g',
        clamp_grad p c = Ok (mkParam (value p) (Some g')) /\
        shape g' = shape g /\
        within c g' /\
        Forall2 (fun x x' => (- Qabs c <= x /\ x <= Qabs c -> x' == x)%Q) (data g) (data g')
  end.
Proof.
  unfold clamp_grad. destruct (grad p) as [g|]; [|eexists; reflexivity].
  eexists. split; [reflexivity|]. split; [reflexivity|]. split.
  - apply clamp_in_range. apply clip_bounds_ordered.
  - unfold clamp, map_t. simpl. induction (data g) as [|x xs IH]; simpl; constructor.
    + intros [H1 H2]. now apply clamp_fixes_inner.
    + exact IH.
Qed.

(** X8. The sign of the clip value does not matter, and clamping a
    second time changes nothing: [clamp_grad] with [-c] is [clamp_grad]
    with [c], and on its own result it returns that result. *)
Theorem clamp_grad_sign_and_idempotence (p : param) (c : Q) :
  clamp_grad p (- c) = clamp_grad p c /\
  forall p', clamp_grad p c = Ok p' ->
    exists p'', clamp_grad p' c = Ok p'' /\ value p'' = value p' /\
      exists g' g'', grad p' = Some g' /\ grad p'' = Some g'' /\ shape g'' = shape g' /\
                     Forall2 Qeq (data g'') (data g').
Proof.
  split.
  - unfold clamp_grad.
    assert (E : Qabs (- c) = Qabs c).
    { destruct c as [n d]. unfold Qabs, Qopp. simpl. now rewrite Z.abs_opp. }
    now rewrite E.
  - intros p' H. unfold clamp_grad in *.
    destruct (grad p) as [g|]; [|discriminate]. injection H as <-. simpl.
    eexists. split; [reflexivity|]. split; [reflexivity|].
    do 2 eexists. split; [reflexivity|]. split; [reflexivity|]. split; [reflexivity|].
    unfold clamp, map_t. simpl. rewrite map_map.
    induction (data g) as [|x xs IH]; simpl; constructor; [|exact IH].
    apply clamp_fixes_inner.
    + apply Q.min_glb; [apply Q.le_max_r | apply clip_bounds_ordered].
    + apply Q.le_min_r.
Qed.

(** The clip value the single-model branch uses: the value itself, or
    the first entry of a list. *)
Definition first_clip (gc : entry Q) : option Q :=
  match gc with
  | One q => Some q
  | Many (q :: _) => Some q
  | Many [] => None
  end.

(** Entry [l] of the parameters once the block has visited it: a conv or
    fc module and its bias carry gradients within the clip value. *)
Definition clipped_at (q : Q) (a : arch) (l : nat) : Prop :=
  forall ly, nth_error (layers a) l = Some (One ly) ->
    is_conv2d_or_linear (One ly) = true ->
    (exists w g, layer_weight ly = Ok w /\ grad w = Some g /\ within q g) /\
    (exists b g, nth_error (state_v_bs a) l = Some (One (Some b)) /\
                 grad b = Some g /\ within q g).

Lemma clamp_grad_with_within (p p' : param) (q : Q) :
  clamp_grad_with p (One q) = Ok p' ->
  value p' = value p /\ exists g, grad p' = Some g /\ within q g.
Proof.
  simpl. unfold clamp_grad. destruct (grad p) as [g|]; [|discriminate].
  intro H. injection H as <-. split; [reflexivity|].
  eexists. split; [reflexivity|]. apply clamp_in_range. apply clip_bounds_ordered.
Qed.

Lemma layer_weight_with_weight (w w0 : param) (ly : layer) :
  layer_weight ly = Ok w0 ->
  layer_weight (with_weight w ly) = Ok w /\
  is_conv2d_or_linear (One (with_weight w ly)) = true.
Proof. destruct ly; simpl; try discriminate; auto. Qed.

Lemma nth_error_replace_at_eq {A : Type} (l : list A) (i : nat) (x y : A) :
  nth_error l i = Some y -> nth_error (replace_at i x l) i = Some x.
Proof.
  revert i. induction l as [|z l IH]; intros [|i] H; simpl in *; try discriminate; auto.
Qed.

Lemma nth_error_replace_at_neq {A : Type} (l : list A) (i j : nat) (x : A) :
  i <> j -> nth_error (replace_at i x l) j = nth_error l j.
Proof.
  revert i j. induction l as [|y l IH]; intros [|i] [|j] H; simpl; try reflexivity; try lia.
  apply IH. lia.
Qed.

(** One round of the single-model branch. *)
Lemma clip_layer_single (c : config) (gc gc' : entry Q) (a a' : arch) (l : nat)
    (layer : entry layer) (q : Q) :
  multi_model c = false ->
  first_clip gc = Some q ->
  nth_error (layers a) l = Some layer ->
  clip_layer c (gc, a) (l, layer) = Ok (gc', a') ->
  gc' = One q /\
  clipped_at q a' l /\
  (forall j, j <> l -> nth_error (layers a') j = nth_error (layers a) j /\
                       nth_error (state_v_bs a') j = nth_error (state_v_bs a) j).
Proof.
  intros Hm Hq Hl H. unfold clip_layer in H. rewrite Hm in H.
  assert (Hg : (match gc with
                | Many gl => (q0 <- item gl 0 ;; Ok (One q0))%py
                | One _ => Ok gc
                end) = Ok (One q)).
  { destruct gc as [q0|[|q0 gl]]; simpl in Hq; try discriminate;
      injection Hq as ->; reflexivity. }
  rewrite Hg in H. cbn [Py.bind] in H.
  destruct (is_conv2d_or_linear layer) eqn:En.
  - destruct layer as [ly|lys]; [|discriminate].
    apply LoopFacts.py_bind_ok in H. destruct H as (w0 & Hw0 & H).
    apply LoopFacts.py_bind_ok in H. destruct H as (w & Hw & H).
    cbv zeta in H.
    apply LoopFacts.py_bind_ok in H. destruct H as (bs & Hbs & H).
    destruct bs as [b|bl]; [|discriminate].
    apply LoopFacts.py_bind_ok in H. destruct H as (b' & Hb & H).
    injection H as <- <-.
    cbn [layers state_v_bs set_layers set_state_v_bs] in *.
    apply ForwardFacts.item_ok in Hbs.
    unfold clipped_at. cbn [layers state_v_bs set_layers set_state_v_bs].
    split; [reflexivity|]. split.
    + intros ly' Hly' _.
      rewrite (nth_error_replace_at_eq _ _ _ Hl) in Hly'. injection Hly' as <-.
      destruct (layer_weight_with_weight w ly Hw0) as [Hlw _].
      destruct (clamp_grad_with_within _ _ Hw) as [_ (g & Hgw & Hin)].
      split; [exists w, g; auto|].
      destruct b as [b|]; [|discriminate].
      simpl in Hb. apply LoopFacts.py_bind_ok in Hb. destruct Hb as (b1 & Hb1 & Hb).
      injection Hb as <-.
      destruct (clamp_grad_with_within _ _ Hb1) as [_ (gb & Hgb & Hinb)].
      exists b1, gb. split; [|auto].
      eapply nth_error_replace_at_eq. exact Hbs.
    + intros j Hj. rewrite !nth_error_replace_at_neq by congruence. auto.
  - injection H as <- <-. split; [reflexivity|]. split.
    + intros ly Hly Hn. rewrite Hl in Hly. injection Hly as ->. congruence.
    + auto.
Qed.

(** X9. On a single model the clipping block clamps every trainable
    gradient: when it returns, each conv or fc module and its bias carry
    a gradient whose entries lie within plus or minus [|clip|], where
    [clip] is [grad_clip] itself or, for a list, its first entry. *)
Theorem single_model_block_clips_all (self self' : net) (q : Q) :
  multi_model (cfg self) = false ->
  first_clip (grad_clip (cfg self)) = Some q ->
  clip_gradients self = Ok self' ->
  forall l, clipped_at q (net_arch self') l.
Proof.
  intros Hm Hq H. unfold clip_gradients in H.
  apply LoopFacts.py_bind_ok in H. destruct H as ([gc' a'] & Hloop & H).
  injection H as <-. cbn [net_arch set_net_arch snd].
  set (a0 := net_arch self) in *.
  pose (P := fun k (st : clip_state) =>
       first_clip (fst st) = Some q /\
       (forall l, l < k -> clipped_at q (snd st) l) /\
       (forall j, k <= j -> nth_error (layers (snd st)) j = nth_error (layers a0) j /\
                            nth_error (state_v_bs (snd st)) j = nth_error (state_v_bs a0) j)).
  assert (Hinv : P (List.length (layers a0)) (gc', a')).
  { revert Hloop. apply (@LoopFacts.for_each_enumerate_inv _ _ (clip_layer (cfg self)) P);
      unfold P.
    - simpl. split; [exact Hq|]. split; [intros l Hl; lia|auto].
    - intros k x [gc1 a1] [gc2 a2] Hx (Hq1 & Hdone & Hrest) Hstep. cbn [fst snd] in *.
      assert (Hk : nth_error (layers a1) k = Some x).
      { destruct (Hrest k (Nat.le_refl k)) as [-> _]. exact Hx. }
      destruct (@clip_layer_single _ _ _ _ _ _ _ _ Hm Hq1 Hk Hstep) as (-> & Hnew & Hother).
      split; [reflexivity|]. split.
      + intros l Hl. destruct (Nat.eq_dec l k) as [->|Hne]; [exact Hnew|].
        assert (Hlt : l < k) by lia.
        intros ly Hly Hn. destruct (Hother l Hne) as [E1 E2].
        rewrite E1 in Hly. destruct (Hdone l Hlt ly Hly Hn) as [Hw (b & g & Hb & Hg)].
        split; [exact Hw|]. exists b, g. rewrite E2. auto.
      + intros j Hj. destruct (Hother j) as [E1 E2]; [lia|].
        rewrite E1, E2. apply Hrest. lia. }
  unfold P in Hinv. simpl in Hinv.
  destruct Hinv as (_ & Hdone & Hrest).
  intros l. destruct (Nat.lt_ge_cases l (List.length (layers a0))) as [Hl|Hl].
  - now apply Hdone.
  - intros ly Hly _. destruct (Hrest l Hl) as [E _]. rewrite E in Hly.
    apply nth_error_None in Hl. congruence.
Qed.

Definition single_clip_net : net :=
  mkNet (mkConfig false 1 ["1"; "fc1"] "count" 2 (1 # 2) (1 # 2) 1 false 1 1 1
           (Many [1; 2]%Q))
        (mkKernels None None None None None)
        (mkArch 1 [One (Linear (with_grad 1 5))]
           [One (Some (mkParam (mkT [1] [0%Q]) (Some (mkT [1] [- (7)]%Q))))]
           [[1%Z]] ["fc"])
        empty_trace (mkLoss None None None None).

Definition single_clip_result : result net := Eval vm_compute in clip_gradients single_clip_net.

(** The theorem on one fully connected layer with gradients 5 and -7
    and the clip values [1, 2]: the first is used. *)
Lemma single_model_block_clips_all_witness :
  exists self', single_clip_result = Ok self' /\ forall l, clipped_at 1 (net_arch self') l.
Proof.
  unfold single_clip_result. eexists. split; [reflexivity|].
  apply (@single_model_block_clips_all single_clip_net); reflexivity.
Defined.

(** One round of the multi-model branch leaves the parameters alone. *)
Lemma clip_model_keeps (c : config) (l : nat) (layer : entry layer) (st st' : clip_state)
    (m : nat) :
  clip_model c l layer st m = Ok st' -> snd st' = snd st.
Proof.
  destruct st as [gc a]. unfold clip_model. intro H.
  apply LoopFacts.py_bind_ok in H. destruct H as (gc1 & _ & H).
  destruct (is_conv2d_or_linear layer) eqn:E.
  - destruct layer as [ly|lys]; [|destruct lys; discriminate].
    simpl in H. discriminate.
  - now injection H as <-.
Qed.

(** X10. On a multi-model the clipping block clamps nothing: whenever
    it returns, the network is the one it was given. (A conv or fc
    module is recognised by [is_conv2d_or_linear], which the block
    applies to the list of replicas.) *)
Theorem multi_model_block_changes_nothing (self self' : net) :
  multi_model (cfg self) = true ->
  clip_gradients self = Ok self' ->
  self' = self.
Proof.
  intros Hm H. unfold clip_gradients in H.
  apply LoopFacts.py_bind_ok in H. destruct H as (st & Hloop & H).
  injection H as <-.
  assert (Hs : snd st = net_arch self).
  { revert Hloop.
    apply (@LoopFacts.for_each_inv _ _ (clip_layer (cfg self))
             (fun st : clip_state => snd st = net_arch self)); [reflexivity|].
    intros [l layer] st1 st2 _ H1 Hstep. unfold clip_layer in Hstep. rewrite Hm in Hstep.
    apply LoopFacts.py_bind_ok in Hstep. destruct Hstep as ([] & _ & Hstep).
    rewrite <- H1. revert Hstep.
    apply (@LoopFacts.for_each_inv _ _ (clip_model (cfg self) l layer)
             (fun s : clip_state => snd s = snd st1)); [reflexivity|].
    intros m s1 s2 _ Hs1 Hc. apply clip_model_keeps in Hc. congruence. }
  rewrite Hs. destruct self; reflexivity.
Qed.

(** The theorem on two replicas whose gradients exceed both clip
    values. *)
Lemma multi_model_block_changes_nothing_witness :
  exists self', clip_gradients clip_net = Ok self' /\ self' = clip_net.
Proof.
  exists clip_net. split; [reflexivity|].
  apply multi_model_block_changes_nothing; reflexivity.
Defined.

(** X11. On a multi-model with at least one layer a list of clip values
    whose length does not divide the number of replicas is rejected with
    [ValueError] at the first layer; an empty list ends in
    [ZeroDivisionError]. *)
Theorem clip_list_length_must_divide (self : net) (gl : list Q) :
  multi_model (cfg self) = true ->
  grad_clip (cfg self) = Many gl ->
  layers (net_arch self) <> [] ->
  (num_models (cfg self) mod Z.of_nat (List.length gl) <> 0)%Z \/ gl = [] ->
  clip_gradients self =
  Raise (if (Z.of_nat (List.length gl) =? 0)%Z then ZeroDivisionError
         else ValueError "len(grad_clip) must be a factor of self.num_models").
Proof.
  intros Hm Hg Hl Hd. unfold clip_gradients.
  destruct (layers (net_arch self)) as [|ly rest]; [contradiction|].
  cbn [enumerate List.length seq combine for_each clip_layer].
  rewrite Hm, Hg. cbn [fst].
  destruct (Z.eqb_spec (Z.of_nat (List.length gl)) 0) as [E|E]; [reflexivity|].
  destruct Hd as [Hd | ->]; [|simpl in E; contradiction].
  destruct (Z.eqb_spec (num_models (cfg self) mod Z.of_nat (List.length gl)) 0) as [E'|E'];
    [contradiction|].
  reflexivity.
Qed.

(** Two replicas and three clip values. *)
Lemma clip_list_length_must_divide_witness :
  clip_gradients (set_cfg (mkConfig true 2 ["1"; "fc1"] "count" 2 (1 # 2) (1 # 2) 1
                             false 1 1 1 (Many [1; 2; 3]%Q)) clip_net)
  = Raise (ValueError "len(grad_clip) must be a factor of self.num_models").
Proof.
  apply (@clip_list_length_must_divide
           (set_cfg (mkConfig true 2 ["1"; "fc1"] "count" 2 (1 # 2) (1 # 2) 1
                       false 1 1 1 (Many [1; 2; 3]%Q)) clip_net) [1; 2; 3]%Q).
  - reflexivity.
  - reflexivity.
  - discriminate.
  - left. discriminate.
Defined.

End ClipProps.

(* ===================================================================== *)
(** * The forward pass: edge cases and what a returning pass guarantees *)
(* ===================================================================== *)

Module ForwardProps.

Import Torch Snn TorchFacts KernelFacts GradFacts ForwardFacts.

Open Scope string_scope.
Open Scope list_scope.
Open Scope nat_scope.

(** The state the loop over time starts from. *)
Lemma forward_inv (input : tensor) (s s' : net) (out : tensor) :
  forward input s = (s', Ok out) ->
  exists s1 s2 s3 s4 last_t,
    init_input input s = (s1, Ok tt) /\
    init_traces s1 = (s2, Ok tt) /\
    merge_parameters s2 = (s3, Ok tt) /\
    time_loop input (seq 0 (time_length (cfg s))) None s3 = (s4, Ok last_t) /\
    finish last_t s4 = (s', Ok out) /\
    cfg s3 = cfg s /\
    map forget_indices (layers (net_arch s3)) = map forget_indices (layers (net_arch s)) /\
    state_v_bs (net_arch s3) = state_v_bs (net_arch s).
Proof.
  intro H. unfold forward in H.
  apply mbind_ok in H. destruct H as (s1 & [] & H1 & H).
  apply mbind_ok in H. destruct H as (s2 & [] & H2 & H).
  apply mbind_ok in H. destruct H as (s3 & [] & H3 & H).
  apply mbind_ok in H. destruct H as (s3' & T & HT & H). mprim HT. injection HT as <-.
  apply mbind_ok in H. destruct H as (s4 & last_t & Hloop & H).
  pose proof (@init_input_keeps_model input _ _ _ H1) as [C1 A1].
  pose proof (@init_traces_ok _ _ H2) as (C2 & _ & Ly2 & B2 & _).
  pose proof (@merge_parameters_keeps_traces _ _ _ H3) as (C3 & A3 & _).
  assert (HC : cfg s3 = cfg s) by congruence.
  rewrite HC in Hloop.
  exists s1, s2, s3, s4, last_t. repeat split; try assumption; congruence.
Qed.

(** X12. With a time horizon of 0 the forward pass never returns: the
    loop over time does not bind [t], and [self.term_length = t + 1]
    fails. *)
Theorem forward_needs_a_time_step (input : tensor) (s s' : net) (out : tensor) :
  time_length (cfg s) = 0 -> forward input s <> (s', Ok out).
Proof.
  intros HT H. apply forward_inv in H.
  destruct H as (s1 & s2 & s3 & s4 & last_t & _ & _ & _ & Hloop & Hfin & _).
  rewrite HT in Hloop. simpl in Hloop. apply ret_ok in Hloop. destruct Hloop as [-> ->].
  apply finish_ok in Hfin. destruct Hfin as (t & Ht & _). discriminate.
Qed.

Definition no_step_net : net :=
  set_cfg (mkConfig true 2 ["1"; "fc1"] "count" 0 (1 # 2) (1 # 2) 1 false 1 1 (1 # 2) (One 1%Q))
          (two_models "count").

(** On two replicas with [time_length = 0] the exception is
    [UnboundLocalError] for [t]. *)
Lemma forward_needs_a_time_step_witness :
  snd (forward (mkT [2; 1; 0; 1] []) no_step_net) = Raise (UnboundLocalError "t") /\
  forall s' out, forward (mkT [2; 1; 0; 1] []) no_step_net <> (s', Ok out).
Proof.
  split; [vm_compute; reflexivity|].
  intros s' out. apply forward_needs_a_time_step. reflexivity.
Defined.

Lemma time_step_keeps_cfg (input : tensor) (t : nat) (s s1 : net) (b : bool) :
  target_type (cfg s) <> "latency" ->
  time_step input t s = (s1, Ok b) -> cfg s1 = cfg s /\ b = false.
Proof.
  intros Hl H. unfold time_step in H.
  apply mbind_ok in H. destruct H as (s0 & ls & Hls & H). mprim Hls. injection Hls as <-.
  apply mbind_ok in H. destruct H as (sm & [] & Hloop & H).
  apply layer_loop_spikes in Hloop. destruct Hloop as (C & _).
  apply early_stop_other in H; [|congruence]. destruct H as [-> ->]. auto.
Qed.

(** X13. Under the count and train rules (any target type but latency)
    there is no early stop: a forward pass that returns has run exactly
    [time_length] steps. *)
Theorem forward_runs_all_steps (input : tensor) (s s' : net) (out : tensor) :
  target_type (cfg s) <> "latency" ->
  forward input s = (s', Ok out) ->
  0 < time_length (cfg s) /\ term_length (tr s') = Some (time_length (cfg s)).
Proof.
  intros Hl H. apply forward_inv in H.
  destruct H as (s1 & s2 & s3 & s4 & last_t & _ & _ & _ & Hloop & Hfin & HC & _).
  apply finish_ok in Hfin. destruct Hfin as (t & -> & K).
  destruct (@time_loop_inv input (fun _ s0 => cfg s0 = cfg s)
              (fun _ b s0 => cfg s0 = cfg s /\ b = false))
    with (n := time_length (cfg s)) (t0 := 0) (last := @None nat) (s := s3) (s' := s4)
         (r := Some t)
    as [(_ & E & _)|(t' & b & E & Ht & [_ Hb] & Hlast)].
  - intros t0 sa sb b HQ Hstep.
    apply time_step_keeps_cfg in Hstep; [|congruence]. destruct Hstep as [C ->].
    split; [congruence|reflexivity].
  - intros t0 sa [HQ _]. exact HQ.
  - exact HC.
  - exact Hloop.
  - discriminate.
  - injection E as <-. specialize (Hlast Hb).
    destruct K as (_ & _ & _ & _ & _ & _ & _ & T5). rewrite T5. simpl.
    split; [lia|]. f_equal. lia.
Qed.

Lemma forward_runs_all_steps_witness :
  0 < time_length (cfg (two_models "count")) /\
  term_length (tr (fst count_run)) = Some (time_length (cfg (two_models "count"))).
Proof.
  apply (@forward_runs_all_steps two_trains (two_models "count") (fst count_run)
           (out_of count_run)).
  - discriminate.
  - vm_compute. reflexivity.
Defined.

(** X14. A forward pass of a multi-model that returns leaves the
    parameters alone: the modules (up to the index lists of the max-pool
    modules) and the bias parameters are those it started with. *)
Theorem multi_model_forward_is_read_only (input : tensor) (s s' : net) (out : tensor) :
  multi_model (cfg s) = true ->
  forward input s = (s', Ok out) ->
  cfg s' = cfg s /\
  map forget_indices (layers (net_arch s')) = map forget_indices (layers (net_arch s)) /\
  state_v_bs (net_arch s') = state_v_bs (net_arch s).
Proof.
  intros Hm H. destruct (@forward_multi _ _ _ _ Hm H) as (t & _ & _ & C & Ly & B & _).
  auto.
Qed.

Lemma multi_model_forward_is_read_only_witness :
  cfg (fst count_run) = cfg (two_models "count") /\
  map forget_indices (layers (net_arch (fst count_run))) =
  map forget_indices (layers (net_arch (two_models "count"))) /\
  state_v_bs (net_arch (fst count_run)) = state_v_bs (net_arch (two_models "count")).
Proof.
  apply (@multi_model_forward_is_read_only two_trains (two_models "count") (fst count_run)
           (out_of count_run)).
  - reflexivity.
  - vm_compute. reflexivity.
Defined.

Lemma step_current_keeps_model input t l ly :
  preserves keeps_model (step_current input t l ly).
Proof.
  unfold step_current, read_i, read_s, append_i, set_last_i.
  repeat first
    [ apply preserves_ret; apply keeps_model_refl
    | apply preserves_lift; apply keeps_model_refl
    | apply preserves_reading; apply keeps_model_refl
    | apply preserves_mbind; [apply keeps_model_trans | | intros]
    | apply preserves_set_tr_with; [apply keeps_model_refl | intros; split; reflexivity]
    | progress cbv beta zeta
    | match goal with
      | |- preserves _ (if ?c then _ else _) => destruct c
      end ].
Qed.

(** X15. A single model whose first layer is a conv or fc layer with a
    bias vector has no forward pass that returns: the update of the
    potential binds [state_v] to the bias parameter, whose rank is below
    that of the current added to it in place. *)
Theorem single_model_forward_never_returns (input : tensor) (s s' : net) (out : tensor)
    (ly : layer) (rest : list (entry layer)) :
  multi_model (cfg s) = false ->
  layers (net_arch s) = One ly :: rest ->
  is_conv2d_or_linear (One ly) = true ->
  (forall p, nth_error (state_v_bs (net_arch s)) 0 = Some (One (Some p)) ->
             rank (value p) <= 1) ->
  forward input s <> (s', Ok out).
Proof.
  intros Hm Hly Hn Hb H.
  apply forward_inv in H.
  destruct H as (s1 & s2 & s3 & s4 & last_t & _ & _ & _ & Hloop & Hfin & HC & HL & HB).
  destruct (time_length (cfg s)) as [|n].
  { simpl in Hloop. apply ret_ok in Hloop. destruct Hloop as [-> ->].
    apply finish_ok in Hfin. destruct Hfin as (t & Ht & _). discriminate. }
  clear Hfin. simpl in Hloop.
  apply mbind_ok in Hloop. destruct Hloop as (s0 & ls & Hls & Hloop).
  mprim Hls. injection Hls as <-.
  apply mbind_ok in Hloop. destruct Hloop as (sm & [] & Hfor & _).
  rewrite Hly in HL.
  destruct (layers (net_arch s3)) as [|e3 rest3]; [discriminate|].
  simpl in HL. injection HL as He3 _.
  assert (e3 = One ly).
  { destruct ly; try discriminate Hn; destruct e3 as [[]|[|[] ?]]; simpl in He3; congruence. }
  subst e3.
  unfold enumerate in Hfor. simpl in Hfor.
  apply mbind_ok in Hfor. destruct Hfor as (sa & [] & Hstep & _).
  unfold layer_step in Hstep.
  apply mbind_ok in Hstep. destruct Hstep as (s0 & layer & Hp & Hstep). mprim Hp.
  unfold pick_layer in Hp. rewrite HC, Hm in Hp. injection Hp as <-.
  rewrite Hn in Hstep.
  apply mbind_ok in Hstep. destruct Hstep as (sc & [] & Hcur & Hvolt).
  apply step_current_keeps_model in Hcur. destruct Hcur as [Cc Ac].
  revert Hvolt. apply single_model_potential_never_returns.
  - congruence.
  - intros p Hp. apply Hb. congruence.
Qed.

(** On the single fc layer of [one_model] the pass ends in the
    [RuntimeError] of the addition in place. *)
Lemma single_model_forward_never_returns_witness :
  snd (forward one_train one_model) =
  Raise (RuntimeError "output with shape doesn't match the broadcast shape") /\
  forall s' out, forward one_train one_model <> (s', Ok out).
Proof.
  split; [vm_compute; reflexivity|].
  intros s' out.
  apply (@single_model_forward_never_returns one_train one_model s' out
           (Linear (prm [1; 1] [1%Q])) []).
  - reflexivity.
  - reflexivity.
  - reflexivity.
  - intros p Hp. injection Hp as <-. unfold rank. simpl. lia.
Defined.

(** X16. A multi-model asserts that the leading dimension of the input
    is the number of models: otherwise the forward pass raises
    [AssertionError] before any attribute is written. *)
Theorem forward_checks_model_dimension (input : tensor) (s : net) (n0 : nat) (dims : list nat) :
  multi_model (cfg s) = true ->
  shape input = n0 :: dims ->
  num_models (cfg s) <> Z.of_nat n0 ->
  forward input s = (s, Raise AssertionError).
Proof.
  intros Hm Hs Hn. unfold forward.
  apply mbind_raise. unfold init_input.
  rewrite (@mbind_run _ _ (reading (fun s0 => Ok s0)) _ s s s) by reflexivity.
  cbv zeta. rewrite Hm.
  apply mbind_raise. rewrite Hs. simpl.
  rewrite (@mbind_run _ _ (lift (Ok n0)) _ s s n0) by reflexivity.
  apply mbind_raise.
  destruct (Z.eqb_spec (num_models (cfg s)) (Z.of_nat n0)) as [E|_]; [contradiction|].
  reflexivity.
Qed.

Lemma forward_checks_model_dimension_witness :
  forward (mkT [3; 1; 3; 1] [1; 0; 1; 1; 1; 0; 0; 0; 0]%Q) (two_models "count") =
  (two_models "count", Raise AssertionError).
Proof.
  apply (@forward_checks_model_dimension _ (two_models "count") 3 [1; 3; 1]).
  - reflexivity.
  - reflexivity.
  - discriminate.
Defined.

(** ** The output of a multi-model is a spike train *)

(** Every entry is 0 or 1. *)
Definition binary (t : tensor) : Prop :=
  Forall (fun x => x = 0%Q \/ x = 1%Q) (data t).

Lemma ge_float_binary (q : Q) (t : tensor) : binary (ge_float q t).
Proof.
  unfold binary, ge_float, map_t. simpl. apply Forall_map, Forall_forall.
  intros x _. destruct (Qle_bool q x); auto.
Qed.

Lemma get_binary (t : tensor) (idx : list nat) :
  binary t -> get t idx = 0%Q \/ get t idx = 1%Q.
Proof.
  intro H. unfold get.
  destruct (nth_in_or_default (offset (shape t) idx) (data t) 0%Q) as [Hin | ->]; [|auto].
  unfold binary in H. rewrite Forall_forall in H. apply H, Hin.
Qed.

Lemma build_binary (s : list nat) (f : list nat -> Q) :
  (forall idx, f idx = 0%Q \/ f idx = 1%Q) -> binary (build s f).
Proof.
  intro H. unfold binary, build. simpl. apply Forall_map, Forall_forall. intros idx _. apply H.
Qed.

Lemma permute_binary (dims : list nat) (t r : tensor) :
  permute dims t = Ok r -> binary t -> binary r.
Proof.
  unfold permute. destruct (is_permutation dims (rank t)); [|discriminate].
  intros H Hb. injection H as <-. apply build_binary. intro idx. now apply get_binary.
Qed.

Lemma stack_binary (ts : list tensor) (r : tensor) :
  stack ts = Ok r -> Forall binary ts -> binary r.
Proof.
  unfold stack. destruct ts as [|t0 ts']; [discriminate|].
  destruct (forallb _ _); [|discriminate].
  intros H Hb. injection H as <-. unfold binary. simpl.
  change (Forall (fun x => x = 0%Q \/ x = 1%Q) (flat_map data (t0 :: ts'))).
  induction Hb as [|t l Ht _ IH]; simpl; [constructor|].
  apply Forall_app. split; assumption.
Qed.

(** The value [forward] returns is read off the spike row of the last
    layer. *)
Definition rows_inv (t : nat) (s0 s : net) : Prop :=
  multi_inv t 0 s0 s /\
  List.length (state_s (tr s)) = List.length (layers (net_arch s0)).

Lemma time_step_rows_inv (input : tensor) (t : nat) (s0 s s1 : net) (b : bool) :
  multi_model (cfg s0) = true ->
  rows_inv t s0 s -> time_step input t s = (s1, Ok b) -> rows_inv (S t) s0 s1.
Proof.
  intros Hm [Hinv Hlen] H. split.
  - eapply time_step_rows; eassumption.
  - unfold time_step in H.
    apply mbind_ok in H. destruct H as (s2 & ls & Hls & H). mprim Hls. injection Hls as <-.
    apply mbind_ok in H. destruct H as (sm & [] & Hloop & H).
    apply layer_loop_spikes in Hloop. destruct Hloop as (_ & _ & _ & Len & _).
    destruct (String.eqb_spec (target_type (cfg sm)) "latency") as [E|E].
    + apply early_stop_ok in H; [|exact E].
      destruct H as (cum & row & s_out & cum' & _ & _ & _ & _ & -> & _).
      simpl. congruence.
    + apply early_stop_other in H; [|exact E]. destruct H as [-> _]. congruence.
Qed.

(** X17. The output of a multi-model whose last layer is a conv or fc
    layer is a spike train: every entry of the tensor a returning forward
    pass hands back is 0 or 1. *)
Theorem multi_model_output_is_binary (input : tensor) (s s' : net) (out : tensor)
    (e : entry layer) :
  multi_model (cfg s) = true ->
  last_item (layers (net_arch s)) = Ok e ->
  neuron_entry e = true ->
  forward input s = (s', Ok out) ->
  binary out.
Proof.
  intros Hm He Hne H. unfold forward in H.
  apply mbind_ok in H. destruct H as (s1 & [] & H1 & H).
  apply mbind_ok in H. destruct H as (s2 & [] & H2 & H).
  apply mbind_ok in H. destruct H as (s3 & [] & H3 & H).
  apply mbind_ok in H. destruct H as (s3' & T & HT & H). mprim HT. injection HT as <-.
  apply mbind_ok in H. destruct H as (s4 & last_t & Hloop & H).
  apply init_input_keeps_model in H1. destruct H1 as [C1 A1].
  apply init_traces_ok in H2.
  destruct H2 as (C2 & Len2 & Ly2 & B2 & _ & Si2 & Sv2 & Svp2 & Ss2).
  apply merge_parameters_keeps_traces in H3.
  destruct H3 as (C3 & A3 & Si3 & Sv3 & Svp3 & Ss3 & _ & _).
  assert (HQ : rows_inv 0 s s3).
  { split.
    - split; [congruence|]. split; [congruence|]. split; [congruence|].
      intros l e' He' _. simpl.
      exists [], [], [], [].
      rewrite Si3, Sv3, Svp3, Ss3, Si2, Sv2, Svp2, Ss2, A1.
      rewrite !nth_error_map, He'. simpl.
      repeat split; try reflexivity; [constructor|]. intros t Ht. lia.
    - rewrite Ss3, Ss2, A1. apply length_map. }
  destruct (finish_output _ _ H) as (row & st & Hrow & Hst & Hout).
  apply finish_ok in H. destruct H as (t & -> & _).
  destruct (@time_loop_inv input (fun t s1 => rows_inv t s s1)
              (fun t (_ : bool) s1 => rows_inv (S t) s s1)
              (fun t s1 s2 b => @time_step_rows_inv input t s s1 s2 b Hm)
              (fun t s1 H => H)
              _ _ _ _ _ _ HQ Hloop)
    as [(_ & E & _)|(t' & b & E & _ & [(_ & _ & _ & Rows) Hlen] & _)]; [discriminate|].
  injection E as <-.
  apply last_item_nth in He. destruct He as [_ He].
  apply last_item_nth in Hrow. destruct Hrow as [_ Hrow]. rewrite Hlen in Hrow.
  destruct (Rows _ _ He Hne) as (ri & rv & rvp & rs & _ & _ & _ & Hrs & _ & _ & _ & Ls & _ & Rule).
  simpl in Ls, Rule.
  assert (rs = row) by congruence. subst rs.
  eapply permute_binary; [exact Hout|].
  eapply stack_binary; [exact Hst|].
  apply Forall_forall. intros x Hx.
  apply In_nth_error in Hx. destruct Hx as (k & Hk).
  assert (Hlt : k < S t). { rewrite <- Ls. apply nth_error_Some. congruence. }
  destruct (Rule k Hlt) as (v & vp & _ & _ & Hs & _).
  assert (x = ge_float 1 v) by congruence. subst x. apply ge_float_binary.
Qed.

Lemma multi_model_output_is_binary_witness : binary (out_of count_run).
Proof.
  apply (@multi_model_output_is_binary two_trains (two_models "count") (fst count_run)
           (out_of count_run) (Many [Linear (prm [1; 1] [1%Q]); Linear (prm [1; 1] [2%Q])])).
  - reflexivity.
  - reflexivity.
  - reflexivity.
  - vm_compute. reflexivity.
Defined.

(** ** The recurrences of a multi-model, over a whole pass *)




















End ForwardProps.

(* ===================================================================== *)
(** * The backward pass: model *)
(* ===================================================================== *)

Module Backward.

Import Torch Snn.

Open Scope string_scope.
Open Scope list_scope.
Open Scope nat_scope.

(** ** Attributes *)

(** The per-layer gradient traces of [_init_backward]. The lists that a
    learning rule does not use hold Python's [None]. *)
Record state_grads : Type := mkStateGrads {
  state_i_grad : list (option tensor);
  state_v_grad : list (option tensor);
  state_s_grad : option (list tensor);
  state_v_dep_grad : option (list (option tensor));
  state_t_grad : option (list tensor);
  state_v_grad_epr_ef1 : option (list (option tensor));
  state_v_grad_epr_ef2 : option (list (option tensor))
}.

(** The attributes of the backward pass; [None] while [weight_grad],
    [bias_grad], [dLdS], [dLdT] or [dLdT_raw] is not set. [lrule] comes
    with the configuration. *)
Record grads : Type := mkGrads {
  lrule : string;
  weight_grad : option (list (option tensor));
  bias_grad : option (list (option tensor));
  sg : state_grads;
  dLdS : option tensor;
  dLdT : option tensor;
  dLdT_raw : option tensor
}.

Definition set_param_grads (w b : list (option tensor)) (r : grads) : grads :=
  mkGrads (lrule r) (Some w) (Some b) (sg r) (dLdS r) (dLdT r) (dLdT_raw r).
Definition set_sg (v : state_grads) (r : grads) : grads :=
  mkGrads (lrule r) (weight_grad r) (bias_grad r) v (dLdS r) (dLdT r) (dLdT_raw r).
Definition set_dLdS (v : option tensor) (r : grads) : grads :=
  mkGrads (lrule r) (weight_grad r) (bias_grad r) (sg r) v (dLdT r) (dLdT_raw r).
Definition set_dLdT (v raw : option tensor) (r : grads) : grads :=
  mkGrads (lrule r) (weight_grad r) (bias_grad r) (sg r) (dLdS r) v raw.

(** ** Tensor helpers *)

(** [torch.zeros] on a list of integer dimensions. *)
Definition zeros_z (dims : list Z) : result tensor :=
  if existsb (fun d => (d <? 0)%Z) dims
  then Raise (RuntimeError "Trying to create tensor with negative dimension")
  else Ok (zeros (map Z.to_nat dims)).

(** [layer.weight.size()] *)
Definition weight_size (layer : entry layer) : result (list Z) :=
  match layer with
  | One ly => (w <- layer_weight ly ;; Ok (zshape (value w)))%py
  | Many _ => Raise (AttributeError "weight")
  end.

(** [t.repeat] with the repetitions [reps] *)
Definition repeat (reps : list nat) (t : tensor) : result tensor :=
  if List.length reps <? rank t
  then Raise (RuntimeError
         "Number of dimensions of repeat dims can not be smaller than number of dimensions of tensor")
  else
    let padded := List.repeat 1 (List.length reps - rank t) ++ shape t in
    let src := mkT padded (data t) in
    Ok (build (map (fun p => fst p * snd p) (combine padded reps))
          (fun idx => get src (map (fun p => snd p mod fst p) (combine padded idx)))).

(** [a / b] on numbers. *)
Definition true_div (a : Q) (b : nat) : result Q :=
  if b =? 0 then Raise ZeroDivisionError else Ok (a / inject_Z (Z.of_nat b))%Q.

(** The bound of a slice of a dimension of size [n]. *)
Definition clip_index (n : nat) (i : Z) : nat :=
  if (i <? 0)%Z then Z.to_nat (Z.max 0 (Z.of_nat n + i)) else Nat.min n (Z.to_nat i).

(** [t[:, start:stop, :]] *)
Definition slice_mid (start stop : Z) (t : tensor) : result tensor :=
  if rank t <? 3 then Raise IndexError
  else
    let n := nth 1 (shape t) 0 in
    let a := clip_index n start in
    let b := clip_index n stop in
    Ok (build (replace_at 1 (b - a) (shape t))
          (fun idx => get t (replace_at 1 (nth 1 idx 0 + a) idx))).

(** [t[:, -1, :]] *)
Definition last_mid (t : tensor) : result tensor :=
  if rank t <? 3 then Raise IndexError else select_last 1 t.

(** ** [_init_param_grads] (lines 348-377) *)

(** The body of the loop: one entry is appended to each list. *)
Definition init_param_grads_layer (self : net)
    (st : list (option tensor) * list (option tensor)) (l_layers : nat * entry layer)
  : result (list (option tensor) * list (option tensor)) :=
  let (l, layers) := l_layers in
  let (weight_grad, bias_grad) := st in
  (layer <- pick_layer self layers ;;
   ty <- item (fmap_type_list (net_arch self)) l ;;
   if in_list ty ["fc"; "conv"] then
     (ws <- weight_size layer ;;
      fs <- item (fmap_shape_list (net_arch self)) l ;;
      let wshape := if multi_model (cfg self) then num_models (cfg self) :: ws else ws in
      let bshape := if multi_model (cfg self) then num_models (cfg self) :: fs else fs in
      zeros_w <- zeros_z wshape ;;
      zeros_b <- zeros_z bshape ;;
      Ok (weight_grad ++ [Some zeros_w], bias_grad ++ [Some zeros_b]))
   else Ok (weight_grad ++ [None], bias_grad ++ [None]))%py.

Definition _init_param_grads (self : net) (g : grads) : result grads :=
  (st <- for_each (enumerate (layers (net_arch self))) (init_param_grads_layer self) ([], []) ;;
   Ok (set_param_grads (fst st) (snd st) g))%py.

(** ** [_init_backward] (lines 885-948) *)

(** [if xs is not None: xs.append(x)] *)
Definition push {A : Type} (x : A) (xs : option (list A)) : option (list A) :=
  option_map (fun l => l ++ [x]) xs.

(** The body of [for l in range(self.num_layer)]. *)
Definition init_backward_layer (self : net) (g : state_grads) (l : nat) : result state_grads :=
  (term <- attr "term_length" (term_length (tr self)) ;;
   bs <- attr "batch_size" (batch_size (ls self)) ;;
   fs <- item (fmap_shape_list (net_arch self)) l ;;
   zeros <- zeros_z (Z.of_nat term :: Z.of_nat bs :: fs) ;;
   ty <- item (fmap_type_list (net_arch self)) l ;;
   let cell := if in_list ty ["conv"; "fc"] then Some zeros else None in
   Ok (mkStateGrads (state_i_grad g ++ [cell]) (state_v_grad g ++ [cell])
         (push zeros (state_s_grad g)) (push cell (state_v_dep_grad g))
         (push zeros (state_t_grad g))
         (push cell (state_v_grad_epr_ef1 g)) (push cell (state_v_grad_epr_ef2 g))))%py.

(** The lists before the loop. *)
Definition fresh_state_grads (rule : string) : state_grads :=
  let when (b : bool) {A : Type} : option (list A) := if b then Some [] else None in
  let timing := in_list rule ["Timing"; "ANTLR"] in
  mkStateGrads [] []
    (when (negb (String.eqb rule "Timing")))
    (when (negb (String.eqb rule "RNN")))
    (when timing) (when timing) (when timing).

Definition _init_backward (self : net) (g : grads) : result grads :=
  (s <- for_each (range (num_layer (net_arch self))) (init_backward_layer self)
         (fresh_state_grads (lrule g)) ;;
   Ok (set_sg s g))%py.

(** ** [calc_and_set_dLdS] (lines 950-983) *)

(** The latency branch evaluates [torch.zeros(..)] and then the
    arguments of [scatter_]; [target] is not a name of this method nor
    of the module. In the count branch the slice [diff[:, -1, :]] of the
    permuted convolution output that [_mse] stores keeps strides that
    merge, so [view] acts on it as [reshape] does. *)
Definition calc_and_set_dLdS (self : net) (g : grads) : result grads :=
  let c := cfg self in
  if String.eqb (target_type c) "latency" then
    (bs <- attr "batch_size" (batch_size (ls self)) ;;
     fs <- last_item (fmap_shape_list (net_arch self)) ;;
     z <- zeros_z (Z.of_nat bs :: fs) ;;
     Raise (NameError "target"))%py
  else
    (local <- (if String.eqb (target_type c) "train" then
                 (d <- attr "diff" (diff (ls self)) ;;
                  r <- apply_alpha_kernel self d false false false ;;
                  Ok (Some r))
               else if String.eqb (target_type c) "count" then
                 (d <- attr "diff" (diff (ls self)) ;;
                  last <- last_mid d ;;
                  bs <- attr "batch_size" (batch_size (ls self)) ;;
                  v <- reshape [Z.of_nat bs; 1; -1]%Z last ;;
                  r <- repeat [1; time_length c; 1] v ;;
                  Ok (Some r))
               else Ok None) ;;
     dLdS <- read_local "dLdS" local ;;
     bs <- attr "batch_size" (batch_size (ls self)) ;;
     q <- true_div 2 (time_length c * bs) ;;
     let dLdS := scale q dLdS in
     let dLdS := if multi_model c then scale (inject_Z (num_models c)) dLdS else dLdS in
     p <- permute [1; 0; 2] dLdS ;;
     Ok (set_dLdS (Some p) g))%py.

(** ** [calc_and_set_dLdT] (lines 985-1025) *)

Section Timing.

(** The latency branch (lines 989-1003) scatters the gradient the
    numeric library left on the softmax input; it is a parameter here. *)
Variable latency_dLdT : net -> grads -> result grads.

Definition calc_and_set_dLdT (self : net) (g : grads) : result grads :=
  let c := cfg self in
  if String.eqb (target_type c) "latency" then latency_dLdT self g
  else
    (local <- (if String.eqb (target_type c) "train" then
                 (d <- attr "diff" (diff (ls self)) ;;
                  r <- apply_alpha_kernel self d true false true ;;
                  k <- attr "alpha_kernel_prime" (alpha_kernel_prime (kern self)) ;;
                  let idx1 := (Z.of_nat (numel k) - 2)%Z in
                  let idx2 := (idx1 + Z.of_nat (time_length c))%Z in
                  r <- slice_mid idx1 idx2 r ;;
                  bs <- attr "batch_size" (batch_size (ls self)) ;;
                  q <- true_div (-2) (time_length c * bs) ;;
                  Ok (Some (scale q r)))
               else if String.eqb (target_type c) "count" then
                 (out <- attr "output" (output (tr self)) ;;
                  Ok (Some (zeros (shape out))))
               else Ok None) ;;
     local <- (if multi_model c
               then (r <- read_local "dLdT_raw" local ;;
                     Ok (Some (scale (inject_Z (num_models c)) r)))
               else Ok local) ;;
     out <- attr "output" (output (tr self)) ;;
     dLdT_raw <- read_local "dLdT_raw" local ;;
     dLdT <- mul out dLdT_raw ;;
     raw <- permute [1; 0; 2] dLdT_raw ;;
     p <- permute [1; 0; 2] dLdT ;;
     Ok (set_dLdT (Some p) (Some raw) g))%py.

End Timing.

(** ** [gradAdd] (lines 1137-1193) *)

(** [x * scale] *)
Definition times (x : option tensor) (sc : Q) : result tensor :=
  match x with
  | Some t => Ok (scale sc t)
  | None => Raise (TypeError "unsupported operand type(s) for *: 'NoneType' and 'float'")
  end.

(** [p.grad = g]: the library refuses a gradient of another size. *)
Definition set_grad (p : param) (g : tensor) : result param :=
  if shape_eqb (shape g) (shape (value p))
  then Ok (mkParam (value p) (Some g))
  else Raise (RuntimeError "assigned grad has data of a different size").

(** Lines 1148-1153 and 1157-1162: set the gradient when none exists,
    add to it in place otherwise. *)
Definition add_grad (p : param) (g : option tensor) (sc : Q) : result param :=
  match grad p with
  | None => (g <- times g sc ;; set_grad p g)%py
  | Some old => (g <- times g sc ;; r <- iadd old g ;; Ok (mkParam (value p) (Some r)))%py
  end.

(** The nested function [gradAdd_single_layer]; [has_bias_grad] is
    [hasattr(self, "bias_grad")]. *)
Definition gradAdd_single_layer (has_bias_grad : bool) (sc : Q)
    (layer : entry layer) (state_v_bs : entry (option param))
    (bias_grad weight_grad : option tensor)
  : result (entry Snn.layer * entry (option param)) :=
  if negb (is_conv2d_or_linear layer) then Ok (layer, state_v_bs)
  else
    match layer with
    | One ly =>
        (w <- layer_weight ly ;;
         w <- add_grad w weight_grad sc ;;
         b <- (if has_bias_grad then
                 match state_v_bs with
                 | One (Some p) => (p <- add_grad p bias_grad sc ;; Ok (One (Some p)))
                 | _ => Raise (AttributeError "grad")
                 end
               else Ok state_v_bs) ;;
         Ok (One (with_weight w ly), b))%py
    | Many _ => Ok (layer, state_v_bs)
    end.

(** [xs[l]] of a list attribute that may not be set. *)
Definition grad_item (name : string) (xs : option (list (option tensor))) (l : nat)
  : result (option tensor) :=
  (xs <- attr name xs ;; item xs l)%py.

(** [x[m]] of a tensor or [None]. *)
Definition sub_item (x : option tensor) (m : nat) : result (option tensor) :=
  match x with
  | Some t => (r <- select 0 m t ;; Ok (Some r))%py
  | None => Raise (TypeError "'NoneType' object is not subscriptable")
  end.

Definition has_attr {A : Type} (x : option A) : bool :=
  match x with Some _ => true | None => false end.

(** The body of [for m, layer in enumerate(layers)] (lines 1180-1186):
    the arguments are evaluated, then the nested function is called. *)
Definition grad_model (g : grads) (sc : Q) (l : nat) (a : arch) (m_layer : nat * layer)
  : result arch :=
  let (m, layer) := m_layer in
  (bs <- item (state_v_bs a) l ;;
   b <- subscript bs m ;;
   bg <- grad_item "bias_grad" (bias_grad g) l ;;
   bg <- sub_item bg m ;;
   wg <- grad_item "weight_grad" (weight_grad g) l ;;
   wg <- sub_item wg m ;;
   r <- gradAdd_single_layer (has_attr (bias_grad g)) sc (One layer) (One b) bg wg ;;
   cur <- item (layers a) l ;;
   let cur := match cur, fst r with
              | Many lys, One ly => Many (replace_at m ly lys)
              | _, _ => cur
              end in
   let bs := match bs, snd r with
             | Many bl, One b => Many (replace_at m b bl)
             | _, _ => bs
             end in
   Ok (set_state_v_bs (replace_at l bs (state_v_bs a))
         (set_layers (replace_at l cur (layers a)) a)))%py.

(** The body of [for l, layers in enumerate(self.layers)] (lines 1178-1193). *)
Definition grad_layer (c : config) (g : grads) (sc : Q) (a : arch)
    (l_layers : nat * entry layer) : result arch :=
  let (l, layers_) := l_layers in
  if multi_model c then
    match layers_ with
    | Many lys => for_each (enumerate lys) (grad_model g sc l) a
    | One _ => Raise (TypeError "object is not iterable")
    end
  else
    (bs <- item (state_v_bs a) l ;;
     bg <- grad_item "bias_grad" (bias_grad g) l ;;
     wg <- grad_item "weight_grad" (weight_grad g) l ;;
     r <- gradAdd_single_layer (has_attr (bias_grad g)) sc layers_ bs bg wg ;;
     Ok (set_state_v_bs (replace_at l (snd r) (state_v_bs a))
           (set_layers (replace_at l (fst r) (layers a)) a)))%py.

(** Lines 1177-1193: the update of every layer's gradients. *)
Definition gradAdd_layers (self : net) (g : grads) (sc : Q) : result net :=
  (a <- for_each (enumerate (layers (net_arch self))) (grad_layer (cfg self) g sc)
         (net_arch self) ;;
   Ok (set_net_arch a self))%py.

(** What [gradAdd] receives as [output_grad_extrn]: a gradient, or the
    pair [(dLdT, dLdS)]. *)
Inductive extern : Type :=
| Single (d : tensor)
| Pair (dT dS : tensor).

(** ** [backward_custom] (lines 1027-1135) *)

(** [raise Exception(..)] besides the built-in classes. *)
Inductive raised : Type :=
| Builtin (e : exn)
| Exception (msg : string).

Inductive outcome (A : Type) : Type :=
| Returned (a : A)
| Raised (r : raised).

Arguments Returned {A} a.
Arguments Raised {A} r.

Definition run {A : Type} (r : result A) : outcome A :=
  match r with
  | Ok a => Returned a
  | Raise e => Raised (Builtin e)
  end.

Definition obind {A B : Type} (o : outcome A) (k : A -> outcome B) : outcome B :=
  match o with
  | Returned a => k a
  | Raised r => Raised r
  end.

Definition returns {A : Type} (o : outcome A) : bool :=
  match o with Returned _ => true | Raised _ => false end.

Declare Scope out_scope.
Delimit Scope out_scope with out.
Notation "x <- c ;; k" := (obind c (fun x => k))
  (at level 100, c at next level, right associativity) : out_scope.
Notation "' pat <- c ;; k" := (obind c (fun x => match x with pat => k end))
  (at level 100, pat pattern, c at next level, right associativity) : out_scope.

(** Decimal digits of a number, for the messages. *)
Fixpoint show_digits (fuel n : nat) (acc : string) : string :=
  match fuel with
  | O => acc
  | S fuel' =>
      let acc' := String (ascii_of_nat (48 + n mod 10)) acc in
      if n / 10 =? 0 then acc' else show_digits fuel' (n / 10) acc'
  end.

Definition show_nat (n : nat) : string := show_digits (S n) n "".

(** [str(torch.Size(..))] *)
Definition show_size (s : list nat) : string :=
  "torch.Size([" ++ String.concat ", " (map show_nat s) ++ "])".

(** Lines 1042-1050: the model and batch dimensions of the target of a
    multi-model are merged. *)
Definition merge_target (c : config) (target : tensor) : result tensor :=
  if multi_model c then
    if String.eqb (target_type c) "latency" then
      if negb (rank target =? 2) then Raise AssertionError
      else (s0 <- item (shape target) 0 ;; s1 <- item (shape target) 1 ;;
            reshape [Z.of_nat (s0 * s1)] target)%py
    else
      if negb (rank target =? 4) then Raise AssertionError
      else (s0 <- item (shape target) 0 ;; s1 <- item (shape target) 1 ;;
            reshape (Z.of_nat (s0 * s1) :: map Z.of_nat (skipn 2 (shape target))) target)%py
  else Ok target.

Section BackwardCustom.

Variable latency_loss : net -> tensor -> result net.
Variable latency_dLdT : net -> grads -> result grads.

(** The three back-propagation routines ([bpAct], [bpTiming_recurrent],
    [bpANTLR], lines 1207-1470) are sums over the traces evaluated by the
    numeric library, with the surrogate derivative an exponential; they
    are parameters here. *)
Variable bpAct : extern -> string -> net * grads -> result (net * grads).
Variable bpTiming_recurrent : extern -> net * grads -> result (net * grads).
Variable bpANTLR : extern -> net * grads -> result (net * grads).

(** [gradAdd(output_grad_extrn, lrule)] with the default [scale=1.0]. *)
Definition gradAdd (st : net * grads) (output_grad_extrn : extern) (rule : string)
  : result (net * grads) :=
  (st <- (if String.eqb rule "Activation" then bpAct output_grad_extrn "SRM" st
          else if String.eqb rule "Timing" then bpTiming_recurrent output_grad_extrn st
          else if String.eqb rule "ANTLR" then bpANTLR output_grad_extrn st
          else Ok st) ;;
   self <- gradAdd_layers (fst st) (snd st) 1 ;;
   Ok (self, snd st))%py.

(** Lines 1059-1082: the loss and its gradients with respect to spikes
    and timings. *)
Definition loss_gradients (self : net) (g : grads) (target : tensor) : outcome (net * grads) :=
  let c := cfg self in
  if in_list (target_type c) ["train"; "count"] then
    (out <- run (attr "output" (output (tr self))) ;;
     if negb (shape_eqb (shape out) (shape target))
     then Raised (Exception ("output/target shape mismatch: " ++ show_size (shape out)
                             ++ " vs " ++ show_size (shape target)))
     else
       (self <- run (calc_loss latency_loss self target) ;;
        g <- run (calc_and_set_dLdS self g) ;;
        g <- run (calc_and_set_dLdT latency_dLdT self g) ;;
        Returned (self, g)))%out
  else if String.eqb (target_type c) "latency" then
    (out <- run (attr "output" (output (tr self))) ;;
     o0 <- run (item (shape out) 0) ;;
     t0 <- run (item (shape target) 0) ;;
     if negb (o0 =? t0)
     then Raised (Exception ("output/target shape mismatch: " ++ show_nat o0
                             ++ " vs " ++ show_nat t0))
     else
       (self <- run (calc_loss latency_loss self target) ;;
        g <- run (calc_and_set_dLdS self g) ;;
        g <- run (calc_and_set_dLdT latency_dLdT self g) ;;
        Returned (self, g)))%out
  else Returned (self, g).

(** Lines 1090-1099: the learning rule selects the gradient handed to
    [gradAdd]. *)
Definition add_gradients (st : net * grads) : result (net * grads) :=
  let g := snd st in
  if String.eqb (lrule g) "Activation" then
    (d <- attr "dLdS" (dLdS g) ;; gradAdd st (Single d) (lrule g))%py
  else if String.eqb (lrule g) "Timing" then
    (d <- attr "dLdT" (dLdT g) ;; gradAdd st (Single d) "Timing")%py
  else if String.eqb (lrule g) "ANTLR" then
    (dT <- attr "dLdT" (dLdT g) ;; dS <- attr "dLdS" (dLdS g) ;;
     gradAdd st (Pair dT dS) "ANTLR")%py
  else Raise (ValueError ("invalid learning rule: '" ++ lrule g ++ "'")).

Definition backward_custom (self : net) (g : grads) (target : tensor)
  : outcome (net * grads) :=
  (target <- run (merge_target (cfg self) target) ;;
   bs <- run (item (shape target) 0) ;;
   let self := set_ls (set_batch_size (Some bs) (ls self)) self in
   inp <- run (attr "input" (input (tr self))) ;;
   n0 <- run (item (shape inp) 0) ;;
   if negb (n0 =? bs) then Raised (Builtin AssertionError)
   else
     (g <- run (_init_param_grads self g) ;;
      g <- run (_init_backward self g) ;;
      st <- loss_gradients self g target ;;
      st <- run (add_gradients st) ;;
      self <- run (clip_gradients (fst st)) ;;
      Returned (self, snd st)))%out.

End BackwardCustom.

End Backward.

(* ===================================================================== *)
(** * The backward pass: what its steps guarantee *)
(* ===================================================================== *)

Module BackwardProps.

Import Torch Snn TorchFacts LossFacts LoopFacts Backward.

Open Scope string_scope.
Open Scope list_scope.
Open Scope nat_scope.

(** ** The zero gradients of [_init_param_grads] *)

(** What the loop appends for a layer of type [ty]: zero tensors of the
    shape of the weight and of the feature map (with the number of models
    in front for a multi-model) for a conv or fc layer, [None] otherwise. *)
Definition param_cells (self : net) (l : nat) (layers_ : entry layer) (ty : string)
    (wcell bcell : option tensor) : Prop :=
  if in_list ty ["fc"; "conv"] then
    exists layer ws fs,
      pick_layer self layers_ = Ok layer /\ weight_size layer = Ok ws /\
      nth_error (fmap_shape_list (net_arch self)) l = Some fs /\
      wcell = Some (zeros (map Z.to_nat
                 (if multi_model (cfg self) then num_models (cfg self) :: ws else ws))) /\
      bcell = Some (zeros (map Z.to_nat
                 (if multi_model (cfg self) then num_models (cfg self) :: fs else fs)))
  else wcell = None /\ bcell = None.

Lemma zeros_z_ok (dims : list Z) (z : tensor) :
  zeros_z dims = Ok z -> z = zeros (map Z.to_nat dims).
Proof.
  unfold zeros_z. destruct (existsb _ dims); [discriminate|]. intro H. now injection H.
Qed.

Lemma nth_error_snoc_lt {A : Type} (xs : list A) (x : A) (l : nat) :
  l < List.length xs -> nth_error (xs ++ [x]) l = nth_error xs l.
Proof. intro H. now apply nth_error_app1. Qed.

Lemma nth_error_snoc_eq {A : Type} (xs : list A) (x : A) :
  nth_error (xs ++ [x]) (List.length xs) = Some x.
Proof. rewrite nth_error_app2 by lia. now rewrite Nat.sub_diag. Qed.

Lemma init_param_grads_layer_ok (self : net) (wg bg wg' bg' : list (option tensor))
    (l : nat) (e : entry layer) :
  init_param_grads_layer self (wg, bg) (l, e) = Ok (wg', bg') ->
  exists ty wc bc,
    nth_error (fmap_type_list (net_arch self)) l = Some ty /\
    wg' = wg ++ [wc] /\ bg' = bg ++ [bc] /\ param_cells self l e ty wc bc.
Proof.
  intro H. unfold init_param_grads_layer in H.
  apply py_bind_ok in H. destruct H as (layer & Hl & H).
  apply py_bind_ok in H. destruct H as (ty & Hty & H).
  unfold item in Hty. destruct (nth_error (fmap_type_list (net_arch self)) l) as [ty'|] eqn:Ety;
    [|discriminate]. injection Hty as ->.
  unfold param_cells.
  destruct (in_list ty ["fc"; "conv"]) eqn:Ein.
  - apply py_bind_ok in H. destruct H as (ws & Hws & H).
    apply py_bind_ok in H. destruct H as (fs & Hfs & H).
    apply py_bind_ok in H. destruct H as (zw & Hzw & H).
    apply py_bind_ok in H. destruct H as (zb & Hzb & H).
    injection H as <- <-.
    apply zeros_z_ok in Hzw. apply zeros_z_ok in Hzb.
    unfold item in Hfs.
    destruct (nth_error (fmap_shape_list (net_arch self)) l) as [fs'|] eqn:Efs; [|discriminate].
    injection Hfs as ->.
    exists ty, (Some zw), (Some zb). rewrite Ein.
    split; [reflexivity|]. split; [reflexivity|]. split; [reflexivity|].
    exists layer, ws, fs. subst zw zb. auto.
  - injection H as <- <-. exists ty, None, None. rewrite Ein. auto.
Qed.

(** X19. When [_init_param_grads] returns, [weight_grad] and
    [bias_grad] hold one entry per layer: for a layer of type fc or conv,
    tensors of zeros of the shape of the layer's weight and of its feature
    map (behind the number of models, for a multi-model), [None] for
    every other layer. Nothing else is written. *)
Theorem init_param_grads_zeroes (self : net) (g g' : grads) :
  _init_param_grads self g = Ok g' ->
  exists wg bg,
    g' = set_param_grads wg bg g /\
    List.length wg = List.length (layers (net_arch self)) /\
    List.length bg = List.length (layers (net_arch self)) /\
    forall l e, nth_error (layers (net_arch self)) l = Some e ->
      exists ty wc bc,
        nth_error (fmap_type_list (net_arch self)) l = Some ty /\
        nth_error wg l = Some wc /\ nth_error bg l = Some bc /\
        param_cells self l e ty wc bc.
Proof.
  intro H. unfold _init_param_grads in H.
  apply py_bind_ok in H. destruct H as ([wg bg] & Hloop & H). injection H as <-.
  exists wg, bg. split; [reflexivity|].
  pose (P := fun (k : nat) (st : list (option tensor) * list (option tensor)) =>
    List.length (fst st) = k /\ List.length (snd st) = k /\
    forall l e, l < k -> nth_error (layers (net_arch self)) l = Some e ->
      exists ty wc bc,
        nth_error (fmap_type_list (net_arch self)) l = Some ty /\
        nth_error (fst st) l = Some wc /\ nth_error (snd st) l = Some bc /\
        param_cells self l e ty wc bc).
  assert (Hinv : P (List.length (layers (net_arch self))) (wg, bg)).
  { revert Hloop.
    apply (@for_each_enumerate_inv _ _ (init_param_grads_layer self) P); unfold P.
    - simpl. split; [reflexivity|]. split; [reflexivity|]. intros l e Hl. lia.
    - intros k x [wg1 bg1] [wg2 bg2] Hx (L1 & L2 & Hc) Hstep. simpl in *.
      apply init_param_grads_layer_ok in Hstep.
      destruct Hstep as (ty & wc & bc & Hty & -> & -> & Hcell).
      rewrite !length_app. simpl.
      split; [lia|]. split; [lia|].
      intros l e Hl He. destruct (Nat.eq_dec l k) as [->|Hne].
      + assert (e = x) by congruence. subst e.
        exists ty, wc, bc. split; [assumption|].
        split; [rewrite <- L1; apply nth_error_snoc_eq|].
        split; [rewrite <- L2; apply nth_error_snoc_eq|]. assumption.
      + destruct (Hc l e ltac:(lia) He) as (ty' & wc' & bc' & A & B & C & D).
        exists ty', wc', bc'. rewrite !nth_error_snoc_lt by lia. auto. }
  destruct Hinv as (L1 & L2 & Hc). simpl in *.
  split; [assumption|]. split; [assumption|].
  intros l e He. apply Hc; [|assumption]. apply nth_error_Some. congruence.
Qed.

Definition blank_grads (rule : string) : grads :=
  mkGrads rule None None (fresh_state_grads rule) None None None.

(** On the two replicas of one fc layer with one input and one output. *)
Lemma init_param_grads_zeroes_witness :
  exists wg bg,
    set_param_grads [Some (zeros [2; 1; 1])] [Some (zeros [2; 1])] (blank_grads "ANTLR")
    = set_param_grads wg bg (blank_grads "ANTLR") /\
    List.length wg = List.length (layers (net_arch (ForwardFacts.two_models "count"))) /\
    List.length bg = List.length (layers (net_arch (ForwardFacts.two_models "count"))) /\
    forall l e, nth_error (layers (net_arch (ForwardFacts.two_models "count"))) l = Some e ->
      exists ty wc bc,
        nth_error (fmap_type_list (net_arch (ForwardFacts.two_models "count"))) l = Some ty /\
        nth_error wg l = Some wc /\ nth_error bg l = Some bc /\
        param_cells (ForwardFacts.two_models "count") l e ty wc bc.
Proof.
  apply (@init_param_grads_zeroes (ForwardFacts.two_models "count") (blank_grads "ANTLR")).
  vm_compute. reflexivity.
Defined.

(** ** The traces of [_init_backward] *)

Lemma for_each_seq_inv {St : Type} (body : St -> nat -> result St) (P : nat -> St -> Prop)
    (n k0 : nat) (s s' : St) :
  P k0 s ->
  (forall k s1 s2, k0 <= k < k0 + n -> P k s1 -> body s1 k = Ok s2 -> P (S k) s2) ->
  for_each (seq k0 n) body s = Ok s' -> P (k0 + n) s'.
Proof.
  revert k0 s. induction n as [|n IH]; intros k0 s H0 Hstep H.
  - simpl in H. injection H as <-. now rewrite Nat.add_0_r.
  - simpl in H. destruct (body s k0) as [s1|e] eqn:E; [|discriminate]. simpl in H.
    rewrite <- Nat.add_succ_comm. apply (IH (S k0) s1).
    + apply (Hstep k0 s s1); [lia|assumption|assumption].
    + intros k s2 s3 Hk. apply Hstep. lia.
    + exact H.
Qed.

Definition is_none {A : Type} (x : option A) : bool :=
  match x with Some _ => false | None => true end.

(** A list that may be [None]: its length and entry [l], when present. *)
Definition opt_length {A : Type} (n : nat) (xs : option (list A)) : Prop :=
  match xs with Some l => List.length l = n | None => True end.

Definition opt_nth {A : Type} (xs : option (list A)) (l : nat) (x : A) : Prop :=
  match xs with Some ys => nth_error ys l = Some x | None => True end.

(** The tensor of zeros of layer [l]: time x batch x feature map. *)
Definition layer_zeros (self : net) (l : nat) (z : tensor) : Prop :=
  exists term bs fs,
    term_length (tr self) = Some term /\ batch_size (ls self) = Some bs /\
    nth_error (fmap_shape_list (net_arch self)) l = Some fs /\
    z = zeros (term :: bs :: map Z.to_nat fs).

Definition grad_cell (ty : string) (z : tensor) : option tensor :=
  if in_list ty ["conv"; "fc"] then Some z else None.

Lemma is_none_push {A : Type} (x : A) (xs : option (list A)) :
  is_none (push x xs) = is_none xs.
Proof. destruct xs; reflexivity. Qed.

Lemma opt_length_push {A : Type} (x : A) (xs : option (list A)) (k : nat) :
  opt_length k xs -> opt_length (S k) (push x xs).
Proof. destruct xs as [l|]; simpl; [|auto]. intro H. rewrite length_app. simpl. lia. Qed.

Lemma opt_nth_push_old {A : Type} (x y : A) (xs : option (list A)) (k l : nat) :
  opt_length k xs -> l < k -> opt_nth xs l y -> opt_nth (push x xs) l y.
Proof.
  destruct xs as [ys|]; simpl; [|auto]. intros H Hl Hn. rewrite nth_error_app1 by lia. exact Hn.
Qed.

Lemma opt_nth_push_new {A : Type} (x : A) (xs : option (list A)) (k : nat) :
  opt_length k xs -> opt_nth (push x xs) k x.
Proof.
  destruct xs as [ys|]; simpl; [|auto]. intros <-. apply nth_error_snoc_eq.
Qed.

(** Entry [l] of every list that is present. *)
Definition trace_entry (self : net) (s : state_grads) (l : nat) : Prop :=
  exists ty z,
    nth_error (fmap_type_list (net_arch self)) l = Some ty /\ layer_zeros self l z /\
    nth_error (state_i_grad s) l = Some (grad_cell ty z) /\
    nth_error (state_v_grad s) l = Some (grad_cell ty z) /\
    opt_nth (state_s_grad s) l z /\
    opt_nth (state_v_dep_grad s) l (grad_cell ty z) /\
    opt_nth (state_t_grad s) l z /\
    opt_nth (state_v_grad_epr_ef1 s) l (grad_cell ty z) /\
    opt_nth (state_v_grad_epr_ef2 s) l (grad_cell ty z).

Definition lists_of_length (k : nat) (s : state_grads) : Prop :=
  List.length (state_i_grad s) = k /\ List.length (state_v_grad s) = k /\
  opt_length k (state_s_grad s) /\ opt_length k (state_v_dep_grad s) /\
  opt_length k (state_t_grad s) /\
  opt_length k (state_v_grad_epr_ef1 s) /\ opt_length k (state_v_grad_epr_ef2 s).

Lemma init_backward_layer_ok (self : net) (s s' : state_grads) (l : nat) :
  init_backward_layer self s l = Ok s' ->
  exists ty z,
    nth_error (fmap_type_list (net_arch self)) l = Some ty /\ layer_zeros self l z /\
    s' = mkStateGrads (state_i_grad s ++ [grad_cell ty z]) (state_v_grad s ++ [grad_cell ty z])
           (push z (state_s_grad s)) (push (grad_cell ty z) (state_v_dep_grad s))
           (push z (state_t_grad s))
           (push (grad_cell ty z) (state_v_grad_epr_ef1 s))
           (push (grad_cell ty z) (state_v_grad_epr_ef2 s)).
Proof.
  intro H. unfold init_backward_layer in H.
  apply py_bind_ok in H. destruct H as (term & Hterm & H).
  apply py_bind_ok in H. destruct H as (bs & Hbs & H).
  apply py_bind_ok in H. destruct H as (fs & Hfs & H).
  apply py_bind_ok in H. destruct H as (z & Hz & H).
  apply py_bind_ok in H. destruct H as (ty & Hty & H).
  injection H as <-.
  unfold attr in Hterm, Hbs. unfold item in Hfs, Hty.
  destruct (term_length (tr self)) as [term'|] eqn:E1; [|discriminate]. injection Hterm as ->.
  destruct (batch_size (ls self)) as [bs'|] eqn:E2; [|discriminate]. injection Hbs as ->.
  destruct (nth_error (fmap_shape_list (net_arch self)) l) as [fs'|] eqn:E3; [|discriminate].
  injection Hfs as ->.
  destruct (nth_error (fmap_type_list (net_arch self)) l) as [ty'|] eqn:E4; [|discriminate].
  injection Hty as ->.
  apply zeros_z_ok in Hz. simpl in Hz. rewrite !Nat2Z.id in Hz.
  exists ty, z. split; [reflexivity|]. split.
  - exists term, bs, fs. auto.
  - reflexivity.
Qed.

(** X20. When [_init_backward] returns, the learning rule decides which
    traces exist: [state_s_grad] is [None] exactly under the rule Timing,
    [state_v_dep_grad] exactly under RNN, and [state_t_grad] and the two
    [state_v_grad_epr_ef] lists exactly outside Timing and ANTLR. Every
    list that exists has [num_layer] entries; entry [l] is a tensor of
    zeros of shape term_length x batch_size x feature map, or [None] in
    the lists of the conv and fc layers when layer [l] is neither. *)
Theorem init_backward_traces (self : net) (g g' : grads) :
  _init_backward self g = Ok g' ->
  g' = set_sg (sg g') g /\
  is_none (state_s_grad (sg g')) = String.eqb (lrule g) "Timing" /\
  is_none (state_v_dep_grad (sg g')) = String.eqb (lrule g) "RNN" /\
  is_none (state_t_grad (sg g')) = negb (in_list (lrule g) ["Timing"; "ANTLR"]) /\
  is_none (state_v_grad_epr_ef1 (sg g')) = negb (in_list (lrule g) ["Timing"; "ANTLR"]) /\
  is_none (state_v_grad_epr_ef2 (sg g')) = negb (in_list (lrule g) ["Timing"; "ANTLR"]) /\
  lists_of_length (Z.to_nat (num_layer (net_arch self))) (sg g') /\
  forall l, l < Z.to_nat (num_layer (net_arch self)) -> trace_entry self (sg g') l.
Proof.
  intro H. unfold _init_backward in H.
  apply py_bind_ok in H. destruct H as (s & Hloop & H). injection H as <-.
  cbn [sg set_sg]. split; [reflexivity|].
  pose (s0 := fresh_state_grads (lrule g)).
  pose (P := fun (k : nat) (st : state_grads) =>
    is_none (state_s_grad st) = is_none (state_s_grad s0) /\
    is_none (state_v_dep_grad st) = is_none (state_v_dep_grad s0) /\
    is_none (state_t_grad st) = is_none (state_t_grad s0) /\
    is_none (state_v_grad_epr_ef1 st) = is_none (state_v_grad_epr_ef1 s0) /\
    is_none (state_v_grad_epr_ef2 st) = is_none (state_v_grad_epr_ef2 s0) /\
    lists_of_length k st /\ forall l, l < k -> trace_entry self st l).
  assert (Hinv : P (0 + Z.to_nat (num_layer (net_arch self))) s).
  { revert Hloop. unfold range.
    apply (@for_each_seq_inv _ (init_backward_layer self) P); unfold P.
    - repeat split; try reflexivity;
        try (unfold s0, fresh_state_grads; simpl;
             repeat match goal with |- context [if ?b then _ else _] => destruct b end;
             simpl; reflexivity).
      intros l Hl. lia.
    - intros k s1 s2 _ (N1 & N2 & N3 & N4 & N5 & (L1 & L2 & L3 & L4 & L5 & L6 & L7) & He) Hstep.
      apply init_backward_layer_ok in Hstep.
      destruct Hstep as (ty & z & Hty & Hz & ->). simpl.
      rewrite !is_none_push.
      split; [assumption|]. split; [assumption|]. split; [assumption|].
      split; [assumption|]. split; [assumption|].
      split.
      { unfold lists_of_length. simpl. rewrite !length_app. simpl.
        split; [lia|]. split; [lia|].
        repeat split; now apply opt_length_push. }
      intros l Hl. destruct (Nat.eq_dec l k) as [->|Hne].
      + exists ty, z. simpl.
        split; [assumption|]. split; [assumption|].
        split; [rewrite <- L1; apply nth_error_snoc_eq|].
        split; [rewrite <- L2; apply nth_error_snoc_eq|].
        repeat split; now apply opt_nth_push_new.
      + destruct (He l ltac:(lia)) as (ty' & z' & A & B & C & D & E1 & E2 & E3 & E4 & E5).
        exists ty', z'. simpl.
        split; [assumption|]. split; [assumption|].
        split; [rewrite nth_error_app1 by lia; assumption|].
        split; [rewrite nth_error_app1 by lia; assumption|].
        repeat split; eapply opt_nth_push_old; try eassumption; lia. }
  simpl in Hinv. destruct Hinv as (N1 & N2 & N3 & N4 & N5 & HL & He).
  unfold s0, fresh_state_grads in N1, N2, N3, N4, N5.
  cbn [state_s_grad state_v_dep_grad state_t_grad state_v_grad_epr_ef1 state_v_grad_epr_ef2]
    in N1, N2, N3, N4, N5.
  split. { rewrite N1. now destruct (String.eqb (lrule g) "Timing"). }
  split. { rewrite N2. now destruct (String.eqb (lrule g) "RNN"). }
  split. { rewrite N3. now destruct (in_list (lrule g) ["Timing"; "ANTLR"]). }
  split. { rewrite N4. now destruct (in_list (lrule g) ["Timing"; "ANTLR"]). }
  split. { rewrite N5. now destruct (in_list (lrule g) ["Timing"; "ANTLR"]). }
  split; assumption.
Qed.

(** The two replicas after the forward pass on the trains 1 0 1 and
    1 1 0, with a batch of two samples. *)
Definition traced_net : net :=
  set_ls (set_batch_size (Some 2) (ls (fst ForwardFacts.count_run))) (fst ForwardFacts.count_run).

Definition traces_example : grads :=
  Eval vm_compute in
    match _init_backward traced_net (blank_grads "ANTLR") with
    | Ok g => g
    | Raise _ => blank_grads "ANTLR"
    end.

Lemma init_backward_traces_witness :
  traces_example = set_sg (sg traces_example) (blank_grads "ANTLR") /\
  is_none (state_s_grad (sg traces_example)) = String.eqb (lrule (blank_grads "ANTLR")) "Timing" /\
  is_none (state_v_dep_grad (sg traces_example)) = String.eqb (lrule (blank_grads "ANTLR")) "RNN" /\
  is_none (state_t_grad (sg traces_example))
  = negb (in_list (lrule (blank_grads "ANTLR")) ["Timing"; "ANTLR"]) /\
  is_none (state_v_grad_epr_ef1 (sg traces_example))
  = negb (in_list (lrule (blank_grads "ANTLR")) ["Timing"; "ANTLR"]) /\
  is_none (state_v_grad_epr_ef2 (sg traces_example))
  = negb (in_list (lrule (blank_grads "ANTLR")) ["Timing"; "ANTLR"]) /\
  lists_of_length (Z.to_nat (num_layer (net_arch traced_net))) (sg traces_example) /\
  forall l, l < Z.to_nat (num_layer (net_arch traced_net)) ->
    trace_entry traced_net (sg traces_example) l.
Proof.
  apply (@init_backward_traces traced_net (blank_grads "ANTLR") traces_example).
  vm_compute. reflexivity.
Defined.

(** ** The gradients of the loss *)

(** The latency branch of [calc_and_set_dLdS] ends in an exception. *)
Lemma latency_spike_gradient_raises (self : net) (g : grads) :
  target_type (cfg self) = "latency" -> is_ok (calc_and_set_dLdS self g) = false.
Proof.
  intro H. unfold calc_and_set_dLdS. rewrite H. cbn [String.eqb Ascii.eqb Bool.eqb].
  destruct (attr "batch_size" (batch_size (ls self))); [|reflexivity]. cbn [Py.bind].
  destruct (last_item _); [|reflexivity]. cbn [Py.bind].
  destruct (zeros_z _); reflexivity.
Qed.

(** X21. Under the latency and spike-train rules [calc_and_set_dLdS]
    never returns: the latency branch reads [target], which is no name of
    the method, and the spike-train branch calls [apply_alpha_kernel]. *)
Theorem spike_gradient_never_returns (self : net) (g : grads) :
  target_type (cfg self) = "latency" \/ target_type (cfg self) = "train" ->
  is_ok (calc_and_set_dLdS self g) = false.
Proof.
  intros [H|H]; [now apply latency_spike_gradient_raises|].
  unfold calc_and_set_dLdS. rewrite H. cbn [String.eqb Ascii.eqb Bool.eqb].
  destruct (attr "diff" (diff (ls self))); [|reflexivity]. cbn [Py.bind].
  rewrite apply_alpha_kernel_raises. reflexivity.
Qed.

Definition latency_net : net :=
  set_ls (set_batch_size (Some 2) (ls (fst ForwardFacts.latency_run))) (fst ForwardFacts.latency_run).

(** After a forward pass under the latency rule the exception is the
    [NameError]. *)
Lemma spike_gradient_never_returns_witness :
  calc_and_set_dLdS latency_net (blank_grads "ANTLR") = Raise (NameError "target") /\
  is_ok (calc_and_set_dLdS latency_net (blank_grads "ANTLR")) = false.
Proof.
  split; [vm_compute; reflexivity|].
  apply spike_gradient_never_returns. left. reflexivity.
Defined.

Definition all_zero (t : tensor) : Prop := Forall (fun x => (x == 0)%Q) (data t).

Lemma get_all_zero (t : tensor) (idx : list nat) : all_zero t -> (get t idx == 0)%Q.
Proof.
  intro H. unfold get.
  destruct (nth_in_or_default (offset (shape t) idx) (data t) 0%Q) as [Hin | ->]; [|reflexivity].
  unfold all_zero in H. rewrite Forall_forall in H. apply H, Hin.
Qed.

Lemma build_all_zero (s : list nat) (f : list nat -> Q) :
  (forall idx, (f idx == 0)%Q) -> all_zero (build s f).
Proof.
  intro H. unfold all_zero, build. simpl. apply Forall_map, Forall_forall. intros idx _. apply H.
Qed.

Lemma zeros_all_zero (s : list nat) : all_zero (zeros s).
Proof. apply build_all_zero. reflexivity. Qed.

Lemma scale_all_zero (q : Q) (t : tensor) : all_zero t -> all_zero (scale q t).
Proof.
  unfold all_zero, scale, map_t. simpl. intro H. apply Forall_map.
  eapply Forall_impl; [|exact H]. simpl. intros x Hx. rewrite Hx. ring.
Qed.

Lemma permute_all_zero (dims : list nat) (t r : tensor) :
  permute dims t = Ok r -> all_zero t -> all_zero r.
Proof.
  unfold permute. destruct (is_permutation dims (rank t)); [|discriminate].
  intros H Hz. injection H as <-. apply build_all_zero. intro idx. now apply get_all_zero.
Qed.

Lemma mul_all_zero (a b r : tensor) : mul a b = Ok r -> all_zero b -> all_zero r.
Proof.
  unfold mul, binop. destruct (broadcast_shapes (shape a) (shape b)); [|discriminate].
  intros H Hz. injection H as <-. apply build_all_zero. intro idx.
  unfold bget at 2. rewrite (get_all_zero _ Hz). ring.
Qed.

Section TimingFacts.

Variable latency_dLdT : net -> grads -> result grads.

(** X22. Under the spike-count rule the gradient with respect to spike
    timings vanishes: when [calc_and_set_dLdT] returns, every entry of
    [dLdT] and of [dLdT_raw] is zero, and nothing else is written. *)
Theorem count_timing_gradient_is_zero (self : net) (g g' : grads) :
  target_type (cfg self) = "count" ->
  calc_and_set_dLdT latency_dLdT self g = Ok g' ->
  exists p raw, g' = set_dLdT (Some p) (Some raw) g /\ all_zero p /\ all_zero raw.
Proof.
  intros Hc H. unfold calc_and_set_dLdT in H. rewrite Hc in H.
  cbn [String.eqb Ascii.eqb Bool.eqb] in H.
  apply py_bind_ok in H. destruct H as (local & Hl & H).
  apply py_bind_ok in Hl. destruct Hl as (out0 & _ & Hl). injection Hl as <-.
  apply py_bind_ok in H. destruct H as (local' & Hm & H).
  assert (Hz : exists r, local' = Some r /\ all_zero r).
  { destruct (multi_model (cfg self)).
    - simpl in Hm. injection Hm as <-. eexists. split; [reflexivity|].
      apply scale_all_zero, zeros_all_zero.
    - injection Hm as <-. eexists. split; [reflexivity|]. apply zeros_all_zero. }
  destruct Hz as (r & -> & Hr).
  apply py_bind_ok in H. destruct H as (out & _ & H).
  cbn [read_local Py.bind] in H.
  apply py_bind_ok in H. destruct H as (d & Hd & H).
  apply py_bind_ok in H. destruct H as (raw & Hraw & H).
  apply py_bind_ok in H. destruct H as (p & Hp & H).
  injection H as <-.
  exists p, raw. split; [reflexivity|]. split.
  - eapply permute_all_zero; [exact Hp|]. eapply mul_all_zero; eassumption.
  - eapply permute_all_zero; eassumption.
Qed.

End TimingFacts.

Definition timing_example : grads :=
  Eval vm_compute in
    match calc_and_set_dLdT (fun _ g => Ok g) traced_net (blank_grads "ANTLR") with
    | Ok g => g
    | Raise _ => blank_grads "ANTLR"
    end.

Lemma count_timing_gradient_is_zero_witness :
  exists p raw,
    timing_example = set_dLdT (Some p) (Some raw) (blank_grads "ANTLR") /\
    all_zero p /\ all_zero raw.
Proof.
  apply (@count_timing_gradient_is_zero (fun _ g => Ok g) traced_net (blank_grads "ANTLR")).
  - reflexivity.
  - vm_compute. reflexivity.
Defined.

(** ** [backward_custom] *)

Lemma returns_obind {A B : Type} (o : outcome A) (k : A -> outcome B) :
  returns o = false -> returns (obind o k) = false.
Proof. destruct o; [discriminate|reflexivity]. Qed.

Lemma returns_run {A : Type} (r : result A) : returns (run r) = is_ok r.
Proof. destruct r; reflexivity. Qed.

Lemma valid_target_cases (x : string) :
  in_list x VALID_TARGETS = true -> x = "count" \/ x = "train" \/ x = "latency".
Proof.
  unfold in_list, VALID_TARGETS. cbn [existsb]. intro H.
  destruct (String.eqb_spec x "count"); [auto|].
  destruct (String.eqb_spec x "train"); [auto|].
  destruct (String.eqb_spec x "latency"); [auto|]. discriminate.
Qed.

Section BackwardFacts.

Variable latency_loss : net -> tensor -> result net.
Variable latency_dLdT : net -> grads -> result grads.
Variable bpAct : extern -> string -> net * grads -> result (net * grads).
Variable bpTiming_recurrent : extern -> net * grads -> result (net * grads).
Variable bpANTLR : extern -> net * grads -> result (net * grads).

(** The latency loss writes its own attributes, not the configuration. *)
Hypothesis latency_loss_keeps_rule :
  forall s t s', latency_loss s t = Ok s' -> target_type (cfg s') = target_type (cfg s).

Lemma loss_gradients_never_return (self : net) (g : grads) (target : tensor) :
  in_list (target_type (cfg self)) VALID_TARGETS = true ->
  returns (loss_gradients latency_loss latency_dLdT self g target) = false.
Proof.
  intro Hv. apply valid_target_cases in Hv. unfold loss_gradients.
  destruct Hv as [Hc|[Ht|Hl]].
  - rewrite Hc. cbn [in_list existsb String.eqb Ascii.eqb Bool.eqb orb].
    destruct (attr "output" (output (tr self))); [|reflexivity]. cbn [run obind].
    destruct (negb _); [reflexivity|].
    apply returns_obind. rewrite returns_run. apply mse_loss_never_returns. now right.
  - rewrite Ht. cbn [in_list existsb String.eqb Ascii.eqb Bool.eqb orb].
    destruct (attr "output" (output (tr self))); [|reflexivity]. cbn [run obind].
    destruct (negb _); [reflexivity|].
    apply returns_obind. rewrite returns_run. apply mse_loss_never_returns. now left.
  - rewrite Hl. cbn [in_list existsb String.eqb Ascii.eqb Bool.eqb orb].
    destruct (attr "output" (output (tr self))); [|reflexivity]. cbn [run obind].
    destruct (item (shape a) 0); [|reflexivity]. cbn [run obind].
    destruct (item (shape target) 0) as [t0|] eqn:Et; [|reflexivity]. cbn [run obind].
    destruct (negb _); [reflexivity|].
    destruct (calc_loss latency_loss self target) as [s'|e] eqn:El; [|reflexivity].
    cbn [run obind].
    apply returns_obind. rewrite returns_run. apply latency_spike_gradient_raises.
    unfold calc_loss in El. rewrite Et in El. cbn [Py.bind] in El.
    cbn [cfg set_ls] in El. rewrite Hl in El.
    cbn [String.eqb Ascii.eqb Bool.eqb] in El.
    apply latency_loss_keeps_rule in El. rewrite El. exact Hl.
Qed.

(** X23. For each of the three target types the constructor accepts,
    [backward_custom] never returns: under the spike-train and
    spike-count rules [calc_loss] raises, and under the latency rule
    [calc_and_set_dLdS] does; no gradient is added or clipped. The
    latency loss is taken to leave [target_type] as it is. *)
Theorem backward_custom_never_returns (self : net) (g : grads) (target : tensor) :
  in_list (target_type (cfg self)) VALID_TARGETS = true ->
  returns (backward_custom latency_loss latency_dLdT bpAct bpTiming_recurrent bpANTLR
             self g target) = false.
Proof.
  intro Hv. unfold backward_custom.
  destruct (merge_target (cfg self) target) as [tg|]; [|reflexivity]. cbn [run obind].
  destruct (item (shape tg) 0) as [bs|]; [|reflexivity]. cbn [run obind].
  destruct (attr "input" _) as [inp|]; [|reflexivity]. cbn [run obind].
  destruct (item (shape inp) 0) as [n0|]; [|reflexivity]. cbn [run obind].
  destruct (negb (n0 =? bs)); [reflexivity|].
  destruct (_init_param_grads _ g) as [g1|]; [|reflexivity]. cbn [run obind].
  destruct (_init_backward _ g1) as [g2|]; [|reflexivity]. cbn [run obind].
  apply returns_obind. apply loss_gradients_never_return. exact Hv.
Qed.

End BackwardFacts.

(** The two replicas after a forward pass, with the kernel length of the
    spike-count rule. *)
Definition backward_net : net :=
  set_kern (mkKernels (Some 0) None None None None) (fst ForwardFacts.count_run).

(** With a target of the shape of the output, the pass ends in the
    [TypeError] of [apply_alpha_kernel]. *)
Lemma backward_custom_never_returns_witness :
  backward_custom (fun s _ => Ok s) (fun _ g => Ok g)
    (fun _ _ st => Ok st) (fun _ st => Ok st) (fun _ st => Ok st)
    backward_net (blank_grads "ANTLR") ForwardFacts.two_trains
  = Raised (Builtin bool_has_no_len) /\
  returns (backward_custom (fun s _ => Ok s) (fun _ g => Ok g)
             (fun _ _ st => Ok st) (fun _ st => Ok st) (fun _ st => Ok st)
             backward_net (blank_grads "ANTLR") ForwardFacts.two_trains) = false.
Proof.
  split; [vm_compute; reflexivity|].
  apply backward_custom_never_returns.
  - intros s t s' H. now injection H as <-.
  - reflexivity.
Defined.

(** ** [gradAdd] *)

Lemma for_each_fails_at {A St : Type} (body : St -> A -> result St) (xs : list A)
    (k : nat) (x : A) (s : St) :
  nth_error xs k = Some x -> (forall s1, is_ok (body s1 x) = false) ->
  is_ok (for_each xs body s) = false.
Proof.
  revert k s. induction xs as [|y xs IH]; intros [|k] s Hx Hfail; try discriminate.
  - injection Hx as ->. simpl. specialize (Hfail s). now destruct (body s x).
  - simpl in *. destruct (body s y) as [s1|e]; [|reflexivity]. simpl. eapply IH; eassumption.
Qed.

Lemma nth_error_combine_seq {A : Type} (xs : list A) (k0 k : nat) (x : A) :
  nth_error xs k = Some x ->
  nth_error (combine (seq k0 (List.length xs)) xs) k = Some (k0 + k, x).
Proof.
  revert k0 k. induction xs as [|y xs IH]; intros k0 [|k] H; try discriminate.
  - injection H as ->. simpl. now rewrite Nat.add_0_r.
  - simpl in *. rewrite (IH (S k0) k H). f_equal. f_equal. lia.
Qed.

Lemma nth_error_enumerate {A : Type} (xs : list A) (k : nat) (x : A) :
  nth_error xs k = Some x -> nth_error (enumerate xs) k = Some (k, x).
Proof. intro H. unfold enumerate. now rewrite (nth_error_combine_seq _ 0 _ H). Qed.

(** X24. In a multi-model [gradAdd] evaluates [self.bias_grad[l][m]]
    for every layer before it calls the nested function. For a layer
    whose entry of [bias_grad] is [None] (as [_init_param_grads] leaves
    it for every layer that is neither fc nor conv) the subscript raises:
    the update of the gradients does not return. *)
Theorem multi_model_gradAdd_stops_at_plain_layer (self : net) (g : grads) (sc : Q)
    (l : nat) (ly : layer) (rest : list layer) (bg : list (option tensor)) :
  multi_model (cfg self) = true ->
  nth_error (layers (net_arch self)) l = Some (Many (ly :: rest)) ->
  bias_grad g = Some bg -> nth_error bg l = Some None ->
  is_ok (gradAdd_layers self g sc) = false.
Proof.
  intros Hm Hl Hbg Hnone. unfold gradAdd_layers.
  assert (H : is_ok (for_each (enumerate (layers (net_arch self)))
                       (grad_layer (cfg self) g sc) (net_arch self)) = false).
  { apply (@for_each_fails_at _ _ _ _ l (l, Many (ly :: rest))).
    - now apply nth_error_enumerate.
    - intro a. unfold grad_layer. rewrite Hm.
      unfold enumerate. cbn [List.length seq combine for_each].
      unfold grad_model.
      destruct (item (state_v_bs a) l); [|reflexivity]. cbn [Py.bind].
      destruct (subscript _ 0); [|reflexivity]. cbn [Py.bind].
      unfold grad_item at 1. rewrite Hbg. cbn [attr Py.bind].
      unfold item at 1. rewrite Hnone. reflexivity. }
  destruct (for_each _ _ _); [discriminate|reflexivity].
Qed.

(** Two replicas of a flattening layer followed by a fc layer, with the
    gradients [_init_param_grads] leaves. *)
Definition flat_net : net :=
  mkNet (mkConfig true 2 ["1"; "flatten"; "fc1"] "count" 3 (1 # 2) (1 # 2) 1 false 1 1 (1 # 2)
           (One 1%Q))
        (mkKernels None None None None None)
        (mkArch 2
           [Many [Flatten; Flatten];
            Many [Linear (ForwardFacts.prm [1; 1] [1%Q]); Linear (ForwardFacts.prm [1; 1] [2%Q])]]
           [Many [None; None];
            Many [Some (ForwardFacts.prm [1] [1 # 4]); Some (ForwardFacts.prm [1] [0%Q])]]
           [[1%Z]; [1%Z]] ["flatten"; "fc"])
        empty_trace
        (mkLoss None None None None).

Definition flat_grads : grads :=
  Eval vm_compute in
    match _init_param_grads flat_net (blank_grads "Activation") with
    | Ok g => g
    | Raise _ => blank_grads "Activation"
    end.

Lemma multi_model_gradAdd_stops_at_plain_layer_witness :
  _init_param_grads flat_net (blank_grads "Activation") = Ok flat_grads /\
  gradAdd_layers flat_net flat_grads 1
  = Raise (TypeError "'NoneType' object is not subscriptable") /\
  is_ok (gradAdd_layers flat_net flat_grads 1) = false.
Proof.
  split; [vm_compute; reflexivity|].
  split; [vm_compute; reflexivity|].
  apply (@multi_model_gradAdd_stops_at_plain_layer flat_net flat_grads 1 0 Flatten [Flatten]
           [None; Some (zeros [2; 1])]); reflexivity.
Defined.

(** The gradient after [p.grad = x] or [p.grad += x]. *)
Definition accumulated (old : option tensor) (x : tensor) (new : option tensor) : Prop :=
  match old with
  | None => new = Some x
  | Some o => exists r, iadd o x = Ok r /\ new = Some r
  end.

Lemma add_grad_ok (p p' : param) (x : option tensor) (sc : Q) :
  add_grad p x sc = Ok p' ->
  exists t, x = Some t /\ value p' = value p /\ accumulated (grad p) (scale sc t) (grad p').
Proof.
  unfold add_grad, accumulated, times, set_grad. intro H.
  destruct x as [t|]; [|destruct (grad p); discriminate].
  exists t. split; [reflexivity|].
  destruct (grad p) as [old|]; cbn [Py.bind] in H.
  - destruct (iadd old (scale sc t)) as [r|] eqn:E; [|discriminate]. injection H as <-.
    split; [reflexivity|]. exists r. auto.
  - destruct (shape_eqb _ _); [|discriminate]. injection H as <-. auto.
Qed.

(** Layer [l] of [a] after the update of a single model started in
    [a0]: the weight and the bias of a conv or fc layer carry the
    accumulated gradients, every other layer is as it was. *)
Definition updated_at (g : grads) (sc : Q) (a0 a : arch) (l : nat) : Prop :=
  forall e, nth_error (layers a0) l = Some e ->
    if is_conv2d_or_linear e then
      exists ly w w' wg p p' bg,
        e = One ly /\ layer_weight ly = Ok w /\
        grad_item "weight_grad" (weight_grad g) l = Ok (Some wg) /\
        grad_item "bias_grad" (bias_grad g) l = Ok (Some bg) /\
        nth_error (state_v_bs a0) l = Some (One (Some p)) /\
        nth_error (layers a) l = Some (One (with_weight w' ly)) /\
        nth_error (state_v_bs a) l = Some (One (Some p')) /\
        value w' = value w /\ accumulated (grad w) (scale sc wg) (grad w') /\
        value p' = value p /\ accumulated (grad p) (scale sc bg) (grad p')
    else nth_error (layers a) l = Some e /\
         nth_error (state_v_bs a) l = nth_error (state_v_bs a0) l.

(** The attributes of the architecture the update does not write. *)
Definition same_shapes (a a' : arch) : Prop :=
  num_layer a' = num_layer a /\ fmap_shape_list a' = fmap_shape_list a /\
  fmap_type_list a' = fmap_type_list a.

Lemma grad_item_has (name : string) (xs : option (list (option tensor))) (l : nat)
    (x : option tensor) :
  grad_item name xs l = Ok x -> has_attr xs = true.
Proof. destruct xs; [reflexivity|discriminate]. Qed.

Lemma grad_layer_single (c : config) (g : grads) (sc : Q) (a0 a1 a2 : arch)
    (k : nat) (e : entry layer) :
  multi_model c = false ->
  nth_error (layers a0) k = Some e ->
  nth_error (layers a1) k = Some e ->
  nth_error (state_v_bs a1) k = nth_error (state_v_bs a0) k ->
  grad_layer c g sc a1 (k, e) = Ok a2 ->
  updated_at g sc a0 a2 k /\
  (forall j, j <> k -> nth_error (layers a2) j = nth_error (layers a1) j /\
                       nth_error (state_v_bs a2) j = nth_error (state_v_bs a1) j) /\
  same_shapes a1 a2.
Proof.
  intros Hm He0 He1 Hb H. unfold grad_layer in H. rewrite Hm in H.
  apply py_bind_ok in H. destruct H as (bs & Hbs & H).
  apply py_bind_ok in H. destruct H as (bg & Hbg & H).
  apply py_bind_ok in H. destruct H as (wg & Hwg & H).
  apply py_bind_ok in H. destruct H as ([e' bs'] & Hcall & H).
  injection H as <-. cbn [fst snd layers state_v_bs set_layers set_state_v_bs].
  unfold item in Hbs. destruct (nth_error (state_v_bs a1) k) as [bs0|] eqn:Ebs; [|discriminate].
  injection Hbs as ->.
  split.
  - intros e0 He. assert (e0 = e) by congruence. subst e0.
    unfold gradAdd_single_layer in Hcall.
    rewrite (@grad_item_has _ _ _ _ Hbg) in Hcall.
    destruct (is_conv2d_or_linear e) eqn:Ec; cbn [negb] in Hcall.
    + destruct e as [ly|]; [|discriminate].
      apply py_bind_ok in Hcall. destruct Hcall as (w & Hw & Hcall).
      apply py_bind_ok in Hcall. destruct Hcall as (w' & Hw' & Hcall).
      apply py_bind_ok in Hcall. destruct Hcall as (b & Hb' & Hcall).
      injection Hcall as <- <-.
      destruct bs as [[p|]|]; try discriminate.
      apply py_bind_ok in Hb'. destruct Hb' as (p' & Hp' & Hb'). injection Hb' as <-.
      apply add_grad_ok in Hw'. destruct Hw' as (tw & -> & Vw & Aw).
      apply add_grad_ok in Hp'. destruct Hp' as (tb & -> & Vp & Ap).
      exists ly, w, w', tw, p, p', tb.
      split; [reflexivity|]. split; [assumption|]. split; [assumption|].
      split; [assumption|]. split; [congruence|].
      split; [eapply GradFacts.nth_error_replace_at_same, nth_error_Some; congruence|].
      split; [eapply GradFacts.nth_error_replace_at_same, nth_error_Some; congruence|].
      auto.
    + injection Hcall as <- <-.
      split; [eapply GradFacts.nth_error_replace_at_same, nth_error_Some; congruence|].
      rewrite <- Hb.
      eapply GradFacts.nth_error_replace_at_same, nth_error_Some; congruence.
  - split; [|repeat split].
    intros j Hj. rewrite !GradFacts.nth_error_replace_at_other by congruence. auto.
Qed.

(** X25. On a single model the update of [gradAdd] accumulates: when it
    returns, the weight and the bias of every conv or fc layer keep their
    values and carry [weight_grad[l] * scale] and [bias_grad[l] * scale]
    as gradient where they had none, the sum of the old gradient and that
    product where they had one; every other layer is untouched, and
    so is everything but the modules and the biases. *)
Theorem single_model_gradAdd_accumulates (self self' : net) (g : grads) (sc : Q) :
  multi_model (cfg self) = false ->
  gradAdd_layers self g sc = Ok self' ->
  self' = set_net_arch (net_arch self') self /\
  same_shapes (net_arch self) (net_arch self') /\
  forall l, updated_at g sc (net_arch self) (net_arch self') l.
Proof.
  intros Hm H. unfold gradAdd_layers in H.
  apply py_bind_ok in H. destruct H as (a' & Hloop & H). injection H as <-.
  cbn [net_arch set_net_arch]. split; [reflexivity|].
  set (a0 := net_arch self) in *.
  pose (P := fun (k : nat) (a : arch) =>
    same_shapes a0 a /\
    (forall l, l < k -> updated_at g sc a0 a l) /\
    (forall j, k <= j -> nth_error (layers a) j = nth_error (layers a0) j /\
                         nth_error (state_v_bs a) j = nth_error (state_v_bs a0) j)).
  assert (Hinv : P (List.length (layers a0)) a').
  { revert Hloop.
    apply (@for_each_enumerate_inv _ _ (grad_layer (cfg self) g sc) P); unfold P.
    - split; [repeat split|]. split; [intros l Hl; lia|auto].
    - intros k x a1 a2 Hx (Hsame & Hdone & Hrest) Hstep.
      destruct (Hrest k (Nat.le_refl k)) as [E1 E2].
      assert (Hx1 : nth_error (layers a1) k = Some x) by congruence.
      destruct (@grad_layer_single _ _ _ a0 a1 a2 k x Hm Hx Hx1 E2 Hstep)
        as (Hnew & Hother & (S1 & S2 & S3)).
      split.
      { destruct Hsame as (T1 & T2 & T3). repeat split; congruence. }
      split.
      + intros l Hl. destruct (Nat.eq_dec l k) as [->|Hne]; [exact Hnew|].
        destruct (Hother l Hne) as [F1 F2].
        intros e He. specialize (Hdone l ltac:(lia) e He).
        destruct (is_conv2d_or_linear e).
        * destruct Hdone as (ly & w & w' & wg & p & p' & bg & A1 & A2 & A3 & A4 & A5 & A6 & A7 & A8).
          exists ly, w, w', wg, p, p', bg. rewrite F1, F2. auto 12.
        * rewrite F1, F2. exact Hdone.
      + intros j Hj. destruct (Hother j ltac:(lia)) as [F1 F2].
        rewrite F1, F2. apply Hrest. lia. }
  destruct Hinv as (Hsame & Hdone & Hrest).
  split; [exact Hsame|].
  intros l. destruct (Nat.lt_ge_cases l (List.length (layers a0))) as [Hl|Hl].
  - now apply Hdone.
  - intros e He. apply nth_error_None in Hl. congruence.
Qed.

(** One fc layer whose weight has the gradient 5 and whose bias has
    none, and gradients 2 and 3 to add. *)
Definition grad_net : net :=
  mkNet (mkConfig false 1 ["1"; "fc1"] "count" 2 (1 # 2) (1 # 2) 1 false 1 1 1 (One 1%Q))
        (mkKernels None None None None None)
        (mkArch 1 [One (Linear (mkParam (mkT [1; 1] [1%Q]) (Some (mkT [1; 1] [5%Q]))))]
           [One (Some (mkParam (mkT [1] [0%Q]) None))]
           [[1%Z]] ["fc"])
        empty_trace (mkLoss None None None None).

Definition grad_net_grads : grads :=
  mkGrads "Activation" (Some [Some (mkT [1; 1] [2%Q])]) (Some [Some (mkT [1] [3%Q])])
    (fresh_state_grads "Activation") None None None.

Definition grad_net_result : net :=
  Eval vm_compute in
    match gradAdd_layers grad_net grad_net_grads 1 with
    | Ok s => s
    | Raise _ => grad_net
    end.

Lemma single_model_gradAdd_accumulates_witness :
  (layers (net_arch grad_net_result) =
     [One (Linear (mkParam (mkT [1; 1] [1%Q]) (Some (mkT [1; 1] [7%Q]))))] /\
   state_v_bs (net_arch grad_net_result) =
     [One (Some (mkParam (mkT [1] [0%Q]) (Some (mkT [1] [3%Q]))))]) /\
  grad_net_result = set_net_arch (net_arch grad_net_result) grad_net /\
  same_shapes (net_arch grad_net) (net_arch grad_net_result) /\
  forall l, updated_at grad_net_grads 1 (net_arch grad_net) (net_arch grad_net_result) l.
Proof.
  split; [split; reflexivity|].
  apply (@single_model_gradAdd_accumulates grad_net grad_net_result grad_net_grads 1).
  - reflexivity.
  - vm_compute. reflexivity.
Defined.

(** ** The spike-count gradient over time *)

Lemma indices_in (s idx : list nat) : Forall2 lt idx s -> In idx (indices s).
Proof.
  intro H. induction H as [|i d idx s Hid H IH]; [now left|].
  simpl. apply in_flat_map. exists i. split; [apply in_seq; lia|].
  now apply in_map.
Qed.

Lemma in_indices3 (a b c i j k : nat) :
  i < a -> j < b -> k < c -> In [i; j; k] (indices [a; b; c]).
Proof. intros. apply indices_in. repeat constructor; assumption. Qed.

Lemma map_t_well_formed (f : Q -> Q) (t : tensor) : well_formed t -> well_formed (map_t f t).
Proof. unfold well_formed, map_t, numel. simpl. now rewrite length_map. Qed.

(** Entry [(t, b, j)] of [x.permute(1, 0, 2)] is entry [(b, t, j)] of [x]. *)
Lemma get_permute_102 (x p : tensor) (a b c t i j : nat) :
  shape x = [a; b; c] -> permute [1; 0; 2] x = Ok p ->
  t < b -> i < a -> j < c ->
  shape p = [b; a; c] /\ get p [t; i; j] = get x [i; t; j].
Proof.
  intros Hs H Ht Hi Hj. unfold permute, rank in H. rewrite Hs in H. simpl in H.
  injection H as <-. split; [reflexivity|].
  rewrite get_build by (now apply in_indices3). reflexivity.
Qed.

Lemma reshape_batch (bs : nat) (x v : tensor) :
  reshape [Z.of_nat bs; 1; -1]%Z x = Ok v -> exists m, shape v = [bs; 1; m].
Proof.
  unfold reshape, resolve_shape. cbn [filter].
  destruct (Z.eqb_spec (Z.of_nat bs) (-1)) as [E|_]; [lia|]. cbn [negb Z.eqb filter List.length].
  destruct (negb (forallb _ _)); [discriminate|].
  cbn [Nat.sub].
  destruct (_ && _)%bool; [|discriminate].
  intro H. injection H as <-. cbn [map shape].
  destruct (Z.eqb_spec (Z.of_nat bs) (-1)) as [E|_]; [lia|].
  cbn [Z.eqb]. rewrite Nat2Z.id. eexists. reflexivity.
Qed.

(** Entry [(b, t, j)] of [v.repeat(1, T, 1)] for [v] of shape
    [(B, 1, N)] is entry [(b, 0, j)] of [v]. *)
Lemma get_repeat_time (v r : tensor) (B N T b t j : nat) :
  shape v = [B; 1; N] -> repeat [1; T; 1] v = Ok r ->
  b < B -> t < T -> j < N ->
  shape r = [B; T; N] /\ get r [b; t; j] = get (mkT [B; 1; N] (data v)) [b; 0; j].
Proof.
  intros Hs H Hb Ht Hj. unfold repeat, rank in H. rewrite Hs in H. simpl in H.
  injection H as <-.
  replace (B * 1) with B by lia. replace (T + 0) with T by lia. replace (N * 1) with N by lia.
  split; [reflexivity|].
  rewrite get_build by (now apply in_indices3). cbn [combine map fst snd].
  rewrite (Nat.mod_small b B) by assumption.
  rewrite (Nat.mod_small j N) by assumption.
  rewrite Nat.mod_1_r. reflexivity.
Qed.

(** X26. Under the spike-count rule the gradient with respect to
    spikes does not depend on the step: when [calc_and_set_dLdS] returns,
    [dLdS] has [time_length] steps, and every step holds the same value
    for a given sample and neuron. *)
Theorem count_spike_gradient_is_constant (self : net) (g g' : grads) :
  target_type (cfg self) = "count" ->
  calc_and_set_dLdS self g = Ok g' ->
  exists p B N,
    g' = set_dLdS (Some p) g /\ shape p = [time_length (cfg self); B; N] /\
    forall t t' b j, t < time_length (cfg self) -> t' < time_length (cfg self) ->
      b < B -> j < N -> get p [t; b; j] = get p [t'; b; j].
Proof.
  intros Hc H. unfold calc_and_set_dLdS in H. rewrite Hc in H.
  cbn [String.eqb Ascii.eqb Bool.eqb] in H.
  apply py_bind_ok in H. destruct H as (local & Hl & H).
  apply py_bind_ok in Hl. destruct Hl as (d & _ & Hl).
  apply py_bind_ok in Hl. destruct Hl as (last & _ & Hl).
  apply py_bind_ok in Hl. destruct Hl as (bs & _ & Hl).
  apply py_bind_ok in Hl. destruct Hl as (v & Hv & Hl).
  apply py_bind_ok in Hl. destruct Hl as (r & Hr & Hl).
  injection Hl as <-. cbn [read_local Py.bind] in H.
  apply py_bind_ok in H. destruct H as (bs' & _ & H).
  apply py_bind_ok in H. destruct H as (q & _ & H).
  apply py_bind_ok in H. destruct H as (p & Hp & H).
  injection H as <-.
  destruct (reshape_batch _ _ Hv) as (N & Hsv).
  set (T := time_length (cfg self)) in *.
  set (x := if multi_model (cfg self)
            then scale (inject_Z (num_models (cfg self))) (scale q r) else scale q r) in *.
  assert (Hrs : shape r = [bs; T; N]).
  { unfold repeat, rank in Hr. rewrite Hsv in Hr. simpl in Hr. injection Hr as <-.
    simpl. f_equal; [lia|]. f_equal; [lia|]. f_equal. lia. }
  assert (Hwf : well_formed r).
  { unfold repeat in Hr. destruct (_ <? _); [discriminate|]. injection Hr as <-.
    apply build_well_formed. }
  assert (Hxs : shape x = [bs; T; N]).
  { unfold x. destruct (multi_model (cfg self)); exact Hrs. }
  assert (Hx : forall b t j, b < bs -> t < T -> j < N ->
            exists f, forall t0, t0 < T -> get x [b; t0; j] = f (get r [b; t0; j])).
  { intros b t j Hb Ht Hj. unfold x. destruct (multi_model (cfg self)).
    - exists (fun y => (y * q * inject_Z (num_models (cfg self)))%Q).
      intros t0 Ht0. unfold scale.
      rewrite ForwardFacts.get_map_t;
        [|now apply map_t_well_formed|cbn [map_t shape]; rewrite Hrs; now apply in_indices3].
      rewrite ForwardFacts.get_map_t; [|assumption|rewrite Hrs; now apply in_indices3].
      reflexivity.
    - exists (fun y => (y * q)%Q). intros t0 Ht0. unfold scale.
      rewrite ForwardFacts.get_map_t; [|assumption|rewrite Hrs; now apply in_indices3].
      reflexivity. }
  exists p, bs, N. split; [reflexivity|].
  split.
  { unfold permute, rank in Hp. rewrite Hxs in Hp. simpl in Hp. injection Hp as <-. reflexivity. }
  intros t t' b j Ht Ht' Hb Hj.
  destruct (@get_permute_102 x p bs T N t b j Hxs Hp Ht Hb Hj) as [_ ->].
  destruct (@get_permute_102 x p bs T N t' b j Hxs Hp Ht' Hb Hj) as [_ ->].
  destruct (Hx b t j Hb Ht Hj) as (f & Hf).
  rewrite (Hf t Ht), (Hf t' Ht').
  destruct (@get_repeat_time v r bs N T b t j Hsv Hr Hb Ht Hj) as [_ ->].
  destruct (@get_repeat_time v r bs N T b t' j Hsv Hr Hb Ht' Hj) as [_ ->].
  reflexivity.
Qed.

(** A batch of two after three steps, with a smoothed difference of
    shape 2 x 3 x 1. *)
Definition count_diff_net : net :=
  set_ls (set_diff (Some (mkT [2; 3; 1] [1; 2; 3; 4; 5; 6]%Q)) (ls traced_net)) traced_net.

Definition count_gradient_example : grads :=
  Eval vm_compute in
    match calc_and_set_dLdS count_diff_net (blank_grads "Activation") with
    | Ok g => g
    | Raise _ => blank_grads "Activation"
    end.

Lemma count_spike_gradient_is_constant_witness :
  exists p B N,
    count_gradient_example = set_dLdS (Some p) (blank_grads "Activation") /\
    shape p = [time_length (cfg count_diff_net); B; N] /\
    forall t t' b j, t < time_length (cfg count_diff_net) ->
      t' < time_length (cfg count_diff_net) ->
      b < B -> j < N -> get p [t; b; j] = get p [t'; b; j].
Proof.
  apply (@count_spike_gradient_is_constant count_diff_net (blank_grads "Activation")).
  - reflexivity.
  - vm_compute. reflexivity.
Defined.

End BackwardProps.

(* ===================================================================== *)
(** * The loss, for every network *)
(* ===================================================================== *)

Module LossProps.

Import Torch Snn LossFacts GradFacts.

Open Scope string_scope.
Open Scope list_scope.
Open Scope nat_scope.

(** X28. Under the spike-train and the spike-count rule [calc_loss]
    returns for no network and no target: where the output exists and
    the target can be subtracted from it, the call of
    [apply_alpha_kernel] raises. *)
Theorem calc_loss_never_returns (latency_loss : net -> tensor -> result net)
    (self : net) (target : tensor) :
  target_type (cfg self) = "train" \/ target_type (cfg self) = "count" ->
  is_ok (calc_loss latency_loss self target) = false.
Proof. apply mse_loss_never_returns. Qed.

Lemma calc_loss_never_returns_witness :
  is_ok (calc_loss (fun s _ => Ok s) train_net (mkT [1; 2; 1] [0; 1]%Q)) = false.
Proof.
  apply calc_loss_never_returns. left. reflexivity.
Defined.

End LossProps.

(* ===================================================================== *)
(** * The statistics: the time of the first output spike *)
(* ===================================================================== *)

Module StatsProps.

Import Torch Snn TorchFacts GradFacts ForwardFacts ForwardProps BackwardProps.

Open Scope string_scope.
Open Scope list_scope.
Open Scope nat_scope.

(** ** The maximum along a dimension *)

(** The maximum of [f 0 .. f (n - 1)] bounds every value and is one of
    them. *)
Lemma qmax_seq (f : nat -> Q) (n : nat) :
  0 < n ->
  exists m, qmax_list (map f (seq 0 n)) = Some m /\
            (forall i, i < n -> (f i <= m)%Q) /\ (exists i, i < n /\ m = f i).
Proof.
  intro Hn. destruct n as [|n]; [lia|].
  cbn [seq map qmax_list]. eexists. split; [reflexivity|].
  destruct (fold_max_spec (map f (seq 1 n)) (f 0)) as (H1 & H2 & H3).
  split.
  - intros [|i] Hi; [exact H1|]. apply H2. apply in_map. apply in_seq. lia.
  - destruct H3 as [H3|H3].
    + exists 0. split; [lia|exact H3].
    + apply in_map_iff in H3. destruct H3 as (i & Hi & Hin). apply in_seq in Hin.
      exists i. split; [lia|]. now symmetry.
Qed.

(** [x.max(dim=1).values] of a tensor of shape [(a, b, c)]. *)
Lemma max_dim_mid (x m : tensor) (a b c : nat) :
  shape x = [a; b; c] -> max_dim 1 x = Ok m ->
  0 < b /\ shape m = [a; c] /\ well_formed m /\
  forall i k, i < a -> k < c ->
    (forall j, j < b -> (get x [i; j; k] <= get m [i; k])%Q) /\
    (exists j, j < b /\ get m [i; k] = get x [i; j; k]).
Proof.
  intros Hs H. unfold max_dim, rank in H. rewrite Hs in H. cbn [List.length nth] in H.
  destruct (Nat.ltb_spec 0 b) as [Hb|Hb]; [|discriminate]. cbn [Nat.ltb Nat.leb andb] in H.
  injection H as <-. cbn [remove_at].
  split; [assumption|]. split; [reflexivity|]. split; [apply build_well_formed|].
  intros i k Hi Hk.
  rewrite get_build by (apply indices_in; repeat constructor; assumption).
  cbn [insert_at].
  destruct (qmax_seq (fun j => get x [i; j; k]) Hb) as (mx & -> & Hle & Hex).
  split; assumption.
Qed.

(** [x.max(dim=1).values] of a tensor of shape [(a, b)]. *)
Lemma max_dim_last (x m : tensor) (a b : nat) :
  shape x = [a; b] -> max_dim 1 x = Ok m ->
  0 < b /\ shape m = [a] /\ well_formed m /\
  forall i, i < a ->
    (forall j, j < b -> (get x [i; j] <= get m [i])%Q) /\
    (exists j, j < b /\ get m [i] = get x [i; j]).
Proof.
  intros Hs H. unfold max_dim, rank in H. rewrite Hs in H. cbn [List.length nth] in H.
  destruct (Nat.ltb_spec 0 b) as [Hb|Hb]; [|discriminate]. cbn [Nat.ltb Nat.leb andb] in H.
  injection H as <-. cbn [remove_at].
  split; [assumption|]. split; [reflexivity|]. split; [apply build_well_formed|].
  intros i Hi.
  rewrite get_build by (apply indices_in; repeat constructor; assumption).
  cbn [insert_at].
  destruct (qmax_seq (fun j => get x [i; j]) Hb) as (mx & -> & Hle & Hex).
  split; assumption.
Qed.

(** ** The weighted output *)

(** [torch.arange(term, 0, -1).view(1, -1, 1)] *)
Lemma weights_ok (term : nat) (w : tensor) :
  reshape [1; -1; 1]%Z (arange_down term) = Ok w ->
  shape w = [1; term; 1] /\
  forall t, t < term -> get w [0; t; 0] = inject_Z (Z.of_nat (term - t)).
Proof.
  unfold reshape, resolve_shape, arange_down, numel. cbn.
  change (Pos.to_nat 1) with 1. change (1 * (1 * 1)) with 1.
  rewrite Nat.mul_1_r, Nat.mod_1_r, Nat.div_1_r. cbn. intro H. injection H as <-.
  split; [reflexivity|].
  intros t Ht. unfold get. cbn [shape data].
  assert (Hoff : offset [1; term; 1] [0; t; 0] = t) by (cbn; lia).
  rewrite Hoff.
  rewrite (nth_indep _ 0%Q (inject_Z (Z.of_nat (term - 0))))
    by (now rewrite length_map, length_seq).
  rewrite (map_nth (fun i => inject_Z (Z.of_nat (term - i)))).
  now rewrite seq_nth.
Qed.

Lemma broadcast_time (B T N : nat) :
  broadcast_shapes [1; T; 1] [B; T; N] = Some [B; T; N].
Proof.
  unfold broadcast_shapes. cbn [rev app broadcast_rev].
  destruct (Nat.eqb_spec 1 B) as [<-|_]; destruct (Nat.eqb_spec 1 N) as [<-|_];
    cbn [Nat.eqb]; rewrite !Nat.eqb_refl; reflexivity.
Qed.

(** Entry [(b, t, n)] of the product of the weights with the output. *)
Lemma weighted_output (term B N : nat) (w out d : tensor) :
  shape w = [1; term; 1] -> shape out = [B; term; N] -> mul w out = Ok d ->
  shape d = [B; term; N] /\
  forall b t n, b < B -> t < term -> n < N ->
    get d [b; t; n] = (get w [0%nat; t; 0%nat] * get out [b; t; n])%Q.
Proof.
  intros Hw Ho H. unfold mul, binop in H. rewrite Hw, Ho, broadcast_time in H.
  injection H as <-. split; [reflexivity|].
  intros b t n Hb Ht Hn.
  assert (Hin : Forall2 lt [b; t; n] [B; term; N]) by (repeat constructor; assumption).
  rewrite get_build by now apply indices_in.
  unfold bget. rewrite Ho, (bindex_valid Hin), Hw.
  unfold bindex. cbn [List.length Nat.sub skipn combine map fst snd Nat.eqb].
  destruct (Nat.eqb_spec term 1) as [->|_]; [|reflexivity].
  replace t with 0 by lia. reflexivity.
Qed.

Lemma to_int_integer (x : Q) (k : Z) :
  (x == inject_Z k)%Q -> inject_Z (Z.quot (Qnum x) (Zpos (Qden x))) = inject_Z k.
Proof.
  unfold Qeq, inject_Z. simpl. intro H. rewrite Z.mul_1_r in H. rewrite H.
  now rewrite Z.quot_mul.
Qed.

(** ** [calc_first_stime] *)

(** The pieces of a call that returns. *)
Lemma calc_first_stime_ok (s s' : net) (fs out : tensor) (term : nat) :
  calc_first_stime s = (s', Ok fs) ->
  term_length (tr s) = Some term -> output (tr s) = Some out ->
  exists w d m1 m2,
    reshape [1; -1; 1]%Z (arange_down term) = Ok w /\ mul w out = Ok d /\
    max_dim 1 d = Ok m1 /\ max_dim 1 m1 = Ok m2 /\
    fs = to_int (map_t (fun x => inject_Z (Z.of_nat term) - x)%Q m2).
Proof.
  intros H Ht Ho. unfold calc_first_stime in H.
  apply mbind_ok in H. destruct H as (s0 & self & Hs & H). mprim Hs. injection Hs as <-.
  apply mbind_ok in H. destruct H as (s0 & term' & Hterm & H). mprim Hterm.
  rewrite Ht in Hterm. injection Hterm as <-.
  apply mbind_ok in H. destruct H as (s0 & out' & Hout & H). mprim Hout.
  rewrite Ho in Hout. injection Hout as <-.
  apply mbind_ok in H. destruct H as (s0 & w & Hw & H). mprim Hw.
  apply mbind_ok in H. destruct H as (s0 & d & Hd & H). mprim Hd.
  apply mbind_ok in H. destruct H as (s0 & m1 & Hm1 & H). mprim Hm1.
  apply mbind_ok in H. destruct H as (s0 & m2 & Hm2 & H). mprim Hm2.
  apply mbind_ok in H. destruct H as (s1 & [] & _ & H).
  apply ret_ok in H. destruct H as [_ ->].
  exists w, d, m1, m2. auto.
Qed.

Lemma inject_nat_sub (a b : nat) :
  b <= a -> (inject_Z (Z.of_nat a) - inject_Z (Z.of_nat (a - b)) == inject_Z (Z.of_nat b))%Q.
Proof.
  intro H. rewrite Nat2Z.inj_sub by assumption.
  unfold Qeq, Qminus, Qplus, Qopp, inject_Z. simpl. lia.
Qed.

Lemma inject_nat_le (a b : nat) :
  a <= b -> (inject_Z (Z.of_nat a) <= inject_Z (Z.of_nat b))%Q.
Proof. intro H. rewrite <- Zle_Qle. lia. Qed.

(** X30. [calc_first_stime] returns, for every sample, the step of its
    first output spike: on a binary output of shape batch x term_length x
    neuron, the entry of sample [b] is [k] when no neuron of the sample
    spikes before step [k] and one does at step [k], and it is
    [term_length] when none spikes at all. *)
Theorem first_spike_time (s s' : net) (fs out : tensor) (term B N : nat) :
  calc_first_stime s = (s', Ok fs) ->
  term_length (tr s) = Some term -> output (tr s) = Some out ->
  shape out = [B; term; N] -> binary out ->
  shape fs = [B] /\
  forall b k, b < B -> k <= term ->
    (forall t n, t < k -> n < N -> get out [b; t; n] = 0%Q) ->
    (k < term -> exists n, n < N /\ get out [b; k; n] = 1%Q) ->
    get fs [b] = inject_Z (Z.of_nat k).
Proof.
  intros H Ht Ho Hshape Hbin.
  destruct (@calc_first_stime_ok _ _ _ _ _ H Ht Ho) as (w & d & m1 & m2 & Hw & Hd & Hm1 & Hm2 & ->).
  destruct (@weights_ok _ _ Hw) as [Sw Gw].
  destruct (@weighted_output _ _ _ _ _ _ Sw Hshape Hd) as [Sd Gd].
  destruct (@max_dim_mid _ _ _ _ _ Sd Hm1) as (Hterm & S1 & W1 & G1).
  destruct (@max_dim_last _ _ _ _ S1 Hm2) as (HN & S2 & W2 & G2).
  split; [exact S2|].
  intros b k Hb Hk Hsilent Hspike.
  assert (Hin : In [b] (indices (shape m2))).
  { rewrite S2. apply indices_in. repeat constructor. assumption. }
  unfold to_int.
  rewrite get_map_t; [|now apply map_t_well_formed|exact Hin].
  rewrite get_map_t; [|assumption|exact Hin].
  apply to_int_integer.
  assert (Hval : (get m2 [b] == inject_Z (Z.of_nat (term - k)))%Q).
  { destruct (G2 b Hb) as [Hup2 (n0 & Hn0 & E2)].
    destruct (G1 b n0 Hb Hn0) as [_ (t0 & Ht0 & E1)].
    apply Qle_antisym.
    - rewrite E2, E1, (Gd b t0 n0 Hb Ht0 Hn0), (Gw t0 Ht0).
      destruct (@get_binary out [b; t0; n0] Hbin) as [E|E].
      + rewrite E. rewrite Qmult_0_r. change 0%Q with (inject_Z (Z.of_nat 0)).
        apply inject_nat_le. lia.
      + rewrite E, Qmult_1_r. apply inject_nat_le.
        destruct (Nat.lt_ge_cases t0 k) as [Hlt|Hge]; [|lia].
        rewrite (Hsilent t0 n0 Hlt Hn0) in E. discriminate.
    - destruct (Nat.eq_dec k term) as [->|Hne].
      + rewrite Nat.sub_diag.
        rewrite E2, E1, (Gd b t0 n0 Hb Ht0 Hn0), (Gw t0 Ht0).
        destruct (@get_binary out [b; t0; n0] Hbin) as [E|E]; rewrite E.
        * rewrite Qmult_0_r. apply Qle_refl.
        * rewrite Qmult_1_r. apply inject_nat_le. lia.
      + assert (Hlt : k < term) by lia.
        destruct (Hspike Hlt) as (n1 & Hn1 & E).
        destruct (G2 b Hb) as [Hup _].
        destruct (G1 b n1 Hb Hn1) as [Hup1 _].
        eapply Qle_trans; [|apply (Hup n1 Hn1)].
        eapply Qle_trans; [|apply (Hup1 k Hlt)].
        rewrite (Gd b k n1 Hb Hlt Hn1), (Gw k Hlt), E, Qmult_1_r. apply Qle_refl. }
  rewrite Hval. now apply inject_nat_sub.
Qed.

(** On the output of the two replicas (spikes at steps 0 and 2, and at
    steps 0 and 1) both samples spike first at step 0. *)
Lemma first_spike_time_witness :
  shape (to_int (mkT [2] [0; 0]%Q)) = [2] /\
  forall b k, b < 2 -> k <= 3 ->
    (forall t n, t < k -> n < 1 -> get (out_of count_run) [b; t; n] = 0%Q) ->
    (k < 3 -> exists n, n < 1 /\ get (out_of count_run) [b; k; n] = 1%Q) ->
    get (to_int (mkT [2] [0; 0]%Q)) [b] = inject_Z (Z.of_nat k).
Proof.
  apply (@first_spike_time (fst count_run) (fst (calc_first_stime (fst count_run)))
           _ (out_of count_run) 3 2 1).
  - vm_compute. reflexivity.
  - reflexivity.
  - reflexivity.
  - reflexivity.
  - unfold binary. vm_compute.
    repeat (apply Forall_cons; [first [left; reflexivity | right; reflexivity]|]).
    apply Forall_nil.
Defined.

End StatsProps.
